(** * OpenFileGDB table reader: a shallow embedding of filegdbtable.cpp

    The development follows ogr/ogrsf_frmts/openfilegdb/filegdbtable.cpp:
    the byte-level varuint primitives, the delta decoder used for geometry
    coordinate arrays, the .gdbtablx offset resolution, the row cursor
    (SelectRow / GetFieldValue), the record-count reconciliations done
    at open time and after the recovery scan, the reader of the .gdbtablx
    header, the test the recovery scan applies to a candidate record, the
    part definitions of a geometry and the spatial filter test on encoded
    geometries.

    Conventions.  A [GByte] buffer is a [list byte]; a pointer into a buffer
    is the [Z] offset from its first byte, so [pabyIter >= pabyEnd] is a
    comparison of offsets.  A w-bit unsigned integer is a [Z] reduced modulo
    [2^w]; a w-bit signed integer is a [Z] brought back into
    [-2^(w-1), 2^(w-1)).  Reads outside a buffer (undefined behaviour in the
    source) return the byte 0. *)

From Stdlib Require Import Strings.String.
From Stdlib Require Import ZArith List Bool Lia.
From Stdlib Require Import Strings.Byte.
From Stdlib Require Import Sorting.Sorted.
From Stdlib Require Floats.
Import ListNotations.
Local Open Scope Z_scope.

Set Implicit Arguments.

(** ** Machine integers *)

Module MachInt.

Definition wrap_unsigned (w : Z) (x : Z) : Z := x mod 2 ^ w.

Definition wrap_signed (w : Z) (x : Z) : Z :=
  let u := x mod 2 ^ w in
  if u <? 2 ^ (w - 1) then u else u - 2 ^ w.

Definition to_uint32 := wrap_unsigned 32.
Definition to_uint64 := wrap_unsigned 64.
Definition to_int32 := wrap_signed 32.
Definition to_int64 := wrap_signed 64.

Definition INT_MAX : Z := 2147483647.

End MachInt.
Import MachInt.

(** ** Byte buffers *)

Definition GByte := byte.

Definition Z_of_byte (b : GByte) : Z := Z.of_N (Byte.to_N b).

Definition byte_of_Z (z : Z) : GByte :=
  match Byte.of_N (Z.to_N (z mod 256)) with
  | Some b => b
  | None => x00
  end.

(** [*p] for a pointer [p] into [buf]. *)
Definition byte_at (buf : list GByte) (p : Z) : Z :=
  if p <? 0 then 0 else Z_of_byte (nth (Z.to_nat p) buf x00).

(** [*p = v]: in-place store, nothing happens outside the allocation. *)
Fixpoint store_nat (buf : list GByte) (n : nat) (v : GByte) : list GByte :=
  match buf, n with
  | [], _ => []
  | _ :: tl, O => v :: tl
  | hd :: tl, S n' => hd :: store_nat tl n' v
  end.

Definition store_at (buf : list GByte) (p : Z) (v : GByte) : list GByte :=
  if p <? 0 then buf else store_nat buf (Z.to_nat p) v.

(** ** ReadVarUInt (filegdbtable.cpp, lines 142-251) *)

Record ControlType : Type := {
  check_bounds : bool;
  verbose_error : bool
}.

Definition ControlTypeVerboseErrorTrue : ControlType :=
  {| check_bounds := true; verbose_error := true |}.
Definition ControlTypeVerboseErrorFalse : ControlType :=
  {| check_bounds := true; verbose_error := false |}.
Definition ControlTypeNone : ControlType :=
  {| check_bounds := false; verbose_error := false |}.

(** What one call leaves behind: the returned int, the by-reference cursor
    and output value, the addresses that were dereferenced, in order, and
    whether FileGDBTablePrintError was called (returnError / returnErrorIf). *)
Record VarUIntResult : Type := {
  vr_ret : bool;
  vr_iter : Z;
  vr_out : Z;
  vr_reads : list Z;
  vr_printed : bool
}.

Section ReadVarUInt.

Variable nbits : Z.          (* sizeof(OutType) * 8 *)
Variable ct : ControlType.
Variable buf : list GByte.
Variable pabyEnd : Z.

(** The [while (true)] loop.  [pabyIter] and [nOutVal] are the caller's
    values, only written on the exits that write them in the source. *)
Fixpoint ReadVarUInt_loop (fuel : nat) (pabyIter nOutVal : Z)
    (pabyLocalIter nShift nVal : Z) (reads : list Z) : VarUIntResult :=
  match fuel with
  | O => {| vr_ret := false; vr_iter := pabyIter; vr_out := nOutVal;
            vr_reads := reads; vr_printed := false |}
  | S fuel' =>
      if check_bounds ct && (pabyLocalIter >=? pabyEnd) then
        {| vr_ret := false; vr_iter := pabyIter; vr_out := nOutVal;
           vr_reads := reads; vr_printed := verbose_error ct |}
      else
        let b := wrap_unsigned nbits (byte_at buf pabyLocalIter) in
        let reads := reads ++ [pabyLocalIter] in
        let pabyLocalIter := pabyLocalIter + 1 in
        let nVal :=
          Z.lor nVal (wrap_unsigned nbits (Z.shiftl (Z.land b 127) nShift)) in
        if Z.land b 128 =? 0 then
          {| vr_ret := true; vr_iter := pabyLocalIter; vr_out := nVal;
             vr_reads := reads; vr_printed := false |}
        else
          let nShift := nShift + 7 in
          if nShift >=? nbits then
            {| vr_ret := false; vr_iter := pabyLocalIter; vr_out := nVal;
               vr_reads := reads; vr_printed := true |}
          else
            ReadVarUInt_loop fuel' pabyIter nOutVal pabyLocalIter nShift nVal
                             reads
  end.

(** The loop runs at most once per 7 bits of the output type. *)
Definition ReadVarUInt_fuel : nat := Z.to_nat (nbits / 7 + 1).

Definition ReadVarUInt (pabyIter nOutVal : Z) : VarUIntResult :=
  if check_bounds ct && (pabyIter >=? pabyEnd) then
    {| vr_ret := false; vr_iter := pabyIter; vr_out := nOutVal;
       vr_reads := []; vr_printed := verbose_error ct |}
  else
    let b := wrap_unsigned nbits (byte_at buf pabyIter) in
    if Z.land b 128 =? 0 then
      {| vr_ret := true; vr_iter := pabyIter + 1; vr_out := b;
         vr_reads := [pabyIter]; vr_printed := false |}
    else
      ReadVarUInt_loop ReadVarUInt_fuel pabyIter nOutVal
                       (pabyIter + 1) 7 (Z.land b 127) [pabyIter].

End ReadVarUInt.

Definition ReadVarUInt32 (buf : list GByte) (pabyIter pabyEnd nOutVal : Z) :=
  ReadVarUInt 32 ControlTypeVerboseErrorTrue buf pabyEnd pabyIter nOutVal.

Definition ReadVarUInt32NoCheck (buf : list GByte) (pabyIter nOutVal : Z) :=
  ReadVarUInt 32 ControlTypeNone buf 0 pabyIter nOutVal.

Definition ReadVarUInt32Silent (buf : list GByte) (pabyIter pabyEnd nOutVal : Z) :=
  ReadVarUInt 32 ControlTypeVerboseErrorFalse buf pabyEnd pabyIter nOutVal.

Definition ReadVarUInt64NoCheck (buf : list GByte) (pabyIter nOutVal : Z) :=
  ReadVarUInt 64 ControlTypeNone buf 0 pabyIter nOutVal.

(** ** The encoder the varint properties are stated against

    Little-endian base 128, the top bit of a byte set when another byte
    follows.  [EncodeVarUInt] emits the shortest such encoding. *)

Fixpoint EncodeVarUInt_groups (n : nat) (v : Z) : list GByte :=
  match n with
  | O => [byte_of_Z v]
  | S n' => byte_of_Z (Z.lor (Z.land v 127) 128)
            :: EncodeVarUInt_groups n' (Z.shiftr v 7)
  end.

Definition EncodeVarUInt (v : Z) : list GByte :=
  EncodeVarUInt_groups (Z.to_nat (Z.log2 v / 7)) v.

(** ** The two failure conditions of the bounds-checked decoder, as the
    specification words them *)

(** The byte at [p] has its top bit set: another byte follows. *)
Definition continuation_bit (buf : list GByte) (p : Z) : bool :=
  negb (Z.land (byte_at buf p) 128 =? 0).

(** (a) the cursor crosses [pabyEnd] before a byte with the continuation bit
    clear is reached: every byte from the cursor up to the end continues. *)
Definition truncated_varint (buf : list GByte) (pabyIter pabyEnd : Z) : Prop :=
  forall p, pabyIter <= p < pabyEnd -> continuation_bit buf p = true.

(** Number of bytes after which the shift reaches the width of the output
    type: 5 for 32 bits, 10 for 64 bits. *)
Definition varuint_max_bytes (nbits : Z) : Z := (nbits + 6) / 7.

(** (b) the shift reaches the width of the output type: as many bytes as the
    type can take are there, and all of them continue. *)
Definition shift_overflows (nbits : Z) (buf : list GByte)
           (pabyIter pabyEnd : Z) : Prop :=
  pabyIter + varuint_max_bytes nbits <= pabyEnd /\
  forall p, pabyIter <= p < pabyIter + varuint_max_bytes nbits ->
            continuation_bit buf p = true.

(** The addresses [p, p+1, ..., p+n-1]. *)
Definition addr_range (p : Z) (n : nat) : list Z :=
  map (fun k => p + Z.of_nat k) (seq 0 n).

(** ** Double-precision arithmetic

    The decoders only convert an accumulator to [double], divide by a scale
    and add an origin.  The operations are an interface; [IEEE_double]
    below instantiates it with the binary64 primitives. *)

Class DoubleOps (double : Type) : Type := {
  double_of_int64 : Z -> double;          (* conversion of a GIntBig *)
  double_div : double -> double -> double;
  double_add : double -> double -> double;
  double_is_zero : double -> bool;        (* dfVal == 0.0 *)
  double_min : double                     (* std::numeric_limits<double>::min() *)
}.

(** ** Geometry field metadata used by the coordinate decoders
    (FileGDBGeomField) *)

Record FileGDBGeomField (double : Type) : Type := {
  GetXOrigin : double;
  GetYOrigin : double;
  GetXYScale : double;
  GetZOrigin : double;
  GetZScale : double;
  GetMOrigin : double;
  GetMScale : double
}.

(** ** ReadVarIntAndAddNoCheck (lines 1469-1512) *)

Section ReadVarIntAndAdd.

Variable buf : list GByte.

Fixpoint ReadVarIntAndAdd_loop (fuel : nat) (bNegative : bool)
    (nOutVal : Z) (pabyLocalIter nShift nVal : Z) : Z * Z :=
  match fuel with
  | O => (pabyLocalIter, nOutVal)
  | S fuel' =>
      let b64 := byte_at buf pabyLocalIter in
      let pabyLocalIter := pabyLocalIter + 1 in
      let nVal := Z.lor nVal (to_uint64 (Z.shiftl (Z.land b64 127) nShift)) in
      if Z.land b64 128 =? 0 then
        (pabyLocalIter,
         if bNegative then to_int64 (nOutVal - nVal)
         else to_int64 (nOutVal + nVal))
      else
        let nShift := nShift + 7 in
        if nShift >=? 64 then (pabyLocalIter, to_int64 nVal)
        else ReadVarIntAndAdd_loop fuel' bNegative nOutVal
                                   pabyLocalIter nShift nVal
  end.

(** Returns the advanced cursor and the updated accumulator. *)
Definition ReadVarIntAndAddNoCheck (pabyIter nOutVal : Z) : Z * Z :=
  let b := byte_at buf pabyIter in
  let nVal := Z.land b 63 in
  let bNegative := negb (Z.land b 64 =? 0) in
  if Z.land b 128 =? 0 then
    (pabyIter + 1,
     if bNegative then to_int64 (nOutVal - nVal)
     else to_int64 (nOutVal + nVal))
  else
    ReadVarIntAndAdd_loop 10 bNegative nOutVal (pabyIter + 1) 6 nVal.

End ReadVarIntAndAdd.

(** ** ReadXYArray, ReadZArray, ReadMArray (lines 3432-3599)

    The setter calls are collected, in call order, in the returned list:
    [setter.set(i, ...)] is its [i]-th element. *)

Section CoordinateArrays.

Context {double : Type} {ops : DoubleOps double}.
Variable poGeomField : FileGDBGeomField double.
Variable buf : list GByte.
Variable pabyEnd : Z.

Definition SanitizeScale (dfVal : double) : double :=
  if double_is_zero dfVal then double_min else dfVal.

Record XYArrayResult : Type := {
  xy_ret : bool;
  xy_cur : Z;
  xy_dx : Z;
  xy_dy : Z;
  xy_set : list (double * double)
}.

(** [dx0], [dy0] are the caller's accumulators, written back only on
    success; [dxLocal], [dyLocal] are the running copies. *)
Fixpoint ReadXYArray_loop (n : nat) (pabyCur dx0 dy0 dxLocal dyLocal : Z)
    (out : list (double * double)) : XYArrayResult :=
  match n with
  | O => {| xy_ret := true; xy_cur := pabyCur; xy_dx := dxLocal;
            xy_dy := dyLocal; xy_set := out |}
  | S n' =>
      if pabyCur >=? pabyEnd then
        {| xy_ret := false; xy_cur := pabyCur; xy_dx := dx0; xy_dy := dy0;
           xy_set := out |}
      else
        let '(pabyCur, dxLocal) :=
          ReadVarIntAndAddNoCheck buf pabyCur dxLocal in
        let '(pabyCur, dyLocal) :=
          ReadVarIntAndAddNoCheck buf pabyCur dyLocal in
        let dfX := double_add
                     (double_div (double_of_int64 dxLocal)
                                 (GetXYScale poGeomField))
                     (GetXOrigin poGeomField) in
        let dfY := double_add
                     (double_div (double_of_int64 dyLocal)
                                 (GetXYScale poGeomField))
                     (GetYOrigin poGeomField) in
        ReadXYArray_loop n' pabyCur dx0 dy0 dxLocal dyLocal
                         (out ++ [(dfX, dfY)])
  end.

Definition ReadXYArray (pabyCur : Z) (nPoints : Z) (dx dy : Z)
  : XYArrayResult :=
  ReadXYArray_loop (Z.to_nat nPoints) pabyCur dx dy dx dy [].

Record ZMArrayResult : Type := {
  zm_ret : bool;
  zm_cur : Z;
  zm_acc : Z;
  zm_set : list double
}.

(** The loop shared in shape by ReadZArray and ReadMArray: the accumulator
    is the caller's, updated in place at every point. *)
Fixpoint ReadOrdinateArray_loop (dfScale dfOrigin : double) (n : nat)
    (pabyCur acc : Z) (out : list double) : ZMArrayResult :=
  match n with
  | O => {| zm_ret := true; zm_cur := pabyCur; zm_acc := acc;
            zm_set := out |}
  | S n' =>
      if pabyCur >=? pabyEnd then
        {| zm_ret := false; zm_cur := pabyCur; zm_acc := acc;
           zm_set := out |}
      else
        let '(pabyCur, acc) := ReadVarIntAndAddNoCheck buf pabyCur acc in
        let df := double_add (double_div (double_of_int64 acc) dfScale)
                             dfOrigin in
        ReadOrdinateArray_loop dfScale dfOrigin n' pabyCur acc (out ++ [df])
  end.

Definition ReadZArray (pabyCur : Z) (nPoints : Z) (dz : Z) : ZMArrayResult :=
  let dfZScale := SanitizeScale (GetZScale poGeomField) in
  ReadOrdinateArray_loop dfZScale (GetZOrigin poGeomField)
                         (Z.to_nat nPoints) pabyCur dz [].

Definition ReadMArray (pabyCur : Z) (nPoints : Z) (dm : Z) : ZMArrayResult :=
  let dfMScale := SanitizeScale (GetMScale poGeomField) in
  ReadOrdinateArray_loop dfMScale (GetMOrigin poGeomField)
                         (Z.to_nat nPoints) pabyCur dm [].

(** ** GetAsGeometry, multipoint case: the coordinate arrays
    (lines 3918-3957, from [dx = dy = dz = 0] to [return poMP]) *)

Record MultiPointCoords : Type := {
  mp_xy : list (double * double);
  mp_z : option (list double);     (* None: the geometry stays 2D *)
  mp_m : option (list double)      (* None: setMeasured is not called *)
}.

Definition GetAsGeometry_multipoint_arrays (bHasZ bHasM : bool)
    (pabyCur : Z) (nPoints : Z) : option MultiPointCoords :=
  let dx := 0 in
  let dy := 0 in
  let dz := 0 in
  let rxy := ReadXYArray pabyCur nPoints dx dy in
  if negb (xy_ret rxy) then None
  else
    let pabyCur := xy_cur rxy in
    let rz := if bHasZ then Some (ReadZArray pabyCur nPoints dz) else None in
    match rz with
    | Some r =>
        if negb (zm_ret r) then None
        else
          let pabyCur := zm_cur r in
          if bHasM && (pabyCur + nPoints <=? pabyEnd) then
            let dm := 0 in
            let rm := ReadMArray pabyCur nPoints dm in
            if negb (zm_ret rm) then None
            else Some {| mp_xy := xy_set rxy; mp_z := Some (zm_set r);
                         mp_m := Some (zm_set rm) |}
          else Some {| mp_xy := xy_set rxy; mp_z := Some (zm_set r);
                       mp_m := None |}
    | None =>
        if bHasM && (pabyCur + nPoints <=? pabyEnd) then
          let dm := 0 in
          let rm := ReadMArray pabyCur nPoints dm in
          if negb (zm_ret rm) then None
          else Some {| mp_xy := xy_set rxy; mp_z := None;
                       mp_m := Some (zm_set rm) |}
        else Some {| mp_xy := xy_set rxy; mp_z := None; mp_m := None |}
    end.

(** ** GetAsGeometry, polyline case: the coordinate arrays of the parts
    (lines 4011-4091, from [dx = dy = dz = 0] to the return);
    [panPointCount] holds the number of points of each part.  The
    accumulators are the same variables for all the parts. *)

Fixpoint polyline_xy_parts (panPointCount : list Z) (pabyCur dx dy : Z)
    (out : list (list (double * double)))
  : option (Z * list (list (double * double))) :=
  match panPointCount with
  | [] => Some (pabyCur, out)
  | nPoints :: rest =>
      let r := ReadXYArray pabyCur nPoints dx dy in
      if negb (xy_ret r) then None
      else polyline_xy_parts rest (xy_cur r) (xy_dx r) (xy_dy r)
                             (out ++ [xy_set r])
  end.

Fixpoint polyline_z_parts (panPointCount : list Z) (pabyCur dz : Z)
    (out : list (list double)) : option (Z * list (list double)) :=
  match panPointCount with
  | [] => Some (pabyCur, out)
  | nPoints :: rest =>
      let r := ReadZArray pabyCur nPoints dz in
      if negb (zm_ret r) then None
      else polyline_z_parts rest (zm_cur r) (zm_acc r) (out ++ [zm_set r])
  end.

(** The M arrays: [Some None] when the loop is left because fewer bytes
    remain than the part has points (the geometry is then not measured). *)
Fixpoint polyline_m_parts (panPointCount : list Z) (pabyCur dm : Z)
    (out : list (list double)) : option (option (list (list double))) :=
  match panPointCount with
  | [] => Some (Some out)
  | nPoints :: rest =>
      if pabyCur + nPoints >? pabyEnd then Some None
      else
        let r := ReadMArray pabyCur nPoints dm in
        if negb (zm_ret r) then None
        else polyline_m_parts rest (zm_cur r) (zm_acc r) (out ++ [zm_set r])
  end.

Record PolylineCoords : Type := {
  pl_xy : list (list (double * double));
  pl_z : option (list (list double));
  pl_m : option (list (list double))
}.

Definition GetAsGeometry_polyline_arrays (bHasZ bHasM : bool)
    (pabyCur : Z) (panPointCount : list Z) : option PolylineCoords :=
  let dx := 0 in
  let dy := 0 in
  let dz := 0 in
  match polyline_xy_parts panPointCount pabyCur dx dy [] with
  | None => None
  | Some (pabyCur, xy) =>
      let rz := if bHasZ
                then match polyline_z_parts panPointCount pabyCur dz [] with
                     | None => None
                     | Some (pabyCur, z) => Some (pabyCur, Some z)
                     end
                else Some (pabyCur, None) in
      match rz with
      | None => None
      | Some (pabyCur, z) =>
          if bHasM then
            let dm := 0 in
            match polyline_m_parts panPointCount pabyCur dm [] with
            | None => None
            | Some m => Some {| pl_xy := xy; pl_z := z; pl_m := m |}
            end
          else Some {| pl_xy := xy; pl_z := z; pl_m := None |}
      end
  end.

End CoordinateArrays.

(** ** Encoding of a signed delta, as the specification words it

    First byte: 6 data bits, the sign in bit 6, the continuation bit on top;
    later bytes are plain 7-bit groups, least significant first. *)

Definition EncodeVarInt (d : Z) : list GByte :=
  let mag := Z.abs d in
  let sign := if d <? 0 then 64 else 0 in
  if mag <? 64 then [byte_of_Z (Z.lor mag sign)]
  else byte_of_Z (Z.lor (Z.lor (Z.land mag 63) sign) 128)
       :: EncodeVarUInt (Z.shiftr mag 6).

Definition EncodeDeltas (ds : list Z) : list GByte :=
  concat (map EncodeVarInt ds).

Fixpoint EncodeDeltaPairs (dxs dys : list Z) : list GByte :=
  match dxs, dys with
  | dx :: dxs', dy :: dys' =>
      EncodeVarInt dx ++ EncodeVarInt dy ++ EncodeDeltaPairs dxs' dys'
  | _, _ => []
  end.

(** [d_0 + ... + d_i]. *)
Definition delta_sum (ds : list Z) (i : nat) : Z :=
  fold_right Z.add 0 (firstn (S i) ds).

Definition fits_int64 (x : Z) : Prop := - 2 ^ 63 <= x < 2 ^ 63.

(** A delta the encoding below can hold. *)
Definition encodable_delta (d : Z) : Prop := Z.abs d < 2 ^ 64.

(** The successive values of a 64-bit accumulator started at [acc]: each
    addition is brought back into the range of a GIntBig. *)
Fixpoint wrapped_sums (acc : Z) (ds : list Z) : list Z :=
  match ds with
  | [] => []
  | d :: ds' => to_int64 (acc + d) :: wrapped_sums (to_int64 (acc + d)) ds'
  end.

(** The accumulator after the deltas [ds]. *)
Definition wrap_acc (acc : Z) (ds : list Z) : Z :=
  fold_left (fun a d => to_int64 (a + d)) ds acc.

(** [(acc)/scale + origin], the ordinate a decoder hands to its setter. *)
Definition ordinate {double : Type} {ops : DoubleOps double}
    (acc : Z) (dfScale dfOrigin : double) : double :=
  double_add (double_div (double_of_int64 acc) dfScale) dfOrigin.

(** The binary64 instance: conversion of an integer rounds to nearest even,
    division and addition are the IEEE 754 operations. *)
Definition double_of_Z (z : Z) : PrimFloat.float :=
  FloatOps.SF2Prim
    (SpecFloat.binary_normalize FloatOps.prec FloatOps.emax z 0 false).

#[export] Instance IEEE_double : DoubleOps PrimFloat.float := {|
  double_of_int64 := double_of_Z;
  double_div := PrimFloat.div;
  double_add := PrimFloat.add;
  double_is_zero := fun x => PrimFloat.eqb x PrimFloat.zero;
  double_min := FloatOps.Z.ldexp PrimFloat.one (-1022)
|}.

(** The successive values of one accumulator over the parts of a geometry:
    each part goes on from where the part before it ended. *)
Fixpoint wrapped_parts (acc : Z) (dss : list (list Z)) : list (list Z) :=
  match dss with
  | [] => []
  | ds :: rest => wrapped_sums acc ds :: wrapped_parts (wrap_acc acc ds) rest
  end.

(** The interleaved X,Y deltas of the parts, one part after the other. *)
Fixpoint EncodePartPairs (dxss dyss : list (list Z)) : list GByte :=
  match dxss, dyss with
  | dxs :: dxss', dys :: dyss' =>
      EncodeDeltaPairs dxs dys ++ EncodePartPairs dxss' dyss'
  | _, _ => []
  end.

Definition EncodeParts (dss : list (list Z)) : list GByte :=
  concat (map EncodeDeltas dss).

(** The bytes of the coordinate section of a multipoint: the interleaved
    X,Y deltas, then the Z deltas and the M deltas when present. *)
Definition multipoint_section (bHasZ bHasM : bool)
    (dxs dys dzs dms : list Z) : list GByte :=
  EncodeDeltaPairs dxs dys
  ++ (if bHasZ then EncodeDeltas dzs else [])
  ++ (if bHasM then EncodeDeltas dms else []).

(** A geometry field with origin 0 and scale 100 on every axis. *)
Definition example_geom_field : FileGDBGeomField PrimFloat.float :=
  {| GetXOrigin := double_of_Z 0; GetYOrigin := double_of_Z 0;
     GetXYScale := double_of_Z 100;
     GetZOrigin := double_of_Z 0; GetZScale := double_of_Z 100;
     GetMOrigin := double_of_Z 0; GetMScale := double_of_Z 100 |}.

(** The same field with a Z scale of 0, which Open lets through (it only
    refuses a zero XY scale). *)
Definition example_zero_zscale_field : FileGDBGeomField PrimFloat.float :=
  {| GetXOrigin := double_of_Z 0; GetYOrigin := double_of_Z 0;
     GetXYScale := double_of_Z 100;
     GetZOrigin := double_of_Z 0; GetZScale := double_of_Z 0;
     GetMOrigin := double_of_Z 0; GetMScale := double_of_Z 100 |}.

(** The points of a part whose accumulators take the values [sx], [sy]. *)
Definition part_points {double : Type} {ops : DoubleOps double}
    (poGeomField : FileGDBGeomField double) (sx sy : list Z)
  : list (double * double) :=
  combine (map (fun s => ordinate s (GetXYScale poGeomField)
                                  (GetXOrigin poGeomField)) sx)
          (map (fun s => ordinate s (GetXYScale poGeomField)
                                  (GetYOrigin poGeomField)) sy).

(** The bytes of the coordinate section of a polyline: the X,Y deltas of
    every part, then the Z deltas of every part and the M deltas of every
    part when present. *)
Definition polyline_section (bHasZ bHasM : bool)
    (dxss dyss dzss dmss : list (list Z)) : list GByte :=
  EncodePartPairs dxss dyss
  ++ (if bHasZ then EncodeParts dzss else [])
  ++ (if bHasM then EncodeParts dmss else []).

(** ** Tables: schema, files, events *)

Inductive FileGDBFieldType : Type :=
  | FGFT_UNDEFINED | FGFT_INT16 | FGFT_INT32 | FGFT_FLOAT32 | FGFT_FLOAT64
  | FGFT_STRING | FGFT_DATETIME | FGFT_OBJECTID | FGFT_GEOMETRY | FGFT_BINARY
  | FGFT_RASTER | FGFT_GUID | FGFT_GLOBALID | FGFT_XML | FGFT_INT64
  | FGFT_DATE | FGFT_TIME | FGFT_DATETIME_WITH_OFFSET.

(** FileGDBRasterField::Type *)
Inductive RasterType : Type := RT_EXTERNAL | RT_MANAGED | RT_INLINE.

Record FileGDBField : Type := {
  m_eType : FileGDBFieldType;
  m_bNullable : bool;
  m_bReadAsDouble : bool;
  IsHighPrecision : bool;
  GetRasterType : RasterType      (* meaningful for FGFT_RASTER only *)
}.

Definition UNUSED_FIELD : FileGDBField :=
  {| m_eType := FGFT_UNDEFINED; m_bNullable := false;
     m_bReadAsDouble := false; IsHighPrecision := false;
     GetRasterType := RT_EXTERNAL |}.

Inductive CPLErr : Type := CE_Debug | CE_Warning | CE_Failure.

Inductive FileId : Type := GDBTABLE | GDBTABLX.

(** What a call leaves in the outside world. *)
Inductive Event : Type :=
  | EvPrintError                                  (* FileGDBTablePrintError *)
  | EvCPLError (eErrClass : CPLErr) (msg : String.string)
  | EvCPLDebug (msg : String.string)
  | EvRead (f : FileId) (nOffset nSize : Z).      (* VSIFSeekL + VSIFReadL *)

(** An open file: a seek to [nOffset] followed by a read of [nSize] bytes
    gives the bytes, or fails (short read, I/O error); a read that fails
    has already copied the bytes [vsi_short nOffset nSize] it could get to
    the start of its destination; [vsi_size] is what VSIFTellL answers
    after a seek to the end. *)
Record VSILFILE : Type := {
  vsi_read : Z -> Z -> option (list GByte);
  vsi_short : Z -> Z -> list GByte;
  vsi_size : Z
}.

Definition file_of_bytes (contents : list GByte) : VSILFILE :=
  {| vsi_read := fun nOffset nSize =>
       if (0 <=? nOffset) && (0 <? nSize)
          && (nOffset + nSize <=? Z.of_nat (length contents))
       then Some (firstn (Z.to_nat nSize) (skipn (Z.to_nat nOffset) contents))
       else None;
     vsi_short := fun nOffset nSize =>
       if 0 <=? nOffset
       then firstn (Z.to_nat nSize) (skipn (Z.to_nat nOffset) contents)
       else [];
     vsi_size := Z.of_nat (length contents) |}.

(** What a failed read of [nSize] bytes leaves in a destination that held
    [buf]: the bytes obtained, at most [nSize], over the start of it. *)
Definition short_read (fp : VSILFILE) (nOffset nSize : Z)
    (buf : list GByte) : list GByte :=
  let data := firstn (Z.to_nat nSize) (vsi_short fp nOffset nSize) in
  firstn (length buf) data ++ skipn (length data) buf.

(** Modelled from the spec: the macros TEST_BIT and BIT_ARRAY_SIZE_IN_BYTES
    are declared in filegdbtable_priv.h, which is not part of the sources at
    hand; the specification fixes least-significant-bit-first bit tests and a
    bitmask of ceil(count/8) bytes. *)
Definition TEST_BIT (ar : list GByte) (bit : Z) : Z :=
  Z.land (byte_at ar (Z.quot bit 8)) (Z.shiftl 1 (Z.rem bit 8)).

Definition BIT_ARRAY_SIZE_IN_BYTES (bitsize : Z) : Z := Z.quot (bitsize + 7) 8.

Definition ZEROES_AFTER_END_OF_BUFFER : Z := 4.
Definition UUID_SIZE_IN_BYTES : Z := 16.

(** Modelled from the spec: the fixed-width readers GetInt16, GetInt32,
    GetUInt32, GetInt64 of filegdbtable_priv.h; little-endian throughout. *)
Fixpoint GetUIntLE (buf : list GByte) (p : Z) (n : nat) : Z :=
  match n with
  | O => 0
  | S n' => byte_at buf p + 256 * GetUIntLE buf (p + 1) n'
  end.

Definition GetUInt32 (buf : list GByte) (p : Z) : Z := GetUIntLE buf p 4.
Definition GetInt16 (buf : list GByte) (p : Z) : Z :=
  wrap_signed 16 (GetUIntLE buf p 2).
Definition GetInt32 (buf : list GByte) (p : Z) : Z :=
  wrap_signed 32 (GetUIntLE buf p 4).
Definition GetInt64 (buf : list GByte) (p : Z) : Z :=
  wrap_signed 64 (GetUIntLE buf p 8).

(** The [n] bytes at [p], zero beyond the allocation. *)
Definition bytes_at (buf : list GByte) (p n : Z) : list GByte :=
  map (fun k => byte_of_Z (byte_at buf (p + Z.of_nat k)))
      (seq 0 (Z.to_nat n)).

(** A char pointer read as a C string: up to the first NUL. *)
Fixpoint CString (l : list GByte) : list GByte :=
  match l with
  | [] => []
  | b :: l' => if Z_of_byte b =? 0 then [] else b :: CString l'
  end.

(** ** Field values *)

(** The floating-point side of field decoding, and the UTF-16 reader of
    filegdbtable_priv.h, as an interface: a double is made from the 32- or
    64-bit pattern read little-endian; the date conversions are the functions
    of lines 1836-1918. *)
Class FieldValueOps (double date : Type) : Type := {
  GetFloat32 : Z -> double;
  GetFloat64 : Z -> double;
  FileGDBDoubleDateToOGRDate : double -> bool -> date;
  FileGDBDoubleTimeToOGRTime : double -> date;
  FileGDBDateTimeWithOffsetToOGRDate : double -> Z -> date;
  SubtractUTCOffset : double -> Z -> double;  (* dfVal - nUTCOffset * 60.0 / 86400.0 *)
  ReadUTF16String : list GByte -> list GByte  (* the 2 * nCarCount bytes read *)
}.

(** The member of the OGRField union a caller reads back, with what its
    pointers designate at the time GetFieldValue returns. *)
Inductive OGRField (double date : Type) : Type :=
  | OF_Unset
  | OF_Integer (v : Z)
  | OF_Integer64 (v : Z)
  | OF_Real (v : double)
  | OF_String (s : list GByte)
  | OF_Binary (nCount : Z) (paData : list GByte)
  | OF_Date (d : date).

Arguments OF_Unset {double date}.
Arguments OF_Integer {double date} v.
Arguments OF_Integer64 {double date} v.
Arguments OF_Real {double date} v.
Arguments OF_String {double date} s.
Arguments OF_Binary {double date} nCount paData.
Arguments OF_Date {double date} d.

(** "%02X" *)
Definition hex_digit (n : Z) : GByte :=
  if n <? 10 then byte_of_Z (48 + n) else byte_of_Z (55 + n).

Definition hex2 (b : Z) : list GByte :=
  [hex_digit (Z.quot b 16); hex_digit (Z.rem b 16)].

(** The snprintf of the GUID case: the 16 bytes at [p] as
    {XXXXXXXX-XXXX-XXXX-XXXX-XXXXXXXXXXXX}. *)
Definition format_guid (buf : list GByte) (p : Z) : list GByte :=
  let h k := hex2 (byte_at buf (p + k)) in
  let dash := [byte_of_Z 45] in
  [byte_of_Z 123]
  ++ h 3 ++ h 2 ++ h 1 ++ h 0 ++ dash
  ++ h 5 ++ h 4 ++ dash
  ++ h 7 ++ h 6 ++ dash
  ++ h 8 ++ h 9 ++ dash
  ++ h 10 ++ h 11 ++ h 12 ++ h 13 ++ h 14 ++ h 15
  ++ [byte_of_Z 125].

(** ** The table object *)

(** What Open leaves fixed for the reading functions. *)
Record TableDesc : Type := {
  m_apoFields : list FileGDBField;
  m_bStringsAreUTF8 : bool;
  m_bUpdate : bool;
  m_nTotalRecordCount : Z;               (* int64_t *)
  m_fpTable : VSILFILE;
  m_fpTableX : option VSILFILE;          (* None: nullptr *)
  m_nTablxOffsetSize : Z;                (* GUInt32 *)
  m_abyTablXBlockMap : list GByte;
  m_anFeatureOffsets : list Z            (* GUIntBig, filled by the scan *)
}.

(** End of Open, lines 1420-1424. *)
Definition m_nCountNullableFields (t : TableDesc) : Z :=
  Z.of_nat (length (filter m_bNullable (m_apoFields t))).

Definition m_nNullableFieldsSizeInBytes (t : TableDesc) : Z :=
  BIT_ARRAY_SIZE_IN_BYTES (m_nCountNullableFields t).

(** Injected configuration and the allocator. *)
Record Environment : Type := {
  OGR_OPENFILEGDB_ERROR_ON_INCONSISTENT_BUFFER_MAX_SIZE : bool;
  can_resize : Z -> bool        (* false: std::vector::resize throws *)
}.

Definition MARK_DELETED (x : Z) : Z := Z.lor x (Z.shiftl 1 63).
Definition IS_DELETED (x : Z) : bool := negb (Z.land x (Z.shiftl 1 63) =? 0).
Definition GET_OFFSET (x : Z) : Z := Z.land x (Z.ones 63).

Section Table.

Context {double date : Type} {fops : FieldValueOps double date}.

Record TableState : Type := {
  m_nCurRow : Z;   (* int64_t, -1 when no row is selected *)
  m_nLastCol : Z;   (* int, furthest column decoded in the current row *)
  m_pabyIterVals : Z;   (* offset in m_abyBuffer of the next value *)
  m_iAccNullable : Z;   (* index of the next bit of the nullable bitmask *)
  m_bError : bool;
  m_nChSaved : Z;   (* int, -1 or the byte overwritten by a terminating NUL *)
  m_nRowBlobLength : Z;   (* GUInt32 *)
  m_abyBuffer : list GByte;
  m_sCurField : OGRField double date;
  m_bIsDeleted : bool;
  m_nCountBlocksBeforeIBlockIdx : Z;   (* int *)
  m_nCountBlocksBeforeIBlockValue : Z;   (* GUInt32 *)
  m_nHeaderBufferMaxSize : Z;   (* GUInt32 *)
  m_nRowBufferMaxSize : Z;   (* GUInt32 *)
  m_nFileSize : Z;   (* vsi_l_offset *)
  m_bHasWarnedAboutHeaderRepair : bool;
  m_bDirtyHeader : bool;
  m_bDirtyIndices : bool;
  m_events : list Event   (* CPLError / CPLDebug / VSIFReadL calls, oldest first *)
}.

(** Field assignments. *)
Definition set_m_nCurRow (v : Z) (s : TableState) : TableState :=
  {| m_nCurRow := v; m_nLastCol := m_nLastCol s;
     m_pabyIterVals := m_pabyIterVals s; m_iAccNullable := m_iAccNullable s;
     m_bError := m_bError s; m_nChSaved := m_nChSaved s;
     m_nRowBlobLength := m_nRowBlobLength s; m_abyBuffer := m_abyBuffer s;
     m_sCurField := m_sCurField s; m_bIsDeleted := m_bIsDeleted s;
     m_nCountBlocksBeforeIBlockIdx := m_nCountBlocksBeforeIBlockIdx s;
     m_nCountBlocksBeforeIBlockValue := m_nCountBlocksBeforeIBlockValue s;
     m_nHeaderBufferMaxSize := m_nHeaderBufferMaxSize s;
     m_nRowBufferMaxSize := m_nRowBufferMaxSize s;
     m_nFileSize := m_nFileSize s;
     m_bHasWarnedAboutHeaderRepair := m_bHasWarnedAboutHeaderRepair s;
     m_bDirtyHeader := m_bDirtyHeader s;
     m_bDirtyIndices := m_bDirtyIndices s; m_events := m_events s |}.
Definition set_m_nLastCol (v : Z) (s : TableState) : TableState :=
  {| m_nCurRow := m_nCurRow s; m_nLastCol := v;
     m_pabyIterVals := m_pabyIterVals s; m_iAccNullable := m_iAccNullable s;
     m_bError := m_bError s; m_nChSaved := m_nChSaved s;
     m_nRowBlobLength := m_nRowBlobLength s; m_abyBuffer := m_abyBuffer s;
     m_sCurField := m_sCurField s; m_bIsDeleted := m_bIsDeleted s;
     m_nCountBlocksBeforeIBlockIdx := m_nCountBlocksBeforeIBlockIdx s;
     m_nCountBlocksBeforeIBlockValue := m_nCountBlocksBeforeIBlockValue s;
     m_nHeaderBufferMaxSize := m_nHeaderBufferMaxSize s;
     m_nRowBufferMaxSize := m_nRowBufferMaxSize s;
     m_nFileSize := m_nFileSize s;
     m_bHasWarnedAboutHeaderRepair := m_bHasWarnedAboutHeaderRepair s;
     m_bDirtyHeader := m_bDirtyHeader s;
     m_bDirtyIndices := m_bDirtyIndices s; m_events := m_events s |}.
Definition set_m_pabyIterVals (v : Z) (s : TableState) : TableState :=
  {| m_nCurRow := m_nCurRow s; m_nLastCol := m_nLastCol s;
     m_pabyIterVals := v; m_iAccNullable := m_iAccNullable s;
     m_bError := m_bError s; m_nChSaved := m_nChSaved s;
     m_nRowBlobLength := m_nRowBlobLength s; m_abyBuffer := m_abyBuffer s;
     m_sCurField := m_sCurField s; m_bIsDeleted := m_bIsDeleted s;
     m_nCountBlocksBeforeIBlockIdx := m_nCountBlocksBeforeIBlockIdx s;
     m_nCountBlocksBeforeIBlockValue := m_nCountBlocksBeforeIBlockValue s;
     m_nHeaderBufferMaxSize := m_nHeaderBufferMaxSize s;
     m_nRowBufferMaxSize := m_nRowBufferMaxSize s;
     m_nFileSize := m_nFileSize s;
     m_bHasWarnedAboutHeaderRepair := m_bHasWarnedAboutHeaderRepair s;
     m_bDirtyHeader := m_bDirtyHeader s;
     m_bDirtyIndices := m_bDirtyIndices s; m_events := m_events s |}.
Definition set_m_iAccNullable (v : Z) (s : TableState) : TableState :=
  {| m_nCurRow := m_nCurRow s; m_nLastCol := m_nLastCol s;
     m_pabyIterVals := m_pabyIterVals s; m_iAccNullable := v;
     m_bError := m_bError s; m_nChSaved := m_nChSaved s;
     m_nRowBlobLength := m_nRowBlobLength s; m_abyBuffer := m_abyBuffer s;
     m_sCurField := m_sCurField s; m_bIsDeleted := m_bIsDeleted s;
     m_nCountBlocksBeforeIBlockIdx := m_nCountBlocksBeforeIBlockIdx s;
     m_nCountBlocksBeforeIBlockValue := m_nCountBlocksBeforeIBlockValue s;
     m_nHeaderBufferMaxSize := m_nHeaderBufferMaxSize s;
     m_nRowBufferMaxSize := m_nRowBufferMaxSize s;
     m_nFileSize := m_nFileSize s;
     m_bHasWarnedAboutHeaderRepair := m_bHasWarnedAboutHeaderRepair s;
     m_bDirtyHeader := m_bDirtyHeader s;
     m_bDirtyIndices := m_bDirtyIndices s; m_events := m_events s |}.
Definition set_m_bError (v : bool) (s : TableState) : TableState :=
  {| m_nCurRow := m_nCurRow s; m_nLastCol := m_nLastCol s;
     m_pabyIterVals := m_pabyIterVals s; m_iAccNullable := m_iAccNullable s;
     m_bError := v; m_nChSaved := m_nChSaved s;
     m_nRowBlobLength := m_nRowBlobLength s; m_abyBuffer := m_abyBuffer s;
     m_sCurField := m_sCurField s; m_bIsDeleted := m_bIsDeleted s;
     m_nCountBlocksBeforeIBlockIdx := m_nCountBlocksBeforeIBlockIdx s;
     m_nCountBlocksBeforeIBlockValue := m_nCountBlocksBeforeIBlockValue s;
     m_nHeaderBufferMaxSize := m_nHeaderBufferMaxSize s;
     m_nRowBufferMaxSize := m_nRowBufferMaxSize s;
     m_nFileSize := m_nFileSize s;
     m_bHasWarnedAboutHeaderRepair := m_bHasWarnedAboutHeaderRepair s;
     m_bDirtyHeader := m_bDirtyHeader s;
     m_bDirtyIndices := m_bDirtyIndices s; m_events := m_events s |}.
Definition set_m_nChSaved (v : Z) (s : TableState) : TableState :=
  {| m_nCurRow := m_nCurRow s; m_nLastCol := m_nLastCol s;
     m_pabyIterVals := m_pabyIterVals s; m_iAccNullable := m_iAccNullable s;
     m_bError := m_bError s; m_nChSaved := v;
     m_nRowBlobLength := m_nRowBlobLength s; m_abyBuffer := m_abyBuffer s;
     m_sCurField := m_sCurField s; m_bIsDeleted := m_bIsDeleted s;
     m_nCountBlocksBeforeIBlockIdx := m_nCountBlocksBeforeIBlockIdx s;
     m_nCountBlocksBeforeIBlockValue := m_nCountBlocksBeforeIBlockValue s;
     m_nHeaderBufferMaxSize := m_nHeaderBufferMaxSize s;
     m_nRowBufferMaxSize := m_nRowBufferMaxSize s;
     m_nFileSize := m_nFileSize s;
     m_bHasWarnedAboutHeaderRepair := m_bHasWarnedAboutHeaderRepair s;
     m_bDirtyHeader := m_bDirtyHeader s;
     m_bDirtyIndices := m_bDirtyIndices s; m_events := m_events s |}.
Definition set_m_nRowBlobLength (v : Z) (s : TableState) : TableState :=
  {| m_nCurRow := m_nCurRow s; m_nLastCol := m_nLastCol s;
     m_pabyIterVals := m_pabyIterVals s; m_iAccNullable := m_iAccNullable s;
     m_bError := m_bError s; m_nChSaved := m_nChSaved s;
     m_nRowBlobLength := v; m_abyBuffer := m_abyBuffer s;
     m_sCurField := m_sCurField s; m_bIsDeleted := m_bIsDeleted s;
     m_nCountBlocksBeforeIBlockIdx := m_nCountBlocksBeforeIBlockIdx s;
     m_nCountBlocksBeforeIBlockValue := m_nCountBlocksBeforeIBlockValue s;
     m_nHeaderBufferMaxSize := m_nHeaderBufferMaxSize s;
     m_nRowBufferMaxSize := m_nRowBufferMaxSize s;
     m_nFileSize := m_nFileSize s;
     m_bHasWarnedAboutHeaderRepair := m_bHasWarnedAboutHeaderRepair s;
     m_bDirtyHeader := m_bDirtyHeader s;
     m_bDirtyIndices := m_bDirtyIndices s; m_events := m_events s |}.
Definition set_m_abyBuffer (v : list GByte) (s : TableState) : TableState :=
  {| m_nCurRow := m_nCurRow s; m_nLastCol := m_nLastCol s;
     m_pabyIterVals := m_pabyIterVals s; m_iAccNullable := m_iAccNullable s;
     m_bError := m_bError s; m_nChSaved := m_nChSaved s;
     m_nRowBlobLength := m_nRowBlobLength s; m_abyBuffer := v;
     m_sCurField := m_sCurField s; m_bIsDeleted := m_bIsDeleted s;
     m_nCountBlocksBeforeIBlockIdx := m_nCountBlocksBeforeIBlockIdx s;
     m_nCountBlocksBeforeIBlockValue := m_nCountBlocksBeforeIBlockValue s;
     m_nHeaderBufferMaxSize := m_nHeaderBufferMaxSize s;
     m_nRowBufferMaxSize := m_nRowBufferMaxSize s;
     m_nFileSize := m_nFileSize s;
     m_bHasWarnedAboutHeaderRepair := m_bHasWarnedAboutHeaderRepair s;
     m_bDirtyHeader := m_bDirtyHeader s;
     m_bDirtyIndices := m_bDirtyIndices s; m_events := m_events s |}.
Definition set_m_sCurField (v : OGRField double date) (s : TableState) : TableState :=
  {| m_nCurRow := m_nCurRow s; m_nLastCol := m_nLastCol s;
     m_pabyIterVals := m_pabyIterVals s; m_iAccNullable := m_iAccNullable s;
     m_bError := m_bError s; m_nChSaved := m_nChSaved s;
     m_nRowBlobLength := m_nRowBlobLength s; m_abyBuffer := m_abyBuffer s;
     m_sCurField := v; m_bIsDeleted := m_bIsDeleted s;
     m_nCountBlocksBeforeIBlockIdx := m_nCountBlocksBeforeIBlockIdx s;
     m_nCountBlocksBeforeIBlockValue := m_nCountBlocksBeforeIBlockValue s;
     m_nHeaderBufferMaxSize := m_nHeaderBufferMaxSize s;
     m_nRowBufferMaxSize := m_nRowBufferMaxSize s;
     m_nFileSize := m_nFileSize s;
     m_bHasWarnedAboutHeaderRepair := m_bHasWarnedAboutHeaderRepair s;
     m_bDirtyHeader := m_bDirtyHeader s;
     m_bDirtyIndices := m_bDirtyIndices s; m_events := m_events s |}.
Definition set_m_bIsDeleted (v : bool) (s : TableState) : TableState :=
  {| m_nCurRow := m_nCurRow s; m_nLastCol := m_nLastCol s;
     m_pabyIterVals := m_pabyIterVals s; m_iAccNullable := m_iAccNullable s;
     m_bError := m_bError s; m_nChSaved := m_nChSaved s;
     m_nRowBlobLength := m_nRowBlobLength s; m_abyBuffer := m_abyBuffer s;
     m_sCurField := m_sCurField s; m_bIsDeleted := v;
     m_nCountBlocksBeforeIBlockIdx := m_nCountBlocksBeforeIBlockIdx s;
     m_nCountBlocksBeforeIBlockValue := m_nCountBlocksBeforeIBlockValue s;
     m_nHeaderBufferMaxSize := m_nHeaderBufferMaxSize s;
     m_nRowBufferMaxSize := m_nRowBufferMaxSize s;
     m_nFileSize := m_nFileSize s;
     m_bHasWarnedAboutHeaderRepair := m_bHasWarnedAboutHeaderRepair s;
     m_bDirtyHeader := m_bDirtyHeader s;
     m_bDirtyIndices := m_bDirtyIndices s; m_events := m_events s |}.
Definition set_m_nCountBlocksBeforeIBlockIdx (v : Z) (s : TableState) : TableState :=
  {| m_nCurRow := m_nCurRow s; m_nLastCol := m_nLastCol s;
     m_pabyIterVals := m_pabyIterVals s; m_iAccNullable := m_iAccNullable s;
     m_bError := m_bError s; m_nChSaved := m_nChSaved s;
     m_nRowBlobLength := m_nRowBlobLength s; m_abyBuffer := m_abyBuffer s;
     m_sCurField := m_sCurField s; m_bIsDeleted := m_bIsDeleted s;
     m_nCountBlocksBeforeIBlockIdx := v;
     m_nCountBlocksBeforeIBlockValue := m_nCountBlocksBeforeIBlockValue s;
     m_nHeaderBufferMaxSize := m_nHeaderBufferMaxSize s;
     m_nRowBufferMaxSize := m_nRowBufferMaxSize s;
     m_nFileSize := m_nFileSize s;
     m_bHasWarnedAboutHeaderRepair := m_bHasWarnedAboutHeaderRepair s;
     m_bDirtyHeader := m_bDirtyHeader s;
     m_bDirtyIndices := m_bDirtyIndices s; m_events := m_events s |}.
Definition set_m_nCountBlocksBeforeIBlockValue (v : Z) (s : TableState) : TableState :=
  {| m_nCurRow := m_nCurRow s; m_nLastCol := m_nLastCol s;
     m_pabyIterVals := m_pabyIterVals s; m_iAccNullable := m_iAccNullable s;
     m_bError := m_bError s; m_nChSaved := m_nChSaved s;
     m_nRowBlobLength := m_nRowBlobLength s; m_abyBuffer := m_abyBuffer s;
     m_sCurField := m_sCurField s; m_bIsDeleted := m_bIsDeleted s;
     m_nCountBlocksBeforeIBlockIdx := m_nCountBlocksBeforeIBlockIdx s;
     m_nCountBlocksBeforeIBlockValue := v;
     m_nHeaderBufferMaxSize := m_nHeaderBufferMaxSize s;
     m_nRowBufferMaxSize := m_nRowBufferMaxSize s;
     m_nFileSize := m_nFileSize s;
     m_bHasWarnedAboutHeaderRepair := m_bHasWarnedAboutHeaderRepair s;
     m_bDirtyHeader := m_bDirtyHeader s;
     m_bDirtyIndices := m_bDirtyIndices s; m_events := m_events s |}.
Definition set_m_nHeaderBufferMaxSize (v : Z) (s : TableState) : TableState :=
  {| m_nCurRow := m_nCurRow s; m_nLastCol := m_nLastCol s;
     m_pabyIterVals := m_pabyIterVals s; m_iAccNullable := m_iAccNullable s;
     m_bError := m_bError s; m_nChSaved := m_nChSaved s;
     m_nRowBlobLength := m_nRowBlobLength s; m_abyBuffer := m_abyBuffer s;
     m_sCurField := m_sCurField s; m_bIsDeleted := m_bIsDeleted s;
     m_nCountBlocksBeforeIBlockIdx := m_nCountBlocksBeforeIBlockIdx s;
     m_nCountBlocksBeforeIBlockValue := m_nCountBlocksBeforeIBlockValue s;
     m_nHeaderBufferMaxSize := v;
     m_nRowBufferMaxSize := m_nRowBufferMaxSize s;
     m_nFileSize := m_nFileSize s;
     m_bHasWarnedAboutHeaderRepair := m_bHasWarnedAboutHeaderRepair s;
     m_bDirtyHeader := m_bDirtyHeader s;
     m_bDirtyIndices := m_bDirtyIndices s; m_events := m_events s |}.
Definition set_m_nRowBufferMaxSize (v : Z) (s : TableState) : TableState :=
  {| m_nCurRow := m_nCurRow s; m_nLastCol := m_nLastCol s;
     m_pabyIterVals := m_pabyIterVals s; m_iAccNullable := m_iAccNullable s;
     m_bError := m_bError s; m_nChSaved := m_nChSaved s;
     m_nRowBlobLength := m_nRowBlobLength s; m_abyBuffer := m_abyBuffer s;
     m_sCurField := m_sCurField s; m_bIsDeleted := m_bIsDeleted s;
     m_nCountBlocksBeforeIBlockIdx := m_nCountBlocksBeforeIBlockIdx s;
     m_nCountBlocksBeforeIBlockValue := m_nCountBlocksBeforeIBlockValue s;
     m_nHeaderBufferMaxSize := m_nHeaderBufferMaxSize s;
     m_nRowBufferMaxSize := v; m_nFileSize := m_nFileSize s;
     m_bHasWarnedAboutHeaderRepair := m_bHasWarnedAboutHeaderRepair s;
     m_bDirtyHeader := m_bDirtyHeader s;
     m_bDirtyIndices := m_bDirtyIndices s; m_events := m_events s |}.
Definition set_m_nFileSize (v : Z) (s : TableState) : TableState :=
  {| m_nCurRow := m_nCurRow s; m_nLastCol := m_nLastCol s;
     m_pabyIterVals := m_pabyIterVals s; m_iAccNullable := m_iAccNullable s;
     m_bError := m_bError s; m_nChSaved := m_nChSaved s;
     m_nRowBlobLength := m_nRowBlobLength s; m_abyBuffer := m_abyBuffer s;
     m_sCurField := m_sCurField s; m_bIsDeleted := m_bIsDeleted s;
     m_nCountBlocksBeforeIBlockIdx := m_nCountBlocksBeforeIBlockIdx s;
     m_nCountBlocksBeforeIBlockValue := m_nCountBlocksBeforeIBlockValue s;
     m_nHeaderBufferMaxSize := m_nHeaderBufferMaxSize s;
     m_nRowBufferMaxSize := m_nRowBufferMaxSize s; m_nFileSize := v;
     m_bHasWarnedAboutHeaderRepair := m_bHasWarnedAboutHeaderRepair s;
     m_bDirtyHeader := m_bDirtyHeader s;
     m_bDirtyIndices := m_bDirtyIndices s; m_events := m_events s |}.
Definition set_m_bHasWarnedAboutHeaderRepair (v : bool) (s : TableState) : TableState :=
  {| m_nCurRow := m_nCurRow s; m_nLastCol := m_nLastCol s;
     m_pabyIterVals := m_pabyIterVals s; m_iAccNullable := m_iAccNullable s;
     m_bError := m_bError s; m_nChSaved := m_nChSaved s;
     m_nRowBlobLength := m_nRowBlobLength s; m_abyBuffer := m_abyBuffer s;
     m_sCurField := m_sCurField s; m_bIsDeleted := m_bIsDeleted s;
     m_nCountBlocksBeforeIBlockIdx := m_nCountBlocksBeforeIBlockIdx s;
     m_nCountBlocksBeforeIBlockValue := m_nCountBlocksBeforeIBlockValue s;
     m_nHeaderBufferMaxSize := m_nHeaderBufferMaxSize s;
     m_nRowBufferMaxSize := m_nRowBufferMaxSize s;
     m_nFileSize := m_nFileSize s; m_bHasWarnedAboutHeaderRepair := v;
     m_bDirtyHeader := m_bDirtyHeader s;
     m_bDirtyIndices := m_bDirtyIndices s; m_events := m_events s |}.
Definition set_m_bDirtyHeader (v : bool) (s : TableState) : TableState :=
  {| m_nCurRow := m_nCurRow s; m_nLastCol := m_nLastCol s;
     m_pabyIterVals := m_pabyIterVals s; m_iAccNullable := m_iAccNullable s;
     m_bError := m_bError s; m_nChSaved := m_nChSaved s;
     m_nRowBlobLength := m_nRowBlobLength s; m_abyBuffer := m_abyBuffer s;
     m_sCurField := m_sCurField s; m_bIsDeleted := m_bIsDeleted s;
     m_nCountBlocksBeforeIBlockIdx := m_nCountBlocksBeforeIBlockIdx s;
     m_nCountBlocksBeforeIBlockValue := m_nCountBlocksBeforeIBlockValue s;
     m_nHeaderBufferMaxSize := m_nHeaderBufferMaxSize s;
     m_nRowBufferMaxSize := m_nRowBufferMaxSize s;
     m_nFileSize := m_nFileSize s;
     m_bHasWarnedAboutHeaderRepair := m_bHasWarnedAboutHeaderRepair s;
     m_bDirtyHeader := v; m_bDirtyIndices := m_bDirtyIndices s;
     m_events := m_events s |}.
Definition set_m_bDirtyIndices (v : bool) (s : TableState) : TableState :=
  {| m_nCurRow := m_nCurRow s; m_nLastCol := m_nLastCol s;
     m_pabyIterVals := m_pabyIterVals s; m_iAccNullable := m_iAccNullable s;
     m_bError := m_bError s; m_nChSaved := m_nChSaved s;
     m_nRowBlobLength := m_nRowBlobLength s; m_abyBuffer := m_abyBuffer s;
     m_sCurField := m_sCurField s; m_bIsDeleted := m_bIsDeleted s;
     m_nCountBlocksBeforeIBlockIdx := m_nCountBlocksBeforeIBlockIdx s;
     m_nCountBlocksBeforeIBlockValue := m_nCountBlocksBeforeIBlockValue s;
     m_nHeaderBufferMaxSize := m_nHeaderBufferMaxSize s;
     m_nRowBufferMaxSize := m_nRowBufferMaxSize s;
     m_nFileSize := m_nFileSize s;
     m_bHasWarnedAboutHeaderRepair := m_bHasWarnedAboutHeaderRepair s;
     m_bDirtyHeader := m_bDirtyHeader s; m_bDirtyIndices := v;
     m_events := m_events s |}.
Definition set_m_events (v : list Event) (s : TableState) : TableState :=
  {| m_nCurRow := m_nCurRow s; m_nLastCol := m_nLastCol s;
     m_pabyIterVals := m_pabyIterVals s; m_iAccNullable := m_iAccNullable s;
     m_bError := m_bError s; m_nChSaved := m_nChSaved s;
     m_nRowBlobLength := m_nRowBlobLength s; m_abyBuffer := m_abyBuffer s;
     m_sCurField := m_sCurField s; m_bIsDeleted := m_bIsDeleted s;
     m_nCountBlocksBeforeIBlockIdx := m_nCountBlocksBeforeIBlockIdx s;
     m_nCountBlocksBeforeIBlockValue := m_nCountBlocksBeforeIBlockValue s;
     m_nHeaderBufferMaxSize := m_nHeaderBufferMaxSize s;
     m_nRowBufferMaxSize := m_nRowBufferMaxSize s;
     m_nFileSize := m_nFileSize s;
     m_bHasWarnedAboutHeaderRepair := m_bHasWarnedAboutHeaderRepair s;
     m_bDirtyHeader := m_bDirtyHeader s;
     m_bDirtyIndices := m_bDirtyIndices s; m_events := v |}.

Definition log_events (evs : list Event) (s : TableState) : TableState :=
  set_m_events (m_events s ++ evs) s.

Variable t : TableDesc.
Variable env : Environment.

(** *** GetOffsetInTableForRow and ReadFeatureOffset (lines 1518-1607) *)

(** memcpy of the entry into a zeroed 64-bit integer, read little-endian. *)
Fixpoint ReadFeatureOffset (pabyBuffer : list GByte) : Z :=
  match pabyBuffer with
  | [] => 0
  | b :: rest => Z_of_byte b + 256 * ReadFeatureOffset rest
  end.

(** [for (int i = iFrom; i < iFrom + n; i++) nCount += TEST_BIT(...) != 0] *)
Fixpoint count_blocks (n : nat) (i : Z) (nCountBlocksBefore : Z) : Z :=
  match n with
  | O => nCountBlocksBefore
  | S n' =>
      let nCountBlocksBefore :=
        to_uint32 (nCountBlocksBefore
                   + (if TEST_BIT (m_abyTablXBlockMap t) i =? 0 then 0 else 1)) in
      count_blocks n' (i + 1) nCountBlocksBefore
  end.

(** Returns the offset in the table file, the value left in
    [*pnOffsetInTableX] and the new state. *)
Definition GetOffsetInTableForRow (s : TableState) (iRow : Z)
  : Z * Z * TableState :=
  if (iRow <? 0) || (iRow >=? m_nTotalRecordCount t) then
    (0, 0, log_events [EvPrintError] s)
  else
    let s := set_m_bIsDeleted false s in
    match m_fpTableX t with
    | None =>
        let v := nth (Z.to_nat iRow) (m_anFeatureOffsets t) 0 in
        (GET_OFFSET v, 0, set_m_bIsDeleted (IS_DELETED v) s)
    | Some fpTableX =>
        let located : option (Z * TableState) :=
          match m_abyTablXBlockMap t with
          | _ :: _ =>
              let iBlock := to_int32 (Z.quot iRow 1024) in
              if TEST_BIT (m_abyTablXBlockMap t) iBlock =? 0 then None
              else
                let nCountBlocksBefore :=
                  if iBlock >=? m_nCountBlocksBeforeIBlockIdx s then
                    count_blocks
                      (Z.to_nat (iBlock - m_nCountBlocksBeforeIBlockIdx s))
                      (m_nCountBlocksBeforeIBlockIdx s)
                      (m_nCountBlocksBeforeIBlockValue s)
                  else
                    count_blocks (Z.to_nat iBlock) 0 0 in
                let s := set_m_nCountBlocksBeforeIBlockIdx iBlock s in
                let s :=
                  set_m_nCountBlocksBeforeIBlockValue nCountBlocksBefore s in
                let iCorrectedRow :=
                  to_int64 (nCountBlocksBefore * 1024 + Z.rem iRow 1024) in
                Some (to_uint64 (16 + m_nTablxOffsetSize t * iCorrectedRow), s)
          | [] =>
              Some (to_uint64 (16 + m_nTablxOffsetSize t * iRow), s)
          end in
        match located with
        | None => (0, 0, s)
        | Some (nOffsetInTableX, s) =>
            let s := log_events
                       [EvRead GDBTABLX nOffsetInTableX (m_nTablxOffsetSize t)]
                       s in
            match vsi_read fpTableX nOffsetInTableX (m_nTablxOffsetSize t) with
            | None =>
                (0, nOffsetInTableX,
                 log_events [EvPrintError] (set_m_bError true s))
            | Some abyBuffer =>
                (ReadFeatureOffset abyBuffer, nOffsetInTableX,
                 set_m_bError false s)
            end
        end
    end.

(** *** SelectRow (lines 1654-1830) *)

(** [m_abyBuffer.resize(n)] when the vector is shorter than [n]. *)
Definition resize_buffer (buf : list GByte) (n : Z) : list GByte :=
  buf ++ repeat x00 (Z.to_nat n - length buf).

(** VSIFReadL into the start of the buffer. *)
Definition blit (data buf : list GByte) : list GByte :=
  data ++ skipn (length data) buf.

Definition fail_row (evs : list Event) (s : TableState) : bool * TableState :=
  (false, log_events evs (set_m_nCurRow (-1) s)).

(** The part of SelectRow run once the offset of a new row is known to be
    non-zero. *)
Definition SelectRow_load (s : TableState) (iRow nOffsetTable : Z)
  : bool * TableState :=
  let s := log_events [EvRead GDBTABLE nOffsetTable 4] s in
  match vsi_read (m_fpTable t) nOffsetTable 4 with
  | None => fail_row [EvPrintError] s
  | Some abyBuffer =>
      let nLen := GetUInt32 abyBuffer 0 in
      let nLen := if m_bIsDeleted s then to_uint32 (- to_int32 nLen)
                  else nLen in
      let s := set_m_nRowBlobLength nLen s in
      let positioned (s : TableState) : bool * TableState :=
        (true,
         set_m_nChSaved (-1)
           (set_m_bError false
              (set_m_iAccNullable 0
                 (set_m_pabyIterVals (m_nNullableFieldsSizeInBytes t)
                    (set_m_nLastCol (-1) (set_m_nCurRow iRow s)))))) in
      if nLen >? 0 then
        if (nLen <? to_uint32 (m_nNullableFieldsSizeInBytes t))
           || (nLen >? INT_MAX - ZEROES_AFTER_END_OF_BUFFER)
        then fail_row [EvPrintError] s
        else
          (* the maximum row size announced by the header *)
          let checked : option TableState :=
            if nLen >? m_nHeaderBufferMaxSize s then
              if OGR_OPENFILEGDB_ERROR_ON_INCONSISTENT_BUFFER_MAX_SIZE env
              then None
              else
                let s := log_events
                           [EvCPLDebug "Invalid row length compared to the maximum size in the header"%string]
                           s in
                let s :=
                  if m_bHasWarnedAboutHeaderRepair s then s
                  else if m_bUpdate t then
                    set_m_nFileSize (vsi_size (m_fpTable t))
                      (set_m_bDirtyIndices true
                         (set_m_bDirtyHeader true
                            (log_events
                               [EvCPLError CE_Warning
                                  "A corruption in the header has been detected. It is going to be repaired"%string]
                               (set_m_bHasWarnedAboutHeaderRepair true s))))
                  else
                    log_events
                      [EvCPLError CE_Warning
                         "A corruption in the header has been detected. It would need to be repaired"%string]
                      (set_m_bHasWarnedAboutHeaderRepair true s) in
                Some (set_m_nHeaderBufferMaxSize nLen s)
            else Some s in
          match checked with
          | None =>
              fail_row [EvCPLError CE_Failure
                          "Invalid row length compared to the maximum size in the header"%string]
                       s
          | Some s =>
              (* suspicious lengths are compared with the file size *)
              let sized : bool * TableState :=
                if nLen >? m_nRowBufferMaxSize s then
                  let s := if (nLen >? 100 * 1024 * 1024)
                              && (m_nFileSize s =? 0)
                           then set_m_nFileSize (vsi_size (m_fpTable t)) s
                           else s in
                  if (nLen >? 100 * 1024 * 1024)
                     && (to_uint64 (nOffsetTable + 4 + nLen) >? m_nFileSize s)
                  then (false, s)
                  else (true, set_m_nRowBufferMaxSize nLen s)
                else (true, s) in
              match sized with
              | (false, s) =>
                  fail_row [EvCPLError CE_Failure "Invalid row length"%string] s
              | (true, s) =>
                  let resized : option TableState :=
                    if Z.of_nat (length (m_abyBuffer s))
                       <? nLen + ZEROES_AFTER_END_OF_BUFFER
                    then
                      if can_resize env (nLen + ZEROES_AFTER_END_OF_BUFFER)
                      then Some (set_m_abyBuffer
                                   (resize_buffer (m_abyBuffer s)
                                      (nLen + ZEROES_AFTER_END_OF_BUFFER)) s)
                      else None
                    else Some s in
                  match resized with
                  | None =>
                      fail_row [EvCPLError CE_Failure "out of memory"%string;
                                EvPrintError] s
                  | Some s =>
                      let s := log_events
                                 [EvRead GDBTABLE (nOffsetTable + 4) nLen] s in
                      match vsi_read (m_fpTable t) (nOffsetTable + 4) nLen with
                      | None =>
                          (* the bytes obtained are in the buffer *)
                          fail_row [EvPrintError]
                            (set_m_abyBuffer
                               (short_read (m_fpTable t) (nOffsetTable + 4)
                                  nLen (m_abyBuffer s)) s)
                      | Some data =>
                          let buf := blit data (m_abyBuffer s) in
                          let buf := store_at buf nLen x00 in
                          let buf := store_at buf (nLen + 1) x00 in
                          let buf := store_at buf (nLen + 2) x00 in
                          let buf := store_at buf (nLen + 3) x00 in
                          positioned (set_m_abyBuffer buf s)
                      end
                  end
              end
          end
      else positioned s
  end.

Definition SelectRow (s : TableState) (iRow : Z) : bool * TableState :=
  if (iRow <? 0) || (iRow >=? m_nTotalRecordCount t) then
    fail_row [EvPrintError] s
  else if m_nCurRow s =? iRow then (true, s)
  else
    let '(nOffsetTable, _, s) := GetOffsetInTableForRow s iRow in
    if nOffsetTable =? 0 then (false, set_m_nCurRow (-1) s)
    else SelectRow_load s iRow nOffsetTable.

(** *** GetFieldValue (lines 1992-2472) *)

Section FieldWalk.

Variable buf : list GByte.      (* m_abyBuffer *)
Variable pabyEnd : Z.           (* m_abyBuffer.data() + m_nRowBlobLength *)

(** What the switch of the skipping loop assigns to [nLength]: a constant,
    or the varuint read at the cursor. *)
Inductive FieldLength : Type :=
  | FixedLength (nLength : Z)
  | VarUIntLength.

Definition skipped_length (f : FileGDBField) : FieldLength :=
  match m_eType f with
  | FGFT_UNDEFINED => FixedLength 0
  | FGFT_OBJECTID => FixedLength 0
  | FGFT_STRING | FGFT_XML | FGFT_GEOMETRY | FGFT_BINARY => VarUIntLength
  | FGFT_RASTER =>
      match GetRasterType f with
      | RT_MANAGED => FixedLength 4
      | _ => VarUIntLength
      end
  | FGFT_INT16 => FixedLength 2
  | FGFT_INT32 => FixedLength 4
  | FGFT_FLOAT32 => FixedLength 4
  | FGFT_FLOAT64 => FixedLength 8
  | FGFT_DATETIME | FGFT_DATE | FGFT_TIME => FixedLength 8
  | FGFT_GUID | FGFT_GLOBALID => FixedLength UUID_SIZE_IN_BYTES
  | FGFT_INT64 => FixedLength 8
  | FGFT_DATETIME_WITH_OFFSET => FixedLength (8 + 2)
  end.

(** The cursor of a row: [m_pabyIterVals] and [m_iAccNullable]. *)
Record StepResult : Type := {
  st_ok : bool;                (* false: m_bError = TRUE; returnError() *)
  st_iter : Z;
  st_acc : Z;
  st_events : list Event
}.

(** One round of the loop "Skip previous fields". *)
Definition SkipField (f : FileGDBField) (pabyIterVals iAccNullable : Z)
  : StepResult :=
  let bIsNull := m_bNullable f && negb (TEST_BIT buf iAccNullable =? 0) in
  let iAccNullable :=
    if m_bNullable f then iAccNullable + 1 else iAccNullable in
  if bIsNull then
    {| st_ok := true; st_iter := pabyIterVals; st_acc := iAccNullable;
       st_events := [] |}
  else
    let advance (pabyIterVals nLength : Z) (evs : list Event) :=
      if nLength >? to_uint32 (pabyEnd - pabyIterVals) then
        {| st_ok := false; st_iter := pabyIterVals; st_acc := iAccNullable;
           st_events := evs ++ [EvPrintError] |}
      else
        {| st_ok := true; st_iter := pabyIterVals + nLength;
           st_acc := iAccNullable; st_events := evs |} in
    match skipped_length f with
    | FixedLength nLength => advance pabyIterVals nLength []
    | VarUIntLength =>
        let r := ReadVarUInt32 buf pabyIterVals pabyEnd 0 in
        let evs := if vr_printed r then [EvPrintError] else [] in
        if vr_ret r then advance (vr_iter r) (vr_out r) evs
        else {| st_ok := false; st_iter := vr_iter r; st_acc := iAccNullable;
                st_events := evs ++ [EvPrintError] |}
    end.

(** [for (int j = ...; ...; j++)] over the fields [fs], in order. *)
Fixpoint SkipFields (fs : list FileGDBField) (pabyIterVals iAccNullable : Z)
    (evs : list Event) : StepResult :=
  match fs with
  | [] => {| st_ok := true; st_iter := pabyIterVals; st_acc := iAccNullable;
             st_events := evs |}
  | f :: fs' =>
      let r := SkipField f pabyIterVals iAccNullable in
      if st_ok r then
        SkipFields fs' (st_iter r) (st_acc r) (evs ++ st_events r)
      else
        {| st_ok := false; st_iter := st_iter r; st_acc := st_acc r;
           st_events := evs ++ st_events r |}
  end.

(** The switch on the type of the requested field. *)
Record Decoded : Type := {
  dec_ok : bool;                            (* false: m_bError = TRUE *)
  dec_value : option (OGRField double date); (* what is returned *)
  dec_iter : Z;                             (* m_pabyIterVals afterwards *)
  dec_nul : bool;                           (* a NUL is written at dec_iter *)
  dec_events : list Event
}.

Definition dec_error (pabyIterVals : Z) (evs : list Event) : Decoded :=
  {| dec_ok := false; dec_value := None; dec_iter := pabyIterVals;
     dec_nul := false; dec_events := evs ++ [EvPrintError] |}.

Definition dec_plain (v : OGRField double date) (pabyIterVals : Z) : Decoded :=
  {| dec_ok := true; dec_value := Some v; dec_iter := pabyIterVals;
     dec_nul := false; dec_events := [] |}.

(** A value of fixed size [n]: the bounds test, then the reader. *)
Definition dec_fixed (n : Z) (pabyIterVals : Z)
    (v : OGRField double date) : Decoded :=
  if pabyIterVals + n >? pabyEnd then dec_error pabyIterVals []
  else dec_plain v (pabyIterVals + n).

(** A varuint length, the test against what is left, then [k] applied to
    the start and the length of the payload. *)
Definition dec_prefixed (pabyIterVals : Z) (k : Z -> Z -> Decoded)
  : Decoded :=
  let r := ReadVarUInt32 buf pabyIterVals pabyEnd 0 in
  let evs := if vr_printed r then [EvPrintError] else [] in
  if negb (vr_ret r) then dec_error (vr_iter r) evs
  else if vr_out r >? to_uint32 (pabyEnd - vr_iter r)
       then dec_error (vr_iter r) evs
       else
         let d := k (vr_iter r) (vr_out r) in
         {| dec_ok := dec_ok d; dec_value := dec_value d;
            dec_iter := dec_iter d; dec_nul := dec_nul d;
            dec_events := evs ++ dec_events d |}.

Definition DecodeField (bStringsAreUTF8 : bool) (f : FileGDBField)
    (pabyIterVals : Z) (sCurField : OGRField double date) : Decoded :=
  match m_eType f with
  | FGFT_UNDEFINED =>
      (* CPLAssert(false); break; *)
      dec_plain sCurField pabyIterVals
  | FGFT_OBJECTID =>
      {| dec_ok := true; dec_value := None; dec_iter := pabyIterVals;
         dec_nul := false; dec_events := [] |}
  | FGFT_STRING | FGFT_XML =>
      dec_prefixed pabyIterVals (fun p nLength =>
        if bStringsAreUTF8
           || negb (match m_eType f with FGFT_STRING => true | _ => false end)
        then
          {| dec_ok := true;
             dec_value := Some (OF_String (CString (bytes_at buf p nLength)));
             dec_iter := p + nLength; dec_nul := true; dec_events := [] |}
        else
          dec_plain
            (OF_String (ReadUTF16String
                          (bytes_at buf p (2 * Z.quot nLength 2))))
            (p + nLength))
  | FGFT_INT16 =>
      dec_fixed 2 pabyIterVals (OF_Integer (GetInt16 buf pabyIterVals))
  | FGFT_INT32 =>
      dec_fixed 4 pabyIterVals (OF_Integer (GetInt32 buf pabyIterVals))
  | FGFT_FLOAT32 =>
      dec_fixed 4 pabyIterVals
                (OF_Real (GetFloat32 (GetUIntLE buf pabyIterVals 4)))
  | FGFT_FLOAT64 =>
      dec_fixed 8 pabyIterVals
                (OF_Real (GetFloat64 (GetUIntLE buf pabyIterVals 8)))
  | FGFT_DATETIME | FGFT_DATE =>
      let dfVal := GetFloat64 (GetUIntLE buf pabyIterVals 8) in
      dec_fixed 8 pabyIterVals
                (if m_bReadAsDouble f then OF_Real dfVal
                 else OF_Date (FileGDBDoubleDateToOGRDate
                                 dfVal (IsHighPrecision f)))
  | FGFT_GEOMETRY | FGFT_BINARY =>
      dec_prefixed pabyIterVals (fun p nLength =>
        {| dec_ok := true;
           dec_value := Some (OF_Binary nLength (bytes_at buf p nLength));
           dec_iter := p + nLength; dec_nul := true; dec_events := [] |})
  | FGFT_RASTER =>
      match GetRasterType f with
      | RT_MANAGED =>
          dec_fixed 4 pabyIterVals (OF_Integer (GetInt32 buf pabyIterVals))
      | RT_EXTERNAL =>
          dec_prefixed pabyIterVals (fun p nLength =>
            dec_plain
              (OF_String (ReadUTF16String
                            (bytes_at buf p (2 * Z.quot nLength 2))))
              (p + nLength))
      | RT_INLINE =>
          dec_prefixed pabyIterVals (fun p nLength =>
            {| dec_ok := true;
               dec_value := Some (OF_Binary nLength (bytes_at buf p nLength));
               dec_iter := p + nLength; dec_nul := true;
               dec_events := [] |})
      end
  | FGFT_GUID | FGFT_GLOBALID =>
      dec_fixed UUID_SIZE_IN_BYTES pabyIterVals
                (OF_String (format_guid buf pabyIterVals))
  | FGFT_INT64 =>
      dec_fixed 8 pabyIterVals (OF_Integer64 (GetInt64 buf pabyIterVals))
  | FGFT_TIME =>
      let dfVal := GetFloat64 (GetUIntLE buf pabyIterVals 8) in
      dec_fixed 8 pabyIterVals
                (if m_bReadAsDouble f then OF_Real dfVal
                 else OF_Date (FileGDBDoubleTimeToOGRTime dfVal))
  | FGFT_DATETIME_WITH_OFFSET =>
      let dfVal := GetFloat64 (GetUIntLE buf pabyIterVals 8) in
      let nUTCOffset := GetInt16 buf (pabyIterVals + 8) in
      dec_fixed (8 + 2) pabyIterVals
                (if m_bReadAsDouble f
                 then OF_Real (SubtractUTCOffset dfVal nUTCOffset)
                 else OF_Date (FileGDBDateTimeWithOffsetToOGRDate
                                 dfVal nUTCOffset))
  end.

End FieldWalk.

(** The fields [m_apoFields[iFrom .. iTo-1]]. *)
Definition fields_between (iFrom iTo : Z) : list FileGDBField :=
  firstn (Z.to_nat (iTo - iFrom)) (skipn (Z.to_nat iFrom) (m_apoFields t)).

(** The end of GetFieldValue, from the null test of the requested field
    on; [m_nLastCol] has just been set. *)
Definition GetFieldValue_decode (s : TableState) (iCol pabyEnd : Z)
  : option (OGRField double date) * TableState :=
  let f := nth (Z.to_nat iCol) (m_apoFields t) UNUSED_FIELD in
  let bIsNull :=
    m_bNullable f
    && negb (TEST_BIT (m_abyBuffer s) (m_iAccNullable s) =? 0) in
  let s := if m_bNullable f
           then set_m_iAccNullable (m_iAccNullable s + 1) s else s in
  if bIsNull then (None, s)
  else
    let d := DecodeField (m_abyBuffer s) pabyEnd (m_bStringsAreUTF8 t) f
                         (m_pabyIterVals s) (m_sCurField s) in
    let s := log_events (dec_events d)
               (set_m_pabyIterVals (dec_iter d) s) in
    if negb (dec_ok d) then (None, set_m_bError true s)
    else
      let s :=
        if dec_nul d then
          set_m_abyBuffer (store_at (m_abyBuffer s) (dec_iter d) x00)
            (set_m_nChSaved (byte_at (m_abyBuffer s) (dec_iter d)) s)
        else s in
      match dec_value d with
      | None => (None, s)          (* FGFT_OBJECTID: return nullptr *)
      | Some v =>
          let s := set_m_sCurField v s in
          let s :=
            if (iCol =? Z.of_nat (length (m_apoFields t)) - 1)
               && (m_pabyIterVals s <? pabyEnd)
            then log_events
                   [EvCPLDebug "bytes remaining at end of record"%string] s
            else s in
          (Some v, s)
      end.

(** In case a string was previously read *)
Definition restore_saved_char (s : TableState) : TableState :=
  if m_nChSaved s >=? 0 then
    set_m_nChSaved (-1)
      (set_m_abyBuffer
         (store_at (m_abyBuffer s) (m_pabyIterVals s)
                   (byte_of_Z (m_nChSaved s))) s)
  else s.

(** [if (iCol <= m_nLastCol)]: back to the start of the row. *)
Definition rewind_if_behind (s : TableState) (iCol : Z) : TableState :=
  if iCol <=? m_nLastCol s then
    set_m_iAccNullable 0
      (set_m_pabyIterVals (m_nNullableFieldsSizeInBytes t)
         (set_m_nLastCol (-1) s))
  else s.

Definition GetFieldValue (s : TableState) (iCol : Z)
  : option (OGRField double date) * TableState :=
  if m_nCurRow s <? 0 then (None, log_events [EvPrintError] s)
  else if to_uint32 iCol >=? Z.of_nat (length (m_apoFields t)) then
    (None, log_events [EvPrintError] s)
  else if m_bError s then (None, log_events [EvPrintError] s)
  else
    let pabyEnd := m_nRowBlobLength s in
    let s := restore_saved_char s in
    let s := rewind_if_behind s iCol in
    (* Skip previous fields *)
    let sk := SkipFields (m_abyBuffer s) pabyEnd
                (fields_between (m_nLastCol s + 1) iCol)
                (m_pabyIterVals s) (m_iAccNullable s) [] in
    let s := log_events (st_events sk)
               (set_m_iAccNullable (st_acc sk)
                  (set_m_pabyIterVals (st_iter sk) s)) in
    if negb (st_ok sk) then (None, set_m_bError true s)
    else GetFieldValue_decode (set_m_nLastCol iCol s) iCol pabyEnd.

End Table.

(** An instance that leaves floating-point values uninterpreted: a double is
    kept as the bit pattern it was read from, a date as the pattern and the
    flag or offset it would be converted with.  It serves to run rows whose
    fields are integers, strings and blobs. *)
#[export] Instance uninterpreted_floats : FieldValueOps Z (Z * Z) := {|
  GetFloat32 := fun bits => bits;
  GetFloat64 := fun bits => bits;
  FileGDBDoubleDateToOGRDate := fun d hp => (d, if hp then 1 else 0);
  FileGDBDoubleTimeToOGRTime := fun d => (d, 0);
  FileGDBDateTimeWithOffsetToOGRDate := fun d off => (d, off);
  SubtractUTCOffset := fun d off => d;
  ReadUTF16String := fun bytes => bytes
|}.

(** The state of a table object on which nothing has been selected yet
    (constructor and member initialisers). *)
Definition initial_state {double date : Type} (buf : list GByte)
  : @TableState double date :=
  {| m_nCurRow := -1; m_nLastCol := -1; m_pabyIterVals := 0;
     m_iAccNullable := 0; m_bError := false; m_nChSaved := -1;
     m_nRowBlobLength := 0; m_abyBuffer := buf; m_sCurField := OF_Unset;
     m_bIsDeleted := false; m_nCountBlocksBeforeIBlockIdx := 0;
     m_nCountBlocksBeforeIBlockValue := 0; m_nHeaderBufferMaxSize := 0;
     m_nRowBufferMaxSize := 0; m_nFileSize := 0;
     m_bHasWarnedAboutHeaderRepair := false; m_bDirtyHeader := false;
     m_bDirtyIndices := false; m_events := [] |}.

(** ** Open: index total against header valid count (lines 918-965)

    [bTableXOpen] is [m_fpTableX != nullptr]; [bUseGdbtableRecordCount] is the
    configuration option OPENFILEGDB_USE_GDBTABLE_RECORD_COUNT (default
    false); [bDebugVerbose] stands for the compile-time DEBUG_VERBOSE.
    Returns the new [m_nTotalRecordCount] and [m_nValidRecordCount] and what
    was emitted. *)
Definition Open_reconcile_counts (bTableXOpen bUseGdbtableRecordCount
    bDebugVerbose : bool) (nTotalRecordCount nValidRecordCount : Z)
  : Z * Z * list Event :=
  if bTableXOpen then
    if nValidRecordCount >? nTotalRecordCount then
      if bUseGdbtableRecordCount then
        (* Potentially unsafe. See #5842 *)
        (nValidRecordCount, nValidRecordCount,
         [EvCPLDebug "nTotalRecordCount forced to nValidRecordCount"%string])
      else
        (* By default err on the safe side *)
        (nTotalRecordCount, nTotalRecordCount,
         [EvCPLError CE_Warning
            "File declares more valid records than the .gdbtablx declares total records. Using that later value for safety"%string])
    else if bDebugVerbose
            && negb (nTotalRecordCount =? nValidRecordCount) then
      (nTotalRecordCount, nValidRecordCount,
       [EvCPLDebug "nTotalRecordCount, nValidRecordCount"%string])
    else (nTotalRecordCount, nValidRecordCount, [])
  else (nTotalRecordCount, nValidRecordCount, []).

Definition is_warning (e : Event) : bool :=
  match e with
  | EvCPLError CE_Warning _ => true
  | _ => false
  end.

(** ** GuessFeatureLocations (lines 531-620) *)

Section RecoveryScan.

(** IsLikelyFeatureAtOffset (lines 257-521) seen from the scan: at an offset
    it either rejects, or accepts with [*pnSize] and [*pbDeletedRecord]. *)
Variable IsLikelyFeatureAtOffset : Z -> option (Z * bool).

(** Modelled from the spec: IS_VALID_LAYER_GEOM_TYPE compares with
    enumerators of filegdbtable.h, which is not part of the sources at
    hand. *)
Variable IS_VALID_LAYER_GEOM_TYPE : Z -> bool.

Variable fpTable : VSILFILE.
Variable bReportDeletedFeatures : bool.  (* OPENFILEGDB_REPORT_DELETED_FEATURES *)
Variable m_nFieldDescLength : Z.
Variable m_nOffsetFieldDesc : Z.

Record ScanState : Type := {
  sc_offsets : list Z;                  (* m_anFeatureOffsets *)
  sc_invalid : Z;                       (* nInvalidRecords *)
  sc_deleted_listed : bool              (* m_bHasDeletedFeaturesListed *)
}.

(** [while (nOffset < m_nFileSize)] *)
Fixpoint scan_loop (fuel : nat) (nFileSize nOffset : Z) (st : ScanState)
  : ScanState :=
  match fuel with
  | O => st
  | S fuel' =>
      if nOffset <? nFileSize then
        match IsLikelyFeatureAtOffset nOffset with
        | None => scan_loop fuel' nFileSize (nOffset + 1) st
        | Some (nSize, bDeletedRecord) =>
            let st :=
              if bDeletedRecord then
                if bReportDeletedFeatures then
                  {| sc_offsets := sc_offsets st ++ [MARK_DELETED nOffset];
                     sc_invalid := sc_invalid st;
                     sc_deleted_listed := true |}
                else
                  {| sc_offsets := sc_offsets st ++ [0];
                     sc_invalid := sc_invalid st + 1;
                     sc_deleted_listed := sc_deleted_listed st |}
              else
                {| sc_offsets := sc_offsets st ++ [nOffset];
                   sc_invalid := sc_invalid st;
                   sc_deleted_listed := sc_deleted_listed st |} in
            scan_loop fuel' nFileSize (to_uint64 (nOffset + nSize)) st
        end
      else st
  end.

Record GuessResult : Type := {
  gr_ret : bool;
  gr_offsets : list Z;                  (* m_anFeatureOffsets *)
  gr_total : Z;                         (* m_nTotalRecordCount *)
  gr_valid : Z;                         (* m_nValidRecordCount *)
  gr_deleted_listed : bool;             (* m_bHasDeletedFeaturesListed *)
  gr_events : list Event
}.

(** The reconciliation after the loop (lines 603-619). *)
Definition Guess_reconcile (st : ScanState) (nValidRecordCount : Z)
  : GuessResult :=
  let nTotalRecordCount := Z.of_nat (length (sc_offsets st)) in
  let nFound := nTotalRecordCount - sc_invalid st in
  if nFound >? nValidRecordCount then
    {| gr_ret := nTotalRecordCount >? 0;
       gr_offsets := sc_offsets st;
       gr_total := nTotalRecordCount;
       gr_valid := nFound;
       gr_deleted_listed := sc_deleted_listed st;
       gr_events :=
         if sc_deleted_listed st then []
         else [EvCPLError CE_Warning
                 "More features found than declared number of valid features. So deleted features will likely be reported."%string] |}
  else
    {| gr_ret := nTotalRecordCount >? 0;
       gr_offsets := sc_offsets st;
       gr_total := nTotalRecordCount;
       gr_valid := nValidRecordCount;
       gr_deleted_listed := sc_deleted_listed st;
       gr_events := [] |}.

(** Where the scan starts (lines 543-576): behind the field descriptions,
    or, when these are not at offset 40, at offset 40 or behind a deleted
    field description found there.  None when the read at offset 40
    fails. *)
Definition Guess_start : option Z :=
  if negb (m_nOffsetFieldDesc =? 40) then
    (* Check if there is a deleted field description at offset 40 *)
    match vsi_read fpTable 40 14 with
    | None => None
    | Some abyBuffer =>
        let nSize := GetInt32 abyBuffer 0 in
        let nVersion := GetInt32 abyBuffer 4 in
        if (nSize <? 0) && (nSize >? - (1024 * 1024))
           && ((nVersion =? 3) || (nVersion =? 4))
           && IS_VALID_LAYER_GEOM_TYPE (byte_at abyBuffer 8)
           && (byte_at abyBuffer 9 =? 3)
           && (byte_at abyBuffer 10 =? 0)
           && (byte_at abyBuffer 11 =? 0)
        then Some (40 + (- nSize))
        else Some 40
    end
  else Some (to_uint64 (40 + m_nFieldDescLength)).

(** [offsets0], [bListed0] are [m_anFeatureOffsets] and
    [m_bHasDeletedFeaturesListed] on entry. *)
Definition GuessFeatureLocations (offsets0 : list Z) (bListed0 : bool)
    (nValidRecordCount : Z) : GuessResult :=
  let nFileSize := vsi_size fpTable in
  let failed :=
    {| gr_ret := false; gr_offsets := offsets0;
       gr_total := Z.of_nat (length offsets0); gr_valid := nValidRecordCount;
       gr_deleted_listed := bListed0; gr_events := [] |} in
  match Guess_start with
  | None => failed
  | Some nOffset =>
      let st := scan_loop (Z.to_nat (nFileSize - nOffset)) nFileSize nOffset
                  {| sc_offsets := offsets0; sc_invalid := 0;
                     sc_deleted_listed := bListed0 |} in
      Guess_reconcile st nValidRecordCount
  end.

(** *** The records of the file as the scan meets them *)

(** A record the scan accepts: where it starts, [*pnSize] and
    [*pbDeletedRecord]. *)
Definition ScannedRecord : Type := (Z * Z * bool)%type.

(** The records met from [nOffset] on, in the order of the file: the walk
    moves by one byte where nothing is accepted and by the size of the
    record where one is. *)
Fixpoint accepted_records (fuel : nat) (nFileSize nOffset : Z)
  : list ScannedRecord :=
  match fuel with
  | O => []
  | S fuel' =>
      if nOffset <? nFileSize then
        match IsLikelyFeatureAtOffset nOffset with
        | None => accepted_records fuel' nFileSize (nOffset + 1)
        | Some (nSize, bDeletedRecord) =>
            (nOffset, nSize, bDeletedRecord)
            :: accepted_records fuel' nFileSize (to_uint64 (nOffset + nSize))
        end
      else []
  end.

(** The records of the whole scan. *)
Definition scanned_records : list ScannedRecord :=
  match Guess_start with
  | None => []
  | Some nOffset =>
      accepted_records (Z.to_nat (vsi_size fpTable - nOffset))
                       (vsi_size fpTable) nOffset
  end.

(** A deleted record that is not reported is not counted among the
    features found, and gets a row without offset. *)
Definition record_hidden (rec : ScannedRecord) : bool :=
  snd rec && negb bReportDeletedFeatures.

Definition records_found (recs : list ScannedRecord) : Z :=
  Z.of_nat (length (filter (fun rec => negb (record_hidden rec)) recs)).

(** A deleted record that is reported. *)
Definition record_listed (rec : ScannedRecord) : bool :=
  snd rec && bReportDeletedFeatures.

End RecoveryScan.

(** A table file of 64 bytes whose scan accepts one record of 10 bytes at
    offset 54, or, in the second run, one deleted record at 44 and one
    record at 54. *)
Definition scan_one_record (nOffset : Z) : option (Z * bool) :=
  if nOffset =? 54 then Some (10, false) else None.

Definition scan_deleted_then_record (nOffset : Z) : option (Z * bool) :=
  if nOffset =? 44 then Some (10, true)
  else if nOffset =? 54 then Some (10, false) else None.

(** ** Row resolution as the specification words it *)

Definition block_present (map : list GByte) (iBlock : Z) : bool :=
  negb (TEST_BIT map iBlock =? 0).

(** Number of blocks marked present among blocks [0 .. n-1]. *)
Fixpoint present_blocks_before_nat (map : list GByte) (n : nat) : Z :=
  match n with
  | O => 0
  | S n' => present_blocks_before_nat map n'
            + (if block_present map (Z.of_nat n') then 1 else 0)
  end.

Definition present_blocks_before (map : list GByte) (iBlock : Z) : Z :=
  present_blocks_before_nat map (Z.to_nat iBlock).

(** The entry read at a byte offset of the index file; 0 on an I/O error. *)
Definition index_entry (fpTableX : VSILFILE) (nEntryWidth nOffset : Z) : Z :=
  match vsi_read fpTableX nOffset nEntryWidth with
  | Some abyBuffer => ReadFeatureOffset abyBuffer
  | None => 0
  end.

Definition resolve_offset (t : TableDesc) (fpTableX : VSILFILE) (iRow : Z)
  : Z :=
  let w := m_nTablxOffsetSize t in
  if (iRow <? 0) || (iRow >=? m_nTotalRecordCount t) then 0
  else
    match m_abyTablXBlockMap t with
    | [] => index_entry fpTableX w (16 + w * iRow)
    | _ :: _ =>
        if block_present (m_abyTablXBlockMap t) (iRow / 1024) then
          let correctedRow :=
            1024 * present_blocks_before (m_abyTablXBlockMap t) (iRow / 1024)
            + iRow mod 1024 in
          index_entry fpTableX w (16 + w * correctedRow)
        else 0
    end.

(** The index files on which the offset computed in 64 bits and in an
    [int] block number is the offset of the formula: entries of 4 to 6
    bytes; every entry at an offset below 2^64; and, when there is a block
    map, at most 2^31 blocks of rows, each with its bit in the map.
    ReadTableXHeaderV3 accepts no other index.  ReadTableXHeaderV4 puts no
    bound on the row count it takes from a trailer without bitmap section
    (line 754), and the row count forced by
    OPENFILEGDB_USE_GDBTABLE_RECORD_COUNT (line 931) can pass the end of
    the block map. *)
Definition index_well_formed (t : TableDesc) : Prop :=
  4 <= m_nTablxOffsetSize t <= 6 /\
  16 + m_nTablxOffsetSize t * m_nTotalRecordCount t <= 2 ^ 64 /\
  (m_abyTablXBlockMap t <> [] ->
   m_nTotalRecordCount t <= 2 ^ 41 /\
   m_nTotalRecordCount t
   <= 8192 * Z.of_nat (length (m_abyTablXBlockMap t))).

(** The incremental counter agrees with the block map. *)
Definition block_cache_ok {double date : Type} (t : TableDesc)
    (s : @TableState double date) : Prop :=
  0 <= m_nCountBlocksBeforeIBlockIdx s < 2 ^ 31 /\
  m_nCountBlocksBeforeIBlockValue s
  = present_blocks_before (m_abyTablXBlockMap t)
                          (m_nCountBlocksBeforeIBlockIdx s).

(** The state after resolving the rows [rows], in order. *)
Definition after_queries {double date : Type} (t : TableDesc)
    (s : @TableState double date) (rows : list Z) : @TableState double date :=
  fold_left (fun s iRow => snd (GetOffsetInTableForRow t s iRow)) rows s.

(** ** A small table used in examples *)

Fixpoint le_bytes (v : Z) (n : nat) : list GByte :=
  match n with
  | O => []
  | S n' => byte_of_Z v :: le_bytes (v / 256) n'
  end.

(** An index file whose entry number [k] holds the offset [1000 + k]. *)
Definition example_tablx : VSILFILE :=
  {| vsi_read := fun nOffset nSize =>
       if (16 <=? nOffset) && (nSize =? 4)
       then Some (le_bytes (1000 + (nOffset - 16) / 4) 4)
       else None;
     vsi_short := fun _ _ => [];
     vsi_size := 16 + 4 * 2048 |}.

(** 3072 rows in three blocks of 1024, of which blocks 0 and 2 are stored
    (block map 00000101). *)
Definition example_sparse_table : TableDesc :=
  {| m_apoFields := []; m_bStringsAreUTF8 := true; m_bUpdate := false;
     m_nTotalRecordCount := 3072;
     m_fpTable := file_of_bytes [];
     m_fpTableX := Some example_tablx;
     m_nTablxOffsetSize := 4;
     m_abyTablXBlockMap := [x05];
     m_anFeatureOffsets := [] |}.

(** ** Sequences of calls, and what SelectRow is given *)

Section Calls.

Context {double date : Type} {fops : FieldValueOps double date}.
Variable t : TableDesc.

(** GetFieldValue on the columns [cols], in order: the values returned and
    the final state. *)
Fixpoint GetFieldValues (s : @TableState double date) (cols : list Z)
  : list (option (OGRField double date)) * @TableState double date :=
  match cols with
  | [] => ([], s)
  | iCol :: cols' =>
      let '(v, s) := GetFieldValue t s iCol in
      let '(vs, s) := GetFieldValues s cols' in
      (v :: vs, s)
  end.

(** The row blob length SelectRow works with for a row it has to load: the
    4-byte prefix at the resolved offset, negated back for a deleted
    record.  None when the row is out of range, absent, or the prefix cannot
    be read. *)
Definition declared_row_length (s : @TableState double date) (iRow : Z)
  : option Z :=
  if (iRow <? 0) || (iRow >=? m_nTotalRecordCount t) then None
  else
    let '(nOffsetTable, _, s1) := GetOffsetInTableForRow t s iRow in
    if nOffsetTable =? 0 then None
    else
      match vsi_read (m_fpTable t) nOffsetTable 4 with
      | None => None
      | Some abyBuffer =>
          let nLen := GetUInt32 abyBuffer 0 in
          Some (if m_bIsDeleted s1 then to_uint32 (- to_int32 nLen) else nLen)
      end.

End Calls.

(** The reads of the table file among the events. *)
Definition table_reads (evs : list Event) : list (Z * Z) :=
  flat_map (fun e => match e with
                     | EvRead GDBTABLE nOffset nSize => [(nOffset, nSize)]
                     | _ => []
                     end) evs.

Definition example_env : Environment :=
  {| OGR_OPENFILEGDB_ERROR_ON_INCONSISTENT_BUFFER_MAX_SIZE := false;
     can_resize := fun _ => true |}.

Definition example_field (eType : FileGDBFieldType) (bNullable : bool)
  : FileGDBField :=
  {| m_eType := eType; m_bNullable := bNullable; m_bReadAsDouble := false;
     IsHighPrecision := false; GetRasterType := RT_EXTERNAL |}.

(** A one-row table stored with a .gdbtablx: the row starts at offset 40 of
    the table file, which holds [row] there. *)
Definition example_one_row_table (fields : list FileGDBField)
    (row : list GByte) : TableDesc :=
  {| m_apoFields := fields; m_bStringsAreUTF8 := true; m_bUpdate := false;
     m_nTotalRecordCount := 1;
     m_fpTable := file_of_bytes (repeat x00 40 ++ row);
     m_fpTableX := Some (file_of_bytes (repeat x00 16 ++ le_bytes 40 4));
     m_nTablxOffsetSize := 4;
     m_abyTablXBlockMap := [];
     m_anFeatureOffsets := [] |}.

(** ** Decoding a row from scratch *)

Section RowWalk.

Context {double date : Type} {fops : FieldValueOps double date}.
Variable t : TableDesc.

Definition valid_column (iCol : Z) : Prop :=
  0 <= iCol < Z.of_nat (length (m_apoFields t)).

(** Open never stores a field of type FGFT_UNDEFINED (a type byte is
    unsigned and FGFT_UNDEFINED is not one of the values accepted). *)
Definition no_undefined_field : Prop :=
  Forall (fun f => m_eType f <> FGFT_UNDEFINED) (m_apoFields t).

(** The state SelectRow leaves when it has loaded a row: cursor at the start
    of the values, nothing decoded, no error, no byte saved. *)
Definition fresh_selection (s : @TableState double date) : Prop :=
  0 <= m_nCurRow s /\ m_nLastCol s = -1 /\
  m_pabyIterVals s = m_nNullableFieldsSizeInBytes t /\
  m_iAccNullable s = 0 /\ m_bError s = false /\ m_nChSaved s = -1 /\
  0 <= m_nRowBlobLength s < 2 ^ 31.

(** Position of field [iCol] among the nullable fields: the index of its bit
    in the bitmask. *)
Definition nullable_rank (iCol : Z) : Z :=
  Z.of_nat (length (filter m_bNullable
                           (firstn (Z.to_nat iCol) (m_apoFields t)))).

Variable B : list GByte.      (* the row buffer as SelectRow filled it *)
Variable nLen : Z.            (* m_nRowBlobLength *)

(** The cursor in front of column [iCol] when columns 0 .. iCol-1 are
    skipped from the start of the row. *)
Definition walk (iCol : Z) : StepResult :=
  SkipFields B nLen (fields_between t 0 iCol)
             (m_nNullableFieldsSizeInBytes t) 0 [].

Record ColumnResult : Type := {
  cr_ok : bool;
  cr_value : option (OGRField double date);
  cr_iter : Z;
  cr_acc : Z;
  cr_nul : bool
}.

(** Column [iCol] decoded from scratch. *)
Definition column_result (iCol : Z) (sCurField : OGRField double date)
  : ColumnResult :=
  let w := walk iCol in
  if negb (st_ok w) then
    {| cr_ok := false; cr_value := None; cr_iter := st_iter w;
       cr_acc := st_acc w; cr_nul := false |}
  else
    let f := nth (Z.to_nat iCol) (m_apoFields t) UNUSED_FIELD in
    let bIsNull := m_bNullable f && negb (TEST_BIT B (st_acc w) =? 0) in
    let acc := if m_bNullable f then st_acc w + 1 else st_acc w in
    if bIsNull then
      {| cr_ok := true; cr_value := None; cr_iter := st_iter w;
         cr_acc := acc; cr_nul := false |}
    else
      let d := DecodeField B nLen (m_bStringsAreUTF8 t) f (st_iter w)
                           sCurField in
      {| cr_ok := dec_ok d;
         cr_value := if dec_ok d then dec_value d else None;
         cr_iter := dec_iter d; cr_acc := acc;
         cr_nul := dec_ok d && dec_nul d |}.

(** The buffer with the byte saved by the last string restored. *)
Definition restored_buffer (s : @TableState double date) : list GByte :=
  if m_nChSaved s >=? 0 then
    store_at (m_abyBuffer s) (m_pabyIterVals s) (byte_of_Z (m_nChSaved s))
  else m_abyBuffer s.

(** What holds of the state between two calls of GetFieldValue on the row:
    the buffer is the row up to the NUL of the last string, and the cursor
    is where a walk from the start would be after column [m_nLastCol]. *)
Definition cursor_consistent (s : @TableState double date) : Prop :=
  0 <= m_nCurRow s /\ m_bError s = false /\
  m_nRowBlobLength s = nLen /\
  restored_buffer s = B /\
  -1 <= m_nLastCol s < Z.of_nat (length (m_apoFields t)) /\
  st_ok (walk (m_nLastCol s + 1)) = true /\
  st_iter (walk (m_nLastCol s + 1)) = m_pabyIterVals s /\
  st_acc (walk (m_nLastCol s + 1)) = m_iAccNullable s /\
  -1 <= m_nChSaved s < 256 /\
  0 <= m_pabyIterVals s.

End RowWalk.

(** A row is well formed when each of its columns decodes without error
    right after the selection. *)
Definition row_well_formed {double date : Type}
    {fops : FieldValueOps double date} (t : TableDesc)
    (s0 : @TableState double date) : Prop :=
  forall iCol, valid_column t iCol ->
               m_bError (snd (GetFieldValue t s0 iCol)) = false.

(** ** Example rows *)

(** A table of two fields, an int32 that is not nullable and a nullable
    string, with one row: the bitmask byte [mask], the int32 42 and the
    string A behind its length. *)
Definition example_int_string_table (mask : GByte) : TableDesc :=
  example_one_row_table
    [example_field FGFT_INT32 false; example_field FGFT_STRING true]
    (le_bytes 7 4 ++ [mask; x2a; x00; x00; x00; x01; x41]).

(** The same table with a row that stops after the int32: the string is
    absent from the values. *)
Definition example_int_null_table (mask : GByte) : TableDesc :=
  example_one_row_table
    [example_field FGFT_INT32 false; example_field FGFT_STRING true]
    (le_bytes 5 4 ++ [mask; x2a; x00; x00; x00]).

(** The state after row 0 of [t] has been selected on a new table object. *)
Definition example_selected (t : TableDesc)
  : @TableState Z (Z * Z) :=
  snd (SelectRow t example_env (initial_state []) 0).

(** A table of [n] nullable int32 fields whose only row declares the blob
    length [nLen] and holds [row]. *)
Definition example_nullable_table (n : nat) (nLen : Z) (row : list GByte)
  : TableDesc :=
  example_one_row_table (repeat (example_field FGFT_INT32 true) n)
                        (le_bytes nLen 4 ++ row).

(** A table of one nullable int32 field and two rows.  Row 0, at offset 40,
    declares one byte, the bitmask 01: its field is null.  Row 1, at
    offset 45, declares the length 0. *)
Definition example_empty_row_table : TableDesc :=
  {| m_apoFields := [example_field FGFT_INT32 true];
     m_bStringsAreUTF8 := true; m_bUpdate := false;
     m_nTotalRecordCount := 2;
     m_fpTable := file_of_bytes (repeat x00 40 ++ le_bytes 1 4 ++ [x01]
                                 ++ le_bytes 0 4);
     m_fpTableX := Some (file_of_bytes (repeat x00 16 ++ le_bytes 40 4
                                        ++ le_bytes 45 4));
     m_nTablxOffsetSize := 4;
     m_abyTablXBlockMap := [];
     m_anFeatureOffsets := [] |}.

(** An index without block map as ReadTableXHeaderV4 accepts it, of
    2^63 - 1 rows with entries of 4 bytes; the file holds the entry of row
    0 only, the offset 40. *)
Definition example_wrapping_table : TableDesc :=
  {| m_apoFields := []; m_bStringsAreUTF8 := true; m_bUpdate := false;
     m_nTotalRecordCount := 2 ^ 63 - 1;
     m_fpTable := file_of_bytes (repeat x00 64);
     m_fpTableX := Some (file_of_bytes (repeat x00 16 ++ le_bytes 40 4));
     m_nTablxOffsetSize := 4;
     m_abyTablXBlockMap := [];
     m_anFeatureOffsets := [] |}.

(** ** Reading a member after assignments *)

Ltac state_simpl :=
  cbn [m_nCurRow m_nLastCol m_pabyIterVals m_iAccNullable m_bError
       m_nChSaved m_nRowBlobLength m_abyBuffer m_sCurField m_bIsDeleted
       m_nCountBlocksBeforeIBlockIdx m_nCountBlocksBeforeIBlockValue
       m_nHeaderBufferMaxSize m_nRowBufferMaxSize m_nFileSize
       m_bHasWarnedAboutHeaderRepair m_bDirtyHeader m_bDirtyIndices
       m_events set_m_nCurRow set_m_nLastCol set_m_pabyIterVals
       set_m_iAccNullable set_m_bError set_m_nChSaved set_m_nRowBlobLength
       set_m_abyBuffer set_m_sCurField set_m_bIsDeleted
       set_m_nCountBlocksBeforeIBlockIdx
       set_m_nCountBlocksBeforeIBlockValue set_m_nHeaderBufferMaxSize
       set_m_nRowBufferMaxSize set_m_nFileSize
       set_m_bHasWarnedAboutHeaderRepair set_m_bDirtyHeader
       set_m_bDirtyIndices set_m_events log_events].

Ltac state_simpl_in H :=
  cbn [m_nCurRow m_nLastCol m_pabyIterVals m_iAccNullable m_bError
       m_nChSaved m_nRowBlobLength m_abyBuffer m_sCurField m_bIsDeleted
       m_nCountBlocksBeforeIBlockIdx m_nCountBlocksBeforeIBlockValue
       m_nHeaderBufferMaxSize m_nRowBufferMaxSize m_nFileSize
       m_bHasWarnedAboutHeaderRepair m_bDirtyHeader m_bDirtyIndices
       m_events set_m_nCurRow set_m_nLastCol set_m_pabyIterVals
       set_m_iAccNullable set_m_bError set_m_nChSaved set_m_nRowBlobLength
       set_m_abyBuffer set_m_sCurField set_m_bIsDeleted
       set_m_nCountBlocksBeforeIBlockIdx
       set_m_nCountBlocksBeforeIBlockValue set_m_nHeaderBufferMaxSize
       set_m_nRowBufferMaxSize set_m_nFileSize
       set_m_bHasWarnedAboutHeaderRepair set_m_bDirtyHeader
       set_m_bDirtyIndices set_m_events log_events] in H.

(** ** SkipVarUInt (lines 1445-1464) *)

(** The inner [while (true)]: bytes are passed until one has its top bit
    clear.  A byte outside the buffer reads as 0, so the loop stops at the
    latest one byte after the buffer: [fuel] counts the rounds left. *)
Fixpoint SkipVarUInt_bytes (fuel : nat) (buf : list GByte)
    (pabyLocalIter : Z) : Z :=
  match fuel with
  | O => pabyLocalIter
  | S fuel' =>
      let b := byte_at buf pabyLocalIter in
      let pabyLocalIter := pabyLocalIter + 1 in
      if Z.land b 128 =? 0 then pabyLocalIter
      else SkipVarUInt_bytes fuel' buf pabyLocalIter
  end.

(** [while (nIter-- > 0)] *)
Fixpoint SkipVarUInt_iter (nIter : nat) (buf : list GByte)
    (pabyLocalIter : Z) : Z :=
  match nIter with
  | O => pabyLocalIter
  | S nIter' =>
      SkipVarUInt_iter nIter' buf
        (SkipVarUInt_bytes (S (length buf)) buf pabyLocalIter)
  end.

Record SkipResult : Type := {
  sv_ret : bool;
  sv_iter : Z;                 (* pabyIter afterwards *)
  sv_printed : bool            (* returnErrorIf *)
}.

(** The bound is tested once, on entry ("Bound check only valid if
    nIter <= 4"). *)
Definition SkipVarUInt (buf : list GByte) (pabyIter pabyEnd : Z) (nIter : Z)
  : SkipResult :=
  if pabyIter >=? pabyEnd then
    {| sv_ret := false; sv_iter := pabyIter; sv_printed := true |}
  else
    {| sv_ret := true;
       sv_iter := SkipVarUInt_iter (Z.to_nat nIter) buf pabyIter;
       sv_printed := false |}.

(** Where [n] successive calls of ReadVarUInt64NoCheck leave the cursor,
    when none of them runs into the width of the type. *)
Fixpoint varuints_end (n : nat) (buf : list GByte) (pabyIter : Z)
  : option Z :=
  match n with
  | O => Some pabyIter
  | S n' =>
      let r := ReadVarUInt64NoCheck buf pabyIter 0 in
      if vr_ret r then varuints_end n' buf (vr_iter r) else None
  end.

(** ** ReadPartDefs (lines 3282-3332) *)

(** The by-reference arguments, the members [panPointCount] and
    [nPointCountMax] of the converter, and what the call leaves behind.
    [pd_overrun] records a store outside the block [panPointCount]. *)
Record PartDefsState : Type := {
  pd_pabyCur : Z;
  pd_nPoints : Z;
  pd_nParts : Z;
  pd_nCurves : Z;
  pd_panPointCount : list Z;
  pd_nPointCountMax : Z;
  pd_events : list Event;
  pd_overrun : bool
}.

Definition set_pd_pabyCur (v : Z) (st : PartDefsState) : PartDefsState :=
  {| pd_pabyCur := v; pd_nPoints := pd_nPoints st; pd_nParts := pd_nParts st;
     pd_nCurves := pd_nCurves st; pd_panPointCount := pd_panPointCount st;
     pd_nPointCountMax := pd_nPointCountMax st; pd_events := pd_events st;
     pd_overrun := pd_overrun st |}.

Definition set_pd_nPoints (v : Z) (st : PartDefsState) : PartDefsState :=
  {| pd_pabyCur := pd_pabyCur st; pd_nPoints := v; pd_nParts := pd_nParts st;
     pd_nCurves := pd_nCurves st; pd_panPointCount := pd_panPointCount st;
     pd_nPointCountMax := pd_nPointCountMax st; pd_events := pd_events st;
     pd_overrun := pd_overrun st |}.

Definition set_pd_nParts (v : Z) (st : PartDefsState) : PartDefsState :=
  {| pd_pabyCur := pd_pabyCur st; pd_nPoints := pd_nPoints st; pd_nParts := v;
     pd_nCurves := pd_nCurves st; pd_panPointCount := pd_panPointCount st;
     pd_nPointCountMax := pd_nPointCountMax st; pd_events := pd_events st;
     pd_overrun := pd_overrun st |}.

Definition set_pd_nCurves (v : Z) (st : PartDefsState) : PartDefsState :=
  {| pd_pabyCur := pd_pabyCur st; pd_nPoints := pd_nPoints st;
     pd_nParts := pd_nParts st; pd_nCurves := v;
     pd_panPointCount := pd_panPointCount st;
     pd_nPointCountMax := pd_nPointCountMax st; pd_events := pd_events st;
     pd_overrun := pd_overrun st |}.

Definition set_pd_block (block : list Z) (nMax : Z) (st : PartDefsState)
  : PartDefsState :=
  {| pd_pabyCur := pd_pabyCur st; pd_nPoints := pd_nPoints st;
     pd_nParts := pd_nParts st; pd_nCurves := pd_nCurves st;
     pd_panPointCount := block; pd_nPointCountMax := nMax;
     pd_events := pd_events st; pd_overrun := pd_overrun st |}.

Definition pd_log (evs : list Event) (st : PartDefsState) : PartDefsState :=
  {| pd_pabyCur := pd_pabyCur st; pd_nPoints := pd_nPoints st;
     pd_nParts := pd_nParts st; pd_nCurves := pd_nCurves st;
     pd_panPointCount := pd_panPointCount st;
     pd_nPointCountMax := pd_nPointCountMax st;
     pd_events := pd_events st ++ evs; pd_overrun := pd_overrun st |}.

Fixpoint array_store (block : list Z) (n : nat) (v : Z) : list Z :=
  match block, n with
  | [], _ => []
  | _ :: tl, O => v :: tl
  | hd :: tl, S n' => hd :: array_store tl n' v
  end.

(** [panPointCount[i] = v] *)
Definition pd_store (i v : Z) (st : PartDefsState) : PartDefsState :=
  if (0 <=? i) && (i <? Z.of_nat (length (pd_panPointCount st))) then
    {| pd_pabyCur := pd_pabyCur st; pd_nPoints := pd_nPoints st;
       pd_nParts := pd_nParts st; pd_nCurves := pd_nCurves st;
       pd_panPointCount := array_store (pd_panPointCount st) (Z.to_nat i) v;
       pd_nPointCountMax := pd_nPointCountMax st;
       pd_events := pd_events st; pd_overrun := pd_overrun st |}
  else
    {| pd_pabyCur := pd_pabyCur st; pd_nPoints := pd_nPoints st;
       pd_nParts := pd_nParts st; pd_nCurves := pd_nCurves st;
       pd_panPointCount := pd_panPointCount st;
       pd_nPointCountMax := pd_nPointCountMax st;
       pd_events := pd_events st; pd_overrun := true |}.

Section ReadPartDefs.

(** [VSI_REALLOC_VERBOSE(block, nBytes)]: the new block, or nullptr. *)
Variable VSI_REALLOC_VERBOSE : list Z -> Z -> option (list Z).
Variable buf : list GByte.
Variable pabyEnd : Z.

(** [returnErrorIf(cond)] when [cond] holds. *)
Definition pd_error (st : PartDefsState) : bool * PartDefsState :=
  (false, pd_log [EvPrintError] st).

(** [ReadVarUInt32(pabyCur, pabyEnd, x)] for the by-reference argument or
    local [x] read by [get] and written by [set]. *)
Definition pd_ReadVarUInt32 (get : PartDefsState -> Z)
    (set : Z -> PartDefsState -> PartDefsState) (st : PartDefsState)
  : bool * PartDefsState :=
  let r := ReadVarUInt32 buf (pd_pabyCur st) pabyEnd (get st) in
  let st := set (vr_out r) (set_pd_pabyCur (vr_iter r) st) in
  (vr_ret r, if vr_printed r then pd_log [EvPrintError] st else st).

(** [SkipVarUInt(pabyCur, pabyEnd, nIter)] *)
Definition pd_SkipVarUInt (nIter : Z) (st : PartDefsState)
  : bool * PartDefsState :=
  let r := SkipVarUInt buf (pd_pabyCur st) pabyEnd nIter in
  let st := set_pd_pabyCur (sv_iter r) st in
  (sv_ret r, if sv_printed r then pd_log [EvPrintError] st else st).

(** [static_cast<size_t>(pabyEnd - pabyCur)] *)
Definition pd_remaining (st : PartDefsState) : Z :=
  to_uint64 (pabyEnd - pd_pabyCur st).

(** [for (i = 0; i < nParts - 1; i++)], with [n] rounds left; the third
    component is [nSumNPartsM1]. *)
Fixpoint ReadPartDefs_loop (n : nat) (i : Z) (st : PartDefsState)
    (nSumNPartsM1 : Z) : bool * PartDefsState * Z :=
  match n with
  | O => (true, st, nSumNPartsM1)
  | S n' =>
      let r := ReadVarUInt32 buf (pd_pabyCur st) pabyEnd 0 in
      let st := set_pd_pabyCur (vr_iter r) st in
      let st := if vr_printed r then pd_log [EvPrintError] st else st in
      if negb (vr_ret r) then (false, pd_log [EvPrintError] st, nSumNPartsM1)
      else
        let nTmp := vr_out r in
        if nTmp >? pd_remaining st then
          (false, pd_log [EvPrintError] st, nSumNPartsM1)
        else
          let st := pd_store i nTmp st in
          ReadPartDefs_loop n' (to_uint32 (i + 1)) st
                            (to_uint64 (nSumNPartsM1 + nTmp))
  end.

Definition ReadPartDefs (st : PartDefsState)
    (bHasCurveDesc bIsMultiPatch : bool) : bool * PartDefsState :=
  let (ok, st) := pd_ReadVarUInt32 pd_nPoints set_pd_nPoints st in
  if negb ok then pd_error st
  else if pd_nPoints st =? 0 then
    (true, set_pd_nCurves 0 (set_pd_nParts 0 st))
  else if pd_nPoints st >? pd_remaining st then pd_error st
  else
    let (ok, st) :=
      if bIsMultiPatch then pd_SkipVarUInt 1 st else (true, st) in
    if negb ok then pd_error st
    else
      let (ok, st) := pd_ReadVarUInt32 pd_nParts set_pd_nParts st in
      if negb ok then pd_error st
      else if pd_nParts st >? pd_remaining st then pd_error st
      else if pd_nParts st >? Z.quot INT_MAX 4 - 1 then pd_error st
      else
        let (ok, st) :=
          if bHasCurveDesc then
            let (ok, st) := pd_ReadVarUInt32 pd_nCurves set_pd_nCurves st in
            if negb ok then pd_error st
            else if pd_nCurves st >? pd_remaining st then pd_error st
            else (true, st)
          else (true, set_pd_nCurves 0 st) in
        if negb ok then (false, st)
        else if pd_nParts st =? 0 then (true, st)
        else
          let (ok, st) := pd_SkipVarUInt 4 st in
          if negb ok then pd_error st
          else
            let (ok, st) :=
              if pd_nParts st >? pd_nPointCountMax st then
                match VSI_REALLOC_VERBOSE (pd_panPointCount st)
                        (to_uint64 (pd_nParts st * 4)) with
                | None => pd_error st
                | Some panPointCountNew =>
                    (true, set_pd_block panPointCountNew (pd_nParts st) st)
                end
              else (true, st) in
            if negb ok then (false, st)
            else
              let '(ok, st, nSumNPartsM1) :=
                ReadPartDefs_loop (Z.to_nat (pd_nParts st - 1)) 0 st 0 in
              if negb ok then (false, st)
              else if nSumNPartsM1 >? pd_nPoints st then pd_error st
              else
                (true,
                 pd_store (to_uint32 (pd_nParts st - 1))
                          (to_uint32 (to_uint64 (pd_nPoints st - nSumNPartsM1)))
                          st).

End ReadPartDefs.

(** A converter that has not read any geometry yet. *)
Definition fresh_part_defs (pabyCur : Z) : PartDefsState :=
  {| pd_pabyCur := pabyCur; pd_nPoints := 0; pd_nParts := 0; pd_nCurves := 0;
     pd_panPointCount := []; pd_nPointCountMax := 0; pd_events := [];
     pd_overrun := false |}.

(** An allocator that always succeeds and hands out zeroed memory. *)
Definition example_realloc (block : list Z) (nBytes : Z) : option (list Z) :=
  Some (firstn (Z.to_nat (nBytes / 4))
               (block ++ repeat 0 (Z.to_nat (nBytes / 4)))).

(** Five points in two parts of 3 and 2 points; four varuints of extent
    follow the counts of points and parts. *)
Definition example_part_defs : list GByte :=
  [x05; x02; x00; x00; x00; x00; x03; x00; x00; x00].

(** The number of points the first [nParts] entries of the block stand
    for. *)
Definition points_in_parts (block : list Z) (nParts : Z) : Z :=
  fold_right Z.add 0 (firstn (Z.to_nat nParts) block).

(** The block [panPointCount] is the same in both states. *)
Definition pd_frame (st st' : PartDefsState) : Prop :=
  pd_panPointCount st' = pd_panPointCount st /\
  pd_nPointCountMax st' = pd_nPointCountMax st /\
  pd_overrun st' = pd_overrun st.

(** ** ReadTableXHeaderV3 (lines 626-712) *)

(** The members the header readers assign. *)
Record TableXState : Type := {
  tx_n1024BlocksPresent : Z;        (* m_n1024BlocksPresent *)
  tx_nTotalRecordCount : Z;         (* m_nTotalRecordCount *)
  tx_nTablxOffsetSize : Z;          (* m_nTablxOffsetSize *)
  tx_nOffsetTableXTrailer : Z;      (* m_nOffsetTableXTrailer *)
  tx_abyTablXBlockMap : list GByte  (* m_abyTablXBlockMap *)
}.

(** [v.resize(n)]: the new size is [n], new elements are zero. *)
Definition vector_resize (v : list GByte) (n : Z) : list GByte :=
  firstn (Z.to_nat n) (v ++ repeat x00 (Z.to_nat n - length v)).

(** [for (i = 0; i < nBitsForBlockMap; i++)
       nCountBlocks += TEST_BIT(m_abyTablXBlockMap.data(), i) != 0;] *)
Fixpoint count_set_bits (map : list GByte) (n : nat) (i nCountBlocks : Z)
  : Z :=
  match n with
  | O => nCountBlocks
  | S n' =>
      count_set_bits map n' (i + 1)
        (to_uint32 (nCountBlocks
                    + (if TEST_BIT map i =? 0 then 0 else 1)))
  end.

(** [fpTableX] is read from its start; [nGDBTableVersion] is
    [static_cast<int>(m_eGDBTableVersion)]; [can_resize n] is false when
    the resize of the block map to [n] bytes throws.  Returns the value
    returned, the members and what was emitted. *)
Definition ReadTableXHeaderV3 (fpTableX : VSILFILE) (nGDBTableVersion : Z)
    (can_resize : Z -> bool) (m : TableXState)
  : bool * TableXState * list Event :=
  match vsi_read fpTableX 0 16 with
  | None => (false, m, [EvPrintError])
  | Some abyHeader =>
      let nGDBTablxVersion := to_int32 (GetUInt32 abyHeader 0) in
      if negb (nGDBTablxVersion =? nGDBTableVersion) then
        (false, m,
         [EvCPLError CE_Failure ".gdbtablx version is %d whereas it should be %d"%string])
      else
        let n1024BlocksPresent := GetUInt32 abyHeader 4 in
        let nTotalRecordCount := GetInt32 abyHeader 8 in
        let m := {| tx_n1024BlocksPresent := n1024BlocksPresent;
                    tx_nTotalRecordCount := nTotalRecordCount;
                    tx_nTablxOffsetSize := tx_nTablxOffsetSize m;
                    tx_nOffsetTableXTrailer := tx_nOffsetTableXTrailer m;
                    tx_abyTablXBlockMap := tx_abyTablXBlockMap m |} in
        if (if n1024BlocksPresent =? 0 then negb (nTotalRecordCount =? 0)
            else nTotalRecordCount <? 0)
        then (false, m, [EvPrintError])
        else
          let nTablxOffsetSize := GetUInt32 abyHeader 12 in
          let m := {| tx_n1024BlocksPresent := n1024BlocksPresent;
                      tx_nTotalRecordCount := nTotalRecordCount;
                      tx_nTablxOffsetSize := nTablxOffsetSize;
                      tx_nOffsetTableXTrailer := tx_nOffsetTableXTrailer m;
                      tx_abyTablXBlockMap := tx_abyTablXBlockMap m |} in
          if (nTablxOffsetSize <? 4) || (nTablxOffsetSize >? 6) then
            (false, m, [EvPrintError])
          else
            let nOffsetTableXTrailer :=
              to_uint64 (16 + to_uint64 (to_uint32 (nTablxOffsetSize * 1024)
                                         * n1024BlocksPresent)) in
            let m := {| tx_n1024BlocksPresent := n1024BlocksPresent;
                        tx_nTotalRecordCount := nTotalRecordCount;
                        tx_nTablxOffsetSize := nTablxOffsetSize;
                        tx_nOffsetTableXTrailer := nOffsetTableXTrailer;
                        tx_abyTablXBlockMap := tx_abyTablXBlockMap m |} in
            if n1024BlocksPresent =? 0 then (true, m, [])
            else
              match vsi_read fpTableX nOffsetTableXTrailer 16 with
              | None => (false, m, [EvPrintError])
              | Some abyTrailer =>
                  let nBitmapInt32Words := GetUInt32 abyTrailer 0 in
                  let nBitsForBlockMap := GetUInt32 abyTrailer 4 in
                  if nBitsForBlockMap >? 1 + Z.quot INT_MAX 1024 then
                    (false, m, [EvPrintError])
                  else
                    let n1024BlocksBis := GetUInt32 abyTrailer 8 in
                    if negb (n1024BlocksBis =? n1024BlocksPresent) then
                      (false, m, [EvPrintError])
                    else if nBitmapInt32Words =? 0 then
                      if negb (nBitsForBlockMap =? n1024BlocksPresent) then
                        (false, m, [EvPrintError])
                      else (true, m, [])
                    else if to_uint32 nTotalRecordCount
                            >? to_uint32 (nBitsForBlockMap * 1024) then
                      (false, m, [EvPrintError])
                    else
                      (* Allocate a bit mask array for blocks of 1024
                         features. *)
                      let nSizeInBytes :=
                        to_uint32 (BIT_ARRAY_SIZE_IN_BYTES nBitsForBlockMap) in
                      if negb (can_resize nSizeInBytes) then
                        (false, m,
                         [EvCPLError CE_Failure "Cannot allocate m_abyTablXBlockMap: %s"%string])
                      else
                        let abyMap :=
                          vector_resize (tx_abyTablXBlockMap m) nSizeInBytes in
                        match vsi_read fpTableX (nOffsetTableXTrailer + 16)
                                       nSizeInBytes with
                        | None =>
                            (* the bytes obtained are in the map *)
                            (false,
                             {| tx_n1024BlocksPresent := n1024BlocksPresent;
                                tx_nTotalRecordCount := nTotalRecordCount;
                                tx_nTablxOffsetSize := nTablxOffsetSize;
                                tx_nOffsetTableXTrailer := nOffsetTableXTrailer;
                                tx_abyTablXBlockMap :=
                                  short_read fpTableX
                                    (nOffsetTableXTrailer + 16) nSizeInBytes
                                    abyMap |},
                             [EvPrintError])
                        | Some data =>
                            let abyMap := blit data abyMap in
                            let m :=
                              {| tx_n1024BlocksPresent := n1024BlocksPresent;
                                 tx_nTotalRecordCount := nTotalRecordCount;
                                 tx_nTablxOffsetSize := nTablxOffsetSize;
                                 tx_nOffsetTableXTrailer := nOffsetTableXTrailer;
                                 tx_abyTablXBlockMap := abyMap |} in
                            (* Check that the map is consistent with
                               m_n1024BlocksPresent *)
                            let nCountBlocks :=
                              count_set_bits abyMap
                                (Z.to_nat nBitsForBlockMap) 0 0 in
                            if negb (nCountBlocks =? n1024BlocksPresent) then
                              (false, m, [EvPrintError])
                            else (true, m, [])
                        end
              end
  end.

(** ** Entries of m_anFeatureOffsets *)

(** A table opened without its .gdbtablx, with the offsets found by the scan
    of [scan_deleted_then_record] with deleted records reported. *)
Definition example_scanned_table : TableDesc :=
  {| m_apoFields := []; m_bStringsAreUTF8 := true; m_bUpdate := false;
     m_nTotalRecordCount := 2;
     m_fpTable := file_of_bytes (repeat x00 64);
     m_fpTableX := None;
     m_nTablxOffsetSize := 0;
     m_abyTablXBlockMap := [];
     m_anFeatureOffsets := [MARK_DELETED 44; 54] |}.

(** A table of 2048 rows in two blocks of which only the second is stored
    (block map 00000010); every stored row is at offset 40 of the table
    file, where a row of one byte sits. *)
Definition example_second_block_table : TableDesc :=
  {| m_apoFields := []; m_bStringsAreUTF8 := true; m_bUpdate := false;
     m_nTotalRecordCount := 2048;
     m_fpTable := file_of_bytes (repeat x00 40 ++ le_bytes 1 4 ++ [x00]);
     m_fpTableX :=
       Some {| vsi_read := fun nOffset nSize =>
                 if (16 <=? nOffset) && (nSize =? 4)
                 then Some (le_bytes 40 4) else None;
               vsi_short := fun _ _ => [];
               vsi_size := 16 + 4 * 1024 |};
     m_nTablxOffsetSize := 4;
     m_abyTablXBlockMap := [x02];
     m_anFeatureOffsets := [] |}.

(** An index file of three blocks of rows of which the second is absent:
    header (version 3, 2 blocks present, 2500 rows, entries of 4 bytes),
    2048 entries, the trailer (1 word of bitmap, 3 bits, 2 blocks) and the
    block map [0b101] padded to a word. *)
Definition example_tablx_bytes : list GByte :=
  le_bytes 3 4 ++ le_bytes 2 4 ++ le_bytes 2500 4 ++ le_bytes 4 4
  ++ repeat x00 (4 * 2048)
  ++ le_bytes 1 4 ++ le_bytes 3 4 ++ le_bytes 2 4 ++ le_bytes 0 4
  ++ le_bytes 5 4.

Definition fresh_tablx : TableXState :=
  {| tx_n1024BlocksPresent := 0; tx_nTotalRecordCount := 0;
     tx_nTablxOffsetSize := 0; tx_nOffsetTableXTrailer := 0;
     tx_abyTablXBlockMap := [] |}.

(** The table object the recovery scan works on: the size of the table
    file is known, no row has been read. *)
Definition example_scanning (t : TableDesc) : @TableState Z (Z * Z) :=
  set_m_nFileSize (vsi_size (m_fpTable t)) (initial_state []).

(** The file offsets of the records listed in [m_anFeatureOffsets], in
    row order: the entries 0 stand for deleted records that are not
    reported. *)
Definition scan_positions (offsets : list Z) : list Z :=
  map GET_OFFSET (filter (fun v => negb (v =? 0)) offsets).

(** ** DoesGeometryIntersectsFilterEnvelope (lines 2924-3017) *)

(** The shape type enumerators and the curve flag, of a header that is not
    part of the sources at hand, as they are named in the switch. *)
Record ShapeTypes : Type := {
  SHPT_NULL : Z;
  SHPT_POINT : Z; SHPT_POINTM : Z; SHPT_POINTZM : Z; SHPT_POINTZ : Z;
  SHPT_GENERALPOINT : Z;
  SHPT_MULTIPOINT : Z; SHPT_MULTIPOINTM : Z; SHPT_MULTIPOINTZM : Z;
  SHPT_MULTIPOINTZ : Z;
  SHPT_ARC : Z; SHPT_ARCM : Z; SHPT_ARCZM : Z; SHPT_ARCZ : Z;
  SHPT_POLYGON : Z; SHPT_POLYGONM : Z; SHPT_POLYGONZM : Z; SHPT_POLYGONZ : Z;
  SHPT_GENERALPOLYLINE : Z; SHPT_GENERALPOLYGON : Z;
  SHPT_GENERALMULTIPATCH : Z; SHPT_MULTIPATCHM : Z; SHPT_MULTIPATCH : Z;
  EXT_SHAPE_CURVE_FLAG : Z
}.

(** Where [switch ((nGeomType & 0xff))] goes: the two returns, the point
    case, or the [break] with its [nToSkip]. *)
Inductive EnvelopeCase : Type :=
  | EC_NULL
  | EC_POINT
  | EC_BOX (nToSkip : Z)
  | EC_DEFAULT.

Definition envelope_case (T : ShapeTypes) (nGeomType : Z) : EnvelopeCase :=
  let v := Z.land nGeomType 255 in
  if v =? SHPT_NULL T then EC_NULL
  else if (v =? SHPT_POINTZ T) || (v =? SHPT_POINTZM T)
          || (v =? SHPT_POINT T) || (v =? SHPT_POINTM T)
          || (v =? SHPT_GENERALPOINT T)
  then EC_POINT
  else if (v =? SHPT_MULTIPOINTZM T) || (v =? SHPT_MULTIPOINTZ T)
          || (v =? SHPT_MULTIPOINT T) || (v =? SHPT_MULTIPOINTM T)
  then EC_BOX 0
  else if (v =? SHPT_ARC T) || (v =? SHPT_ARCZ T) || (v =? SHPT_ARCZM T)
          || (v =? SHPT_ARCM T) || (v =? SHPT_POLYGON T)
          || (v =? SHPT_POLYGONZ T) || (v =? SHPT_POLYGONZM T)
          || (v =? SHPT_POLYGONM T)
  then EC_BOX 1
  else if (v =? SHPT_GENERALPOLYLINE T) || (v =? SHPT_GENERALPOLYGON T)
  then EC_BOX (1 + (if Z.land nGeomType (EXT_SHAPE_CURVE_FLAG T) =? 0
                    then 0 else 1))
  else if (v =? SHPT_GENERALMULTIPATCH T) || (v =? SHPT_MULTIPATCHM T)
          || (v =? SHPT_MULTIPATCH T)
  then EC_BOX 2
  else EC_DEFAULT.

(** The filter rectangle in the integer coordinates of the geometries. *)
Record FilterEnvelope : Type := {
  m_nFilterXMin : Z; m_nFilterXMax : Z;
  m_nFilterYMin : Z; m_nFilterYMax : Z
}.

Definition printed (r : VarUIntResult) : list Event :=
  if vr_printed r then [EvPrintError] else [].

(** [paData] and [nCount] are [psField->Binary.paData] and
    [psField->Binary.nCount]; returns the int returned, as a bool, and what
    was printed. *)
Definition DoesGeometryIntersectsFilterEnvelope (T : ShapeTypes)
    (F : FilterEnvelope) (paData : list GByte) (nCount : Z)
  : bool * list Event :=
  let pabyEnd := nCount in
  let rType := ReadVarUInt32NoCheck paData 0 0 in
  let nGeomType := vr_out rType in
  let pabyCur := vr_iter rType in
  let evs := printed rType in
  match envelope_case T nGeomType with
  | EC_NULL => (true, evs)
  | EC_DEFAULT => (true, evs)
  | EC_POINT =>
      let rx := ReadVarUInt64NoCheck paData pabyCur 0 in
      let evs := evs ++ printed rx in
      let x := vr_out rx in
      if x =? 0 then (false, evs) (* POINT EMPTY *)
      else
        let x := to_uint64 (x - 1) in
        if (x <? m_nFilterXMin F) || (x >? m_nFilterXMax F) then (false, evs)
        else
          let ry := ReadVarUInt64NoCheck paData (vr_iter rx) 0 in
          let y := to_uint64 (vr_out ry - 1) in
          ((y >=? m_nFilterYMin F) && (y <=? m_nFilterYMax F),
           evs ++ printed ry)
  | EC_BOX nToSkip =>
      let rPoints := ReadVarUInt32NoCheck paData pabyCur 0 in
      let evs := evs ++ printed rPoints in
      if vr_out rPoints =? 0 then (true, evs)
      else
        let rSkip := SkipVarUInt paData (vr_iter rPoints) pabyEnd nToSkip in
        let evs := evs ++ (if sv_printed rSkip then [EvPrintError] else []) in
        if negb (sv_ret rSkip) then (true, evs ++ [EvPrintError])
        else if sv_iter rSkip >=? pabyEnd then (true, evs ++ [EvPrintError])
        else
          let rxmin := ReadVarUInt64NoCheck paData (sv_iter rSkip) 0 in
          let evs := evs ++ printed rxmin in
          if vr_out rxmin >? m_nFilterXMax F then (false, evs)
          else
            let rymin := ReadVarUInt64NoCheck paData (vr_iter rxmin) 0 in
            let evs := evs ++ printed rymin in
            if vr_out rymin >? m_nFilterYMax F then (false, evs)
            else
              let rdx := ReadVarUInt64NoCheck paData (vr_iter rymin) 0 in
              let evs := evs ++ printed rdx in
              if to_uint64 (vr_out rxmin + vr_out rdx) <? m_nFilterXMin F
              then (false, evs)
              else
                let rdy := ReadVarUInt64NoCheck paData (vr_iter rdx) 0 in
                (to_uint64 (vr_out rymin + vr_out rdy) >=? m_nFilterYMin F,
                 evs ++ printed rdy)
  end.

(** A geometry blob as the writer lays it out for the types that carry an
    envelope: type, number of points, [skipped] varuints, then the lower
    corner and the extent of the envelope. *)
Definition EncodeEnveloped (nGeomType nPoints : Z) (skipped : list Z)
    (vxmin vymin vdx vdy : Z) (rest : list GByte) : list GByte :=
  EncodeVarUInt nGeomType ++ EncodeVarUInt nPoints
  ++ concat (map EncodeVarUInt skipped)
  ++ EncodeVarUInt vxmin ++ EncodeVarUInt vymin
  ++ EncodeVarUInt vdx ++ EncodeVarUInt vdy ++ rest.

(** A point blob: type, then x + 1 and y + 1. *)
Definition EncodePointBlob (nGeomType x y : Z) (rest : list GByte)
  : list GByte :=
  EncodeVarUInt nGeomType ++ EncodeVarUInt (x + 1) ++ EncodeVarUInt (y + 1)
  ++ rest.

(** The enumerators with the values of the shapefile specification. *)
Definition example_shape_types : ShapeTypes :=
  {| SHPT_NULL := 0;
     SHPT_POINT := 1; SHPT_POINTM := 21; SHPT_POINTZM := 11; SHPT_POINTZ := 9;
     SHPT_GENERALPOINT := 52;
     SHPT_MULTIPOINT := 8; SHPT_MULTIPOINTM := 28; SHPT_MULTIPOINTZM := 18;
     SHPT_MULTIPOINTZ := 20;
     SHPT_ARC := 3; SHPT_ARCM := 23; SHPT_ARCZM := 13; SHPT_ARCZ := 10;
     SHPT_POLYGON := 5; SHPT_POLYGONM := 25; SHPT_POLYGONZM := 15;
     SHPT_POLYGONZ := 19;
     SHPT_GENERALPOLYLINE := 50; SHPT_GENERALPOLYGON := 51;
     SHPT_GENERALMULTIPATCH := 54; SHPT_MULTIPATCHM := 31;
     SHPT_MULTIPATCH := 32;
     EXT_SHAPE_CURVE_FLAG := 536870912 |}.

Definition example_filter : FilterEnvelope :=
  {| m_nFilterXMin := 100; m_nFilterXMax := 200;
     m_nFilterYMin := 100; m_nFilterYMax := 200 |}.

(** ** IsLikelyFeatureAtOffset (lines 257-521) *)

(** What the switch of the first loop adds to [nRequiredLength], and
    whether it leaves [bExactSizeKnown] alone. *)
Definition minimal_length (f : FileGDBField) : Z * bool :=
  match m_eType f with
  | FGFT_UNDEFINED => (0, true)
  | FGFT_OBJECTID => (0, true)
  | FGFT_STRING | FGFT_XML | FGFT_GEOMETRY | FGFT_BINARY =>
      (1, false) (* varuint32 so at least one byte *)
  | FGFT_RASTER =>
      match GetRasterType f with
      | RT_MANAGED => (4, true)
      | _ => (1, true) (* varuint32 so at least one byte *)
      end
  | FGFT_INT16 => (2, true)
  | FGFT_INT32 => (4, true)
  | FGFT_FLOAT32 => (4, true)
  | FGFT_FLOAT64 => (8, true)
  | FGFT_DATETIME | FGFT_DATE | FGFT_TIME => (8, true)
  | FGFT_GUID | FGFT_GLOBALID => (UUID_SIZE_IN_BYTES, true)
  | FGFT_INT64 => (8, true)
  | FGFT_DATETIME_WITH_OFFSET => (8 + 2, true)
  end.

(** Where a loop over the fields stops: [lp_ok] is false on
    [return FALSE]. *)
Record LikelyPass : Type := {
  lp_ok : bool;
  lp_acc : Z;                  (* m_iAccNullable *)
  lp_required : Z;             (* nRequiredLength *)
  lp_exact : bool              (* bExactSizeKnown *)
}.

(** The first loop (lines 314-386). *)
Fixpoint likely_first_pass (fs : list FileGDBField) (buf : list GByte)
    (nRowBlobLength iAccNullable nRequiredLength : Z) (bExactSizeKnown : bool)
  : LikelyPass :=
  match fs with
  | [] => {| lp_ok := true; lp_acc := iAccNullable;
             lp_required := nRequiredLength; lp_exact := bExactSizeKnown |}
  | f :: fs' =>
      let bIsNull := m_bNullable f && negb (TEST_BIT buf iAccNullable =? 0) in
      let iAccNullable :=
        if m_bNullable f then iAccNullable + 1 else iAccNullable in
      if bIsNull then
        likely_first_pass fs' buf nRowBlobLength iAccNullable nRequiredLength
                          bExactSizeKnown
      else
        let nRequiredLength :=
          to_uint32 (nRequiredLength + fst (minimal_length f)) in
        let bExactSizeKnown := bExactSizeKnown && snd (minimal_length f) in
        if nRowBlobLength <? nRequiredLength then
          {| lp_ok := false; lp_acc := iAccNullable;
             lp_required := nRequiredLength; lp_exact := bExactSizeKnown |}
        else
          likely_first_pass fs' buf nRowBlobLength iAccNullable
                            nRequiredLength bExactSizeKnown
  end.

Section LikelyFeature.

(** CPLIsUTF8 of cpl_string.h on the [nLength] bytes of a string. *)
Variable CPLIsUTF8 : list GByte -> bool.

Variable buf : list GByte.        (* m_abyBuffer *)
Variable nRowBlobLength : Z.      (* m_nRowBlobLength *)

(** The cases of the second switch that read a varuint32 length at
    [nRequiredLength]; [bText] is true for FGFT_STRING and FGFT_XML.
    [None] is [return FALSE]. *)
Definition likely_prefixed (bText : bool) (nRequiredLength : Z) : option Z :=
  let r := ReadVarUInt32Silent buf nRequiredLength nRowBlobLength 0 in
  if negb (vr_ret r) || (vr_iter r - nRequiredLength >? 5) then None
  else
    let pabyIter := vr_iter r in
    let nLength := vr_out r in
    let nRequiredLength := to_uint32 pabyIter in
    if nLength >? to_uint32 (nRowBlobLength - nRequiredLength) then None
    else if bText
            && (existsb (fun b => Z_of_byte b =? 0)
                        (bytes_at buf pabyIter nLength)
                || negb (CPLIsUTF8 (bytes_at buf pabyIter nLength)))
    then None
    else Some (to_uint32 (nRequiredLength + nLength)).

(** The second switch (lines 406-513). *)
Definition likely_field (f : FileGDBField) (nRequiredLength : Z)
  : option Z :=
  match m_eType f with
  | FGFT_UNDEFINED => Some nRequiredLength
  | FGFT_OBJECTID => Some nRequiredLength
  | FGFT_STRING | FGFT_XML => likely_prefixed true nRequiredLength
  | FGFT_GEOMETRY | FGFT_BINARY => likely_prefixed false nRequiredLength
  | FGFT_RASTER =>
      match GetRasterType f with
      | RT_MANAGED => Some (to_uint32 (nRequiredLength + 4))
      | _ => likely_prefixed false nRequiredLength
      end
  | FGFT_INT16 => Some (to_uint32 (nRequiredLength + 2))
  | FGFT_INT32 => Some (to_uint32 (nRequiredLength + 4))
  | FGFT_FLOAT32 => Some (to_uint32 (nRequiredLength + 4))
  | FGFT_FLOAT64 => Some (to_uint32 (nRequiredLength + 8))
  | FGFT_DATETIME | FGFT_DATE | FGFT_TIME =>
      Some (to_uint32 (nRequiredLength + 8))
  | FGFT_GUID | FGFT_GLOBALID =>
      Some (to_uint32 (nRequiredLength + UUID_SIZE_IN_BYTES))
  | FGFT_INT64 => Some (to_uint32 (nRequiredLength + 8))
  | FGFT_DATETIME_WITH_OFFSET => Some (to_uint32 (nRequiredLength + (8 + 2)))
  end.

(** The second loop (lines 396-516). *)
Fixpoint likely_second_pass (fs : list FileGDBField)
    (iAccNullable nRequiredLength : Z) : LikelyPass :=
  match fs with
  | [] => {| lp_ok := true; lp_acc := iAccNullable;
             lp_required := nRequiredLength; lp_exact := false |}
  | f :: fs' =>
      let bIsNull := m_bNullable f && negb (TEST_BIT buf iAccNullable =? 0) in
      let iAccNullable :=
        if m_bNullable f then iAccNullable + 1 else iAccNullable in
      if bIsNull then likely_second_pass fs' iAccNullable nRequiredLength
      else
        match likely_field f nRequiredLength with
        | None => {| lp_ok := false; lp_acc := iAccNullable;
                     lp_required := nRequiredLength; lp_exact := false |}
        | Some nRequiredLength =>
            if nRequiredLength >? nRowBlobLength then
              {| lp_ok := false; lp_acc := iAccNullable;
                 lp_required := nRequiredLength; lp_exact := false |}
            else likely_second_pass fs' iAccNullable nRequiredLength
        end
  end.

End LikelyFeature.

(** VSIFReadL into the buffer at [p]. *)
Definition blit_at (data buf : list GByte) (p : Z) : list GByte :=
  firstn (Z.to_nat p) buf ++ data
  ++ skipn (Z.to_nat p + length data) buf.

(** What a failed read leaves in the buffer when its destination is at
    [p]. *)
Definition short_read_at (fp : VSILFILE) (nOffset nSize : Z)
    (buf : list GByte) (p : Z) : list GByte :=
  firstn (Z.to_nat p) buf
  ++ short_read fp nOffset nSize (skipn (Z.to_nat p) buf).

(** The by-reference results and the returned int. *)
Record LikelyResult : Type := {
  lf_ret : bool;
  lf_nSize : Z;                (* *pnSize *)
  lf_bDeletedRecord : bool     (* *pbDeletedRecord *)
}.

Section IsLikelyFeatureAtOffset.

Context {double date : Type}.
Variable t : TableDesc.
Variable env : Environment.
Variable CPLIsUTF8 : list GByte -> bool.
Variable m_nValidRecordCount : Z.

(** The four tests on [m_nRowBlobLength] (lines 266-269 and 277-281).  The
    division is by [m_nValidRecordCount] brought to the type of
    [m_nFileSize]; by 0 it is undefined in the source, and 0 here. *)
Definition implausible_length (s : @TableState double date) (nOffset : Z)
  : bool :=
  (m_nRowBlobLength s <? to_uint32 (m_nNullableFieldsSizeInBytes t))
  || (m_nRowBlobLength s >? to_uint64 (m_nFileSize s - nOffset))
  || (m_nRowBlobLength s >? INT_MAX - ZEROES_AFTER_END_OF_BUFFER)
  || (m_nRowBlobLength s
      >? to_uint64 (10 * Z.quot (m_nFileSize s)
                                (to_uint64 m_nValidRecordCount))).

(** [nSize0] and [bDeletedRecord0] are what [*pnSize] and
    [*pbDeletedRecord] hold on entry. *)
Definition IsLikelyFeatureAtOffset (s : @TableState double date)
    (nOffset nSize0 : Z) (bDeletedRecord0 : bool)
  : LikelyResult * @TableState double date :=
  let no (bDeletedRecord : bool) (s : @TableState double date) :=
    ({| lf_ret := false; lf_nSize := nSize0;
        lf_bDeletedRecord := bDeletedRecord |}, s) in
  let s := log_events [EvRead GDBTABLE nOffset 4] s in
  match vsi_read (m_fpTable t) nOffset 4 with
  | None => no bDeletedRecord0 s
  | Some abyBuffer =>
      let s := set_m_nRowBlobLength (GetUInt32 abyBuffer 0) s in
      let classified : option bool * @TableState double date :=
        if implausible_length s nOffset then
          (* Is it a deleted record ? *)
          if negb (Z.shiftr (m_nRowBlobLength s) 31 =? 0)
             && negb (m_nRowBlobLength s =? 2147483648)
          then
            let s :=
              set_m_nRowBlobLength
                (to_uint32 (- to_int32 (m_nRowBlobLength s))) s in
            if implausible_length s nOffset then (None, s)
            else (Some true, s)
          else (None, s)
        else (Some false, s) in
      match classified with
      | (None, s) => no bDeletedRecord0 s
      | (Some bDeletedRecord, s) =>
          let s :=
            set_m_nRowBufferMaxSize
              (Z.max (m_nRowBlobLength s) (m_nRowBufferMaxSize s)) s in
          let resized : option (@TableState double date) :=
            if Z.of_nat (length (m_abyBuffer s))
               <? m_nRowBlobLength s + ZEROES_AFTER_END_OF_BUFFER
            then
              if can_resize env (m_nRowBlobLength s + ZEROES_AFTER_END_OF_BUFFER)
              then Some (set_m_abyBuffer
                           (resize_buffer (m_abyBuffer s)
                              (m_nRowBlobLength s + ZEROES_AFTER_END_OF_BUFFER))
                           s)
              else None
            else Some s in
          match resized with
          | None =>
              no bDeletedRecord
                 (log_events [EvCPLError CE_Failure "out of memory"%string] s)
          | Some s =>
              let nBitmask := m_nNullableFieldsSizeInBytes t in
              let loaded : option (@TableState double date) :=
                if m_nCountNullableFields t >? 0 then
                  let s := log_events
                             [EvRead GDBTABLE (nOffset + 4) nBitmask] s in
                  match vsi_read (m_fpTable t) (nOffset + 4) nBitmask with
                  | None => None
                  | Some data =>
                      Some (set_m_abyBuffer (blit data (m_abyBuffer s)) s)
                  end
                else Some s in
              match loaded with
              | None =>
                  no bDeletedRecord
                     (set_m_abyBuffer
                        (short_read (m_fpTable t) (nOffset + 4) nBitmask
                           (m_abyBuffer s))
                        (log_events [EvRead GDBTABLE (nOffset + 4) nBitmask]
                                    s))
              | Some s =>
                  let p1 := likely_first_pass (m_apoFields t) (m_abyBuffer s)
                              (m_nRowBlobLength s) 0 (to_uint32 nBitmask)
                              true in
                  let s := set_m_iAccNullable (lp_acc p1) s in
                  if negb (lp_ok p1) then no bDeletedRecord s
                  else if lp_exact p1 then
                    ({| lf_ret := lp_required p1 =? m_nRowBlobLength s;
                        lf_nSize := to_uint32 (4 + lp_required p1);
                        lf_bDeletedRecord := bDeletedRecord |}, s)
                  else
                    let nRest := to_uint32 (m_nRowBlobLength s - nBitmask) in
                    let s := log_events
                               [EvRead GDBTABLE (nOffset + 4 + nBitmask) nRest]
                               s in
                    match vsi_read (m_fpTable t) (nOffset + 4 + nBitmask)
                                   nRest with
                    | None =>
                        no bDeletedRecord
                           (set_m_abyBuffer
                              (short_read_at (m_fpTable t)
                                 (nOffset + 4 + nBitmask) nRest
                                 (m_abyBuffer s) nBitmask) s)
                    | Some data =>
                        let s := set_m_abyBuffer
                                   (blit_at data (m_abyBuffer s) nBitmask) s in
                        let p2 := likely_second_pass CPLIsUTF8 (m_abyBuffer s)
                                    (m_nRowBlobLength s) (m_apoFields t) 0
                                    (to_uint32 nBitmask) in
                        let s := set_m_iAccNullable (lp_acc p2) s in
                        if negb (lp_ok p2) then no bDeletedRecord s
                        else
                          ({| lf_ret := lp_required p2 =? m_nRowBlobLength s;
                              lf_nSize := to_uint32 (4 + lp_required p2);
                              lf_bDeletedRecord := bDeletedRecord |}, s)
                    end
              end
          end
      end
  end.

End IsLikelyFeatureAtOffset.

(** ** GetAndSelectNextNonEmptyRow (lines 1613-1648) *)

(** Modelled from the spec: DIV_ROUND_UP is a macro of cpl_port.h, which is
    not part of the sources at hand: the quotient rounded up. *)
Definition DIV_ROUND_UP (a b : Z) : Z :=
  if Z.rem a b =? 0 then Z.quot a b else Z.quot a b + 1.

Section NextRow.

Context {double date : Type}.
Variable t : TableDesc.
Variable env : Environment.

(** [do { iBlock++; } while (iBlock < nBlocks && TEST_BIT(...) == 0)] *)
Fixpoint next_block (fuel : nat) (nBlocks iBlock : Z) : Z :=
  match fuel with
  | O => iBlock
  | S fuel' =>
      let iBlock := iBlock + 1 in
      if (iBlock <? nBlocks)
         && (TEST_BIT (m_abyTablXBlockMap t) iBlock =? 0)
      then next_block fuel' nBlocks iBlock
      else iBlock
  end.

(** The test at the start of a block: [Some iRow'] when the block of [iRow]
    is not present and the loop goes on at [iRow'], the first row of the
    next present block or of block [nBlocks]; [None] when [iRow] is kept. *)
Definition skip_absent_blocks (iRow : Z) : option Z :=
  match m_abyTablXBlockMap t with
  | [] => None
  | _ :: _ =>
      if Z.rem iRow 1024 =? 0 then
        let iBlock := to_int32 (Z.quot iRow 1024) in
        if TEST_BIT (m_abyTablXBlockMap t) iBlock =? 0 then
          let nBlocks := to_int32 (DIV_ROUND_UP (m_nTotalRecordCount t) 1024) in
          let iBlock :=
            next_block (S (Z.to_nat (nBlocks - iBlock))) nBlocks iBlock in
          Some (to_int64 (iBlock * 1024))
        else None
      else None
  end.

(** [while (iRow < m_nTotalRecordCount)]; HasGotError() is [m_bError]
    (filegdbtable.h). *)
Fixpoint GetAndSelectNextNonEmptyRow_loop (fuel : nat)
    (s : @TableState double date) (iRow : Z) : Z * @TableState double date :=
  match fuel with
  | O => (-1, s)
  | S fuel' =>
      if iRow <? m_nTotalRecordCount t then
        let probe (iRow : Z) :=
          let '(bOK, s) := SelectRow t env s iRow in
          if bOK then (iRow, s)
          else if m_bError s then (-1, s)
          else GetAndSelectNextNonEmptyRow_loop fuel' s (iRow + 1) in
        match skip_absent_blocks iRow with
        | Some iRow =>
            if iRow >=? m_nTotalRecordCount t then (-1, s) else probe iRow
        | None => probe iRow
        end
      else (-1, s)
  end.

Definition GetAndSelectNextNonEmptyRow (s : @TableState double date)
    (iRow : Z) : Z * @TableState double date :=
  if (iRow <? 0) || (iRow >=? m_nTotalRecordCount t) then
    (-1, log_events [EvPrintError] (set_m_nCurRow (-1) s))
  else
    GetAndSelectNextNonEmptyRow_loop
      (Z.to_nat (m_nTotalRecordCount t - iRow)) s iRow.

End NextRow.

(** * Properties *)

(** ** Bit-level facts used by the varint proofs *)

Lemma Z_of_byte_range (b : GByte) : 0 <= Z_of_byte b < 256.
Proof.
  unfold Z_of_byte. pose proof (Byte.to_N_bounded b). lia.
Qed.

Lemma Z_of_byte_of_Z (z : Z) : Z_of_byte (byte_of_Z z) = z mod 256.
Proof.
  unfold Z_of_byte, byte_of_Z.
  assert (Hr : 0 <= z mod 256 < 256) by (apply Z.mod_pos_bound; lia).
  destruct (Byte.of_N (Z.to_N (z mod 256))) as [b|] eqn:E.
  - apply Byte.to_of_N in E. rewrite E. lia.
  - apply Byte.of_N_None_iff in E. lia.
Qed.

Lemma byte_of_Z_of_byte (b : GByte) : byte_of_Z (Z_of_byte b) = b.
Proof.
  unfold byte_of_Z. pose proof (Z_of_byte_range b) as Hr.
  rewrite Z.mod_small by lia. unfold Z_of_byte.
  rewrite N2Z.id, Byte.of_to_N. reflexivity.
Qed.

Lemma lor_shiftl_add (a b s : Z) :
  0 <= s -> 0 <= a < 2 ^ s -> Z.lor a (Z.shiftl b s) = a + b * 2 ^ s.
Proof.
  intros Hs Ha.
  rewrite Z.shiftl_mul_pow2 by lia.
  rewrite <- Z.lxor_lor, <- Z.add_nocarry_lxor; try reflexivity.
  all: apply Z.bits_inj'; intros i Hi;
       rewrite Z.land_spec, Z.bits_0;
       destruct (Z_lt_ge_dec i s) as [Hlt|Hge];
       [ rewrite Z.mul_pow2_bits_low by lia; apply andb_false_r
       | replace (Z.testbit a i) with false; [reflexivity|];
         symmetry; destruct (Z.eq_dec a 0) as [->|Hnz];
         [ apply Z.bits_0
         | apply Z.bits_above_log2; [lia|];
           apply Z.lt_le_trans with s; [|lia];
           apply Z.log2_lt_pow2; lia ] ].
Qed.

Lemma land_127 (x : Z) : Z.land x 127 = x mod 128.
Proof. change 127 with (Z.ones 7). rewrite Z.land_ones by lia. reflexivity. Qed.

Lemma land_63 (x : Z) : Z.land x 63 = x mod 64.
Proof. change 63 with (Z.ones 6). rewrite Z.land_ones by lia. reflexivity. Qed.

Lemma land_pow2_testbit (x n : Z) :
  0 <= n -> Z.land x (2 ^ n) = if Z.testbit x n then 2 ^ n else 0.
Proof.
  intros Hn. apply Z.bits_inj'; intros i Hi.
  rewrite Z.land_spec, Z.pow2_bits_eqb by lia.
  destruct (Z.eqb_spec n i) as [->|Hne].
  - destruct (Z.testbit x i); simpl.
    + rewrite Z.pow2_bits_true by lia. reflexivity.
    + rewrite Z.bits_0. reflexivity.
  - rewrite andb_false_r. destruct (Z.testbit x n).
    + rewrite Z.pow2_bits_false by lia. reflexivity.
    + rewrite Z.bits_0. reflexivity.
Qed.

Lemma testbit_div (x n : Z) :
  0 <= n -> Z.testbit x n = Z.odd (x / 2 ^ n).
Proof.
  intros Hn. rewrite <- Z.shiftr_div_pow2 by lia.
  rewrite <- Z.bit0_odd, Z.shiftr_spec by lia. reflexivity.
Qed.

(** The continuation bit: [(b & 0x80) == 0] exactly when [b mod 256 < 128]. *)
Lemma land_128_zero_iff (x : Z) :
  0 <= x < 256 -> (Z.land x 128 =? 0) = (x <? 128).
Proof.
  intros Hx. change 128 with (2 ^ 7) at 1.
  rewrite land_pow2_testbit, testbit_div by lia.
  destruct (Z.ltb_spec x 128) as [Hlt|Hge].
  - rewrite Z.div_small by lia. reflexivity.
  - replace (x / 2 ^ 7) with 1; [reflexivity|].
    change (2 ^ 7) with 128. apply Z.div_unique with (x - 128); lia.
Qed.

Lemma land_64_zero_iff (x : Z) :
  0 <= x < 128 -> (Z.land x 64 =? 0) = (x <? 64).
Proof.
  intros Hx. change 64 with (2 ^ 6) at 1.
  rewrite land_pow2_testbit, testbit_div by lia.
  destruct (Z.ltb_spec x 64) as [Hlt|Hge].
  - rewrite Z.div_small by lia. reflexivity.
  - replace (x / 2 ^ 6) with 1; [reflexivity|].
    change (2 ^ 6) with 64. apply Z.div_unique with (x - 64); lia.
Qed.

Lemma lor_128 (x : Z) : 0 <= x < 128 -> Z.lor x 128 = x + 128.
Proof.
  intros Hx. change 128 with (Z.shiftl 1 7) at 1.
  rewrite lor_shiftl_add by lia. lia.
Qed.

Lemma geb_false (a b : Z) : a < b -> (a >=? b) = false.
Proof. intros H. rewrite Z.geb_leb. apply Z.leb_gt. exact H. Qed.

Lemma geb_true (a b : Z) : b <= a -> (a >=? b) = true.
Proof. intros H. rewrite Z.geb_leb. apply Z.leb_le. exact H. Qed.

(** ** Buffers *)

Lemma byte_at_app (pre l post : list GByte) (k : Z) :
  0 <= k < Z.of_nat (length l) ->
  byte_at (pre ++ l ++ post) (Z.of_nat (length pre) + k)
  = byte_at l k.
Proof.
  intros Hk. unfold byte_at.
  destruct (Z.ltb_spec (Z.of_nat (length pre) + k) 0); [lia|].
  destruct (Z.ltb_spec k 0); [lia|].
  f_equal.
  replace (Z.to_nat (Z.of_nat (length pre) + k))
    with (length pre + Z.to_nat k)%nat by lia.
  rewrite app_nth2_plus, app_nth1 by lia. reflexivity.
Qed.

Lemma byte_at_cons (b : GByte) (l : list GByte) (k : Z) :
  0 <= k -> byte_at (b :: l) (k + 1) = byte_at l k.
Proof.
  intros Hk. unfold byte_at.
  destruct (Z.ltb_spec (k + 1) 0); [lia|].
  destruct (Z.ltb_spec k 0); [lia|].
  replace (Z.to_nat (k + 1)) with (S (Z.to_nat k)) by lia. reflexivity.
Qed.

Lemma byte_at_head (b : GByte) (l : list GByte) :
  byte_at (b :: l) 0 = Z_of_byte b.
Proof. reflexivity. Qed.

Lemma byte_at_range (buf : list GByte) (p : Z) : 0 <= byte_at buf p < 256.
Proof.
  unfold byte_at. destruct (p <? 0); [lia|]. apply Z_of_byte_range.
Qed.

Lemma wrap_unsigned_small (w x : Z) :
  0 <= x < 2 ^ w -> wrap_unsigned w x = x.
Proof. intros H. unfold wrap_unsigned. apply Z.mod_small; lia. Qed.

Lemma wrap_byte (w : Z) (buf : list GByte) (p : Z) :
  8 <= w -> wrap_unsigned w (byte_at buf p) = byte_at buf p.
Proof.
  intros Hw. apply wrap_unsigned_small.
  pose proof (byte_at_range buf p).
  assert (2 ^ 8 <= 2 ^ w) by (apply Z.pow_le_mono_r; lia).
  change (2 ^ 8) with 256 in *. lia.
Qed.

(** ** Encode-then-decode *)

Lemma addr_range_S (p : Z) (n : nat) :
  addr_range p (S n) = p :: addr_range (p + 1) n.
Proof.
  unfold addr_range. simpl. rewrite Z.add_0_r. f_equal.
  rewrite <- seq_shift, map_map. apply map_ext. intros k. lia.
Qed.

Lemma EncodeVarUInt_groups_length (n : nat) (v : Z) :
  length (EncodeVarUInt_groups n v) = S n.
Proof. revert v. induction n; intros v; simpl; [|rewrite IHn]; reflexivity. Qed.

Lemma pow2_7_succ (n : nat) :
  2 ^ (7 * Z.of_nat (S n)) = 128 * 2 ^ (7 * Z.of_nat n).
Proof.
  replace (7 * Z.of_nat (S n)) with (7 + 7 * Z.of_nat n) by lia.
  rewrite Z.pow_add_r by lia. reflexivity.
Qed.

Section LoopOnEncoding.

Variable nbits : Z.
Variable ct : ControlType.
Variable buf : list GByte.
Variable pabyEnd : Z.
Hypothesis nbits_ge_8 : 8 <= nbits.

Lemma ReadVarUInt_loop_encoded (n : nat) :
  forall (v s nVal p : Z) (fuel : nat) (pabyIter nOutVal : Z) (reads : list Z),
    7 <= s -> 0 <= nVal < 2 ^ s -> 0 <= v ->
    nVal + v * 2 ^ s < 2 ^ nbits ->
    (n <> O -> 2 ^ (7 * Z.of_nat n) <= v) ->
    v < 2 ^ (7 * Z.of_nat (S n)) ->
    (n < fuel)%nat -> 0 <= p ->
    (check_bounds ct = true -> p + Z.of_nat n < pabyEnd) ->
    (forall k, 0 <= k < Z.of_nat (S n) ->
               byte_at buf (p + k) = byte_at (EncodeVarUInt_groups n v) k) ->
    ReadVarUInt_loop nbits ct buf pabyEnd fuel pabyIter nOutVal p s nVal reads
    = {| vr_ret := true; vr_iter := p + Z.of_nat (S n);
         vr_out := nVal + v * 2 ^ s;
         vr_reads := reads ++ addr_range p (S n);
         vr_printed := false |}.
Proof.
  induction n as [|n IH];
    intros v s nVal p fuel pabyIter nOutVal reads
           Hs HnVal Hv Hfit Hlow Hhigh Hfuel Hp Hend Hbytes.
  - destruct fuel as [|fuel]; [lia|]. cbn [ReadVarUInt_loop].
    assert (Hb : byte_at buf p = v).
    { specialize (Hbytes 0 ltac:(lia)). rewrite Z.add_0_r in Hbytes.
      rewrite Hbytes. unfold byte_at. simpl. rewrite Z_of_byte_of_Z.
      change (2 ^ (7 * Z.of_nat 1)) with 128 in Hhigh.
      apply Z.mod_small. lia. }
    change (2 ^ (7 * Z.of_nat 1)) with 128 in Hhigh.
    replace (check_bounds ct && (p >=? pabyEnd)) with false.
    2:{ destruct (check_bounds ct); [|reflexivity]. simpl.
        specialize (Hend eq_refl). symmetry. apply geb_false. lia. }
    rewrite wrap_byte, Hb by assumption.
    rewrite land_128_zero_iff by lia.
    destruct (Z.ltb_spec v 128); [|lia].
    rewrite land_127, (Z.mod_small v 128) by lia.
    assert (Hpos : 0 < 2 ^ s) by (apply Z.pow_pos_nonneg; lia).
    rewrite wrap_unsigned_small.
    2:{ rewrite Z.shiftl_mul_pow2 by lia. nia. }
    rewrite lor_shiftl_add by lia.
    f_equal; try lia.
    unfold addr_range. simpl. rewrite Z.add_0_r. reflexivity.
  - destruct fuel as [|fuel]; [lia|]. cbn [ReadVarUInt_loop].
    rewrite pow2_7_succ in Hhigh.
    specialize (Hlow ltac:(discriminate)). rewrite pow2_7_succ in Hlow.
    assert (Hpn : 0 < 2 ^ (7 * Z.of_nat n)) by (apply Z.pow_pos_nonneg; lia).
    assert (Hmod : 0 <= v mod 128 < 128) by (apply Z.mod_pos_bound; lia).
    assert (Hb : byte_at buf p = v mod 128 + 128).
    { specialize (Hbytes 0 ltac:(lia)). rewrite Z.add_0_r in Hbytes.
      rewrite Hbytes. unfold byte_at. simpl. rewrite Z_of_byte_of_Z.
      rewrite land_127, lor_128 by assumption.
      apply Z.mod_small. lia. }
    replace (check_bounds ct && (p >=? pabyEnd)) with false.
    2:{ destruct (check_bounds ct); [|reflexivity]. simpl.
        specialize (Hend eq_refl). symmetry. apply geb_false. lia. }
    rewrite wrap_byte, Hb by assumption.
    rewrite land_128_zero_iff by lia.
    destruct (Z.ltb_spec (v mod 128 + 128) 128); [lia|].
    rewrite land_127.
    replace ((v mod 128 + 128) mod 128) with (v mod 128).
    2:{ apply Z.mod_unique with 1; lia. }
    assert (Hpos : 0 < 2 ^ s) by (apply Z.pow_pos_nonneg; lia).
    assert (Hdm : v = 128 * (v / 128) + v mod 128) by (apply Z.div_mod; lia).
    assert (Hq : 2 ^ (7 * Z.of_nat n) <= v / 128).
    { apply Z.div_le_lower_bound; lia. }
    assert (Hs7 : 2 ^ (s + 7) = 2 ^ s * 128).
    { rewrite Z.pow_add_r by lia. reflexivity. }
    assert (Hlt : s + 7 < nbits).
    { apply (Z.pow_lt_mono_r_iff 2); [lia|lia|]. rewrite Hs7. nia. }
    rewrite wrap_unsigned_small.
    2:{ rewrite Z.shiftl_mul_pow2 by lia. nia. }
    rewrite lor_shiftl_add by lia.
    destruct (Z.geb_spec (s + 7) nbits) as [Hge|_]; [lia|].
    assert (Hsh : Z.shiftr v 7 = v / 128).
    { rewrite Z.shiftr_div_pow2 by lia. reflexivity. }
    assert (G2 : 0 <= nVal + v mod 128 * 2 ^ s < 2 ^ (s + 7))
      by (rewrite Hs7; nia).
    assert (G3 : 0 <= v / 128) by (apply Z.div_pos; lia).
    assert (Hsplit : v * 2 ^ s
                     = v mod 128 * 2 ^ s + v / 128 * (2 ^ s * 128))
      by (rewrite Hdm at 1; ring).
    assert (G4 : nVal + v mod 128 * 2 ^ s + v / 128 * 2 ^ (s + 7) < 2 ^ nbits)
      by (rewrite Hs7; lia).
    assert (G6 : v / 128 < 2 ^ (7 * Z.of_nat (S n)))
      by (apply Z.div_lt_upper_bound; lia).
    assert (G9 : check_bounds ct = true -> p + 1 + Z.of_nat n < pabyEnd)
      by (intros Hc; specialize (Hend Hc); lia).
    assert (G10 : forall k, 0 <= k < Z.of_nat (S n) ->
               byte_at buf (p + 1 + k)
               = byte_at (EncodeVarUInt_groups n (v / 128)) k).
    { intros k Hk. replace (p + 1 + k) with (p + (k + 1)) by lia.
      rewrite Hbytes by lia.
      cbn [EncodeVarUInt_groups]. rewrite Hsh. apply byte_at_cons. lia. }
    rewrite (IH (v / 128) (s + 7) _ (p + 1) fuel pabyIter nOutVal _
                ltac:(lia) G2 G3 G4 (fun _ => Hq) G6 ltac:(lia) ltac:(lia)
                G9 G10).
    f_equal; try (rewrite ?Hs7; lia).
    rewrite <- app_assoc. f_equal.
    rewrite (addr_range_S p (S n)). reflexivity.
Qed.

End LoopOnEncoding.
Lemma log2_groups_bounds (v : Z) (n : nat) :
  0 < v -> Z.to_nat (Z.log2 v / 7) = n ->
  2 ^ (7 * Z.of_nat n) <= v < 2 ^ (7 * Z.of_nat (S n)).
Proof.
  intros Hv Hn.
  pose proof (Z.log2_nonneg v) as Hl0.
  pose proof (Z.log2_spec v Hv) as [Hlo Hhi].
  assert (Hq : Z.log2 v / 7 = Z.of_nat n).
  { rewrite <- Hn, Z2Nat.id; [reflexivity|]. apply Z.div_pos; lia. }
  pose proof (Z.div_mod (Z.log2 v) 7 ltac:(lia)) as Hdm.
  pose proof (Z.mod_pos_bound (Z.log2 v) 7 ltac:(lia)) as Hm.
  rewrite Hq in Hdm. split.
  - apply Z.le_trans with (2 ^ Z.log2 v); [|exact Hlo].
    apply Z.pow_le_mono_r; lia.
  - apply Z.lt_le_trans with (2 ^ Z.succ (Z.log2 v)); [exact Hhi|].
    apply Z.pow_le_mono_r; lia.
Qed.

Section DecodeOfEncode.

Variable nbits : Z.
Variable ct : ControlType.
Hypothesis nbits_ge_8 : 8 <= nbits.

Lemma ReadVarUInt_encoded (v : Z) (pre post : list GByte)
      (pabyEnd nOutVal : Z) :
  0 <= v < 2 ^ nbits ->
  (check_bounds ct = true ->
   Z.of_nat (length pre) + Z.of_nat (length (EncodeVarUInt v)) <= pabyEnd) ->
  ReadVarUInt nbits ct (pre ++ EncodeVarUInt v ++ post) pabyEnd
              (Z.of_nat (length pre)) nOutVal
  = {| vr_ret := true;
       vr_iter := Z.of_nat (length pre)
                  + Z.of_nat (length (EncodeVarUInt v));
       vr_out := v;
       vr_reads := addr_range (Z.of_nat (length pre))
                              (length (EncodeVarUInt v));
       vr_printed := false |}.
Proof.
  intros Hv Hend. unfold ReadVarUInt.
  set (p := Z.of_nat (length pre)) in *.
  assert (Hlen : length (EncodeVarUInt v) = S (Z.to_nat (Z.log2 v / 7)))
    by apply EncodeVarUInt_groups_length.
  rewrite Hlen in *.
  replace (check_bounds ct && (p >=? pabyEnd)) with false.
  2:{ destruct (check_bounds ct); [|reflexivity]. simpl.
      specialize (Hend eq_refl). symmetry. apply geb_false. lia. }
  rewrite wrap_byte by assumption.
  assert (Hfirst : byte_at (pre ++ EncodeVarUInt v ++ post) p
                   = byte_at (EncodeVarUInt v) 0).
  { replace p with (p + 0) by lia. apply byte_at_app. lia. }
  rewrite Hfirst.
  destruct (Z.to_nat (Z.log2 v / 7)) as [|m] eqn:En.
  - (* a single byte *)
    assert (Hsmall : v < 128).
    { destruct (Z.eq_dec v 0) as [->|Hnz]; [lia|].
      assert (Hpos : 0 < v) by lia.
      pose proof (log2_groups_bounds Hpos En) as [_ H].
      exact H. }
    assert (Hb : byte_at (EncodeVarUInt v) 0 = v).
    { unfold EncodeVarUInt. rewrite En. cbn [EncodeVarUInt_groups].
      unfold byte_at. simpl. rewrite Z_of_byte_of_Z.
      apply Z.mod_small. lia. }
    rewrite Hb, land_128_zero_iff by lia.
    destruct (Z.ltb_spec v 128); [|lia].
    f_equal; try lia.
    unfold addr_range. cbn [seq map]. f_equal. lia.
  - (* a first byte with the continuation bit, then the loop *)
    assert (Hpos : 0 < v).
    { destruct (Z.eq_dec v 0) as [->|Hnz]; [discriminate En|lia]. }
    pose proof (log2_groups_bounds Hpos En) as [Hlo Hhi].
    rewrite pow2_7_succ in Hlo.
    assert (Hpm : 0 < 2 ^ (7 * Z.of_nat m)) by (apply Z.pow_pos_nonneg; lia).
    assert (Hmod : 0 <= v mod 128 < 128) by (apply Z.mod_pos_bound; lia).
    assert (Hdm : v = 128 * (v / 128) + v mod 128) by (apply Z.div_mod; lia).
    assert (Hsh : Z.shiftr v 7 = v / 128).
    { rewrite Z.shiftr_div_pow2 by lia. reflexivity. }
    assert (Henc : EncodeVarUInt v
                   = byte_of_Z (v mod 128 + 128)
                     :: EncodeVarUInt_groups m (v / 128)).
    { unfold EncodeVarUInt. rewrite En. cbn [EncodeVarUInt_groups].
      rewrite land_127, lor_128, Hsh by assumption. reflexivity. }
    assert (Hb : byte_at (EncodeVarUInt v) 0 = v mod 128 + 128).
    { rewrite Henc. unfold byte_at. simpl. rewrite Z_of_byte_of_Z.
      apply Z.mod_small. lia. }
    rewrite Hb, land_128_zero_iff by lia.
    destruct (Z.ltb_spec (v mod 128 + 128) 128); [lia|].
    rewrite land_127.
    replace ((v mod 128 + 128) mod 128) with (v mod 128)
      by (apply Z.mod_unique with 1; lia).
    assert (Hnb : v < 2 ^ nbits) by lia.
    assert (Hfuel : (m < ReadVarUInt_fuel nbits)%nat).
    { unfold ReadVarUInt_fuel.
      assert (Z.log2 v < nbits) by (apply Z.log2_lt_pow2; lia).
      assert (Z.log2 v / 7 <= nbits / 7) by (apply Z.div_le_mono; lia).
      lia. }
    assert (G2 : 0 <= v mod 128 < 2 ^ 7) by (change (2 ^ 7) with 128; lia).
    assert (G3 : 0 <= v / 128) by (apply Z.div_pos; lia).
    assert (G4 : v mod 128 + v / 128 * 2 ^ 7 < 2 ^ nbits)
      by (change (2 ^ 7) with 128; lia).
    assert (G5 : m <> O -> 2 ^ (7 * Z.of_nat m) <= v / 128)
      by (intros _; apply Z.div_le_lower_bound; lia).
    assert (G6 : v / 128 < 2 ^ (7 * Z.of_nat (S m))).
    { apply Z.div_lt_upper_bound; [lia|].
      rewrite <- pow2_7_succ. exact Hhi. }
    assert (G9 : check_bounds ct = true -> p + 1 + Z.of_nat m < pabyEnd)
      by (intros Hc; specialize (Hend Hc); lia).
    assert (G10 : forall k, 0 <= k < Z.of_nat (S m) ->
              byte_at (pre ++ EncodeVarUInt v ++ post) (p + 1 + k)
              = byte_at (EncodeVarUInt_groups m (v / 128)) k).
    { intros k Hk. replace (p + 1 + k) with (p + (k + 1)) by lia.
      rewrite byte_at_app.
      2:{ rewrite Henc. simpl length. rewrite EncodeVarUInt_groups_length.
          lia. }
      rewrite Henc. apply byte_at_cons. lia. }
    rewrite (@ReadVarUInt_loop_encoded nbits ct _ pabyEnd nbits_ge_8 m
               (v / 128) 7 (v mod 128) (p + 1) _ p nOutVal [p]
               ltac:(lia) G2 G3 G4 G5 G6 Hfuel ltac:(lia) G9 G10).
    f_equal; try (change (2 ^ 7) with 128; lia).
    rewrite (addr_range_S p (S m)). reflexivity.
Qed.

End DecodeOfEncode.

(** C2.  Every [v] in [0, 2^64-1], written as a little-endian base-128
    varint and read back with ReadVarUInt64NoCheck, comes back unchanged,
    and the decoder advances over, and dereferences, exactly the bytes of
    the encoding, wherever the encoding sits in the buffer. *)
Theorem varuint64_encode_decode (v : Z) (pre post : list GByte) (nOutVal : Z) :
  0 <= v <= 2 ^ 64 - 1 ->
  let p := Z.of_nat (length pre) in
  let r := ReadVarUInt64NoCheck (pre ++ EncodeVarUInt v ++ post) p nOutVal in
  vr_ret r = true /\
  vr_out r = v /\
  vr_iter r = p + Z.of_nat (length (EncodeVarUInt v)) /\
  vr_reads r = addr_range p (length (EncodeVarUInt v)).
Proof.
  intros Hv p r. subst r. unfold ReadVarUInt64NoCheck.
  rewrite ReadVarUInt_encoded; try lia.
  - simpl. repeat split; reflexivity.
  - discriminate.
Qed.

Lemma varuint64_encode_decode_witness :
  0 <= 300 <= 2 ^ 64 - 1 /\
  vr_out (ReadVarUInt64NoCheck ([x07] ++ EncodeVarUInt 300 ++ [xff]) 1 0) = 300.
Proof.
  split; [lia|].
  exact (proj1 (proj2 (@varuint64_encode_decode 300 [x07] [xff] 0
                         ltac:(lia)))).
Defined.

(** ** The bounds-checked decoder *)

Lemma addr_range_snoc (p : Z) (n : nat) :
  addr_range p (S n) = addr_range p n ++ [p + Z.of_nat n].
Proof.
  unfold addr_range. rewrite seq_S, map_app. reflexivity.
Qed.

Lemma addr_range_bounds (p : Z) (n : nat) :
  Forall (fun q => p <= q < p + Z.of_nat n) (addr_range p n).
Proof.
  unfold addr_range. apply Forall_forall. intros q Hq.
  apply in_map_iff in Hq. destruct Hq as [k [<- Hk]].
  apply in_seq in Hk. lia.
Qed.

Section CheckedDecoder.

Variable nbits : Z.
Variable ct : ControlType.
Variable buf : list GByte.
Variable pabyEnd : Z.
Hypothesis nbits_ge_8 : 8 <= nbits.
Hypothesis checked : check_bounds ct = true.

Lemma max_bytes_gt (k : Z) : 7 * k < nbits <-> k < varuint_max_bytes nbits.
Proof.
  unfold varuint_max_bytes.
  pose proof (Z.div_mod (nbits + 6) 7 ltac:(lia)).
  pose proof (Z.mod_pos_bound (nbits + 6) 7 ltac:(lia)).
  split; intros H'; lia.
Qed.

Lemma continuation_bit_wrap (p : Z) :
  (Z.land (wrap_unsigned nbits (byte_at buf p)) 128 =? 0)
  = negb (continuation_bit buf p).
Proof.
  rewrite wrap_byte by assumption. unfold continuation_bit.
  rewrite negb_involutive. reflexivity.
Qed.

Lemma ReadVarUInt_loop_checked (fuel : nat) :
  forall (k : nat) (pabyIter nOutVal nVal : Z),
    (1 <= k)%nat ->
    7 * Z.of_nat k < nbits ->
    nbits <= 7 * (Z.of_nat k + Z.of_nat fuel) ->
    pabyIter + Z.of_nat k <= pabyEnd ->
    (forall p, pabyIter <= p < pabyIter + Z.of_nat k ->
               continuation_bit buf p = true) ->
    let r := ReadVarUInt_loop nbits ct buf pabyEnd fuel pabyIter nOutVal
               (pabyIter + Z.of_nat k) (7 * Z.of_nat k) nVal
               (addr_range pabyIter k) in
    (vr_ret r = false <->
     truncated_varint buf pabyIter pabyEnd
     \/ shift_overflows nbits buf pabyIter pabyEnd) /\
    Forall (fun q => pabyIter <= q < pabyEnd) (vr_reads r).
Proof.
  induction fuel as [|fuel IH];
    intros k pabyIter nOutVal nVal Hk Hshift Hfuel Hin Hcont; [lia|].
  cbn [ReadVarUInt_loop]. rewrite checked. cbn [andb].
  assert (Hprev : Forall (fun q => pabyIter <= q < pabyEnd)
                         (addr_range pabyIter k)).
  { eapply Forall_impl; [|apply addr_range_bounds]. cbv beta. intros; lia. }
  destruct (Z.geb_spec (pabyIter + Z.of_nat k) pabyEnd) as [Hge|Hlt].
  - (* the end of the buffer is reached *)
    cbn. split; [|exact Hprev]. split; [intros _|reflexivity].
    left. intros p Hp. apply Hcont. lia.
  - rewrite continuation_bit_wrap.
    destruct (continuation_bit buf (pabyIter + Z.of_nat k)) eqn:Hc; cbn [negb].
    + destruct (Z.geb_spec (7 * Z.of_nat k + 7) nbits) as [Hov|Hnov].
      * (* the shift reaches the width *)
        cbn. split.
        -- split; [intros _|reflexivity]. right.
           assert (Hnb : varuint_max_bytes nbits <= Z.of_nat k + 1).
           { pose proof (max_bytes_gt (Z.of_nat k + 1)). lia. }
           split; [lia|]. intros p Hp.
           destruct (Z.eq_dec p (pabyIter + Z.of_nat k)) as [->|Hne];
             [exact Hc|apply Hcont; lia].
        -- apply Forall_app. split; [exact Hprev|].
           constructor; [lia|constructor].
      * (* one more round *)
        replace (pabyIter + Z.of_nat k + 1)
          with (pabyIter + Z.of_nat (S k)) by lia.
        replace (7 * Z.of_nat k + 7) with (7 * Z.of_nat (S k)) by lia.
        rewrite <- addr_range_snoc.
        apply IH; try lia.
        intros p Hp.
        destruct (Z.eq_dec p (pabyIter + Z.of_nat k)) as [->|Hne];
          [exact Hc|apply Hcont; lia].
    + (* a byte with the continuation bit clear: success *)
      cbn. split.
      * split; [discriminate|]. intros [Ha|[Hb1 Hb2]].
        -- rewrite (Ha (pabyIter + Z.of_nat k)) in Hc by lia. discriminate.
        -- pose proof (max_bytes_gt (Z.of_nat k)).
           rewrite (Hb2 (pabyIter + Z.of_nat k)) in Hc by lia. discriminate.
      * apply Forall_app. split; [exact Hprev|].
        constructor; [lia|constructor].
Qed.

Lemma ReadVarUInt_checked (pabyIter nOutVal : Z) :
  let r := ReadVarUInt nbits ct buf pabyEnd pabyIter nOutVal in
  (vr_ret r = false <->
   truncated_varint buf pabyIter pabyEnd
   \/ shift_overflows nbits buf pabyIter pabyEnd) /\
  Forall (fun q => pabyIter <= q < pabyEnd) (vr_reads r).
Proof.
  unfold ReadVarUInt. rewrite checked. cbn [andb].
  destruct (Z.geb_spec pabyIter pabyEnd) as [Hge|Hlt].
  - cbn. split; [|constructor]. split; [intros _|reflexivity].
    left. intros p Hp. lia.
  - rewrite continuation_bit_wrap.
    destruct (continuation_bit buf pabyIter) eqn:Hc; cbn [negb].
    + replace (pabyIter + 1) with (pabyIter + Z.of_nat 1) by lia.
      change 7 with (7 * Z.of_nat 1) at 1.
      change [pabyIter] with (pabyIter :: addr_range (pabyIter + 1) 0).
      rewrite <- addr_range_S.
      apply ReadVarUInt_loop_checked; try lia.
      * unfold ReadVarUInt_fuel.
        pose proof (Z.div_mod nbits 7 ltac:(lia)).
        pose proof (Z.mod_pos_bound nbits 7 ltac:(lia)).
        lia.
      * intros p Hp. replace p with pabyIter by lia. exact Hc.
    + cbn. split.
      * split; [discriminate|]. intros [Ha|[Hb1 Hb2]].
        -- rewrite (Ha pabyIter) in Hc by lia. discriminate.
        -- pose proof (max_bytes_gt 1).
           rewrite (Hb2 pabyIter) in Hc by lia. discriminate.
      * constructor; [lia|constructor].
Qed.

End CheckedDecoder.

(** C3.  With a bounds-checking control type the decoder fails exactly when
    the varint is truncated (every byte from the cursor to the end pointer
    has its continuation bit set) or when the shift reaches the width of the
    output type; and no address at or beyond the end pointer is ever
    dereferenced. *)
Theorem ReadVarUInt_checked_failure_iff
    (nbits : Z) (ct : ControlType) (buf : list GByte)
    (pabyIter pabyEnd nOutVal : Z) :
  8 <= nbits ->
  check_bounds ct = true ->
  let r := ReadVarUInt nbits ct buf pabyEnd pabyIter nOutVal in
  (vr_ret r = false <->
   truncated_varint buf pabyIter pabyEnd
   \/ shift_overflows nbits buf pabyIter pabyEnd) /\
  Forall (fun q => pabyIter <= q < pabyEnd) (vr_reads r).
Proof.
  intros Hn Hc. apply ReadVarUInt_checked; assumption.
Qed.

Lemma ReadVarUInt_checked_failure_iff_witness :
  8 <= 32 /\ check_bounds ControlTypeVerboseErrorTrue = true /\
  let r := ReadVarUInt32 [x81; x82; x83] 0 3 0 in
  (vr_ret r = false <->
   truncated_varint [x81; x82; x83] 0 3
   \/ shift_overflows 32 [x81; x82; x83] 0 3) /\
  Forall (fun q => 0 <= q < 3) (vr_reads r).
Proof.
  split; [lia|]. split; [reflexivity|].
  exact (@ReadVarUInt_checked_failure_iff 32 ControlTypeVerboseErrorTrue
           [x81; x82; x83] 0 3 0 ltac:(lia) eq_refl).
Defined.

(** The cursor never moves backwards and the value read is not negative. *)
Section DecoderProgress.

Variable nbits : Z.
Variable ct : ControlType.
Variable buf : list GByte.
Variable pabyEnd : Z.
Hypothesis nbits_nonneg : 0 <= nbits.

Lemma wrap_unsigned_nonneg (x : Z) : 0 <= wrap_unsigned nbits x.
Proof.
  unfold wrap_unsigned. apply Z.mod_pos_bound. apply Z.pow_pos_nonneg; lia.
Qed.

Lemma ReadVarUInt_loop_progress (fuel : nat) :
  forall (pabyIter nOutVal pabyLocalIter nShift nVal : Z) (reads : list Z),
    pabyIter <= pabyLocalIter -> 0 <= nOutVal -> 0 <= nVal ->
    let r := ReadVarUInt_loop nbits ct buf pabyEnd fuel pabyIter nOutVal
               pabyLocalIter nShift nVal reads in
    pabyIter <= vr_iter r /\ 0 <= vr_out r.
Proof.
  induction fuel as [|fuel IH];
    intros pabyIter nOutVal pabyLocalIter nShift nVal reads Hle Hout Hval;
    cbn [ReadVarUInt_loop].
  - cbn. lia.
  - assert (Hnew : 0 <= Z.lor nVal
              (wrap_unsigned nbits
                 (Z.shiftl
                    (Z.land (wrap_unsigned nbits (byte_at buf pabyLocalIter))
                            127) nShift))).
    { apply Z.lor_nonneg. split; [exact Hval|apply wrap_unsigned_nonneg]. }
    destruct (check_bounds ct && (pabyLocalIter >=? pabyEnd)); [cbn; lia|].
    destruct (Z.land (wrap_unsigned nbits (byte_at buf pabyLocalIter)) 128
              =? 0); [cbn; lia|].
    destruct (nShift + 7 >=? nbits); [cbn; lia|].
    apply IH; lia.
Qed.

Lemma ReadVarUInt_progress (pabyIter nOutVal : Z) :
  0 <= nOutVal ->
  let r := ReadVarUInt nbits ct buf pabyEnd pabyIter nOutVal in
  pabyIter <= vr_iter r /\ 0 <= vr_out r.
Proof.
  intros Hout. unfold ReadVarUInt.
  destruct (check_bounds ct && (pabyIter >=? pabyEnd)); [cbn; lia|].
  destruct (Z.land (wrap_unsigned nbits (byte_at buf pabyIter)) 128 =? 0).
  - cbn. split; [lia|apply wrap_unsigned_nonneg].
  - apply ReadVarUInt_loop_progress; try lia.
    apply Z.land_nonneg. right. lia.
Qed.

End DecoderProgress.

(** ** The delta decoder *)

Lemma to_int64_fits (x : Z) : fits_int64 x -> to_int64 x = x.
Proof.
  unfold fits_int64, to_int64, wrap_signed. intros Hx.
  change (2 ^ (64 - 1)) with (2 ^ 63).
  assert (H64 : 2 ^ 64 = 2 * 2 ^ 63) by reflexivity.
  assert (H63 : 0 < 2 ^ 63) by reflexivity.
  destruct (Z_lt_ge_dec x 0) as [Hneg|Hpos].
  - replace (x mod 2 ^ 64) with (x + 2 ^ 64)
      by (apply Z.mod_unique with (-1); lia).
    destruct (Z.ltb_spec (x + 2 ^ 64) (2 ^ 63)); lia.
  - rewrite Z.mod_small by lia.
    destruct (Z.ltb_spec x (2 ^ 63)); lia.
Qed.

Lemma first_byte_fields (m a c : Z) :
  0 <= m < 64 -> 0 <= a <= 1 -> 0 <= c <= 1 ->
  let x := m + 64 * a + 128 * c in
  Z.land x 63 = m /\
  (Z.land x 64 =? 0) = (a =? 0) /\
  (Z.land x 128 =? 0) = (c =? 0).
Proof.
  intros Hm Ha Hc x. subst x. repeat split.
  - rewrite land_63. symmetry. apply Z.mod_unique with (a + 2 * c); lia.
  - change 64 with (2 ^ 6) at 2.
    rewrite land_pow2_testbit, testbit_div by lia. change (2 ^ 6) with 64.
    replace ((m + 64 * a + 128 * c) / 64) with (a + 2 * c)
      by (apply Z.div_unique with m; lia).
    assert (a = 0 \/ a = 1) as [-> | ->] by lia;
      assert (c = 0 \/ c = 1) as [-> | ->] by lia; reflexivity.
  - change 128 with (2 ^ 7) at 2.
    rewrite land_pow2_testbit, testbit_div by lia. change (2 ^ 7) with 128.
    replace ((m + 64 * a + 128 * c) / 128) with c
      by (apply Z.div_unique with (m + 64 * a); lia).
    assert (c = 0 \/ c = 1) as [-> | ->] by lia; reflexivity.
Qed.

Section DeltaLoopOnEncoding.

Variable buf : list GByte.

Lemma ReadVarIntAndAdd_loop_encoded (n : nat) :
  forall (v s nVal p : Z) (fuel : nat) (bNegative : bool) (nOutVal : Z),
    0 <= s -> 0 <= nVal < 2 ^ s -> 0 <= v ->
    nVal + v * 2 ^ s < 2 ^ 64 ->
    (n <> O -> 2 ^ (7 * Z.of_nat n) <= v) ->
    v < 2 ^ (7 * Z.of_nat (S n)) ->
    (n < fuel)%nat -> 0 <= p ->
    (forall k, 0 <= k < Z.of_nat (S n) ->
               byte_at buf (p + k) = byte_at (EncodeVarUInt_groups n v) k) ->
    ReadVarIntAndAdd_loop buf fuel bNegative nOutVal p s nVal
    = (p + Z.of_nat (S n),
       if bNegative then to_int64 (nOutVal - (nVal + v * 2 ^ s))
       else to_int64 (nOutVal + (nVal + v * 2 ^ s))).
Proof.
  induction n as [|n IH];
    intros v s nVal p fuel bNegative nOutVal
           Hs HnVal Hv Hfit Hlow Hhigh Hfuel Hp Hbytes.
  - destruct fuel as [|fuel]; [lia|]. cbn [ReadVarIntAndAdd_loop].
    change (2 ^ (7 * Z.of_nat 1)) with 128 in Hhigh.
    assert (Hb : byte_at buf p = v).
    { specialize (Hbytes 0 ltac:(lia)). rewrite Z.add_0_r in Hbytes.
      rewrite Hbytes. unfold byte_at. simpl. rewrite Z_of_byte_of_Z.
      apply Z.mod_small. lia. }
    rewrite Hb, land_128_zero_iff by lia.
    destruct (Z.ltb_spec v 128); [|lia].
    rewrite land_127, (Z.mod_small v 128) by lia.
    assert (Hpos : 0 < 2 ^ s) by (apply Z.pow_pos_nonneg; lia).
    unfold to_uint64. rewrite wrap_unsigned_small.
    2:{ rewrite Z.shiftl_mul_pow2 by lia. nia. }
    rewrite lor_shiftl_add by lia.
    f_equal; lia.
  - destruct fuel as [|fuel]; [lia|]. cbn [ReadVarIntAndAdd_loop].
    rewrite pow2_7_succ in Hhigh.
    specialize (Hlow ltac:(discriminate)). rewrite pow2_7_succ in Hlow.
    assert (Hpn : 0 < 2 ^ (7 * Z.of_nat n)) by (apply Z.pow_pos_nonneg; lia).
    assert (Hmod : 0 <= v mod 128 < 128) by (apply Z.mod_pos_bound; lia).
    assert (Hb : byte_at buf p = v mod 128 + 128).
    { specialize (Hbytes 0 ltac:(lia)). rewrite Z.add_0_r in Hbytes.
      rewrite Hbytes. unfold byte_at. simpl. rewrite Z_of_byte_of_Z.
      rewrite land_127, lor_128 by assumption.
      apply Z.mod_small. lia. }
    rewrite Hb, land_128_zero_iff by lia.
    destruct (Z.ltb_spec (v mod 128 + 128) 128); [lia|].
    rewrite land_127.
    replace ((v mod 128 + 128) mod 128) with (v mod 128)
      by (apply Z.mod_unique with 1; lia).
    assert (Hpos : 0 < 2 ^ s) by (apply Z.pow_pos_nonneg; lia).
    assert (Hdm : v = 128 * (v / 128) + v mod 128) by (apply Z.div_mod; lia).
    assert (Hq : 2 ^ (7 * Z.of_nat n) <= v / 128)
      by (apply Z.div_le_lower_bound; lia).
    assert (Hs7 : 2 ^ (s + 7) = 2 ^ s * 128)
      by (rewrite Z.pow_add_r by lia; reflexivity).
    assert (Hlt : s + 7 < 64).
    { apply (Z.pow_lt_mono_r_iff 2); [lia|lia|]. rewrite Hs7. nia. }
    unfold to_uint64. rewrite wrap_unsigned_small.
    2:{ rewrite Z.shiftl_mul_pow2 by lia. nia. }
    rewrite lor_shiftl_add by lia.
    destruct (Z.geb_spec (s + 7) 64) as [Hge|_]; [lia|].
    assert (Hsh : Z.shiftr v 7 = v / 128)
      by (rewrite Z.shiftr_div_pow2 by lia; reflexivity).
    assert (G2 : 0 <= nVal + v mod 128 * 2 ^ s < 2 ^ (s + 7))
      by (rewrite Hs7; nia).
    assert (G3 : 0 <= v / 128) by (apply Z.div_pos; lia).
    assert (Hsplit : v * 2 ^ s
                     = v mod 128 * 2 ^ s + v / 128 * (2 ^ s * 128))
      by (rewrite Hdm at 1; ring).
    assert (G4 : nVal + v mod 128 * 2 ^ s + v / 128 * 2 ^ (s + 7) < 2 ^ 64)
      by (rewrite Hs7; lia).
    assert (G6 : v / 128 < 2 ^ (7 * Z.of_nat (S n)))
      by (apply Z.div_lt_upper_bound; lia).
    assert (G10 : forall k, 0 <= k < Z.of_nat (S n) ->
               byte_at buf (p + 1 + k)
               = byte_at (EncodeVarUInt_groups n (v / 128)) k).
    { intros k Hk. replace (p + 1 + k) with (p + (k + 1)) by lia.
      rewrite Hbytes by lia.
      cbn [EncodeVarUInt_groups]. rewrite Hsh. apply byte_at_cons. lia. }
    rewrite (IH (v / 128) (s + 7) _ (p + 1) fuel bNegative nOutVal
                ltac:(lia) G2 G3 G4 (fun _ => Hq) G6 ltac:(lia) ltac:(lia)
                G10).
    rewrite Hs7.
    replace (nVal + v mod 128 * 2 ^ s + v / 128 * (2 ^ s * 128))
      with (nVal + v * 2 ^ s) by lia.
    f_equal; lia.
Qed.

End DeltaLoopOnEncoding.

Lemma EncodeVarInt_length_pos (d : Z) : (1 <= length (EncodeVarInt d))%nat.
Proof.
  unfold EncodeVarInt. destruct (Z.abs d <? 64); simpl; lia.
Qed.

(** One delta: the accumulator moves by exactly [d] (modulo 2^64) and the
    cursor by the length of the encoding. *)
Lemma ReadVarIntAndAddNoCheck_encoded (d : Z) (pre post : list GByte)
      (nOutVal : Z) :
  Z.abs d < 2 ^ 64 ->
  ReadVarIntAndAddNoCheck (pre ++ EncodeVarInt d ++ post)
                          (Z.of_nat (length pre)) nOutVal
  = (Z.of_nat (length pre) + Z.of_nat (length (EncodeVarInt d)),
     to_int64 (nOutVal + d)).
Proof.
  intros Hd. unfold ReadVarIntAndAddNoCheck.
  set (p := Z.of_nat (length pre)).
  pose proof (EncodeVarInt_length_pos d) as Hlen.
  assert (Hfirst : byte_at (pre ++ EncodeVarInt d ++ post) p
                   = byte_at (EncodeVarInt d) 0).
  { replace p with (p + 0) by lia. apply byte_at_app. lia. }
  rewrite Hfirst. clear Hfirst.
  unfold EncodeVarInt in *.
  remember (Z.abs d) as mag eqn:Emag.
  remember (if d <? 0 then 1 else 0) as a eqn:Ea.
  assert (Ha : 0 <= a <= 1) by (subst a; destruct (d <? 0); lia).
  assert (Hsign : (if d <? 0 then 64 else 0) = 64 * a)
    by (subst a; destruct (d <? 0); reflexivity).
  assert (Hmag0 : 0 <= mag) by (subst mag; lia).
  assert (Hacc : forall acc,
            (if negb (a =? 0) then to_int64 (acc - mag)
             else to_int64 (acc + mag)) = to_int64 (acc + d)).
  { intros acc. subst a mag. destruct (Z.ltb_spec d 0); simpl; f_equal; lia. }
  rewrite Hsign in *. clear Emag Ea Hsign.
  destruct (Z.ltb_spec mag 64) as [Hsmall|Hbig].
  - (* one byte *)
    assert (Hb : byte_at [byte_of_Z (Z.lor mag (64 * a))] 0
                 = mag + 64 * a + 128 * 0).
    { rewrite byte_at_head, Z_of_byte_of_Z.
      replace (Z.lor mag (64 * a)) with (mag + a * 2 ^ 6).
      2:{ rewrite <- lor_shiftl_add by (change (2 ^ 6) with 64; lia).
          rewrite Z.shiftl_mul_pow2 by lia. f_equal. change (2 ^ 6) with 64.
          lia. }
      change (2 ^ 6) with 64. rewrite Z.mod_small by lia. lia. }
    rewrite Hb.
    destruct (@first_byte_fields mag a 0 ltac:(lia) Ha ltac:(lia))
      as [F1 [F2 F3]].
    rewrite F1, F2, F3. cbn [Z.eqb]. rewrite Hacc.
    simpl length. f_equal; lia.
  - (* first byte, then the 7-bit groups of [mag >> 6] *)
    assert (Hmod : 0 <= mag mod 64 < 64) by (apply Z.mod_pos_bound; lia).
    assert (Hdm : mag = 64 * (mag / 64) + mag mod 64)
      by (apply Z.div_mod; lia).
    assert (Hsh : Z.shiftr mag 6 = mag / 64)
      by (rewrite Z.shiftr_div_pow2 by lia; reflexivity).
    rewrite Hsh in *.
    set (b0 := byte_of_Z (Z.lor (Z.lor (Z.land mag 63) (64 * a)) 128)) in *.
    assert (Hb : Z_of_byte b0 = mag mod 64 + 64 * a + 128 * 1).
    { subst b0. rewrite Z_of_byte_of_Z, land_63.
      replace (Z.lor (mag mod 64) (64 * a)) with (mag mod 64 + a * 2 ^ 6).
      2:{ rewrite <- lor_shiftl_add by (change (2 ^ 6) with 64; lia).
          rewrite Z.shiftl_mul_pow2 by lia. f_equal. change (2 ^ 6) with 64.
          lia. }
      change (2 ^ 6) with 64. rewrite lor_128 by lia.
      rewrite Z.mod_small by lia. lia. }
    assert (Hb' : byte_at (b0 :: EncodeVarUInt (mag / 64)) 0
                  = mag mod 64 + 64 * a + 128 * 1).
    { rewrite byte_at_head. exact Hb. }
    rewrite Hb'.
    destruct (@first_byte_fields (mag mod 64) a 1 Hmod Ha ltac:(lia))
      as [F1 [F2 F3]].
    rewrite F1, F2, F3. cbn [Z.eqb].
    assert (Hq1 : 1 <= mag / 64) by (apply Z.div_le_lower_bound; lia).
    assert (Hq2 : mag / 64 < 2 ^ 58).
    { apply Z.div_lt_upper_bound; [lia|].
      change (64 * 2 ^ 58) with (2 ^ 64). exact Hd. }
    remember (Z.to_nat (Z.log2 (mag / 64) / 7)) as n eqn:En.
    symmetry in En.
    pose proof (@log2_groups_bounds (mag / 64) n ltac:(lia) En) as [Hlo Hhi].
    assert (Hn : (n < 10)%nat).
    { assert (Z.log2 (mag / 64) < 58) by (apply Z.log2_lt_pow2; lia).
      assert (Z.log2 (mag / 64) / 7 <= 57 / 7)
        by (apply Z.div_le_mono; lia).
      change (57 / 7) with 8 in *. lia. }
    assert (Hlenq : length (EncodeVarUInt (mag / 64)) = S n).
    { unfold EncodeVarUInt. rewrite En. apply EncodeVarUInt_groups_length. }
    assert (G10 : forall k, 0 <= k < Z.of_nat (S n) ->
              byte_at (pre ++ (b0 :: EncodeVarUInt (mag / 64)) ++ post)
                      (p + 1 + k)
              = byte_at (EncodeVarUInt_groups n (mag / 64)) k).
    { intros k Hk. replace (p + 1 + k) with (p + (k + 1)) by lia.
      rewrite byte_at_app by (simpl length; lia).
      rewrite byte_at_cons by lia. unfold EncodeVarUInt. rewrite En.
      reflexivity. }
    rewrite (@ReadVarIntAndAdd_loop_encoded _ n (mag / 64) 6 (mag mod 64)
               (p + 1) 10 (negb (a =? 0)) nOutVal
               ltac:(lia) Hmod ltac:(lia)
               ltac:(change (2 ^ 6) with 64; lia)
               (fun _ => Hlo) Hhi Hn ltac:(lia) G10).
    change (2 ^ 6) with 64.
    replace (mag mod 64 + mag / 64 * 64) with mag by lia.
    rewrite Hacc. simpl length. rewrite Hlenq. f_equal; lia.
Qed.

(** *** Running sums *)

Lemma to_int64_mod (x : Z) : to_int64 x mod 2 ^ 64 = x mod 2 ^ 64.
Proof.
  unfold to_int64, wrap_signed.
  destruct (x mod 2 ^ 64 <? 2 ^ (64 - 1)).
  - apply Z.mod_mod. discriminate.
  - replace (x mod 2 ^ 64 - 2 ^ 64) with (x mod 2 ^ 64 + (-1) * 2 ^ 64)
      by lia.
    rewrite Z.mod_add by discriminate. apply Z.mod_mod. discriminate.
Qed.

Lemma to_int64_congr (x y : Z) :
  x mod 2 ^ 64 = y mod 2 ^ 64 -> to_int64 x = to_int64 y.
Proof. intros H. unfold to_int64, wrap_signed. rewrite H. reflexivity. Qed.

(** Reducing the accumulator at every step is reducing the sum once. *)
Lemma to_int64_add_l (a b : Z) : to_int64 (to_int64 a + b) = to_int64 (a + b).
Proof.
  apply to_int64_congr.
  rewrite Z.add_mod, to_int64_mod, <- Z.add_mod by discriminate.
  reflexivity.
Qed.

Lemma wrapped_sums_length (acc : Z) (ds : list Z) :
  length (wrapped_sums acc ds) = length ds.
Proof.
  revert acc. induction ds as [|d ds IH]; intros acc; simpl;
    [|rewrite IH]; reflexivity.
Qed.

Lemma nth_error_wrapped_sums (ds : list Z) :
  forall (acc : Z) (i : nat),
    (i < length ds)%nat ->
    nth_error (wrapped_sums acc ds) i
    = Some (to_int64 (acc + delta_sum ds i)).
Proof.
  induction ds as [|d ds IH]; intros acc i Hi; [simpl in Hi; lia|].
  destruct i as [|i].
  - simpl. unfold delta_sum. simpl. do 2 f_equal. lia.
  - simpl in Hi. cbn [wrapped_sums nth_error].
    rewrite IH by lia. unfold delta_sum. cbn [firstn fold_right].
    rewrite to_int64_add_l. do 2 f_equal. lia.
Qed.

Lemma wrapped_sums_app (ds1 ds2 : list Z) :
  forall acc : Z,
    wrapped_sums acc (ds1 ++ ds2)
    = wrapped_sums acc ds1 ++ wrapped_sums (wrap_acc acc ds1) ds2.
Proof.
  induction ds1 as [|d ds1 IH]; intros acc; cbn; [reflexivity|].
  rewrite IH. reflexivity.
Qed.

Lemma EncodeDeltas_length_ge (ds : list Z) :
  (length ds <= length (EncodeDeltas ds))%nat.
Proof.
  induction ds as [|d ds IH]; [simpl; lia|].
  unfold EncodeDeltas in *. cbn [map concat]. rewrite length_app.
  pose proof (EncodeVarInt_length_pos d). simpl length. lia.
Qed.

(** *** The arrays *)

Section ArraysOnEncodings.

Context {double : Type} {ops : DoubleOps double}.
Variable poGeomField : FileGDBGeomField double.
Variable pabyEnd : Z.

Lemma ReadOrdinateArray_loop_encoded (dfScale dfOrigin : double)
      (ds : list Z) :
  forall (pre post : list GByte) (acc : Z) (out : list double),
    Forall encodable_delta ds ->
    Z.of_nat (length pre) + Z.of_nat (length (EncodeDeltas ds)) <= pabyEnd ->
    ReadOrdinateArray_loop (pre ++ EncodeDeltas ds ++ post) pabyEnd
      dfScale dfOrigin (length ds) (Z.of_nat (length pre)) acc out
    = {| zm_ret := true;
         zm_cur := Z.of_nat (length pre)
                   + Z.of_nat (length (EncodeDeltas ds));
         zm_acc := wrap_acc acc ds;
         zm_set := out ++ map (fun s => ordinate s dfScale dfOrigin)
                              (wrapped_sums acc ds) |}.
Proof.
  induction ds as [|d ds IH]; intros pre post acc out Hsmall Hend.
  - simpl. rewrite app_nil_r, Z.add_0_r. reflexivity.
  - cbn [length ReadOrdinateArray_loop].
    unfold EncodeDeltas in *. cbn [map concat] in *.
    fold (EncodeDeltas ds) in *.
    rewrite length_app in Hend.
    pose proof (EncodeVarInt_length_pos d) as Hpos.
    rewrite geb_false by lia.
    apply Forall_cons_iff in Hsmall. destruct Hsmall as [Hd Hrest].
    rewrite <- app_assoc.
    rewrite ReadVarIntAndAddNoCheck_encoded by exact Hd.
    replace (pre ++ EncodeVarInt d ++ EncodeDeltas ds ++ post)
      with ((pre ++ EncodeVarInt d) ++ EncodeDeltas ds ++ post)
      by (rewrite <- app_assoc; reflexivity).
    replace (Z.of_nat (length pre) + Z.of_nat (length (EncodeVarInt d)))
      with (Z.of_nat (length (pre ++ EncodeVarInt d)))
      by (rewrite length_app; lia).
    rewrite IH; try assumption.
    + rewrite !length_app. cbn [map wrapped_sums]. unfold wrap_acc.
      cbn [fold_left]. rewrite <- app_assoc. f_equal; lia.
    + rewrite length_app. lia.
Qed.

Lemma EncodeDeltaPairs_length_ge (dxs dys : list Z) :
  length dys = length dxs ->
  (2 * length dxs <= length (EncodeDeltaPairs dxs dys))%nat.
Proof.
  revert dys. induction dxs as [|dx dxs IH]; intros [|dy dys] Hlen;
    simpl in *; try lia.
  rewrite !length_app.
  pose proof (EncodeVarInt_length_pos dx).
  pose proof (EncodeVarInt_length_pos dy).
  specialize (IH dys ltac:(lia)). lia.
Qed.

Lemma ReadXYArray_loop_encoded (dxs : list Z) :
  forall (dys : list Z) (pre post : list GByte)
         (dx0 dy0 accx accy : Z) (out : list (double * double)),
    length dys = length dxs ->
    Forall encodable_delta dxs -> Forall encodable_delta dys ->
    Z.of_nat (length pre) + Z.of_nat (length (EncodeDeltaPairs dxs dys))
    <= pabyEnd ->
    ReadXYArray_loop poGeomField (pre ++ EncodeDeltaPairs dxs dys ++ post)
      pabyEnd (length dxs) (Z.of_nat (length pre)) dx0 dy0 accx accy out
    = {| xy_ret := true;
         xy_cur := Z.of_nat (length pre)
                   + Z.of_nat (length (EncodeDeltaPairs dxs dys));
         xy_dx := wrap_acc accx dxs;
         xy_dy := wrap_acc accy dys;
         xy_set := out ++ part_points poGeomField (wrapped_sums accx dxs)
                                      (wrapped_sums accy dys) |}.
Proof.
  unfold part_points.
  induction dxs as [|dx dxs IH];
    intros [|dy dys] pre post dx0 dy0 accx accy out
           Hlen Hsx Hsy Hend; try discriminate Hlen.
  - simpl. rewrite app_nil_r, Z.add_0_r. reflexivity.
  - cbn [length ReadXYArray_loop EncodeDeltaPairs] in *.
    rewrite !length_app in Hend.
    pose proof (EncodeVarInt_length_pos dx) as Hpx.
    pose proof (EncodeVarInt_length_pos dy) as Hpy.
    rewrite geb_false by lia.
    apply Forall_cons_iff in Hsx. destruct Hsx as [Hdx Hrx].
    apply Forall_cons_iff in Hsy. destruct Hsy as [Hdy Hry].
    rewrite <- !app_assoc.
    rewrite ReadVarIntAndAddNoCheck_encoded by exact Hdx.
    replace (pre ++ EncodeVarInt dx ++ EncodeVarInt dy
                 ++ EncodeDeltaPairs dxs dys ++ post)
      with ((pre ++ EncodeVarInt dx) ++ EncodeVarInt dy
                 ++ EncodeDeltaPairs dxs dys ++ post)
      by (rewrite <- app_assoc; reflexivity).
    replace (Z.of_nat (length pre) + Z.of_nat (length (EncodeVarInt dx)))
      with (Z.of_nat (length (pre ++ EncodeVarInt dx)))
      by (rewrite length_app; lia).
    rewrite ReadVarIntAndAddNoCheck_encoded by exact Hdy.
    replace ((pre ++ EncodeVarInt dx) ++ EncodeVarInt dy
                 ++ EncodeDeltaPairs dxs dys ++ post)
      with (((pre ++ EncodeVarInt dx) ++ EncodeVarInt dy)
                 ++ EncodeDeltaPairs dxs dys ++ post)
      by (rewrite <- !app_assoc; reflexivity).
    replace (Z.of_nat (length (pre ++ EncodeVarInt dx))
             + Z.of_nat (length (EncodeVarInt dy)))
      with (Z.of_nat (length ((pre ++ EncodeVarInt dx) ++ EncodeVarInt dy)))
      by (rewrite !length_app; lia).
    assert (Hlen' : length dys = length dxs) by lia.
    assert (Hend' : Z.of_nat (length ((pre ++ EncodeVarInt dx)
                                        ++ EncodeVarInt dy))
                    + Z.of_nat (length (EncodeDeltaPairs dxs dys))
                    <= pabyEnd)
      by (rewrite !length_app; lia).
    rewrite (IH dys _ post dx0 dy0 _ _ _ Hlen' Hrx Hry Hend').
    rewrite !length_app. cbn [map combine wrapped_sums]. unfold wrap_acc.
    cbn [fold_left]. rewrite <- app_assoc. f_equal. lia.
Qed.

End ArraysOnEncodings.

Lemma nth_error_combine_map {A B : Type} (f : Z -> A) (g : Z -> B)
      (l1 l2 : list Z) (i : nat) (a b : Z) :
  nth_error l1 i = Some a -> nth_error l2 i = Some b ->
  nth_error (combine (map f l1) (map g l2)) i = Some (f a, g b).
Proof.
  revert l2 i. induction l1 as [|x l1 IH]; intros [|y l2] [|i] H1 H2;
    simpl in *; try discriminate.
  - injection H1 as <-. injection H2 as <-. reflexivity.
  - apply IH; assumption.
Qed.

(** *** A whole geometry *)

Section MultiPointArrays.

Context {double : Type} {ops : DoubleOps double}.
Variable poGeomField : FileGDBGeomField double.

Lemma multipoint_arrays_encoded (bHasZ bHasM : bool)
      (dxs dys dzs dms : list Z) (pre post : list GByte) (pabyEnd : Z) :
  length dys = length dxs ->
  length dzs = length dxs ->
  length dms = length dxs ->
  Forall encodable_delta dxs -> Forall encodable_delta dys ->
  Forall encodable_delta dzs -> Forall encodable_delta dms ->
  Z.of_nat (length pre)
  + Z.of_nat (length (multipoint_section bHasZ bHasM dxs dys dzs dms))
  <= pabyEnd ->
  GetAsGeometry_multipoint_arrays poGeomField
    (pre ++ multipoint_section bHasZ bHasM dxs dys dzs dms ++ post)
    pabyEnd bHasZ bHasM (Z.of_nat (length pre)) (Z.of_nat (length dxs))
  = Some {|
      mp_xy := part_points poGeomField (wrapped_sums 0 dxs)
                           (wrapped_sums 0 dys);
      mp_z := if bHasZ
              then Some (map (fun s => ordinate s
                                (SanitizeScale (GetZScale poGeomField))
                                (GetZOrigin poGeomField))
                             (wrapped_sums 0 dzs))
              else None;
      mp_m := if bHasM
              then Some (map (fun s => ordinate s
                                (SanitizeScale (GetMScale poGeomField))
                                (GetMOrigin poGeomField))
                             (wrapped_sums 0 dms))
              else None |}.
Proof.
  intros Hly Hlz Hlm Hfx Hfy Hfz Hfm Hend.
  unfold GetAsGeometry_multipoint_arrays, multipoint_section in *.
  unfold ReadXYArray, ReadZArray, ReadMArray. rewrite Nat2Z.id.
  rewrite !length_app in Hend.
  rewrite <- !app_assoc.
  rewrite (@ReadXYArray_loop_encoded _ _ poGeomField pabyEnd dxs dys pre _
             0 0 0 0 [] Hly Hfx Hfy ltac:(lia)).
  cbn [xy_ret xy_cur xy_set negb app].
  set (pxy := pre ++ EncodeDeltaPairs dxs dys).
  assert (Hpxy : Z.of_nat (length pre)
                 + Z.of_nat (length (EncodeDeltaPairs dxs dys))
                 = Z.of_nat (length pxy))
    by (subst pxy; rewrite length_app; lia).
  rewrite Hpxy.
  replace (pre ++ EncodeDeltaPairs dxs dys
               ++ (if bHasZ then EncodeDeltas dzs else [])
               ++ (if bHasM then EncodeDeltas dms else []) ++ post)
    with (pxy ++ (if bHasZ then EncodeDeltas dzs else [])
              ++ (if bHasM then EncodeDeltas dms else []) ++ post)
    by (subst pxy; rewrite <- app_assoc; reflexivity).
  pose proof (EncodeDeltas_length_ge dms) as Hmlen.
  destruct bHasZ.
  - rewrite <- Hlz.
    rewrite (@ReadOrdinateArray_loop_encoded _ _ pabyEnd _ _ dzs pxy _ 0 []
               Hfz ltac:(lia)).
    cbn [zm_ret zm_cur zm_set negb app].
    set (pz := pxy ++ EncodeDeltas dzs).
    assert (Hpz : Z.of_nat (length pxy) + Z.of_nat (length (EncodeDeltas dzs))
                  = Z.of_nat (length pz))
      by (subst pz; rewrite length_app; lia).
    rewrite Hpz.
    replace (pxy ++ EncodeDeltas dzs
                 ++ (if bHasM then EncodeDeltas dms else []) ++ post)
      with (pz ++ (if bHasM then EncodeDeltas dms else []) ++ post)
      by (subst pz; rewrite <- app_assoc; reflexivity).
    destruct bHasM; cbn [andb]; [|reflexivity].
    rewrite Hlz, <- Hlm.
    replace (Z.of_nat (length pz) + Z.of_nat (length dms) <=? pabyEnd)
      with true by (symmetry; apply Z.leb_le; lia).
    rewrite (@ReadOrdinateArray_loop_encoded _ _ pabyEnd _ _ dms pz _ 0 []
               Hfm ltac:(lia)).
    reflexivity.
  - cbn [app].
    destruct bHasM; cbn [andb]; [|reflexivity].
    rewrite <- Hlm.
    replace (Z.of_nat (length pxy) + Z.of_nat (length dms) <=? pabyEnd)
      with true by (symmetry; apply Z.leb_le; cbn [length app] in Hend; lia).
    rewrite (@ReadOrdinateArray_loop_encoded _ _ pabyEnd _ _ dms pxy _ 0 []
               Hfm ltac:(cbn [length app] in Hend; lia)).
    reflexivity.
Qed.

End MultiPointArrays.

Section ArraysFromAnyAccumulator.

Context {double : Type} {ops : DoubleOps double}.
Variable poGeomField : FileGDBGeomField double.
Variable pre post : list GByte.
Variable pabyEnd : Z.

Lemma ReadXYArray_encoded (dxs dys : list Z) (dx dy : Z) :
  length dys = length dxs ->
  Forall encodable_delta dxs -> Forall encodable_delta dys ->
  Z.of_nat (length pre) + Z.of_nat (length (EncodeDeltaPairs dxs dys))
  <= pabyEnd ->
  let r := ReadXYArray poGeomField (pre ++ EncodeDeltaPairs dxs dys ++ post)
             pabyEnd (Z.of_nat (length pre)) (Z.of_nat (length dxs)) dx dy in
  xy_ret r = true /\
  forall i, (i < length dxs)%nat ->
    nth_error (xy_set r) i
    = Some (ordinate (to_int64 (dx + delta_sum dxs i))
                     (GetXYScale poGeomField) (GetXOrigin poGeomField),
            ordinate (to_int64 (dy + delta_sum dys i))
                     (GetXYScale poGeomField) (GetYOrigin poGeomField)).
Proof.
  intros Hlen Hsx Hsy Hend. cbv zeta. unfold ReadXYArray.
  rewrite Nat2Z.id.
  rewrite (@ReadXYArray_loop_encoded _ _ poGeomField pabyEnd dxs dys pre post
             dx dy dx dy [] Hlen Hsx Hsy Hend).
  cbn [xy_ret xy_set app]. split; [reflexivity|].
  intros i Hi. unfold part_points.
  apply (@nth_error_combine_map _ _
           (fun s => ordinate s (GetXYScale poGeomField)
                              (GetXOrigin poGeomField))
           (fun s => ordinate s (GetXYScale poGeomField)
                              (GetYOrigin poGeomField)));
    apply nth_error_wrapped_sums; lia.
Qed.

Lemma ReadZArray_encoded (ds : list Z) (dz : Z) :
  Forall encodable_delta ds ->
  Z.of_nat (length pre) + Z.of_nat (length (EncodeDeltas ds)) <= pabyEnd ->
  let r := ReadZArray poGeomField (pre ++ EncodeDeltas ds ++ post) pabyEnd
             (Z.of_nat (length pre)) (Z.of_nat (length ds)) dz in
  zm_ret r = true /\
  forall i, (i < length ds)%nat ->
    nth_error (zm_set r) i
    = Some (ordinate (to_int64 (dz + delta_sum ds i))
                     (SanitizeScale (GetZScale poGeomField))
                     (GetZOrigin poGeomField)).
Proof.
  intros Hs Hend. cbv zeta. unfold ReadZArray. rewrite Nat2Z.id.
  rewrite (@ReadOrdinateArray_loop_encoded _ _ pabyEnd _ _ ds pre post dz []
             Hs Hend).
  cbn [zm_ret zm_set app]. split; [reflexivity|].
  intros i Hi. rewrite nth_error_map, nth_error_wrapped_sums by lia.
  reflexivity.
Qed.

Lemma ReadMArray_encoded (ds : list Z) (dm : Z) :
  Forall encodable_delta ds ->
  Z.of_nat (length pre) + Z.of_nat (length (EncodeDeltas ds)) <= pabyEnd ->
  let r := ReadMArray poGeomField (pre ++ EncodeDeltas ds ++ post) pabyEnd
             (Z.of_nat (length pre)) (Z.of_nat (length ds)) dm in
  zm_ret r = true /\
  forall i, (i < length ds)%nat ->
    nth_error (zm_set r) i
    = Some (ordinate (to_int64 (dm + delta_sum ds i))
                     (SanitizeScale (GetMScale poGeomField))
                     (GetMOrigin poGeomField)).
Proof.
  intros Hs Hend. cbv zeta. unfold ReadMArray. rewrite Nat2Z.id.
  rewrite (@ReadOrdinateArray_loop_encoded _ _ pabyEnd _ _ ds pre post dm []
             Hs Hend).
  cbn [zm_ret zm_set app]. split; [reflexivity|].
  intros i Hi. rewrite nth_error_map, nth_error_wrapped_sums by lia.
  reflexivity.
Qed.

End ArraysFromAnyAccumulator.

(** C1, as the code has it.  Every coordinate array goes through
    ReadXYArray, ReadZArray or ReadMArray, the only callers of the delta
    primitive.  On the encoded deltas [d_0 .. d_(N-1)], from accumulators
    holding [a], the i-th ordinate handed to the setter is
    [S_i/scale + origin] where [S_i] is [a + d_0 + ... + d_i] brought back
    into the range of a signed 64-bit integer; the scale is the XY scale
    for X and Y, and for Z and M the scale with 0 replaced by the smallest
    positive normal double (SanitizeScale).  For a multipoint the four
    accumulators start at 0 for the geometry, so that [S_i] is the sum of
    the deltas of the array itself. *)
Theorem delta_arrays_accumulate
    {double : Type} {ops : DoubleOps double}
    (poGeomField : FileGDBGeomField double) (pre post : list GByte)
    (pabyEnd : Z) :
  (forall (dxs dys : list Z) (dx dy : Z),
     length dys = length dxs ->
     Forall encodable_delta dxs -> Forall encodable_delta dys ->
     Z.of_nat (length pre) + Z.of_nat (length (EncodeDeltaPairs dxs dys))
     <= pabyEnd ->
     let r := ReadXYArray poGeomField
                (pre ++ EncodeDeltaPairs dxs dys ++ post) pabyEnd
                (Z.of_nat (length pre)) (Z.of_nat (length dxs)) dx dy in
     xy_ret r = true /\
     forall i, (i < length dxs)%nat ->
       nth_error (xy_set r) i
       = Some (ordinate (to_int64 (dx + delta_sum dxs i))
                        (GetXYScale poGeomField) (GetXOrigin poGeomField),
               ordinate (to_int64 (dy + delta_sum dys i))
                        (GetXYScale poGeomField) (GetYOrigin poGeomField)))
  /\
  (forall (ds : list Z) (dz : Z),
     Forall encodable_delta ds ->
     Z.of_nat (length pre) + Z.of_nat (length (EncodeDeltas ds)) <= pabyEnd ->
     let r := ReadZArray poGeomField (pre ++ EncodeDeltas ds ++ post) pabyEnd
                (Z.of_nat (length pre)) (Z.of_nat (length ds)) dz in
     zm_ret r = true /\
     forall i, (i < length ds)%nat ->
       nth_error (zm_set r) i
       = Some (ordinate (to_int64 (dz + delta_sum ds i))
                        (SanitizeScale (GetZScale poGeomField))
                        (GetZOrigin poGeomField)))
  /\
  (forall (ds : list Z) (dm : Z),
     Forall encodable_delta ds ->
     Z.of_nat (length pre) + Z.of_nat (length (EncodeDeltas ds)) <= pabyEnd ->
     let r := ReadMArray poGeomField (pre ++ EncodeDeltas ds ++ post) pabyEnd
                (Z.of_nat (length pre)) (Z.of_nat (length ds)) dm in
     zm_ret r = true /\
     forall i, (i < length ds)%nat ->
       nth_error (zm_set r) i
       = Some (ordinate (to_int64 (dm + delta_sum ds i))
                        (SanitizeScale (GetMScale poGeomField))
                        (GetMOrigin poGeomField)))
  /\
  (forall (bHasZ bHasM : bool) (dxs dys dzs dms : list Z),
     length dys = length dxs ->
     length dzs = length dxs ->
     length dms = length dxs ->
     Forall encodable_delta dxs -> Forall encodable_delta dys ->
     Forall encodable_delta dzs -> Forall encodable_delta dms ->
     Z.of_nat (length pre)
     + Z.of_nat (length (multipoint_section bHasZ bHasM dxs dys dzs dms))
     <= pabyEnd ->
     exists r,
       GetAsGeometry_multipoint_arrays poGeomField
         (pre ++ multipoint_section bHasZ bHasM dxs dys dzs dms ++ post)
         pabyEnd bHasZ bHasM (Z.of_nat (length pre))
         (Z.of_nat (length dxs))
       = Some r /\
       forall i, (i < length dxs)%nat ->
         nth_error (mp_xy r) i
         = Some (ordinate (to_int64 (delta_sum dxs i))
                          (GetXYScale poGeomField) (GetXOrigin poGeomField),
                 ordinate (to_int64 (delta_sum dys i))
                          (GetXYScale poGeomField) (GetYOrigin poGeomField))
         /\
         (bHasZ = true ->
          exists zs, mp_z r = Some zs /\
            nth_error zs i
            = Some (ordinate (to_int64 (delta_sum dzs i))
                             (SanitizeScale (GetZScale poGeomField))
                             (GetZOrigin poGeomField))) /\
         (bHasM = true ->
          exists ms, mp_m r = Some ms /\
            nth_error ms i
            = Some (ordinate (to_int64 (delta_sum dms i))
                             (SanitizeScale (GetMScale poGeomField))
                             (GetMOrigin poGeomField)))).
Proof.
  split; [intros; apply ReadXYArray_encoded; assumption|].
  split; [intros; apply ReadZArray_encoded; assumption|].
  split; [intros; apply ReadMArray_encoded; assumption|].
  intros bHasZ bHasM dxs dys dzs dms Hly Hlz Hlm Hsx Hsy Hsz Hsm Hend.
  eexists. split.
  - apply multipoint_arrays_encoded; assumption.
  - intros i Hi. cbn [mp_xy mp_z mp_m]. repeat split.
    + unfold part_points.
      apply (@nth_error_combine_map _ _
               (fun s => ordinate s (GetXYScale poGeomField)
                                  (GetXOrigin poGeomField))
               (fun s => ordinate s (GetXYScale poGeomField)
                                  (GetYOrigin poGeomField)));
        rewrite nth_error_wrapped_sums by lia; reflexivity.
    + intros ->. eexists. split; [reflexivity|].
      rewrite nth_error_map, nth_error_wrapped_sums by lia. reflexivity.
    + intros ->. eexists. split; [reflexivity|].
      rewrite nth_error_map, nth_error_wrapped_sums by lia. reflexivity.
Qed.

Lemma delta_arrays_accumulate_witness :
  let dxs := [5; -2] in
  let dys := [3; 1000] in
  let dzs := [7; -7] in
  let dms := [1; 1] in
  exists r,
    GetAsGeometry_multipoint_arrays example_geom_field
      ([] ++ multipoint_section true true dxs dys dzs dms
          ++ [x00; x00; x00; x00])
      9 true true 0 2
    = Some r /\
    nth_error (mp_xy r) 1
    = Some (ordinate 3 (double_of_Z 100) (double_of_Z 0),
            ordinate 1003 (double_of_Z 100) (double_of_Z 0)).
Proof.
  intros dxs dys dzs dms.
  assert (Hsmall : forall l, Forall (fun d => Z.abs d < 1024) l ->
                             Forall encodable_delta l).
  { intros l H. eapply Forall_impl; [|exact H]. intros d Hd.
    unfold encodable_delta. change (2 ^ 64) with 18446744073709551616.
    cbv beta in Hd. lia. }
  destruct (proj2 (proj2 (proj2
              (@delta_arrays_accumulate _ IEEE_double example_geom_field
                 [] [x00; x00; x00; x00] 9)))
              true true dxs dys dzs dms eq_refl eq_refl eq_refl
              ltac:(apply Hsmall; repeat constructor)
              ltac:(apply Hsmall; repeat constructor)
              ltac:(apply Hsmall; repeat constructor)
              ltac:(apply Hsmall; repeat constructor)
              ltac:(vm_compute; discriminate))
    as [r [Hr Hall]].
  exists r. split; [exact Hr|].
  exact (proj1 (Hall 1%nat ltac:(simpl; lia))).
Defined.

(** The formula over the plain sum fails twice.  On a Z scale of 0 the
    delta 1 is decoded as 1 divided by the smallest positive normal double,
    2^1022, where [d_0/scale + origin] is 1/0 + 0, an infinity.  On the X
    deltas 2^63 - 1 and 1 the second ordinate is -2^63/100, the
    accumulator having wrapped, where [(d_0 + d_1)/scale + origin] is
    2^63/100. *)
Lemma delta_arrays_counterexample :
  (exists z : PrimFloat.float,
      option_map mp_z
        (GetAsGeometry_multipoint_arrays example_zero_zscale_field
           (multipoint_section true false [5] [3] [1] []) 3 true false 0 1)
      = Some (Some [z]) /\
      PrimFloat.classify z = FloatClass.PNormal /\
      PrimFloat.classify
        (ordinate (delta_sum [1] 0) (GetZScale example_zero_zscale_field)
                  (GetZOrigin example_zero_zscale_field))
      = FloatClass.PInf /\
      z <> ordinate (delta_sum [1] 0) (GetZScale example_zero_zscale_field)
                    (GetZOrigin example_zero_zscale_field)) /\
  (exists p0 p1 : PrimFloat.float * PrimFloat.float,
      option_map mp_xy
        (GetAsGeometry_multipoint_arrays example_geom_field
           (multipoint_section false false [2 ^ 63 - 1; 1] [0; 0] [] [])
           13 false false 0 2)
      = Some [p0; p1] /\
      delta_sum [2 ^ 63 - 1; 1] 1 = 2 ^ 63 /\
      fst p1 = ordinate (- 2 ^ 63) (GetXYScale example_geom_field)
                        (GetXOrigin example_geom_field) /\
      PrimFloat.ltb (fst p1) PrimFloat.zero = true /\
      PrimFloat.ltb PrimFloat.zero
        (ordinate (delta_sum [2 ^ 63 - 1; 1] 1)
                  (GetXYScale example_geom_field)
                  (GetXOrigin example_geom_field)) = true /\
      fst p1 <> ordinate (delta_sum [2 ^ 63 - 1; 1] 1)
                         (GetXYScale example_geom_field)
                         (GetXOrigin example_geom_field)).
Proof.
  split.
  - eexists. split; [vm_compute; reflexivity|].
    split; [vm_compute; reflexivity|].
    split; [vm_compute; reflexivity|].
    intros E. apply (f_equal PrimFloat.classify) in E. vm_compute in E.
    discriminate E.
  - eexists. eexists. split; [vm_compute; reflexivity|].
    split; [vm_compute; reflexivity|].
    split; [vm_compute; reflexivity|].
    split; [vm_compute; reflexivity|].
    split; [vm_compute; reflexivity|].
    intros E.
    apply (f_equal (fun x => PrimFloat.ltb x PrimFloat.zero)) in E.
    vm_compute in E. discriminate E.
Qed.
(** *** The parts of a polyline *)

Lemma wrap_acc_app (ds1 ds2 : list Z) (acc : Z) :
  wrap_acc acc (ds1 ++ ds2) = wrap_acc (wrap_acc acc ds1) ds2.
Proof. unfold wrap_acc. apply fold_left_app. Qed.

Lemma concat_wrapped_parts (dss : list (list Z)) :
  forall acc : Z,
    concat (wrapped_parts acc dss) = wrapped_sums acc (concat dss).
Proof.
  induction dss as [|ds dss IH]; intros acc; cbn; [reflexivity|].
  rewrite wrapped_sums_app, IH. reflexivity.
Qed.

Lemma wrapped_parts_shape (dss : list (list Z)) :
  forall acc : Z,
    map (@length Z) (wrapped_parts acc dss) = map (@length Z) dss.
Proof.
  induction dss as [|ds dss IH]; intros acc; cbn; [reflexivity|].
  rewrite wrapped_sums_length, IH. reflexivity.
Qed.

Lemma EncodeParts_length_ge (dss : list (list Z)) :
  (length (concat dss) <= length (EncodeParts dss))%nat.
Proof.
  induction dss as [|ds dss IH]; [cbn; lia|].
  unfold EncodeParts in *. cbn [map concat]. rewrite !length_app.
  pose proof (EncodeDeltas_length_ge ds). lia.
Qed.

Section PolylineParts.

Context {double : Type} {ops : DoubleOps double}.
Variable poGeomField : FileGDBGeomField double.
Variable pabyEnd : Z.

Lemma polyline_xy_parts_encoded (dxss : list (list Z)) :
  forall (dyss : list (list Z)) (pre post : list GByte) (accx accy : Z)
         (out : list (list (double * double))),
    map (@length Z) dyss = map (@length Z) dxss ->
    Forall (Forall encodable_delta) dxss ->
    Forall (Forall encodable_delta) dyss ->
    Z.of_nat (length pre) + Z.of_nat (length (EncodePartPairs dxss dyss))
    <= pabyEnd ->
    polyline_xy_parts poGeomField (pre ++ EncodePartPairs dxss dyss ++ post)
      pabyEnd (map (fun ds => Z.of_nat (length ds)) dxss)
      (Z.of_nat (length pre)) accx accy out
    = Some (Z.of_nat (length pre)
            + Z.of_nat (length (EncodePartPairs dxss dyss)),
            out ++ map (fun p => part_points poGeomField (fst p) (snd p))
                       (combine (wrapped_parts accx dxss)
                                (wrapped_parts accy dyss))).
Proof.
  induction dxss as [|dxs dxss IH];
    intros [|dys dyss] pre post accx accy out Hshape Hfx Hfy Hend;
    try discriminate Hshape.
  - cbn. rewrite app_nil_r, Z.add_0_r. reflexivity.
  - cbn [map] in Hshape. injection Hshape as Hlen Hshape.
    apply Forall_cons_iff in Hfx. destruct Hfx as [Hfx Hfxs].
    apply Forall_cons_iff in Hfy. destruct Hfy as [Hfy Hfys].
    cbn [EncodePartPairs] in *. rewrite length_app in Hend.
    cbn [map polyline_xy_parts]. unfold ReadXYArray.
    rewrite Nat2Z.id, <- app_assoc.
    rewrite (@ReadXYArray_loop_encoded _ _ poGeomField pabyEnd dxs dys pre
               (EncodePartPairs dxss dyss ++ post) accx accy accx accy []
               Hlen Hfx Hfy ltac:(lia)).
    cbn [xy_ret xy_cur xy_dx xy_dy xy_set negb app].
    set (pre' := pre ++ EncodeDeltaPairs dxs dys).
    assert (Hpre : Z.of_nat (length pre)
                   + Z.of_nat (length (EncodeDeltaPairs dxs dys))
                   = Z.of_nat (length pre'))
      by (subst pre'; rewrite length_app; lia).
    rewrite Hpre.
    replace (pre ++ EncodeDeltaPairs dxs dys
                 ++ EncodePartPairs dxss dyss ++ post)
      with (pre' ++ EncodePartPairs dxss dyss ++ post)
      by (subst pre'; rewrite <- app_assoc; reflexivity).
    rewrite (IH dyss pre' post _ _ _ Hshape Hfxs Hfys ltac:(lia)).
    cbn [wrapped_parts combine map fst snd]. rewrite <- app_assoc.
    rewrite length_app. f_equal. f_equal. lia.
Qed.

Lemma polyline_z_parts_encoded (dss : list (list Z)) :
  forall (pre post : list GByte) (acc : Z) (out : list (list double)),
    Forall (Forall encodable_delta) dss ->
    Z.of_nat (length pre) + Z.of_nat (length (EncodeParts dss)) <= pabyEnd ->
    polyline_z_parts poGeomField (pre ++ EncodeParts dss ++ post) pabyEnd
      (map (fun ds => Z.of_nat (length ds)) dss) (Z.of_nat (length pre))
      acc out
    = Some (Z.of_nat (length pre) + Z.of_nat (length (EncodeParts dss)),
            out ++ map (map (fun s =>
                               ordinate s
                                 (SanitizeScale (GetZScale poGeomField))
                                 (GetZOrigin poGeomField)))
                       (wrapped_parts acc dss)).
Proof.
  induction dss as [|ds dss IH]; intros pre post acc out Hfit Hend.
  - cbn. rewrite app_nil_r, Z.add_0_r. reflexivity.
  - apply Forall_cons_iff in Hfit. destruct Hfit as [Hf Hfs].
    unfold EncodeParts in *. cbn [map concat] in *.
    fold (EncodeParts dss) in *. rewrite length_app in Hend.
    cbn [polyline_z_parts]. unfold ReadZArray.
    rewrite Nat2Z.id, <- app_assoc.
    rewrite (@ReadOrdinateArray_loop_encoded _ _ pabyEnd _ _ ds pre _ acc []
               Hf ltac:(lia)).
    cbn [zm_ret zm_cur zm_acc zm_set negb app].
    set (pre' := pre ++ EncodeDeltas ds).
    assert (Hpre : Z.of_nat (length pre) + Z.of_nat (length (EncodeDeltas ds))
                   = Z.of_nat (length pre'))
      by (subst pre'; rewrite length_app; lia).
    rewrite Hpre.
    replace (pre ++ EncodeDeltas ds ++ EncodeParts dss ++ post)
      with (pre' ++ EncodeParts dss ++ post)
      by (subst pre'; rewrite <- app_assoc; reflexivity).
    rewrite (IH pre' post _ _ Hfs ltac:(lia)).
    cbn [wrapped_parts map]. rewrite <- app_assoc, length_app.
    f_equal. f_equal. lia.
Qed.

Lemma polyline_m_parts_encoded (dss : list (list Z)) :
  forall (pre post : list GByte) (acc : Z) (out : list (list double)),
    Forall (Forall encodable_delta) dss ->
    Z.of_nat (length pre) + Z.of_nat (length (EncodeParts dss)) <= pabyEnd ->
    polyline_m_parts poGeomField (pre ++ EncodeParts dss ++ post) pabyEnd
      (map (fun ds => Z.of_nat (length ds)) dss) (Z.of_nat (length pre))
      acc out
    = Some (Some
              (out ++ map (map (fun s =>
                                  ordinate s
                                    (SanitizeScale (GetMScale poGeomField))
                                    (GetMOrigin poGeomField)))
                          (wrapped_parts acc dss))).
Proof.
  induction dss as [|ds dss IH]; intros pre post acc out Hfit Hend.
  - cbn. rewrite app_nil_r. reflexivity.
  - apply Forall_cons_iff in Hfit. destruct Hfit as [Hf Hfs].
    unfold EncodeParts in *. cbn [map concat] in *.
    fold (EncodeParts dss) in *. rewrite length_app in Hend.
    pose proof (EncodeDeltas_length_ge ds) as Hge.
    cbn [polyline_m_parts].
    replace (Z.of_nat (length pre) + Z.of_nat (length ds) >? pabyEnd)
      with false by (symmetry; rewrite Z.gtb_ltb; apply Z.ltb_ge; lia).
    unfold ReadMArray.
    rewrite Nat2Z.id, <- app_assoc.
    rewrite (@ReadOrdinateArray_loop_encoded _ _ pabyEnd _ _ ds pre _ acc []
               Hf ltac:(lia)).
    cbn [zm_ret zm_cur zm_acc zm_set negb app].
    set (pre' := pre ++ EncodeDeltas ds).
    assert (Hpre : Z.of_nat (length pre) + Z.of_nat (length (EncodeDeltas ds))
                   = Z.of_nat (length pre'))
      by (subst pre'; rewrite length_app; lia).
    rewrite Hpre.
    replace (pre ++ EncodeDeltas ds ++ EncodeParts dss ++ post)
      with (pre' ++ EncodeParts dss ++ post)
      by (subst pre'; rewrite <- app_assoc; reflexivity).
    rewrite (IH pre' post _ _ Hfs ltac:(lia)).
    cbn [wrapped_parts map]. rewrite <- app_assoc. reflexivity.
Qed.

End PolylineParts.

Lemma combine_app_same {A B : Type} (l1 : list A) :
  forall (l2 : list B) (l1' : list A) (l2' : list B),
    length l1 = length l2 ->
    combine (l1 ++ l1') (l2 ++ l2') = combine l1 l2 ++ combine l1' l2'.
Proof.
  induction l1 as [|a l1 IH]; intros [|b l2] l1' l2' Hlen;
    try discriminate Hlen; cbn; [reflexivity|].
  rewrite IH by (cbn in Hlen; lia). reflexivity.
Qed.

Lemma same_shape_concat {A : Type} (l1 : list (list A)) :
  forall l2 : list (list A),
    map (@length A) l2 = map (@length A) l1 ->
    length (concat l2) = length (concat l1).
Proof.
  intros l2 H. rewrite !length_concat, H. reflexivity.
Qed.

Section PolylineArrays.

Context {double : Type} {ops : DoubleOps double}.
Variable poGeomField : FileGDBGeomField double.

Lemma concat_part_points (sxs : list (list Z)) :
  forall sys : list (list Z),
    map (@length Z) sys = map (@length Z) sxs ->
    concat (map (fun p => part_points poGeomField (fst p) (snd p))
                (combine sxs sys))
    = part_points poGeomField (concat sxs) (concat sys) /\
    map (@length (double * double))
        (map (fun p => part_points poGeomField (fst p) (snd p))
             (combine sxs sys))
    = map (@length Z) sxs.
Proof.
  induction sxs as [|sx sxs IH]; intros [|sy sys] Hshape;
    try discriminate Hshape; cbn [combine map concat fst snd].
  - split; reflexivity.
  - cbn [map] in Hshape. injection Hshape as Hlen Hshape.
    destruct (IH sys Hshape) as [IH1 IH2]. rewrite IH1, IH2. split.
    + unfold part_points. rewrite !map_app.
      rewrite combine_app_same by (rewrite !length_map; lia). reflexivity.
    + f_equal. unfold part_points.
      rewrite length_combine, !length_map. lia.
Qed.

Lemma polyline_arrays_encoded (bHasZ bHasM : bool)
      (dxss dyss dzss dmss : list (list Z)) (pre post : list GByte)
      (pabyEnd : Z) :
  map (@length Z) dyss = map (@length Z) dxss ->
  map (@length Z) dzss = map (@length Z) dxss ->
  map (@length Z) dmss = map (@length Z) dxss ->
  Forall (Forall encodable_delta) dxss ->
  Forall (Forall encodable_delta) dyss ->
  Forall (Forall encodable_delta) dzss ->
  Forall (Forall encodable_delta) dmss ->
  Z.of_nat (length pre)
  + Z.of_nat (length (polyline_section bHasZ bHasM dxss dyss dzss dmss))
  <= pabyEnd ->
  GetAsGeometry_polyline_arrays poGeomField
    (pre ++ polyline_section bHasZ bHasM dxss dyss dzss dmss ++ post)
    pabyEnd bHasZ bHasM (Z.of_nat (length pre))
    (map (fun ds => Z.of_nat (length ds)) dxss)
  = Some {|
      pl_xy := map (fun p => part_points poGeomField (fst p) (snd p))
                   (combine (wrapped_parts 0 dxss) (wrapped_parts 0 dyss));
      pl_z := if bHasZ
              then Some (map (map (fun s =>
                                     ordinate s
                                       (SanitizeScale (GetZScale poGeomField))
                                       (GetZOrigin poGeomField)))
                             (wrapped_parts 0 dzss))
              else None;
      pl_m := if bHasM
              then Some (map (map (fun s =>
                                     ordinate s
                                       (SanitizeScale (GetMScale poGeomField))
                                       (GetMOrigin poGeomField)))
                             (wrapped_parts 0 dmss))
              else None |}.
Proof.
  intros Hly Hlz Hlm Hfx Hfy Hfz Hfm Hend.
  assert (Hzc : map (fun ds : list Z => Z.of_nat (length ds)) dxss
                = map (fun ds : list Z => Z.of_nat (length ds)) dzss).
  { rewrite <- (map_map (@length Z) Z.of_nat dxss),
            <- (map_map (@length Z) Z.of_nat dzss), Hlz. reflexivity. }
  assert (Hmc : map (fun ds : list Z => Z.of_nat (length ds)) dxss
                = map (fun ds : list Z => Z.of_nat (length ds)) dmss).
  { rewrite <- (map_map (@length Z) Z.of_nat dxss),
            <- (map_map (@length Z) Z.of_nat dmss), Hlm. reflexivity. }
  unfold GetAsGeometry_polyline_arrays, polyline_section in *. cbv zeta.
  rewrite !length_app in Hend. rewrite <- !app_assoc.
  rewrite (@polyline_xy_parts_encoded _ _ poGeomField pabyEnd dxss dyss pre
             _ 0 0 [] Hly Hfx Hfy ltac:(lia)).
  cbn [app].
  set (pxy := pre ++ EncodePartPairs dxss dyss).
  assert (Hpxy : Z.of_nat (length pre)
                 + Z.of_nat (length (EncodePartPairs dxss dyss))
                 = Z.of_nat (length pxy))
    by (subst pxy; rewrite length_app; lia).
  rewrite Hpxy.
  replace (pre ++ EncodePartPairs dxss dyss
               ++ (if bHasZ then EncodeParts dzss else [])
               ++ (if bHasM then EncodeParts dmss else []) ++ post)
    with (pxy ++ (if bHasZ then EncodeParts dzss else [])
              ++ (if bHasM then EncodeParts dmss else []) ++ post)
    by (subst pxy; rewrite <- app_assoc; reflexivity).
  destruct bHasZ.
  - rewrite Hzc at 1.
    rewrite (@polyline_z_parts_encoded _ _ poGeomField pabyEnd dzss pxy _ 0
               [] Hfz ltac:(lia)).
    cbn [app].
    set (pz := pxy ++ EncodeParts dzss).
    assert (Hpz : Z.of_nat (length pxy) + Z.of_nat (length (EncodeParts dzss))
                  = Z.of_nat (length pz))
      by (subst pz; rewrite length_app; lia).
    rewrite Hpz.
    replace (pxy ++ EncodeParts dzss
                 ++ (if bHasM then EncodeParts dmss else []) ++ post)
      with (pz ++ (if bHasM then EncodeParts dmss else []) ++ post)
      by (subst pz; rewrite <- app_assoc; reflexivity).
    destruct bHasM; [|reflexivity].
    rewrite Hmc.
    rewrite (@polyline_m_parts_encoded _ _ poGeomField pabyEnd dmss pz _ 0
               [] Hfm ltac:(lia)).
    reflexivity.
  - cbn [app].
    destruct bHasM; [|reflexivity].
    rewrite Hmc.
    rewrite (@polyline_m_parts_encoded _ _ poGeomField pabyEnd dmss pxy _ 0
               [] Hfm ltac:(cbn [length app] in Hend; lia)).
    reflexivity.
Qed.

End PolylineArrays.

(** X5.  The arrays of a polyline of several parts.  The accumulators
    start at 0 for the geometry and go on from part to part: the points of
    all the parts, taken in order, are [S_i/scale + origin] where [S_i] is
    the sum [d_0+...+d_i] over the deltas of all the parts, brought back
    into the range of a signed 64-bit integer, the scale being the XY
    scale for X and Y and, for Z and M, the scale with 0 replaced by the
    smallest positive normal double (SanitizeScale); and part [k] receives
    as many points as it has deltas. *)
Theorem polyline_arrays_accumulate
    {double : Type} {ops : DoubleOps double}
    (poGeomField : FileGDBGeomField double) (bHasZ bHasM : bool)
    (dxss dyss dzss dmss : list (list Z)) (pre post : list GByte)
    (pabyEnd : Z) :
  map (@length Z) dyss = map (@length Z) dxss ->
  map (@length Z) dzss = map (@length Z) dxss ->
  map (@length Z) dmss = map (@length Z) dxss ->
  Forall (Forall encodable_delta) dxss ->
  Forall (Forall encodable_delta) dyss ->
  Forall (Forall encodable_delta) dzss ->
  Forall (Forall encodable_delta) dmss ->
  Z.of_nat (length pre)
  + Z.of_nat (length (polyline_section bHasZ bHasM dxss dyss dzss dmss))
  <= pabyEnd ->
  exists r,
    GetAsGeometry_polyline_arrays poGeomField
      (pre ++ polyline_section bHasZ bHasM dxss dyss dzss dmss ++ post)
      pabyEnd bHasZ bHasM (Z.of_nat (length pre))
      (map (fun ds => Z.of_nat (length ds)) dxss)
    = Some r /\
    map (@length (double * double)) (pl_xy r) = map (@length Z) dxss /\
    forall i, (i < length (concat dxss))%nat ->
      nth_error (concat (pl_xy r)) i
      = Some (ordinate (to_int64 (delta_sum (concat dxss) i))
                       (GetXYScale poGeomField) (GetXOrigin poGeomField),
              ordinate (to_int64 (delta_sum (concat dyss) i))
                       (GetXYScale poGeomField) (GetYOrigin poGeomField)) /\
      (bHasZ = true ->
       exists zs, pl_z r = Some zs /\
         nth_error (concat zs) i
         = Some (ordinate (to_int64 (delta_sum (concat dzss) i))
                          (SanitizeScale (GetZScale poGeomField))
                          (GetZOrigin poGeomField))) /\
      (bHasM = true ->
       exists ms, pl_m r = Some ms /\
         nth_error (concat ms) i
         = Some (ordinate (to_int64 (delta_sum (concat dmss) i))
                          (SanitizeScale (GetMScale poGeomField))
                          (GetMOrigin poGeomField))).
Proof.
  intros Hly Hlz Hlm Hfx Hfy Hfz Hfm Hend.
  pose proof (same_shape_concat _ _ Hly) as Cy.
  pose proof (same_shape_concat _ _ Hlz) as Cz.
  pose proof (same_shape_concat _ _ Hlm) as Cm.
  assert (Hshape : map (@length Z) (wrapped_parts 0 dyss)
                   = map (@length Z) (wrapped_parts 0 dxss))
    by (rewrite !wrapped_parts_shape; exact Hly).
  destruct (concat_part_points poGeomField _ _ Hshape) as [Hcat Hlens].
  eexists. split.
  - apply polyline_arrays_encoded; assumption.
  - cbn [pl_xy pl_z pl_m]. split.
    + rewrite Hlens. apply wrapped_parts_shape.
    + intros i Hi. repeat split.
      * rewrite Hcat, !concat_wrapped_parts. unfold part_points.
        apply (@nth_error_combine_map _ _
                 (fun s => ordinate s (GetXYScale poGeomField)
                                    (GetXOrigin poGeomField))
                 (fun s => ordinate s (GetXYScale poGeomField)
                                    (GetYOrigin poGeomField)));
          rewrite nth_error_wrapped_sums by lia; reflexivity.
      * intros ->. eexists. split; [reflexivity|].
        rewrite <- concat_map, concat_wrapped_parts.
        rewrite nth_error_map, nth_error_wrapped_sums by lia. reflexivity.
      * intros ->. eexists. split; [reflexivity|].
        rewrite <- concat_map, concat_wrapped_parts.
        rewrite nth_error_map, nth_error_wrapped_sums by lia. reflexivity.
Qed.

(** Two parts, of two points and of one: the point of the second part goes
    on from the sums of the first, 3 + 10 and 1003 - 3. *)
Lemma polyline_arrays_accumulate_witness :
  exists r,
    GetAsGeometry_polyline_arrays example_geom_field
      ([x09] ++ polyline_section false false
                  [[5; -2]; [10]] [[3; 1000]; [-3]] [[0; 0]; [0]]
                  [[0; 0]; [0]]
            ++ [x00; x00; x00; x00])
      8 false false 1 [2; 1]
    = Some r /\
    map (@length _) (pl_xy r) = [2%nat; 1%nat] /\
    nth_error (concat (pl_xy r)) 2
    = Some (ordinate 13 (double_of_Z 100) (double_of_Z 0),
            ordinate 1000 (double_of_Z 100) (double_of_Z 0)).
Proof.
  assert (Hsmall : forall l, Forall (Forall (fun d => Z.abs d < 1024)) l ->
                             Forall (Forall encodable_delta) l).
  { intros l H. eapply Forall_impl; [|exact H]. intros ds Hds.
    eapply Forall_impl; [|exact Hds]. intros d Hd.
    unfold encodable_delta. change (2 ^ 64) with 18446744073709551616.
    cbv beta in Hd. lia. }
  destruct (@polyline_arrays_accumulate _ IEEE_double example_geom_field
              false false [[5; -2]; [10]] [[3; 1000]; [-3]] [[0; 0]; [0]]
              [[0; 0]; [0]] [x09] [x00; x00; x00; x00] 8
              eq_refl eq_refl eq_refl
              ltac:(apply Hsmall; repeat constructor)
              ltac:(apply Hsmall; repeat constructor)
              ltac:(apply Hsmall; repeat constructor)
              ltac:(apply Hsmall; repeat constructor)
              ltac:(vm_compute; discriminate))
    as (r & Hr & Hshape & Hall).
  exists r. split; [exact Hr|]. split; [exact Hshape|].
  exact (proj1 (Hall 2%nat ltac:(cbn; lia))).
Defined.

(** ** Record counts at open time *)

(** C7, as the code has it.  With a .gdbtablx open, the total row count
    becomes [max T V] when OPENFILEGDB_USE_GDBTABLE_RECORD_COUNT is set and
    stays the index's [T] otherwise; the valid count stays [V] in the first
    case and becomes [min T V] in the second; a warning is emitted exactly
    when [V > T] under the default setting. *)
Theorem Open_reconcile_counts_spec
    (bUseGdbtableRecordCount bDebugVerbose : bool) (T V : Z) :
  let '(nTotal, nValid, evs) :=
    Open_reconcile_counts true bUseGdbtableRecordCount bDebugVerbose T V in
  nTotal = (if bUseGdbtableRecordCount then Z.max T V else T) /\
  nValid = (if bUseGdbtableRecordCount then V else Z.min T V) /\
  (existsb is_warning evs = true <->
   V > T /\ bUseGdbtableRecordCount = false).
Proof.
  unfold Open_reconcile_counts.
  destruct (Z.gtb_spec V T) as [Hgt|Hle].
  - destruct bUseGdbtableRecordCount; cbn.
    + split; [lia|]. split; [reflexivity|].
      split; [discriminate|]. intros [_ H]. discriminate H.
    + split; [reflexivity|]. split; [lia|].
      split; [intros _; split; [lia|reflexivity]|reflexivity].
  - destruct (bDebugVerbose && negb (T =? V));
      destruct bUseGdbtableRecordCount; cbn;
      (split; [lia|]; split; [lia|];
       split; [discriminate|intros [H _]; lia]).
Qed.

(** The claim as worded fails at T = 5, V = 3: the counts differ, yet
    nothing is emitted, and under both settings the total is 5, the larger
    of the two. *)
Lemma Open_reconcile_counts_no_warning :
  5 <> 3 /\
  Open_reconcile_counts true false false 5 3 = (5, 3, []) /\
  Open_reconcile_counts true true false 5 3 = (5, 3, []).
Proof. repeat split. discriminate. Qed.

(** ** Record counts after the recovery scan *)

Section RecoveryScanFacts.

Variable IsLikelyFeatureAtOffset : Z -> option (Z * bool).
Variable IS_VALID_LAYER_GEOM_TYPE : Z -> bool.
Variable fpTable : VSILFILE.
Variable bReportDeletedFeatures : bool.
Variable m_nFieldDescLength : Z.
Variable m_nOffsetFieldDesc : Z.

Lemma Guess_reconcile_valid (st : ScanState) (V : Z) :
  let r := Guess_reconcile st V in
  gr_valid r = Z.max V (Z.of_nat (length (sc_offsets st)) - sc_invalid st) /\
  (existsb is_warning (gr_events r) = true <->
   V < gr_valid r /\ gr_deleted_listed r = false).
Proof.
  unfold Guess_reconcile.
  destruct (Z.gtb_spec (Z.of_nat (length (sc_offsets st)) - sc_invalid st) V)
    as [Hgt|Hle]; cbn.
  - split; [lia|]. destruct (sc_deleted_listed st); cbn.
    + split; [discriminate|]. intros [_ H]. discriminate H.
    + split; [intros _; split; [lia|reflexivity]|reflexivity].
  - split; [lia|]. split; [discriminate|]. intros [H _]. lia.
Qed.

(** The loop, record by record: a row is appended for every record met,
    without offset for a deleted record that is not reported, and these are
    the records counted as invalid. *)
Lemma scan_loop_records (nFileSize : Z) (fuel : nat) :
  forall (nOffset : Z) (st : ScanState),
    let st' := scan_loop IsLikelyFeatureAtOffset bReportDeletedFeatures fuel
                 nFileSize nOffset st in
    let recs := accepted_records IsLikelyFeatureAtOffset fuel nFileSize
                  nOffset in
    sc_offsets st'
    = sc_offsets st
      ++ map (fun rec : ScannedRecord =>
                if record_hidden bReportDeletedFeatures rec then 0
                else if snd rec then MARK_DELETED (fst (fst rec))
                     else fst (fst rec)) recs /\
    sc_invalid st'
    = sc_invalid st
      + Z.of_nat (length (filter (record_hidden bReportDeletedFeatures)
                                 recs)) /\
    sc_deleted_listed st'
    = sc_deleted_listed st
      || existsb (record_listed bReportDeletedFeatures) recs.
Proof.
  induction fuel as [|fuel IH]; intros nOffset st;
    cbn [scan_loop accepted_records].
  - cbn. rewrite app_nil_r, orb_false_r. repeat split. lia.
  - destruct (nOffset <? nFileSize).
    2:{ cbn. rewrite app_nil_r, orb_false_r. repeat split. lia. }
    destruct (IsLikelyFeatureAtOffset nOffset) as [[nSize bDeleted]|];
      [|apply IH].
    match goal with
    | |- context [scan_loop _ _ fuel nFileSize ?o ?st1] =>
        destruct (IH o st1) as (H1 & H2 & H3)
    end.
    cbv zeta. rewrite H1, H2, H3. clear H1 H2 H3 IH.
    unfold record_hidden, record_listed.
    destruct bDeleted, bReportDeletedFeatures;
      cbn [sc_offsets sc_invalid sc_deleted_listed map filter existsb
           fst snd andb negb orb length];
      rewrite <- ?app_assoc; cbn [app];
      rewrite ?orb_true_r, ?orb_false_r;
      repeat split; try reflexivity; lia.
Qed.

Lemma records_found_hidden (recs : list ScannedRecord) :
  records_found bReportDeletedFeatures recs
  = Z.of_nat (length recs)
    - Z.of_nat (length (filter (record_hidden bReportDeletedFeatures)
                               recs)).
Proof.
  unfold records_found.
  induction recs as [|rec recs IH]; cbn [filter length]; [reflexivity|].
  destruct (record_hidden bReportDeletedFeatures rec);
    cbn [negb length]; lia.
Qed.

(** What GuessFeatureLocations leaves, from the records of the scan. *)
Lemma GuessFeatureLocations_records (offsets0 : list Z) (bListed0 : bool)
      (V nOffset : Z) :
  Guess_start IS_VALID_LAYER_GEOM_TYPE fpTable m_nFieldDescLength
              m_nOffsetFieldDesc = Some nOffset ->
  let r := GuessFeatureLocations IsLikelyFeatureAtOffset
             IS_VALID_LAYER_GEOM_TYPE fpTable bReportDeletedFeatures
             m_nFieldDescLength m_nOffsetFieldDesc offsets0 bListed0 V in
  let recs := scanned_records IsLikelyFeatureAtOffset
                IS_VALID_LAYER_GEOM_TYPE fpTable m_nFieldDescLength
                m_nOffsetFieldDesc in
  gr_offsets r
  = offsets0
    ++ map (fun rec : ScannedRecord =>
              if record_hidden bReportDeletedFeatures rec then 0
              else if snd rec then MARK_DELETED (fst (fst rec))
                   else fst (fst rec)) recs /\
  gr_total r = Z.of_nat (length offsets0) + Z.of_nat (length recs) /\
  gr_valid r
  = Z.max V (Z.of_nat (length offsets0)
             + records_found bReportDeletedFeatures recs) /\
  gr_deleted_listed r
  = bListed0 || existsb (record_listed bReportDeletedFeatures) recs /\
  (existsb is_warning (gr_events r) = true <->
   V < gr_valid r /\ gr_deleted_listed r = false).
Proof.
  intros Hstart r recs. subst r recs.
  unfold GuessFeatureLocations, scanned_records. rewrite Hstart.
  cbv zeta.
  match goal with
  | |- context [Guess_reconcile ?st V] =>
      pose proof (Guess_reconcile_valid st V) as [Hv Hw];
      destruct (scan_loop_records (vsi_size fpTable)
                  (Z.to_nat (vsi_size fpTable - nOffset)) nOffset
                  {| sc_offsets := offsets0; sc_invalid := 0;
                     sc_deleted_listed := bListed0 |}) as (H1 & H2 & H3);
      set (st1 := st) in *
  end.
  cbv zeta in Hv, Hw, H1, H2, H3. cbn [sc_offsets sc_invalid
                                      sc_deleted_listed] in H1, H2, H3.
  set (recs := accepted_records IsLikelyFeatureAtOffset
                 (Z.to_nat (vsi_size fpTable - nOffset)) (vsi_size fpTable)
                 nOffset) in *.
  assert (Hoff : gr_offsets (Guess_reconcile st1 V) = sc_offsets st1)
    by (unfold Guess_reconcile; destruct (_ >? _); reflexivity).
  assert (Htot : gr_total (Guess_reconcile st1 V)
                 = Z.of_nat (length (sc_offsets st1)))
    by (unfold Guess_reconcile; destruct (_ >? _); reflexivity).
  assert (Hdel : gr_deleted_listed (Guess_reconcile st1 V)
                 = sc_deleted_listed st1)
    by (unfold Guess_reconcile; destruct (_ >? _); reflexivity).
  assert (Hlen : Z.of_nat (length (sc_offsets st1))
                 = Z.of_nat (length offsets0) + Z.of_nat (length recs))
    by (rewrite H1, length_app, length_map; lia).
  split; [rewrite Hoff; exact H1|].
  split; [rewrite Htot; exact Hlen|].
  split; [rewrite Hv, Hlen, H2, records_found_hidden; f_equal; lia|].
  split; [rewrite Hdel; exact H3|exact Hw].
Qed.

End RecoveryScanFacts.

(** C8, as the code has it.  The scan never lowers the valid-record count.
    When the scan has run, the count is left as it is when the number of
    features found - the rows already listed and the records met, less the
    deleted records that are not reported - is no more than the count
    declared, and raised to that number otherwise; a raise is announced by
    a warning exactly when no deleted feature is listed (when deleted
    features are listed the raise is silent).  When the scan cannot start,
    the count is left as it is and nothing is emitted. *)
Theorem GuessFeatureLocations_valid_count
    (IsLikelyFeatureAtOffset : Z -> option (Z * bool))
    (IS_VALID_LAYER_GEOM_TYPE : Z -> bool) (fpTable : VSILFILE)
    (bReportDeletedFeatures : bool)
    (m_nFieldDescLength m_nOffsetFieldDesc : Z)
    (offsets0 : list Z) (bListed0 : bool) (V : Z) :
  let r := GuessFeatureLocations IsLikelyFeatureAtOffset
             IS_VALID_LAYER_GEOM_TYPE fpTable bReportDeletedFeatures
             m_nFieldDescLength m_nOffsetFieldDesc offsets0 bListed0 V in
  let recs := scanned_records IsLikelyFeatureAtOffset
                IS_VALID_LAYER_GEOM_TYPE fpTable m_nFieldDescLength
                m_nOffsetFieldDesc in
  let nFound := Z.of_nat (length offsets0)
                + records_found bReportDeletedFeatures recs in
  V <= gr_valid r /\
  (existsb is_warning (gr_events r) = true <->
   V < gr_valid r /\ gr_deleted_listed r = false) /\
  match Guess_start IS_VALID_LAYER_GEOM_TYPE fpTable m_nFieldDescLength
                    m_nOffsetFieldDesc with
  | Some _ =>
      (nFound <= V -> gr_valid r = V) /\
      (V < nFound -> gr_valid r = nFound) /\
      gr_total r = Z.of_nat (length offsets0) + Z.of_nat (length recs) /\
      gr_deleted_listed r
      = bListed0 || existsb (record_listed bReportDeletedFeatures) recs
  | None => gr_valid r = V /\ gr_events r = [] /\ gr_ret r = false
  end.
Proof.
  intros r recs nFound.
  destruct (Guess_start IS_VALID_LAYER_GEOM_TYPE fpTable m_nFieldDescLength
                        m_nOffsetFieldDesc) as [nOffset|] eqn:Hstart.
  - destruct (@GuessFeatureLocations_records IsLikelyFeatureAtOffset
                IS_VALID_LAYER_GEOM_TYPE fpTable bReportDeletedFeatures
                m_nFieldDescLength m_nOffsetFieldDesc offsets0 bListed0 V
                nOffset Hstart) as (_ & Htot & Hv & Hdel & Hw).
    fold r in Htot, Hv, Hdel, Hw. fold recs in Htot, Hv, Hdel.
    fold nFound in Hv.
    split; [lia|]. split; [exact Hw|].
    split; [lia|]. split; [lia|]. split; [exact Htot|exact Hdel].
  - subst r. unfold GuessFeatureLocations. rewrite Hstart.
    cbn [gr_valid gr_events gr_ret gr_deleted_listed existsb].
    split; [lia|]. split; [split; [discriminate|intros [H _]; lia]|].
    repeat split.
Qed.

(** The claim as worded fails both ways: one record found against five
    declared leaves the count at five without a warning; two found (one of
    them a listed deleted record) against one declared raises the count to
    two without a warning. *)
Lemma GuessFeatureLocations_counterexample :
  let fp := file_of_bytes (repeat x00 64) in
  let r1 := GuessFeatureLocations scan_one_record (fun _ => true) fp
              false 4 40 [] false 5 in
  let r2 := GuessFeatureLocations scan_deleted_then_record (fun _ => true) fp
              true 4 40 [] false 1 in
  (gr_offsets r1 = [54] /\ gr_valid r1 = 5 /\ gr_events r1 = []) /\
  (gr_offsets r2 = [MARK_DELETED 44; 54] /\ gr_valid r2 = 2
   /\ gr_events r2 = []).
Proof. vm_compute. repeat split. Qed.

(** ** Offset resolution *)

Section OffsetResolution.

Context {double date : Type}.
Variable t : TableDesc.
Variable fpTableX : VSILFILE.
Hypothesis tablx_open : m_fpTableX t = Some fpTableX.
Hypothesis wf : index_well_formed t.


Lemma present_blocks_before_succ (i : Z) :
  0 <= i ->
  present_blocks_before (m_abyTablXBlockMap t) (i + 1)
  = present_blocks_before (m_abyTablXBlockMap t) i + (if block_present (m_abyTablXBlockMap t) i then 1 else 0).
Proof.
  intros Hi. unfold present_blocks_before.
  replace (Z.to_nat (i + 1)) with (S (Z.to_nat i)) by lia.
  cbn [present_blocks_before_nat]. rewrite Z2Nat.id by lia. reflexivity.
Qed.

Lemma present_blocks_before_bounds (i : Z) :
  0 <= i -> 0 <= present_blocks_before (m_abyTablXBlockMap t) i <= i.
Proof.
  intros Hi. unfold present_blocks_before.
  assert (H : forall n, 0 <= present_blocks_before_nat (m_abyTablXBlockMap t) n
                        <= Z.of_nat n).
  { induction n as [|n IH]; cbn [present_blocks_before_nat]; [lia|].
    destruct (block_present (m_abyTablXBlockMap t) (Z.of_nat n)); lia. }
  specialize (H (Z.to_nat i)). lia.
Qed.

Lemma to_uint32_small (x : Z) : 0 <= x < 2 ^ 32 -> to_uint32 x = x.
Proof. intros H. apply wrap_unsigned_small. exact H. Qed.

Lemma to_uint64_small (x : Z) : 0 <= x < 2 ^ 64 -> to_uint64 x = x.
Proof. intros H. apply wrap_unsigned_small. exact H. Qed.

Lemma to_int32_small (x : Z) : 0 <= x < 2 ^ 31 -> to_int32 x = x.
Proof.
  intros H. unfold to_int32, wrap_signed.
  change (2 ^ (32 - 1)) with (2 ^ 31).
  assert (2 ^ 32 = 2 * 2 ^ 31) by reflexivity.
  rewrite Z.mod_small by lia.
  destruct (Z.ltb_spec x (2 ^ 31)); lia.
Qed.

Lemma count_blocks_spec (n : nat) :
  forall (i acc : Z),
    0 <= i -> 0 <= acc -> acc + Z.of_nat n < 2 ^ 32 ->
    count_blocks t n i acc
    = acc + present_blocks_before (m_abyTablXBlockMap t) (i + Z.of_nat n)
      - present_blocks_before (m_abyTablXBlockMap t) i.
Proof.
  induction n as [|n IH]; intros i acc Hi Hacc Hsmall.
  - cbn. rewrite Z.add_0_r. lia.
  - cbn [count_blocks].
    assert (Hbit : (if TEST_BIT (m_abyTablXBlockMap t) i =? 0 then 0 else 1)
                   = (if block_present (m_abyTablXBlockMap t) i then 1 else 0)).
    { unfold block_present. destruct (TEST_BIT (m_abyTablXBlockMap t) i =? 0); reflexivity. }
    rewrite Hbit.
    assert (Hb : 0 <= (if block_present (m_abyTablXBlockMap t) i then 1 else 0) <= 1)
      by (destruct (block_present (m_abyTablXBlockMap t) i); lia).
    rewrite to_uint32_small by lia.
    rewrite IH by lia.
    rewrite present_blocks_before_succ by lia.
    replace (i + 1 + Z.of_nat n) with (i + Z.of_nat (S n)) by lia. lia.
Qed.

Lemma quot_rem_1024 (iRow : Z) :
  0 <= iRow -> Z.quot iRow 1024 = iRow / 1024 /\ Z.rem iRow 1024 = iRow mod 1024.
Proof.
  intros H. split; [apply Z.quot_div_nonneg|apply Z.rem_mod_nonneg]; lia.
Qed.

(** One query: the answer is the stateless resolution, and the counter stays
    in agreement with the block map. *)
Lemma GetOffsetInTableForRow_resolve (s : @TableState double date) (iRow : Z) :
  block_cache_ok t s ->
  fst (fst (GetOffsetInTableForRow t s iRow)) = resolve_offset t fpTableX iRow
  /\ block_cache_ok t (snd (GetOffsetInTableForRow t s iRow)).
Proof.
  intros [Hidx Hval].
  destruct wf as [Hw [Hfit Hmap]].
  unfold GetOffsetInTableForRow, resolve_offset, block_cache_ok.
  destruct ((iRow <? 0) || (iRow >=? m_nTotalRecordCount t)) eqn:Hrange.
  { cbn. auto. }
  apply orb_false_iff in Hrange. destruct Hrange as [Hlo Hhi].
  apply Z.ltb_ge in Hlo. rewrite Z.geb_leb in Hhi. apply Z.leb_gt in Hhi.
  rewrite tablx_open. state_simpl.
  destruct (quot_rem_1024 Hlo) as [Hq Hr].
  assert (Hdm : iRow = 1024 * (iRow / 1024) + iRow mod 1024)
    by (apply Z.div_mod; lia).
  assert (Hm : 0 <= iRow mod 1024 < 1024) by (apply Z.mod_pos_bound; lia).
  assert (Hb0 : 0 <= iRow / 1024) by (apply Z.div_pos; lia).
  destruct (m_abyTablXBlockMap t) as [|b0 rest] eqn:Emap.
  - (* no block map *)
    rewrite to_uint64_small by nia.
    unfold index_entry.
    destruct (vsi_read fpTableX (16 + m_nTablxOffsetSize t * iRow)
                       (m_nTablxOffsetSize t)); cbn; auto.
  - rewrite <- Emap in *.
    assert (Htot : m_nTotalRecordCount t <= 2 ^ 41)
      by (apply Hmap; rewrite Emap; discriminate).
    clear Hmap.
    assert (Hblk : iRow / 1024 < 2 ^ 31).
    { apply Z.div_lt_upper_bound; [lia|].
      change (1024 * 2 ^ 31) with (2 ^ 41). lia. }
    rewrite Hq, Hr, to_int32_small by lia.
    unfold block_present.
    destruct (TEST_BIT (m_abyTablXBlockMap t) (iRow / 1024) =? 0) eqn:Hbit; cbn [negb].
    { cbn. auto. }
    set (pb := present_blocks_before (m_abyTablXBlockMap t) (iRow / 1024)).
    pose proof (present_blocks_before_bounds Hb0) as Hpb. fold pb in Hpb.
    assert (Hcount :
      (if iRow / 1024 >=? m_nCountBlocksBeforeIBlockIdx s
       then count_blocks t
              (Z.to_nat (iRow / 1024 - m_nCountBlocksBeforeIBlockIdx s))
              (m_nCountBlocksBeforeIBlockIdx s)
              (m_nCountBlocksBeforeIBlockValue s)
       else count_blocks t (Z.to_nat (iRow / 1024)) 0 0) = pb).
    { destruct (Z.geb_spec (iRow / 1024) (m_nCountBlocksBeforeIBlockIdx s))
        as [Hge|Hlt].
      - pose proof (@present_blocks_before_bounds
                      (m_nCountBlocksBeforeIBlockIdx s) ltac:(lia)) as Hc.
        change (2 ^ 31) with 2147483648 in *.
        change (2 ^ 32) with 4294967296 in *.
        rewrite count_blocks_spec by (rewrite ?Hval; lia).
        rewrite Hval.
        replace (m_nCountBlocksBeforeIBlockIdx s
                 + Z.of_nat (Z.to_nat (iRow / 1024
                                       - m_nCountBlocksBeforeIBlockIdx s)))
          with (iRow / 1024) by lia.
        subst pb. lia.
      - change (2 ^ 31) with 2147483648 in *.
        rewrite count_blocks_spec
          by (change (2 ^ 32) with 4294967296; lia).
        rewrite Z.add_0_l, Z2Nat.id by lia.
        unfold present_blocks_before at 2. cbn. subst pb. lia. }
    rewrite Hcount.
    assert (Hcorr : to_int64 (pb * 1024 + iRow mod 1024)
                    = 1024 * pb + iRow mod 1024).
    { rewrite to_int64_fits; [lia|].
      unfold fits_int64. change (2 ^ 31) with 2147483648 in *. lia. }
    rewrite Hcorr.
    assert (Hle : 1024 * pb + iRow mod 1024 <= iRow) by lia.
    rewrite to_uint64_small by nia.
    unfold index_entry.
    destruct (vsi_read fpTableX
                (16 + m_nTablxOffsetSize t * (1024 * pb + iRow mod 1024))
                (m_nTablxOffsetSize t)); cbn; (split; [reflexivity|]);
      (split; [lia|reflexivity]).
Qed.

Lemma after_queries_cache_ok (rows : list Z) :
  forall s : @TableState double date, block_cache_ok t s ->
                    block_cache_ok t (after_queries t s rows).
Proof.
  induction rows as [|r rows IH]; intros s Hs; [exact Hs|].
  cbn [after_queries fold_left]. apply IH.
  apply GetOffsetInTableForRow_resolve. exact Hs.
Qed.

End OffsetResolution.

(** C6.  With an index file open whose entries are 4 to 6 bytes wide and
    all lie below offset 2^64, and whose block map, when there is one, has
    a bit for the block of every row, the offset found for a row is the
    entry read at [16 + entryWidth * row] when there is no block map; with
    a block map it is 0 when the row's block is not marked present and
    otherwise the entry at [16 + entryWidth * correctedRow]; an I/O error
    or a row out of range gives 0; and the rows resolved earlier make no
    difference. *)
Theorem GetOffsetInTableForRow_independent_of_history
    {double date : Type} (t : TableDesc) (fpTableX : VSILFILE)
    (s0 : @TableState double date) (previous : list Z) (iRow : Z) :
  m_fpTableX t = Some fpTableX ->
  index_well_formed t ->
  block_cache_ok t s0 ->
  fst (fst (GetOffsetInTableForRow t (after_queries t s0 previous) iRow))
  = resolve_offset t fpTableX iRow.
Proof.
  intros Hx Hwf H0.
  apply GetOffsetInTableForRow_resolve; try assumption.
  apply (after_queries_cache_ok Hx Hwf). exact H0.
Qed.

Lemma GetOffsetInTableForRow_independent_of_history_witness :
  let s0 : @TableState Z (Z * Z) := initial_state [] in
  m_fpTableX example_sparse_table = Some example_tablx /\
  index_well_formed example_sparse_table /\
  block_cache_ok example_sparse_table s0 /\
  fst (fst (GetOffsetInTableForRow example_sparse_table
              (after_queries example_sparse_table s0 [2500; 10; 2050])
              2049))
  = resolve_offset example_sparse_table example_tablx 2049 /\
  resolve_offset example_sparse_table example_tablx 2049 = 1000 + 1025 /\
  resolve_offset example_sparse_table example_tablx 1500 = 0.
Proof.
  intros s0.
  assert (Hx : m_fpTableX example_sparse_table = Some example_tablx)
    by reflexivity.
  assert (Hwf : index_well_formed example_sparse_table).
  { unfold index_well_formed.
    split; [cbn; lia|].
    split; [|intros _; split]; apply Z.leb_le; reflexivity. }
  assert (Hc : block_cache_ok example_sparse_table s0).
  { unfold block_cache_ok. cbn. split; [|reflexivity].
    split; [lia|reflexivity]. }
  split; [exact Hx|]. split; [exact Hwf|]. split; [exact Hc|].
  split; [|split; vm_compute; reflexivity].
  exact (@GetOffsetInTableForRow_independent_of_history _ _
           example_sparse_table example_tablx s0 [2500; 10; 2050] 2049
           Hx Hwf Hc).
Defined.

(** Without the bound on the entry offsets the formula fails.  In an index
    of 2^63 - 1 rows with entries of 4 bytes, row 2^62 is within range and
    its entry is at byte 16 + 4 * 2^62 = 16 + 2^64, where the file has
    nothing: the formula gives the offset 0.  The code computes the entry
    offset in 64 bits, reads at byte 16 and answers the offset of row 0. *)
Lemma GetOffsetInTableForRow_wraps_entry_offset :
  let t := example_wrapping_table in
  let fpTableX := file_of_bytes (repeat x00 16 ++ le_bytes 40 4) in
  let s0 : @TableState Z (Z * Z) := initial_state [] in
  m_fpTableX t = Some fpTableX /\
  0 <= 2 ^ 62 < m_nTotalRecordCount t /\
  block_cache_ok t s0 /\
  vsi_read fpTableX (16 + m_nTablxOffsetSize t * 2 ^ 62)
           (m_nTablxOffsetSize t) = None /\
  resolve_offset t fpTableX (2 ^ 62) = 0 /\
  fst (GetOffsetInTableForRow t s0 (2 ^ 62)) = (40, 16) /\
  fst (fst (GetOffsetInTableForRow t (after_queries t s0 []) (2 ^ 62)))
  <> resolve_offset t fpTableX (2 ^ 62).
Proof.
  intros t fpTableX s0.
  assert (Hcode : fst (GetOffsetInTableForRow t s0 (2 ^ 62)) = (40, 16))
    by (vm_compute; reflexivity).
  assert (Hspec : resolve_offset t fpTableX (2 ^ 62) = 0)
    by (vm_compute; reflexivity).
  split; [reflexivity|].
  split; [split; [discriminate|reflexivity]|].
  split; [split; [split; [discriminate|reflexivity]|reflexivity]|].
  split; [vm_compute; reflexivity|].
  split; [exact Hspec|]. split; [exact Hcode|].
  cbn [after_queries fold_left]. rewrite Hspec, Hcode. discriminate.
Qed.

(** ** SelectRow *)

Section SelectRowFacts.

Context {double date : Type} {fops : FieldValueOps double date}.
Variable t : TableDesc.
Variable env : Environment.

Lemma GetFieldValue_no_row (s : @TableState double date) (iCol : Z) :
  m_nCurRow s < 0 ->
  GetFieldValue t s iCol = (None, log_events [EvPrintError] s).
Proof.
  intros H. unfold GetFieldValue.
  destruct (Z.ltb_spec (m_nCurRow s) 0); [reflexivity|lia].
Qed.

Lemma GetFieldValues_no_row (cols : list Z) :
  forall s : @TableState double date,
    m_nCurRow s < 0 ->
    Forall (fun v => v = None) (fst (GetFieldValues t s cols)) /\
    m_nCurRow (snd (GetFieldValues t s cols)) = m_nCurRow s.
Proof.
  induction cols as [|c cols IH]; intros s Hs; cbn [GetFieldValues].
  - split; [constructor|reflexivity].
  - rewrite GetFieldValue_no_row by exact Hs.
    specialize (IH (log_events [EvPrintError] s) Hs).
    destruct (GetFieldValues t (log_events [EvPrintError] s) cols)
      as [vs s2].
    cbn [fst snd] in *. destruct IH as [IH1 IH2].
    split; [constructor; [reflexivity|exact IH1]|exact IH2].
Qed.

(** Every exit of SelectRow with FALSE leaves [m_nCurRow] at -1. *)
Lemma SelectRow_load_failure (s s' : @TableState double date)
      (iRow nOffsetTable : Z) :
  SelectRow_load t env s iRow nOffsetTable = (false, s') ->
  m_nCurRow s' = -1.
Proof.
  unfold SelectRow_load, fail_row.
  repeat match goal with
         | |- context [match ?x with _ => _ end] => destruct x eqn:?
         end;
    intros H; try discriminate H; injection H as <-; reflexivity.
Qed.

Lemma SelectRow_failure (s s' : @TableState double date) (iRow : Z) :
  SelectRow t env s iRow = (false, s') -> m_nCurRow s' = -1.
Proof.
  unfold SelectRow, fail_row.
  destruct ((iRow <? 0) || (iRow >=? m_nTotalRecordCount t)).
  { intros H. injection H as <-. reflexivity. }
  destruct (m_nCurRow s =? iRow); [discriminate|].
  destruct (GetOffsetInTableForRow t s iRow) as [[nOffsetTable x] s1].
  destruct (nOffsetTable =? 0).
  { intros H. injection H as <-. reflexivity. }
  apply SelectRow_load_failure.
Qed.

(** A SelectRow that succeeds on a row other than the current one leaves a
    cursor at the start of the row, with the error flag cleared. *)
Lemma SelectRow_load_success (s s' : @TableState double date)
      (iRow nOffsetTable : Z) :
  SelectRow_load t env s iRow nOffsetTable = (true, s') ->
  m_nCurRow s' = iRow /\ m_nLastCol s' = -1 /\
  m_pabyIterVals s' = m_nNullableFieldsSizeInBytes t /\
  m_iAccNullable s' = 0 /\ m_bError s' = false /\ m_nChSaved s' = -1.
Proof.
  unfold SelectRow_load, fail_row.
  repeat match goal with
         | |- context [match ?x with _ => _ end] => destruct x eqn:?
         end;
    intros H; try discriminate H; injection H as <-;
    repeat split; reflexivity.
Qed.

End SelectRowFacts.

(** C10.  When SelectRow returns failure the current row is -1, and every
    GetFieldValue issued from then on returns the error value, for as long
    as no SelectRow has succeeded; a SelectRow that then succeeds puts the
    cursor on its row with the error flag cleared. *)
Theorem SelectRow_failure_invalidates_cursor
    {double date : Type} {fops : FieldValueOps double date}
    (t : TableDesc) (env : Environment)
    (s s' : @TableState double date) (iRow : Z) :
  SelectRow t env s iRow = (false, s') ->
  m_nCurRow s' = -1 /\
  (forall cols : list Z,
     Forall (fun v => v = None) (fst (GetFieldValues t s' cols)) /\
     m_nCurRow (snd (GetFieldValues t s' cols)) = -1) /\
  (forall (cols : list Z) (iRow2 : Z) (s2 : @TableState double date),
     SelectRow t env (snd (GetFieldValues t s' cols)) iRow2 = (true, s2) ->
     m_nCurRow s2 = iRow2 /\ m_bError s2 = false /\ m_nLastCol s2 = -1).
Proof.
  intros Hfail. pose proof (SelectRow_failure _ _ _ _ Hfail) as Hcur.
  assert (Hcols : forall cols : list Z,
     Forall (fun v => v = None) (fst (GetFieldValues t s' cols)) /\
     m_nCurRow (snd (GetFieldValues t s' cols)) = -1).
  { intros cols.
    destruct (@GetFieldValues_no_row _ _ _ t cols s' ltac:(lia)) as [H1 H2].
    split; [exact H1|lia]. }
  split; [exact Hcur|]. split; [exact Hcols|].
  intros cols iRow2 s2 Hok.
  destruct (Hcols cols) as [_ Hm1].
  set (sc := snd (GetFieldValues t s' cols)) in *.
  unfold SelectRow in Hok.
  destruct ((iRow2 <? 0) || (iRow2 >=? m_nTotalRecordCount t)) eqn:Hrange;
    [discriminate Hok|].
  apply orb_false_iff in Hrange. destruct Hrange as [Hlo _].
  apply Z.ltb_ge in Hlo.
  destruct (Z.eqb_spec (m_nCurRow sc) iRow2) as [Heq|_]; [lia|].
  destruct (GetOffsetInTableForRow t sc iRow2) as [[nOffsetTable x] s1].
  destruct (nOffsetTable =? 0); [discriminate Hok|].
  apply SelectRow_load_success in Hok. tauto.
Qed.

Lemma SelectRow_failure_invalidates_cursor_witness :
  let s0 : @TableState Z (Z * Z) := initial_state [] in
  let s' := snd (SelectRow example_sparse_table example_env s0 1500) in
  SelectRow example_sparse_table example_env s0 1500 = (false, s') /\
  m_nCurRow s' = -1 /\
  Forall (fun v => v = None)
         (fst (GetFieldValues example_sparse_table s' [0; 1; 0])).
Proof.
  intros s0 s'.
  assert (Hfail : SelectRow example_sparse_table example_env s0 1500
                  = (false, s')) by (vm_compute; reflexivity).
  destruct (@SelectRow_failure_invalidates_cursor _ _ uninterpreted_floats
              example_sparse_table example_env s0 s' 1500 Hfail)
    as [H1 [H2 _]].
  split; [exact Hfail|]. split; [exact H1|]. exact (proj1 (H2 [0; 1; 0])).
Defined.

(** *** Row length validation *)

Section RowLength.

Context {double date : Type} {fops : FieldValueOps double date}.
Variable t : TableDesc.
Variable env : Environment.

Lemma table_reads_app (a b : list Event) :
  table_reads (a ++ b) = table_reads a ++ table_reads b.
Proof. unfold table_reads. apply flat_map_app. Qed.

(** Resolving an offset touches neither the row buffer nor the table
    file. *)
Lemma GetOffsetInTableForRow_frame (s : @TableState double date) (iRow : Z) :
  let s1 := snd (GetOffsetInTableForRow t s iRow) in
  m_abyBuffer s1 = m_abyBuffer s /\
  table_reads (m_events s1) = table_reads (m_events s).
Proof.
  unfold GetOffsetInTableForRow.
  assert (Hdone : forall (r : Z * Z) (s2 : @TableState double date),
            m_abyBuffer s2 = m_abyBuffer s ->
            table_reads (m_events s2) = table_reads (m_events s) ->
            m_abyBuffer (snd (r, s2)) = m_abyBuffer s /\
            table_reads (m_events (snd (r, s2))) = table_reads (m_events s))
    by (intros r s2 H1 H2; split; assumption).
  assert (Hread : forall (fp : VSILFILE) (nOff : Z)
                         (s2 : @TableState double date),
            m_abyBuffer s2 = m_abyBuffer s ->
            table_reads (m_events s2) = table_reads (m_events s) ->
            let r :=
              match vsi_read fp nOff (m_nTablxOffsetSize t) with
              | Some abyBuffer =>
                  (ReadFeatureOffset abyBuffer, nOff,
                   set_m_bError false
                     (log_events [EvRead GDBTABLX nOff (m_nTablxOffsetSize t)]
                                 s2))
              | None =>
                  (0, nOff,
                   log_events [EvPrintError]
                     (set_m_bError true
                        (log_events
                           [EvRead GDBTABLX nOff (m_nTablxOffsetSize t)] s2)))
              end in
            m_abyBuffer (snd r) = m_abyBuffer s /\
            table_reads (m_events (snd r)) = table_reads (m_events s)).
  { intros fp nOff s2 H1 H2.
    destruct (vsi_read fp nOff (m_nTablxOffsetSize t)); cbn [snd];
      state_simpl; rewrite ?table_reads_app, H2;
      cbn [table_reads flat_map app]; rewrite ?app_nil_r;
      split; [exact H1|reflexivity|exact H1|reflexivity]. }
  destruct ((iRow <? 0) || (iRow >=? m_nTotalRecordCount t)).
  { apply Hdone; state_simpl; [reflexivity|].
    rewrite table_reads_app. cbn [table_reads flat_map app].
    apply app_nil_r. }
  destruct (m_fpTableX t) as [fp|]; [|apply Hdone; reflexivity].
  destruct (m_abyTablXBlockMap t) as [|b0 rest].
  - apply Hread; reflexivity.
  - match goal with
    | |- context [if ?c then None else _] => destruct c
    end; [apply Hdone; reflexivity|].
    apply Hread; reflexivity.
Qed.

Lemma nullable_size_bounds :
  Z.of_nat (length (m_apoFields t)) <= 65535 ->
  0 <= m_nNullableFieldsSizeInBytes t <= 8192.
Proof.
  intros Hn. unfold m_nNullableFieldsSizeInBytes, BIT_ARRAY_SIZE_IN_BYTES,
               m_nCountNullableFields.
  pose proof (filter_length_le m_bNullable (m_apoFields t)) as Hle.
  remember (Z.of_nat (length (filter m_bNullable (m_apoFields t)))) as c
    eqn:Ec.
  assert (Hc : 0 <= c <= 65535) by lia.
  rewrite Z.quot_div_nonneg by lia.
  split; [apply Z.div_pos; lia|].
  assert ((c + 7) / 8 < 8193) by (apply Z.div_lt_upper_bound; lia). lia.
Qed.

Lemma SelectRow_rejects (s : @TableState double date) (iRow L : Z) :
  Z.of_nat (length (m_apoFields t)) <= 65535 ->
  m_nCurRow s <> iRow ->
  declared_row_length t s iRow = Some L ->
  0 < L ->
  L < m_nNullableFieldsSizeInBytes t \/ L > INT_MAX - 4 ->
  exists s',
    SelectRow t env s iRow = (false, s') /\
    m_nCurRow s' = -1 /\
    m_abyBuffer s' = m_abyBuffer s /\
    (exists nOffsetTable,
        table_reads (m_events s')
        = table_reads (m_events s) ++ [(nOffsetTable, 4)]) /\
    forall iCol, fst (GetFieldValue t s' iCol) = None.
Proof.
  intros Hn Hcur Hlen Hpos Hbad.
  pose proof (nullable_size_bounds Hn) as Hnb.
  unfold declared_row_length in Hlen. unfold SelectRow.
  destruct ((iRow <? 0) || (iRow >=? m_nTotalRecordCount t));
    [discriminate Hlen|].
  destruct (Z.eqb_spec (m_nCurRow s) iRow) as [Heq|_]; [contradiction|].
  pose proof (GetOffsetInTableForRow_frame s iRow) as Hframe.
  destruct (GetOffsetInTableForRow t s iRow) as [[nOffsetTable x] s1].
  cbn [snd] in Hframe. destruct Hframe as [Hbuf Hreads].
  destruct (nOffsetTable =? 0); [discriminate Hlen|].
  unfold SelectRow_load.
  destruct (vsi_read (m_fpTable t) nOffsetTable 4) as [abyBuffer|];
    [|discriminate Hlen].
  injection Hlen as HL. state_simpl. rewrite HL.
  destruct (Z.gtb_spec L 0) as [_|Hle]; [|lia].
  rewrite to_uint32_small by (change (2 ^ 32) with 4294967296; lia).
  replace ((L <? m_nNullableFieldsSizeInBytes t)
           || (L >? INT_MAX - ZEROES_AFTER_END_OF_BUFFER)) with true.
  2:{ symmetry. apply orb_true_iff.
      unfold ZEROES_AFTER_END_OF_BUFFER.
      destruct Hbad as [Hb|Hb]; [left; apply Z.ltb_lt|right; apply Z.gtb_lt];
        lia. }
  unfold fail_row. eexists. split; [reflexivity|].
  state_simpl. split; [reflexivity|]. split; [exact Hbuf|].
  split.
  - exists nOffsetTable. rewrite !table_reads_app, Hreads.
    cbn [table_reads flat_map app]. rewrite app_nil_r. reflexivity.
  - intros iCol. rewrite GetFieldValue_no_row by (state_simpl; lia).
    reflexivity.
Qed.

End RowLength.

(** The validation of a declared length that is not zero.  A row whose
    declared blob length is positive and smaller than the nullable-bitmask
    width, or larger than INT_MAX minus the 4-byte slack, makes SelectRow
    fail at once: the row buffer is left as it was, the only read of the
    table file is the 4-byte length prefix, the current row becomes -1 and
    no field value can be read. *)
Theorem SelectRow_rejects_bad_length
    {double date : Type} {fops : FieldValueOps double date}
    (t : TableDesc) (env : Environment)
    (s : @TableState double date) (iRow L : Z) :
  Z.of_nat (length (m_apoFields t)) <= 65535 ->
  m_nCurRow s <> iRow ->
  declared_row_length t s iRow = Some L ->
  0 < L ->
  L < m_nNullableFieldsSizeInBytes t \/ L > INT_MAX - 4 ->
  exists s',
    SelectRow t env s iRow = (false, s') /\
    m_nCurRow s' = -1 /\
    m_abyBuffer s' = m_abyBuffer s /\
    (exists nOffsetTable,
        table_reads (m_events s')
        = table_reads (m_events s) ++ [(nOffsetTable, 4)]) /\
    forall iCol, fst (GetFieldValue t s' iCol) = None.
Proof. apply SelectRow_rejects. Qed.

Lemma SelectRow_rejects_bad_length_witness :
  m_nNullableFieldsSizeInBytes (example_nullable_table 9 1 [x00]) = 2 /\
  fst (SelectRow (example_nullable_table 9 1 [x00]) example_env
                 (@initial_state Z (Z * Z) []) 0) = false.
Proof.
  split; [reflexivity|].
  destruct (@SelectRow_rejects_bad_length _ _ uninterpreted_floats
              (example_nullable_table 9 1 [x00]) example_env
              (initial_state []) 0 1) as (s' & E & _).
  - cbn. lia.
  - cbn. lia.
  - vm_compute. reflexivity.
  - lia.
  - left. vm_compute. reflexivity.
  - rewrite E. reflexivity.
Defined.

(** C5.  The code at a row that declares the length 0, in a table whose
    bitmask is one byte wide: the length is smaller than the bitmask width,
    and SelectRow does not fail.  The guard [m_nRowBlobLength > 0] skips
    the validation and the read of the row, so the row buffer still holds
    what the row selected before left in it, and GetFieldValue tests the
    null bit of the field there: after row 0, whose field is null, the
    field of row 1 is answered as null without an error; on a buffer of
    zeroes the same call is an error. *)
Theorem SelectRow_zero_length_stale_bitmask :
  let t := example_empty_row_table in
  let s0 : @TableState Z (Z * Z) := initial_state [] in
  let after0 := SelectRow t example_env s0 0 in
  let after1 := SelectRow t example_env (snd after0) 1 in
  let alone := SelectRow t example_env s0 1 in
  declared_row_length t (snd after0) 1 = Some 0 /\
  m_nNullableFieldsSizeInBytes t = 1 /\
  (fst after0 = true /\
   m_abyBuffer (snd after0) = [x01; x00; x00; x00; x00]) /\
  (fst after1 = true /\ m_nCurRow (snd after1) = 1 /\
   m_nRowBlobLength (snd after1) = 0 /\
   m_abyBuffer (snd after1) = m_abyBuffer (snd after0) /\
   table_reads (m_events (snd after1))
   = table_reads (m_events (snd after0)) ++ [(45, 4)]) /\
  (let r := @GetFieldValue _ _ uninterpreted_floats t (snd after1) 0 in
   (fst r = None /\ m_bError (snd r) = false /\
    m_events (snd r) = m_events (snd after1))) /\
  fst alone = true /\
  (let r := @GetFieldValue _ _ uninterpreted_floats t (snd alone) 0 in
   (fst r = None /\ m_bError (snd r) = true)).
Proof. vm_compute. repeat split; reflexivity. Qed.

(** ** The row cursor *)

(** *** Stores into the buffer *)

Lemma store_nat_twice (buf : list GByte) (n : nat) (v w : GByte) :
  store_nat (store_nat buf n v) n w = store_nat buf n w.
Proof.
  revert n. induction buf as [|b buf IH]; intros [|n]; simpl;
    try reflexivity. rewrite IH. reflexivity.
Qed.

Lemma store_nat_same (buf : list GByte) (n : nat) :
  store_nat buf n (nth n buf x00) = buf.
Proof.
  revert n. induction buf as [|b buf IH]; intros [|n]; simpl;
    try reflexivity. rewrite IH. reflexivity.
Qed.

(** Writing back the byte that a NUL replaced gives the buffer back. *)
Lemma store_at_restore (buf : list GByte) (p : Z) :
  store_at (store_at buf p x00) p (byte_of_Z (byte_at buf p)) = buf.
Proof.
  unfold store_at, byte_at. destruct (p <? 0); [reflexivity|].
  rewrite store_nat_twice, byte_of_Z_of_byte. apply store_nat_same.
Qed.

(** *** Slices of the field list *)

Section FieldSlices.

Variable t : TableDesc.

Lemma fields_between_0 (c : Z) :
  fields_between t 0 c = firstn (Z.to_nat c) (m_apoFields t).
Proof.
  unfold fields_between. rewrite Z.sub_0_r. reflexivity.
Qed.

Lemma fields_between_split (j c : Z) :
  0 <= j <= c -> c <= Z.of_nat (length (m_apoFields t)) ->
  fields_between t 0 c = fields_between t 0 j ++ fields_between t j c.
Proof.
  intros Hj Hc. rewrite !fields_between_0. unfold fields_between.
  set (fs := m_apoFields t) in *.
  rewrite <- (firstn_skipn (Z.to_nat j) fs) at 1.
  rewrite firstn_app, firstn_firstn.
  rewrite length_firstn.
  replace (Nat.min (Z.to_nat c) (Z.to_nat j)) with (Z.to_nat j) by lia.
  replace (Z.to_nat c - Nat.min (Z.to_nat j) (length fs))%nat
    with (Z.to_nat (c - j)) by lia.
  reflexivity.
Qed.

Lemma fields_between_one (c : Z) :
  valid_column t c ->
  fields_between t c (c + 1)
  = [nth (Z.to_nat c) (m_apoFields t) UNUSED_FIELD].
Proof.
  intros [Hc0 Hc1]. unfold fields_between.
  replace (Z.to_nat (c + 1 - c)) with 1%nat by lia.
  set (fs := m_apoFields t) in *.
  assert (Hlen : (Z.to_nat c < length fs)%nat) by lia.
  clearbody fs. revert Hlen. generalize (Z.to_nat c). clear.
  induction fs as [|f fs IH]; intros [|n] Hn; simpl in *; try lia.
  - reflexivity.
  - apply IH. lia.
Qed.

Lemma fields_between_succ (c : Z) :
  valid_column t c ->
  fields_between t 0 (c + 1)
  = fields_between t 0 c
    ++ [nth (Z.to_nat c) (m_apoFields t) UNUSED_FIELD].
Proof.
  intros Hc. pose proof Hc as [Hc0 Hc1].
  rewrite (@fields_between_split c (c + 1)) by lia.
  rewrite fields_between_one by exact Hc. reflexivity.
Qed.

Lemma fields_between_empty (a b : Z) :
  b <= a -> fields_between t a b = [].
Proof.
  intros H. unfold fields_between.
  replace (Z.to_nat (b - a)) with O by lia. reflexivity.
Qed.

End FieldSlices.

(** *** The skipping loop *)

Section SkipLoop.

Variable buf : list GByte.
Variable pabyEnd : Z.

(** The events collected do not influence the cursor. *)
Lemma SkipFields_events (fs : list FileGDBField) :
  forall (iter acc : Z) (evs : list Event),
    st_ok (SkipFields buf pabyEnd fs iter acc evs)
    = st_ok (SkipFields buf pabyEnd fs iter acc []) /\
    st_iter (SkipFields buf pabyEnd fs iter acc evs)
    = st_iter (SkipFields buf pabyEnd fs iter acc []) /\
    st_acc (SkipFields buf pabyEnd fs iter acc evs)
    = st_acc (SkipFields buf pabyEnd fs iter acc []).
Proof.
  induction fs as [|f fs IH]; intros iter acc evs; cbn [SkipFields].
  - cbn. auto.
  - destruct (st_ok (SkipField buf pabyEnd f iter acc)).
    + destruct (IH (st_iter (SkipField buf pabyEnd f iter acc))
                   (st_acc (SkipField buf pabyEnd f iter acc))
                   (evs ++ st_events (SkipField buf pabyEnd f iter acc)))
        as [H1 [H2 H3]].
      destruct (IH (st_iter (SkipField buf pabyEnd f iter acc))
                   (st_acc (SkipField buf pabyEnd f iter acc))
                   ([] ++ st_events (SkipField buf pabyEnd f iter acc)))
        as [G1 [G2 G3]].
      rewrite H1, H2, H3, G1, G2, G3. auto.
    + cbn. auto.
Qed.

(** Skipping [fs1 ++ fs2] is skipping [fs1], then [fs2] from where that
    ended. *)
Lemma SkipFields_app (fs1 fs2 : list FileGDBField) :
  forall (iter acc : Z),
    let r1 := SkipFields buf pabyEnd fs1 iter acc [] in
    let r := SkipFields buf pabyEnd (fs1 ++ fs2) iter acc [] in
    if st_ok r1 then
      let r2 := SkipFields buf pabyEnd fs2 (st_iter r1) (st_acc r1) [] in
      st_ok r = st_ok r2 /\ st_iter r = st_iter r2 /\ st_acc r = st_acc r2
    else st_ok r = false.
Proof.
  induction fs1 as [|f fs1 IH]; intros iter acc; cbv zeta;
    cbn [SkipFields app].
  - cbn. auto.
  - destruct (st_ok (SkipField buf pabyEnd f iter acc)) eqn:Hf;
      cbv iota; [|reflexivity].
    set (i1 := st_iter (SkipField buf pabyEnd f iter acc)).
    set (a1 := st_acc (SkipField buf pabyEnd f iter acc)).
    set (e1 := st_events (SkipField buf pabyEnd f iter acc)).
    destruct (SkipFields_events fs1 i1 a1 e1) as [H1 [H2 H3]].
    destruct (SkipFields_events (fs1 ++ fs2) i1 a1 e1) as [G1 [G2 G3]].
    rewrite H1, H2, H3, G1, G2, G3.
    apply (IH i1 a1).
Qed.

End SkipLoop.

(** *** Decoding a field moves the cursor as skipping it does *)

Section DecodeVersusSkip.

Context {double date : Type} {fops : FieldValueOps double date}.
Variable buf : list GByte.
Variable pabyEnd : Z.
Hypothesis end_range : 0 <= pabyEnd < 2 ^ 31.

Lemma remaining_no_wrap (iter n : Z) :
  0 <= iter -> 0 <= n -> iter + n <= pabyEnd ->
  (n >? to_uint32 (pabyEnd - iter)) = false.
Proof.
  intros Hi Hn Hfit.
  rewrite to_uint32_small
    by (change (2 ^ 31) with 2147483648 in end_range;
        change (2 ^ 32) with 4294967296; lia).
  destruct (Z.gtb_spec n (pabyEnd - iter)); [lia|reflexivity].
Qed.

Lemma remaining_no_wrap_zero (iter : Z) :
  0 <= iter -> (0 >? to_uint32 (pabyEnd - iter)) = false.
Proof.
  intros Hi. unfold to_uint32, wrap_unsigned.
  pose proof (Z.mod_pos_bound (pabyEnd - iter) (2 ^ 32) ltac:(lia)).
  destruct (Z.gtb_spec 0 ((pabyEnd - iter) mod 2 ^ 32)); [lia|reflexivity].
Qed.

Lemma dec_fixed_ok (n iter : Z) (v : OGRField double date) :
  dec_ok (dec_fixed pabyEnd n iter v) = true ->
  iter + n <= pabyEnd /\ dec_iter (dec_fixed pabyEnd n iter v) = iter + n.
Proof.
  unfold dec_fixed. destruct (Z.gtb_spec (iter + n) pabyEnd); cbn.
  - discriminate.
  - intros _. split; [lia|reflexivity].
Qed.

Lemma dec_prefixed_ok (iter : Z) (k : Z -> Z -> @Decoded double date) :
  (forall p n, dec_iter (k p n) = p + n) ->
  dec_ok (dec_prefixed buf pabyEnd iter k) = true ->
  let r := ReadVarUInt32 buf iter pabyEnd 0 in
  vr_ret r = true /\
  (vr_out r >? to_uint32 (pabyEnd - vr_iter r)) = false /\
  dec_iter (dec_prefixed buf pabyEnd iter k) = vr_iter r + vr_out r.
Proof.
  intros Hk. unfold dec_prefixed.
  destruct (vr_ret (ReadVarUInt32 buf iter pabyEnd 0)); cbn [negb];
    [|cbn; discriminate].
  destruct (vr_out (ReadVarUInt32 buf iter pabyEnd 0)
            >? to_uint32 (pabyEnd - vr_iter (ReadVarUInt32 buf iter pabyEnd 0)));
    [cbn; discriminate|].
  cbn. intros _. rewrite Hk. auto.
Qed.

Lemma SkipField_null (f : FileGDBField) (iter acc : Z) :
  m_bNullable f && negb (TEST_BIT buf acc =? 0) = true ->
  st_ok (SkipField buf pabyEnd f iter acc) = true /\
  st_iter (SkipField buf pabyEnd f iter acc) = iter /\
  st_acc (SkipField buf pabyEnd f iter acc) = acc + 1.
Proof.
  intros H. unfold SkipField. rewrite H.
  apply andb_true_iff in H. destruct H as [-> _]. cbn. auto.
Qed.

Lemma DecodeField_then_SkipField (bUTF8 : bool) (f : FileGDBField)
      (iter acc : Z) (sCurField : OGRField double date) :
  0 <= iter ->
  m_bNullable f && negb (TEST_BIT buf acc =? 0) = false ->
  dec_ok (DecodeField buf pabyEnd bUTF8 f iter sCurField) = true ->
  st_ok (SkipField buf pabyEnd f iter acc) = true /\
  st_iter (SkipField buf pabyEnd f iter acc)
  = dec_iter (DecodeField buf pabyEnd bUTF8 f iter sCurField) /\
  st_acc (SkipField buf pabyEnd f iter acc)
  = (if m_bNullable f then acc + 1 else acc).
Proof.
  intros Hi Hnull Hok. unfold SkipField. rewrite Hnull.
  unfold DecodeField, skipped_length in *.
  destruct (m_eType f); try destruct (GetRasterType f);
    first
      [ (* a value of fixed size *)
        solve [ apply dec_fixed_ok in Hok; destruct Hok as [Hfit ->];
                rewrite remaining_no_wrap
                  by (unfold UUID_SIZE_IN_BYTES in *; lia);
                cbn; auto ]
      | (* a length-prefixed value *)
        solve [ apply dec_prefixed_ok in Hok; [|intros; reflexivity];
                destruct Hok as [Hret [Hrem ->]];
                rewrite Hret, Hrem; cbn; auto ]
      | (* a string: pointer into the buffer, or UTF-16 conversion *)
        solve [ apply dec_prefixed_ok in Hok;
                [|intros p n;
                  match goal with
                  | |- context [if ?c then _ else _] => destruct c
                  end; reflexivity];
                destruct Hok as [Hret [Hrem ->]];
                rewrite Hret, Hrem; cbn; auto ]
      | (* nothing stored in the row *)
        solve [ cbn in *; rewrite remaining_no_wrap_zero by exact Hi; cbn;
                rewrite Z.add_0_r; auto ] ].
Qed.

End DecodeVersusSkip.

Lemma SkipField_progress (buf : list GByte) (pabyEnd : Z) (f : FileGDBField)
      (iter acc : Z) :
  st_ok (SkipField buf pabyEnd f iter acc) = true ->
  iter <= st_iter (SkipField buf pabyEnd f iter acc).
Proof.
  unfold SkipField.
  destruct (m_bNullable f && negb (TEST_BIT buf acc =? 0)); [cbn; lia|].
  assert (Hlen : forall n, skipped_length f = FixedLength n -> 0 <= n).
  { unfold skipped_length, UUID_SIZE_IN_BYTES.
    intros n. destruct (m_eType f); try destruct (GetRasterType f);
      intros H; try discriminate H; injection H as <-; lia. }
  destruct (skipped_length f) as [n|].
  - specialize (Hlen n eq_refl).
    destruct (n >? to_uint32 (pabyEnd - iter)); cbn; [discriminate|lia].
  - pose proof (@ReadVarUInt_progress 32 ControlTypeVerboseErrorTrue buf
                  pabyEnd ltac:(lia) iter 0 ltac:(lia)) as [Hp Ho].
    fold (ReadVarUInt32 buf iter pabyEnd 0) in Hp, Ho.
    destruct (vr_ret (ReadVarUInt32 buf iter pabyEnd 0)); [|cbn; discriminate].
    destruct (vr_out (ReadVarUInt32 buf iter pabyEnd 0)
              >? to_uint32
                   (pabyEnd - vr_iter (ReadVarUInt32 buf iter pabyEnd 0)));
      cbn; [discriminate|lia].
Qed.

(** *** GetFieldValue against a walk from the start of the row *)

Section RowCursor.

Context {double date : Type} {fops : FieldValueOps double date}.
Variable t : TableDesc.
Variable B : list GByte.
Variable nLen : Z.
Hypothesis nLen_range : 0 <= nLen < 2 ^ 31.
Hypothesis few_fields : Z.of_nat (length (m_apoFields t)) <= 65535.

Lemma walk_0 :
  st_ok (walk t B nLen 0) = true /\
  st_iter (walk t B nLen 0) = m_nNullableFieldsSizeInBytes t /\
  st_acc (walk t B nLen 0) = 0.
Proof. unfold walk. rewrite fields_between_empty by lia. cbn. auto. Qed.

(** The walk to [c], continued from an earlier column [j]. *)
Lemma walk_from (j c : Z) :
  0 <= j <= c -> c <= Z.of_nat (length (m_apoFields t)) ->
  st_ok (walk t B nLen j) = true ->
  let r := SkipFields B nLen (fields_between t j c)
             (st_iter (walk t B nLen j)) (st_acc (walk t B nLen j)) [] in
  st_ok (walk t B nLen c) = st_ok r /\
  st_iter (walk t B nLen c) = st_iter r /\
  st_acc (walk t B nLen c) = st_acc r.
Proof.
  intros Hj Hc Hok. unfold walk in *.
  rewrite (@fields_between_split t j c) by lia.
  pose proof (SkipFields_app B nLen (fields_between t 0 j)
                (fields_between t j c)
                (m_nNullableFieldsSizeInBytes t) 0) as H.
  cbv zeta in H. rewrite Hok in H. exact H.
Qed.

(** The walk one column further. *)
Lemma walk_succ (c : Z) :
  valid_column t c ->
  st_ok (walk t B nLen c) = true ->
  let f := nth (Z.to_nat c) (m_apoFields t) UNUSED_FIELD in
  let r := SkipField B nLen f (st_iter (walk t B nLen c))
                     (st_acc (walk t B nLen c)) in
  st_ok (walk t B nLen (c + 1)) = st_ok r /\
  (st_ok r = true ->
   st_iter (walk t B nLen (c + 1)) = st_iter r /\
   st_acc (walk t B nLen (c + 1)) = st_acc r).
Proof.
  intros Hc Hok. pose proof Hc as [Hc0 Hc1].
  destruct (@walk_from c (c + 1) ltac:(lia) ltac:(lia) Hok) as [H1 [H2 H3]].
  rewrite fields_between_one in H1, H2, H3 by exact Hc.
  cbn [SkipFields] in H1, H2, H3. cbv zeta.
  destruct (st_ok (SkipField B nLen
              (nth (Z.to_nat c) (m_apoFields t) UNUSED_FIELD)
              (st_iter (walk t B nLen c)) (st_acc (walk t B nLen c)))) eqn:E.
  - cbn in H1, H2, H3. auto.
  - cbn in H1. split; [exact H1|discriminate].
Qed.

Lemma GetFieldValue_decode_spec (s3 : @TableState double date) (c : Z) :
  valid_column t c ->
  m_abyBuffer s3 = B -> m_nChSaved s3 = -1 -> m_nLastCol s3 = c ->
  st_ok (walk t B nLen c) = true ->
  m_pabyIterVals s3 = st_iter (walk t B nLen c) ->
  m_iAccNullable s3 = st_acc (walk t B nLen c) ->
  m_bError s3 = false -> 0 <= m_nCurRow s3 -> m_nRowBlobLength s3 = nLen ->
  0 <= m_pabyIterVals s3 ->
  let r := column_result t B nLen c (m_sCurField s3) in
  let res := GetFieldValue_decode t s3 c nLen in
  fst res = cr_value r /\
  m_bError (snd res) = negb (cr_ok r) /\
  (cr_ok r = true ->
   cursor_consistent t B nLen (snd res) /\
   m_pabyIterVals (snd res) = cr_iter r /\
   m_nLastCol (snd res) = c).
Proof.
  intros Hc Hbuf Hch Hlast Hwok Hiter Hacc Herr Hrow Hlen Hpos.
  pose proof Hc as [Hc0 Hc1].
  unfold column_result, GetFieldValue_decode. cbv zeta.
  rewrite Hwok, Hbuf, Hacc. cbn [negb].
  pose proof (walk_succ Hc Hwok) as Hsucc. cbv zeta in Hsucc.
  set (f := nth (Z.to_nat c) (m_apoFields t) UNUSED_FIELD) in *.
  set (wi := st_iter (walk t B nLen c)) in *.
  set (wa := st_acc (walk t B nLen c)) in *.
  destruct (m_bNullable f && negb (TEST_BIT B wa =? 0)) eqn:Hnull.
  - (* the field is null *)
    destruct (@SkipField_null B nLen f wi wa Hnull) as [K1 [K2 K3]].
    rewrite K1 in Hsucc. destruct Hsucc as [W1 W2].
    destruct (W2 eq_refl) as [W3 W4]. rewrite K2 in W3. rewrite K3 in W4.
    apply andb_true_iff in Hnull. destruct Hnull as [Hn _]. rewrite Hn.
    cbn [fst snd cr_value cr_ok cr_iter negb]. state_simpl.
    split; [reflexivity|]. split; [exact Herr|]. intros _.
    split; [|split; [exact Hiter|exact Hlast]].
    unfold cursor_consistent, restored_buffer. state_simpl.
    rewrite Hch, Hlast, W1, W3, W4, Hiter. cbn [Z.geb Z.compare].
    repeat split; try assumption; try lia.
  - (* the field is there *)
    set (d := DecodeField B nLen (m_bStringsAreUTF8 t) f wi (m_sCurField s3)).
    assert (Hsame :
      DecodeField
        (m_abyBuffer (if m_bNullable f
                      then set_m_iAccNullable (wa + 1) s3 else s3))
        nLen (m_bStringsAreUTF8 t) f
        (m_pabyIterVals (if m_bNullable f
                         then set_m_iAccNullable (wa + 1) s3 else s3))
        (m_sCurField (if m_bNullable f
                      then set_m_iAccNullable (wa + 1) s3 else s3)) = d).
    { destruct (m_bNullable f); state_simpl; rewrite Hbuf, Hiter;
        reflexivity. }
    rewrite Hsame. clear Hsame.
    destruct (dec_ok d) eqn:Hd; cbn [negb andb].
    2:{ cbn [fst snd cr_value cr_ok]. state_simpl.
        split; [reflexivity|]. split; [reflexivity|discriminate]. }
    assert (Hwi : 0 <= wi) by (subst wi; rewrite <- Hiter; exact Hpos).
    destruct (@DecodeField_then_SkipField _ _ _ B nLen nLen_range
                (m_bStringsAreUTF8 t) f wi wa (m_sCurField s3)
                Hwi Hnull Hd) as [K1 [K2 K3]].
    fold d in K2.
    pose proof (@SkipField_progress B nLen f wi wa K1) as Hprog.
    rewrite K1 in Hsucc. destruct Hsucc as [W1 W2].
    destruct (W2 eq_refl) as [W3 W4]. rewrite K2 in W3. rewrite K3 in W4.
    rewrite K2 in Hprog.
    pose proof (byte_at_range B (dec_iter d)) as Hbyte.
    assert (Hgoal : forall s' : @TableState double date,
      m_nCurRow s' = m_nCurRow s3 -> m_bError s' = false ->
      m_nRowBlobLength s' = nLen -> m_nLastCol s' = c ->
      m_pabyIterVals s' = dec_iter d ->
      m_iAccNullable s' = (if m_bNullable f then wa + 1 else wa) ->
      (m_nChSaved s' = -1 /\ m_abyBuffer s' = B
       \/ m_nChSaved s' = byte_at B (dec_iter d)
          /\ m_abyBuffer s' = store_at B (dec_iter d) x00) ->
      m_bError s' = false /\
      (true = true ->
       cursor_consistent t B nLen s' /\ m_pabyIterVals s' = dec_iter d
       /\ m_nLastCol s' = c)).
    { intros s' G1 G2 G3 G4 G5 G6 G7.
      split; [exact G2|]. intros _.
      split; [|split; [exact G5|exact G4]].
      unfold cursor_consistent, restored_buffer.
      rewrite G1, G2, G3, G4, G5, G6, W1, W3, W4.
      destruct G7 as [[G7 G8]|[G7 G8]]; rewrite G7, G8.
      - cbn [Z.geb Z.compare]. repeat split; try assumption; try lia.
      - rewrite geb_true by lia. rewrite store_at_restore.
        repeat split; try assumption; try lia. }
    cbn [cr_value cr_ok cr_iter].
    destruct (dec_value d) as [v|] eqn:Hv.
    + cbn [fst snd]. split; [reflexivity|].
      apply Hgoal;
        destruct (m_bNullable f); destruct (dec_nul d);
        match goal with
        | |- context [if ?b then log_events _ _ else _] => destruct b
        | _ => idtac
        end; state_simpl; rewrite ?Hbuf; auto.
    + cbn [fst snd]. split; [reflexivity|].
      apply Hgoal;
        destruct (m_bNullable f); destruct (dec_nul d);
        state_simpl; rewrite ?Hbuf; auto.
Qed.

Lemma GetFieldValue_consistent (s : @TableState double date) (c : Z) :
  cursor_consistent t B nLen s -> valid_column t c ->
  let r := column_result t B nLen c (m_sCurField s) in
  let res := GetFieldValue t s c in
  fst res = cr_value r /\
  m_bError (snd res) = negb (cr_ok r) /\
  (cr_ok r = true ->
   cursor_consistent t B nLen (snd res) /\
   m_pabyIterVals (snd res) = cr_iter r /\
   m_nLastCol (snd res) = c).
Proof.
  intros (Hrow & Herr & Hlen & Hbuf & Hlast & Hwok & Hwi & Hwa & Hch & Hpos)
         Hc.
  pose proof Hc as [Hc0 Hc1].
  pose proof (nullable_size_bounds t few_fields) as Hnb.
  unfold GetFieldValue. cbv zeta.
  destruct (Z.ltb_spec (m_nCurRow s) 0) as [Hneg|_]; [lia|].
  rewrite to_uint32_small by (change (2 ^ 32) with 4294967296; lia).
  rewrite geb_false by lia. rewrite Herr, Hlen.
  (* the saved byte goes back *)
  set (s1 := restore_saved_char s).
  assert (F1 : m_abyBuffer s1 = B /\ m_nChSaved s1 = -1 /\
               m_nLastCol s1 = m_nLastCol s /\
               m_pabyIterVals s1 = m_pabyIterVals s /\
               m_iAccNullable s1 = m_iAccNullable s /\
               m_sCurField s1 = m_sCurField s /\
               m_nCurRow s1 = m_nCurRow s /\ m_bError s1 = false /\
               m_nRowBlobLength s1 = nLen).
  { subst s1. unfold restore_saved_char, restored_buffer in *.
    destruct (Z.geb_spec (m_nChSaved s) 0); state_simpl;
      repeat split; try assumption; try reflexivity; lia. }
  destruct F1 as (A1 & A2 & A3 & A4 & A5 & A6 & A7 & A8 & A9).
  (* back to the start of the row when the column is behind *)
  set (s2 := rewind_if_behind t s1 c).
  assert (F2 : exists l2, -1 <= l2 < c /\ m_nLastCol s2 = l2 /\
               st_ok (walk t B nLen (l2 + 1)) = true /\
               m_pabyIterVals s2 = st_iter (walk t B nLen (l2 + 1)) /\
               m_iAccNullable s2 = st_acc (walk t B nLen (l2 + 1)) /\
               m_abyBuffer s2 = B /\ m_nChSaved s2 = -1 /\
               m_sCurField s2 = m_sCurField s /\
               m_nCurRow s2 = m_nCurRow s /\ m_bError s2 = false /\
               m_nRowBlobLength s2 = nLen /\ 0 <= m_pabyIterVals s2).
  { subst s2. unfold rewind_if_behind. rewrite A3.
    destruct (Z.leb_spec c (m_nLastCol s)) as [Hbehind|Hahead].
    - exists (-1). destruct walk_0 as [W1 [W2 W3]].
      change (-1 + 1) with 0. state_simpl. rewrite W1, W2, W3.
      repeat split; try assumption; try reflexivity; lia.
    - exists (m_nLastCol s). rewrite A3, A4, A5.
      repeat split; try assumption; try lia; auto. }
  destruct F2 as (l2 & Hl2 & E1 & E2 & E3 & E4 & E5 & E6 & E7 & E8 & E9
                  & E10 & E11).
  rewrite E1, E3, E4, E5.
  destruct (@walk_from (l2 + 1) c ltac:(lia) ltac:(lia) E2) as [V1 [V2 V3]].
  set (sk := SkipFields B nLen (fields_between t (l2 + 1) c)
               (st_iter (walk t B nLen (l2 + 1)))
               (st_acc (walk t B nLen (l2 + 1))) []) in *.
  destruct (st_ok sk) eqn:Hsk; cbn [negb].
  - (* the skipped fields are in order *)
    set (s3 := set_m_nLastCol c
                 (log_events (st_events sk)
                    (set_m_iAccNullable (st_acc sk)
                       (set_m_pabyIterVals (st_iter sk) s2)))).
    assert (Hcf : m_sCurField s = m_sCurField s3)
      by (subst s3; state_simpl; symmetry; exact E7).
    rewrite Hcf.
    assert (Hprog : 0 <= st_iter sk).
    { rewrite <- V2.
      assert (G : forall fs i a,
                 0 <= i -> st_ok (SkipFields B nLen fs i a []) = true ->
                 0 <= st_iter (SkipFields B nLen fs i a [])).
      { induction fs as [|f fs IH]; intros i a Hi Hok; cbn [SkipFields] in *.
        - exact Hi.
        - destruct (st_ok (SkipField B nLen f i a)) eqn:Hf;
            [|discriminate Hok].
          pose proof (@SkipField_progress B nLen f i a Hf) as Hp.
          destruct (SkipFields_events B nLen fs
                      (st_iter (SkipField B nLen f i a))
                      (st_acc (SkipField B nLen f i a))
                      ([] ++ st_events (SkipField B nLen f i a)))
            as [Q1 [Q2 _]].
          rewrite Q1 in Hok. rewrite Q2. apply IH; [lia|exact Hok]. }
      unfold walk. apply G; [lia|exact V1]. }
    apply GetFieldValue_decode_spec; subst s3; state_simpl;
      try assumption; try reflexivity; try congruence; try lia.
  - (* an error while skipping *)
    cbn [fst snd]. state_simpl.
    unfold column_result. rewrite V1. cbn [negb cr_value cr_ok].
    split; [reflexivity|]. split; [reflexivity|discriminate].
Qed.

Lemma DecodeField_defined (f : FileGDBField) (u : bool) (i : Z)
    (c1 c2 : OGRField double date) :
  m_eType f <> FGFT_UNDEFINED ->
  DecodeField B nLen u f i c1 = DecodeField B nLen u f i c2.
Proof.
  intros Hty. unfold DecodeField.
  destruct (m_eType f); try reflexivity; congruence.
Qed.

Lemma column_result_defined (c : Z) (c1 c2 : OGRField double date) :
  no_undefined_field t -> valid_column t c ->
  column_result t B nLen c c1 = column_result t B nLen c c2.
Proof.
  intros Hdef [Hc0 Hc1]. unfold column_result. cbv zeta.
  assert (Hty : m_eType (nth (Z.to_nat c) (m_apoFields t) UNUSED_FIELD)
                <> FGFT_UNDEFINED).
  { unfold no_undefined_field in Hdef. rewrite Forall_forall in Hdef.
    apply Hdef. apply nth_In. lia. }
  rewrite (@DecodeField_defined _ (m_bStringsAreUTF8 t)
             (st_iter (walk t B nLen c)) c1 c2 Hty).
  reflexivity.
Qed.

Lemma fresh_selection_consistent (s0 : @TableState double date) :
  fresh_selection t s0 -> m_abyBuffer s0 = B -> m_nRowBlobLength s0 = nLen ->
  cursor_consistent t B nLen s0.
Proof.
  intros (F1 & F2 & F3 & F4 & F5 & F6 & F7) HB HL.
  pose proof (nullable_size_bounds t few_fields) as Hnb.
  destruct walk_0 as [W1 [W2 W3]].
  unfold cursor_consistent, restored_buffer.
  rewrite F2, F6. change (-1 + 1) with 0. rewrite W1, W2, W3.
  change (-1 >=? 0) with false. cbv iota.
  repeat split; try assumption; try lia; auto.
Qed.

Lemma GetFieldValues_consistent :
  (forall c cf, valid_column t c ->
                cr_ok (column_result t B nLen c cf) = true) ->
  forall (prev : list Z) (s : @TableState double date),
    cursor_consistent t B nLen s -> Forall (valid_column t) prev ->
    cursor_consistent t B nLen (snd (GetFieldValues t s prev)).
Proof.
  intros Hwf. induction prev as [|a prev IH]; intros s Hs Hprev;
    cbn [GetFieldValues].
  - exact Hs.
  - apply Forall_cons_iff in Hprev. destruct Hprev as [Ha Hprev].
    pose proof (GetFieldValue_consistent Hs Ha) as H. cbv zeta in H.
    destruct (GetFieldValue t s a) as [v s'] eqn:E. cbn [fst snd] in H.
    destruct H as (_ & _ & H3).
    destruct (H3 (Hwf a (m_sCurField s) Ha)) as [Hs' _].
    specialize (IH s' Hs' Hprev).
    destruct (GetFieldValues t s' prev) as [vs s''] eqn:E2.
    cbn [snd] in *. exact IH.
Qed.

Lemma GetFieldValue_any_cursor (s1 s2 : @TableState double date) (c : Z) :
  no_undefined_field t -> valid_column t c ->
  cursor_consistent t B nLen s1 -> cursor_consistent t B nLen s2 ->
  fst (GetFieldValue t s1 c) = fst (GetFieldValue t s2 c) /\
  m_bError (snd (GetFieldValue t s1 c)) =
  m_bError (snd (GetFieldValue t s2 c)).
Proof.
  intros Hdef Hc H1 H2.
  destruct (GetFieldValue_consistent H1 Hc) as (V1 & R1 & _).
  destruct (GetFieldValue_consistent H2 Hc) as (V2 & R2 & _).
  rewrite V1, V2, R1, R2.
  rewrite (@column_result_defined c (m_sCurField s1) (m_sCurField s2)
             Hdef Hc).
  split; reflexivity.
Qed.

End RowCursor.
(** ** The bit of a nullable field *)

Section NullableRank.

Context {double date : Type} {fops : FieldValueOps double date}.
Variable buf : list GByte.
Variable pabyEnd : Z.

Lemma SkipField_acc (f : FileGDBField) (iter acc : Z) :
  st_acc (SkipField buf pabyEnd f iter acc)
  = acc + (if m_bNullable f then 1 else 0).
Proof.
  unfold SkipField.
  destruct (m_bNullable f); cbn [andb];
    repeat match goal with
           | |- context [if ?b then _ else _] => destruct b
           | |- context [match ?x with FixedLength _ => _ | _ => _ end] =>
               destruct x
           end; cbn [st_acc]; lia.
Qed.

Lemma SkipFields_acc (fs : list FileGDBField) :
  forall (iter acc : Z) (evs : list Event),
    st_ok (SkipFields buf pabyEnd fs iter acc evs) = true ->
    st_acc (SkipFields buf pabyEnd fs iter acc evs)
    = acc + Z.of_nat (length (filter m_bNullable fs)).
Proof.
  induction fs as [|f fs IH]; intros iter acc evs Hok;
    cbn [SkipFields filter] in *.
  - cbn. lia.
  - destruct (st_ok (SkipField buf pabyEnd f iter acc)) eqn:Hf;
      [|discriminate Hok].
    rewrite (IH _ _ _ Hok), SkipField_acc.
    destruct (m_bNullable f); cbn [length]; lia.
Qed.

End NullableRank.

Lemma walk_acc (t : TableDesc) (B : list GByte) (nLen c : Z) :
  st_ok (walk t B nLen c) = true ->
  st_acc (walk t B nLen c) = nullable_rank t c.
Proof.
  intros Hok. unfold walk in *. rewrite (SkipFields_acc _ _ _ _ _ _ Hok).
  rewrite fields_between_0. unfold nullable_rank. lia.
Qed.

(** C4 (amended): on a freshly selected row, a nullable field whose bit is
    set in the bitmask is returned as null and nothing of the values is
    consumed for it: the cursor stays where the walk over the columns before
    it ends, and the next column starts there too.  The bit of a field is
    its rank among the nullable fields of the table, not its column index:
    in the table (int32 NOT NULL, string NULLABLE) the string has bit 0. *)
Theorem GetFieldValue_null_field
    {double date : Type} {fops : FieldValueOps double date}
    (t : TableDesc) (s0 : @TableState double date) (c : Z) :
  Z.of_nat (length (m_apoFields t)) <= 65535 ->
  fresh_selection t s0 ->
  valid_column t c ->
  st_ok (walk t (m_abyBuffer s0) (m_nRowBlobLength s0) c) = true ->
  m_bNullable (nth (Z.to_nat c) (m_apoFields t) UNUSED_FIELD) = true ->
  TEST_BIT (m_abyBuffer s0) (nullable_rank t c) <> 0 ->
  fst (GetFieldValue t s0 c) = None /\
  m_bError (snd (GetFieldValue t s0 c)) = false /\
  m_pabyIterVals (snd (GetFieldValue t s0 c))
  = st_iter (walk t (m_abyBuffer s0) (m_nRowBlobLength s0) c) /\
  st_iter (walk t (m_abyBuffer s0) (m_nRowBlobLength s0) (c + 1))
  = st_iter (walk t (m_abyBuffer s0) (m_nRowBlobLength s0) c).
Proof.
  intros Hfew Hfresh Hc Hwalk Hnullable Hbit.
  assert (Hlen : 0 <= m_nRowBlobLength s0 < 2 ^ 31)
    by (destruct Hfresh as (_ & _ & _ & _ & _ & _ & H); exact H).
  pose proof (fresh_selection_consistent Hfew Hfresh eq_refl eq_refl) as H0.
  set (B := m_abyBuffer s0) in *. set (nLen := m_nRowBlobLength s0) in *.
  assert (Hnull : m_bNullable (nth (Z.to_nat c) (m_apoFields t) UNUSED_FIELD)
                  && negb (TEST_BIT B (st_acc (walk t B nLen c)) =? 0)
                  = true).
  { rewrite Hnullable, (walk_acc _ _ _ _ Hwalk). cbn [andb].
    destruct (Z.eqb_spec (TEST_BIT B (nullable_rank t c)) 0);
      [contradiction|reflexivity]. }
  assert (Hr : forall cf,
             cr_ok (column_result t B nLen c cf) = true /\
             cr_value (column_result t B nLen c cf) = None /\
             cr_iter (column_result t B nLen c cf)
             = st_iter (walk t B nLen c)).
  { intros cf. unfold column_result. cbv zeta.
    rewrite Hwalk. cbn [negb]. rewrite Hnull. cbn. auto. }
  destruct (Hr (m_sCurField s0)) as (R1 & R2 & R3).
  destruct (GetFieldValue_consistent Hlen Hfew H0 Hc) as (V & E & K).
  destruct (K R1) as (_ & I & _).
  rewrite V, E, I, R1, R2, R3.
  repeat split; try reflexivity.
  pose proof (walk_succ _ _ Hc Hwalk) as S; cbv zeta in S.
  destruct S as [S1 S2].
  pose proof (SkipField_null _ nLen _ (st_iter (walk t B nLen c)) _ Hnull)
    as (N1 & N2 & _).
  destruct (S2 N1) as [S3 _]. rewrite S3. exact N2.
Qed.

Lemma GetFieldValue_null_field_witness :
  fst (GetFieldValue (example_int_null_table x01)
                     (example_selected (example_int_null_table x01)) 0)
  = Some (OF_Integer 42) /\
  fst (GetFieldValue (example_int_null_table x01)
                     (example_selected (example_int_null_table x01)) 1)
  = None /\
  m_pabyIterVals
    (snd (GetFieldValue (example_int_null_table x01)
                        (example_selected (example_int_null_table x01)) 1))
  = 5.
Proof.
  split; [vm_compute; reflexivity|].
  destruct (@GetFieldValue_null_field _ _ _
              (example_int_null_table x01)
              (example_selected (example_int_null_table x01)) 1)
    as (V & _ & I & _).
  - cbn. lia.
  - unfold fresh_selection. vm_compute.
    repeat split; try reflexivity; discriminate.
  - unfold valid_column. cbn. lia.
  - vm_compute. reflexivity.
  - vm_compute. reflexivity.
  - vm_compute. discriminate.
  - split; [exact V|]. rewrite I. vm_compute. reflexivity.
Defined.

(** With the bitmask byte 0b00000010 the bit of the string (bit 0) is clear:
    the string is present in the values, its length and its byte are read
    and the cursor moves from 5 to the end of the row. *)
Lemma GetFieldValue_bit1_string_not_null :
  TEST_BIT (m_abyBuffer (example_selected (example_int_string_table x02)))
           (nullable_rank (example_int_string_table x02) 1) = 0 /\
  fst (GetFieldValues (example_int_string_table x02)
                      (example_selected (example_int_string_table x02))
                      [0; 1])
  = [Some (OF_Integer 42); Some (OF_String [x41])] /\
  m_pabyIterVals
    (snd (GetFieldValue (example_int_string_table x02)
                        (example_selected (example_int_string_table x02)) 0))
  = 5 /\
  m_pabyIterVals
    (snd (GetFieldValue (example_int_string_table x02)
                        (example_selected (example_int_string_table x02)) 1))
  = 7.
Proof. vm_compute. repeat split; reflexivity. Qed.
(** ** Column access within a row selection *)

(** C9: on a well-formed selected row GetFieldValue(c) returns the same
    value, without error, whichever columns were read before it in the same
    selection: reading c after any sequence [prev] of columns gives what
    reading c first on the fresh selection gives, that is columns 0 .. c
    decoded from the start of the row.  The table has at most 65535 fields
    (the count is read from 16 bits) and none of type FGFT_UNDEFINED. *)
Theorem GetFieldValue_order_independent
    {double date : Type} {fops : FieldValueOps double date}
    (t : TableDesc) (s0 : @TableState double date) (prev : list Z) (c : Z) :
  Z.of_nat (length (m_apoFields t)) <= 65535 ->
  no_undefined_field t ->
  fresh_selection t s0 ->
  row_well_formed t s0 ->
  Forall (valid_column t) prev ->
  valid_column t c ->
  fst (GetFieldValue t (snd (GetFieldValues t s0 prev)) c)
  = fst (GetFieldValue t s0 c) /\
  fst (GetFieldValue t s0 c)
  = cr_value (column_result t (m_abyBuffer s0) (m_nRowBlobLength s0) c
                            (m_sCurField s0)) /\
  m_bError (snd (GetFieldValue t (snd (GetFieldValues t s0 prev)) c))
  = false.
Proof.
  intros Hfew Hdef Hfresh Hwf Hprev Hc.
  assert (Hlen : 0 <= m_nRowBlobLength s0 < 2 ^ 31)
    by (destruct Hfresh as (_ & _ & _ & _ & _ & _ & H); exact H).
  pose proof (fresh_selection_consistent Hfew Hfresh eq_refl eq_refl) as H0.
  assert (Hok : forall c' cf, valid_column t c' ->
            cr_ok (column_result t (m_abyBuffer s0) (m_nRowBlobLength s0)
                                 c' cf) = true).
  { intros c' cf Hc'.
    destruct (GetFieldValue_consistent Hlen Hfew H0 Hc') as (_ & R & _).
    rewrite (Hwf c' Hc') in R.
    rewrite (column_result_defined (m_abyBuffer s0) (m_nRowBlobLength s0)
               cf (m_sCurField s0) Hdef Hc').
    destruct (cr_ok _); [reflexivity|discriminate R]. }
  pose proof (GetFieldValues_consistent Hlen Hfew Hok H0 Hprev) as H1.
  destruct (GetFieldValue_any_cursor Hlen Hfew Hdef Hc H1 H0) as [V E].
  split; [exact V|]. split.
  - destruct (GetFieldValue_consistent Hlen Hfew H0 Hc) as (V0 & _).
    exact V0.
  - rewrite E. apply Hwf. exact Hc.
Qed.

Lemma example_int_string_fresh :
  fresh_selection (example_int_string_table x00)
                  (example_selected (example_int_string_table x00)).
Proof.
  unfold fresh_selection. vm_compute.
  repeat split; try reflexivity; try discriminate.
Qed.

Lemma example_valid_column (mask : GByte) (c : Z) :
  valid_column (example_int_string_table mask) c -> c = 0 \/ c = 1.
Proof. unfold valid_column. cbn. lia. Qed.

Lemma GetFieldValue_order_independent_witness :
  fst (GetFieldValue (example_int_string_table x00)
         (snd (GetFieldValues (example_int_string_table x00)
                 (example_selected (example_int_string_table x00))
                 [1; 0; 1]))
         0)
  = Some (OF_Integer 42).
Proof.
  destruct (@GetFieldValue_order_independent _ _ _
              (example_int_string_table x00)
              (example_selected (example_int_string_table x00))
              [1; 0; 1] 0) as (V & _).
  - cbn. lia.
  - repeat constructor; cbn; discriminate.
  - exact example_int_string_fresh.
  - intros c Hc. apply example_valid_column in Hc.
    destruct Hc as [-> | ->]; vm_compute; reflexivity.
  - repeat constructor; cbn; lia.
  - unfold valid_column. cbn. lia.
  - rewrite V. vm_compute. reflexivity.
Defined.

(** * Further properties of the code *)

(** ** The varuint decoders on arbitrary bytes *)

Lemma byte_at_outside (buf : list GByte) (p : Z) :
  Z.of_nat (length buf) <= p -> byte_at buf p = 0.
Proof.
  intros Hp. unfold byte_at. destruct (Z.ltb_spec p 0); [reflexivity|].
  rewrite nth_overflow by lia. reflexivity.
Qed.

Lemma lor_lt_pow2 (a b n : Z) :
  0 <= n -> 0 <= a < 2 ^ n -> 0 <= b < 2 ^ n -> 0 <= Z.lor a b < 2 ^ n.
Proof.
  intros Hn Ha Hb. split; [apply Z.lor_nonneg; lia|].
  destruct (Z.eq_dec (Z.lor a b) 0) as [->|Hnz];
    [apply Z.pow_pos_nonneg; lia|].
  assert (Hpos : 0 < Z.lor a b)
    by (pose proof (proj2 (Z.lor_nonneg a b) (conj (proj1 Ha) (proj1 Hb)));
        lia).
  assert (Hn0 : 0 < n).
  { destruct (Z.eq_dec n 0) as [->|]; [|lia].
    change (2 ^ 0) with 1 in *.
    replace a with 0 in * by lia. replace b with 0 in * by lia.
    cbn in Hnz. contradiction. }
  apply Z.log2_lt_pow2; [exact Hpos|].
  rewrite Z.log2_lor by lia.
  apply Z.max_lub_lt.
  - destruct (Z.eq_dec a 0) as [->|]; [cbn; lia|].
    apply Z.log2_lt_pow2; lia.
  - destruct (Z.eq_dec b 0) as [->|]; [cbn; lia|].
    apply Z.log2_lt_pow2; lia.
Qed.

Section DecoderFootprint.

Variable nbits : Z.
Variable ct : ControlType.
Variable buf : list GByte.
Variable pabyEnd : Z.
Hypothesis nbits_ge_8 : 8 <= nbits.

Lemma wrap_unsigned_range (x : Z) : 0 <= wrap_unsigned nbits x < 2 ^ nbits.
Proof.
  unfold wrap_unsigned. apply Z.mod_pos_bound. apply Z.pow_pos_nonneg; lia.
Qed.

Lemma ReadVarUInt_loop_footprint (fuel : nat) :
  forall (pabyIter nOutVal pabyLocalIter nShift nVal : Z) (j : nat),
    pabyLocalIter = pabyIter + Z.of_nat j ->
    nShift = 7 * Z.of_nat j -> nShift < nbits ->
    0 <= nOutVal < 2 ^ nbits -> 0 <= nVal < 2 ^ nbits ->
    let r := ReadVarUInt_loop nbits ct buf pabyEnd fuel pabyIter nOutVal
               pabyLocalIter nShift nVal (addr_range pabyIter j) in
    exists k : nat,
      Z.of_nat k <= varuint_max_bytes nbits /\
      vr_reads r = addr_range pabyIter k /\
      pabyIter <= vr_iter r <= pabyIter + Z.of_nat k /\
      0 <= vr_out r < 2 ^ nbits.
Proof.
  induction fuel as [|fuel IH];
    intros pabyIter nOutVal pabyLocalIter nShift nVal j Hl Hs Hlt Hout Hval;
    cbn [ReadVarUInt_loop].
  - exists j. cbn. pose proof (proj1 (max_bytes_gt nbits (Z.of_nat j))).
    repeat split; try lia.
  - pose proof (proj1 (max_bytes_gt nbits (Z.of_nat j)) ltac:(lia)) as Hj.
    assert (Hnew : 0 <= Z.lor nVal
              (wrap_unsigned nbits
                 (Z.shiftl
                    (Z.land (wrap_unsigned nbits (byte_at buf pabyLocalIter))
                            127) nShift)) < 2 ^ nbits).
    { apply lor_lt_pow2; [lia|exact Hval|apply wrap_unsigned_range]. }
    assert (Hreads : addr_range pabyIter j ++ [pabyLocalIter]
                     = addr_range pabyIter (S j))
      by (rewrite addr_range_snoc, Hl; reflexivity).
    rewrite Hreads.
    destruct (check_bounds ct && (pabyLocalIter >=? pabyEnd)).
    { exists j. cbn. repeat split; lia. }
    destruct (Z.land (wrap_unsigned nbits (byte_at buf pabyLocalIter)) 128
              =? 0).
    { exists (S j). cbn [vr_reads vr_iter vr_out].
      repeat split; try lia. }
    destruct (Z.geb_spec (nShift + 7) nbits).
    { exists (S j). cbn [vr_reads vr_iter vr_out].
      repeat split; try lia. }
    apply IH; try assumption; lia.
Qed.

End DecoderFootprint.

Lemma ReadVarUInt_reads_shape (nbits : Z) (ct : ControlType)
    (buf : list GByte) (pabyEnd pabyIter nOutVal : Z) :
  8 <= nbits ->
  0 <= nOutVal < 2 ^ nbits ->
  exists k : nat,
    Z.of_nat k <= varuint_max_bytes nbits /\
    vr_reads (ReadVarUInt nbits ct buf pabyEnd pabyIter nOutVal)
    = addr_range pabyIter k /\
    pabyIter <= vr_iter (ReadVarUInt nbits ct buf pabyEnd pabyIter nOutVal)
             <= pabyIter + Z.of_nat k /\
    0 <= vr_out (ReadVarUInt nbits ct buf pabyEnd pabyIter nOutVal)
      < 2 ^ nbits.
Proof.
  intros Hn Hout. unfold ReadVarUInt.
  assert (Hmax : 1 <= varuint_max_bytes nbits).
  { pose proof (proj1 (max_bytes_gt nbits 0) ltac:(lia)). lia. }
  destruct (check_bounds ct && (pabyIter >=? pabyEnd)).
  { exists 0%nat. cbn. repeat split; lia. }
  destruct (Z.land (wrap_unsigned nbits (byte_at buf pabyIter)) 128 =? 0).
  { exists 1%nat. cbn [vr_reads vr_iter vr_out].
    pose proof (wrap_unsigned_range Hn (byte_at buf pabyIter)).
    repeat split; try lia. cbn. rewrite Z.add_0_r. reflexivity. }
  assert (Hreads : [pabyIter] = addr_range pabyIter 1)
    by (cbn; rewrite Z.add_0_r; reflexivity).
  rewrite Hreads.
  apply ReadVarUInt_loop_footprint; try lia.
  pose proof (wrap_unsigned_range Hn (byte_at buf pabyIter)).
  rewrite land_127.
  pose proof (Z.mod_pos_bound (wrap_unsigned nbits (byte_at buf pabyIter))
                              128 ltac:(lia)).
  assert (2 ^ 8 <= 2 ^ nbits) by (apply Z.pow_le_mono_r; lia).
  change (2 ^ 8) with 256 in *. lia.
Qed.

(** X1.  Whatever the bytes and whatever the control type, bounds-checked
    or not, one call of ReadVarUInt dereferences at most ceil(nbits/7)
    consecutive bytes starting at the cursor (5 for 32 bits, 10 for 64),
    never moves the cursor backwards nor beyond the last byte read, and
    leaves a value that fits the output type. *)
Theorem ReadVarUInt_footprint (nbits : Z) (ct : ControlType)
    (buf : list GByte) (pabyEnd pabyIter nOutVal : Z) :
  8 <= nbits ->
  0 <= nOutVal < 2 ^ nbits ->
  exists k : nat,
    Z.of_nat k <= varuint_max_bytes nbits /\
    vr_reads (ReadVarUInt nbits ct buf pabyEnd pabyIter nOutVal)
    = addr_range pabyIter k /\
    pabyIter <= vr_iter (ReadVarUInt nbits ct buf pabyEnd pabyIter nOutVal)
             <= pabyIter + Z.of_nat k /\
    0 <= vr_out (ReadVarUInt nbits ct buf pabyEnd pabyIter nOutVal)
      < 2 ^ nbits.
Proof. intros Hn Hout. apply ReadVarUInt_reads_shape; assumption. Qed.

Lemma ReadVarUInt_footprint_witness :
  exists k : nat,
    Z.of_nat k <= 5 /\
    vr_reads (ReadVarUInt32NoCheck [xff; xff; xff; xff; xff; xff; x01] 0 0)
    = addr_range 0 k.
Proof.
  destruct (@ReadVarUInt_footprint 32 ControlTypeNone
              [xff; xff; xff; xff; xff; xff; x01] 0 0 0
              ltac:(lia) ltac:(cbn; lia)) as (k & Hk & Hr & _).
  exists k. split; [exact Hk|exact Hr].
Defined.

Section DecoderAgreement.

Variable nbits : Z.
Variable buf : list GByte.

Lemma ReadVarUInt_loop_unchecked (ct ct' : ControlType)
      (pabyEnd pabyEnd' : Z) (fuel : nat) :
  check_bounds ct' = false ->
  forall (pabyIter nOutVal pabyLocalIter nShift nVal : Z) (reads : list Z),
    vr_ret (ReadVarUInt_loop nbits ct buf pabyEnd fuel pabyIter nOutVal
              pabyLocalIter nShift nVal reads) = true ->
    ReadVarUInt_loop nbits ct' buf pabyEnd' fuel pabyIter nOutVal
      pabyLocalIter nShift nVal reads
    = ReadVarUInt_loop nbits ct buf pabyEnd fuel pabyIter nOutVal
        pabyLocalIter nShift nVal reads.
Proof.
  intros Hct'. induction fuel as [|fuel IH];
    intros pabyIter nOutVal pabyLocalIter nShift nVal reads Hok;
    cbn [ReadVarUInt_loop] in *.
  - discriminate Hok.
  - rewrite Hct'. cbn [andb].
    destruct (check_bounds ct && (pabyLocalIter >=? pabyEnd));
      [discriminate Hok|].
    destruct (Z.land (wrap_unsigned nbits (byte_at buf pabyLocalIter)) 128
              =? 0); [reflexivity|].
    destruct (nShift + 7 >=? nbits); [discriminate Hok|].
    apply IH. exact Hok.
Qed.

Lemma ReadVarUInt_loop_silent (ct ct' : ControlType) (pabyEnd : Z)
      (fuel : nat) :
  check_bounds ct' = check_bounds ct ->
  forall (pabyIter nOutVal pabyLocalIter nShift nVal : Z) (reads : list Z),
    let r := ReadVarUInt_loop nbits ct buf pabyEnd fuel pabyIter nOutVal
               pabyLocalIter nShift nVal reads in
    let r' := ReadVarUInt_loop nbits ct' buf pabyEnd fuel pabyIter nOutVal
                pabyLocalIter nShift nVal reads in
    vr_ret r' = vr_ret r /\ vr_iter r' = vr_iter r /\
    vr_out r' = vr_out r /\ vr_reads r' = vr_reads r.
Proof.
  intros Hct. induction fuel as [|fuel IH];
    intros pabyIter nOutVal pabyLocalIter nShift nVal reads;
    cbn [ReadVarUInt_loop].
  - cbn. auto.
  - rewrite Hct.
    destruct (check_bounds ct && (pabyLocalIter >=? pabyEnd)); [cbn; auto|].
    destruct (Z.land (wrap_unsigned nbits (byte_at buf pabyLocalIter)) 128
              =? 0); [cbn; auto|].
    destruct (nShift + 7 >=? nbits); [cbn; auto|].
    apply IH.
Qed.

End DecoderAgreement.

(** X2.  Bounds checking only ever turns a result into a failure: whenever
    a call of ReadVarUInt succeeds, the decoder without bounds check
    (ReadVarUInt32NoCheck, ReadVarUInt64NoCheck) returns the same value,
    leaves the cursor at the same place and reads the same bytes; and the
    silent control type differs from the verbose one in the error message
    only. *)
Theorem ReadVarUInt_control_types (nbits : Z) (buf : list GByte)
    (ct ct' : ControlType) (pabyEnd pabyEnd' pabyIter nOutVal : Z) :
  (vr_ret (ReadVarUInt nbits ct buf pabyEnd pabyIter nOutVal) = true ->
   check_bounds ct' = false ->
   ReadVarUInt nbits ct' buf pabyEnd' pabyIter nOutVal
   = ReadVarUInt nbits ct buf pabyEnd pabyIter nOutVal) /\
  (check_bounds ct' = check_bounds ct ->
   let r := ReadVarUInt nbits ct buf pabyEnd pabyIter nOutVal in
   let r' := ReadVarUInt nbits ct' buf pabyEnd pabyIter nOutVal in
   vr_ret r' = vr_ret r /\ vr_iter r' = vr_iter r /\
   vr_out r' = vr_out r /\ vr_reads r' = vr_reads r).
Proof.
  split.
  - intros Hok Hct'. unfold ReadVarUInt in *. rewrite Hct'. cbn [andb].
    destruct (check_bounds ct && (pabyIter >=? pabyEnd));
      [discriminate Hok|].
    destruct (Z.land (wrap_unsigned nbits (byte_at buf pabyIter)) 128 =? 0);
      [reflexivity|].
    apply ReadVarUInt_loop_unchecked; assumption.
  - intros Hct. unfold ReadVarUInt. rewrite Hct.
    destruct (check_bounds ct && (pabyIter >=? pabyEnd)); [cbn; auto|].
    destruct (Z.land (wrap_unsigned nbits (byte_at buf pabyIter)) 128 =? 0);
      [cbn; auto|].
    apply ReadVarUInt_loop_silent. exact Hct.
Qed.

Lemma ReadVarUInt_control_types_witness :
  ReadVarUInt32NoCheck [xac; x02; xff] 0 0
  = ReadVarUInt32 [xac; x02; xff] 0 2 0 /\
  vr_out (ReadVarUInt32Silent [xac; x02; xff] 0 1 0)
  = vr_out (ReadVarUInt32 [xac; x02; xff] 0 1 0).
Proof.
  destruct (@ReadVarUInt_control_types 32 [xac; x02; xff]
              ControlTypeVerboseErrorTrue ControlTypeNone 2 0 0 0)
    as [Hnocheck _].
  destruct (@ReadVarUInt_control_types 32 [xac; x02; xff]
              ControlTypeVerboseErrorTrue ControlTypeVerboseErrorFalse
              1 1 0 0) as [_ Hsilent].
  split.
  - apply Hnocheck; reflexivity.
  - exact (proj1 (proj2 (proj2 (Hsilent eq_refl)))).
Defined.

(** ** SkipVarUInt against the decoder *)

Section SkipAgainstDecoder.

Variable nbits : Z.
Variable ct : ControlType.
Variable buf : list GByte.
Variable pabyEnd : Z.
Hypothesis nbits_ge_8 : 8 <= nbits.

Lemma SkipVarUInt_bytes_loop (fuel : nat) :
  forall (skipFuel : nat) (pabyIter nOutVal pabyLocalIter nShift nVal : Z)
         (reads : list Z),
    0 <= pabyLocalIter ->
    (1 <= skipFuel)%nat ->
    Z.of_nat (length buf) - pabyLocalIter < Z.of_nat skipFuel ->
    vr_ret (ReadVarUInt_loop nbits ct buf pabyEnd fuel pabyIter nOutVal
              pabyLocalIter nShift nVal reads) = true ->
    SkipVarUInt_bytes skipFuel buf pabyLocalIter
    = vr_iter (ReadVarUInt_loop nbits ct buf pabyEnd fuel pabyIter nOutVal
                 pabyLocalIter nShift nVal reads).
Proof.
  induction fuel as [|fuel IH];
    intros skipFuel pabyIter nOutVal pabyLocalIter nShift nVal reads
           Hpos Hone Hfuel Hok; cbn [ReadVarUInt_loop] in *.
  - discriminate Hok.
  - destruct skipFuel as [|skipFuel]; [lia|]. cbn [SkipVarUInt_bytes].
    destruct (check_bounds ct && (pabyLocalIter >=? pabyEnd));
      [discriminate Hok|].
    rewrite wrap_byte in * by exact nbits_ge_8.
    destruct (Z.eqb_spec (Z.land (byte_at buf pabyLocalIter) 128) 0)
      as [Hz|Hnz]; [reflexivity|].
    destruct (nShift + 7 >=? nbits); [discriminate Hok|].
    assert (Hin : pabyLocalIter < Z.of_nat (length buf)).
    { destruct (Z.lt_ge_cases pabyLocalIter (Z.of_nat (length buf)))
        as [H|H]; [exact H|].
      rewrite byte_at_outside in Hnz by exact H. cbn in Hnz. contradiction. }
    assert (G1 : 0 <= pabyLocalIter + 1) by lia.
    assert (G2 : (1 <= skipFuel)%nat) by lia.
    assert (G3 : Z.of_nat (length buf) - (pabyLocalIter + 1)
                 < Z.of_nat skipFuel) by lia.
    exact (IH skipFuel _ _ _ _ _ _ G1 G2 G3 Hok).
Qed.

Lemma SkipVarUInt_bytes_decoded (pabyIter nOutVal : Z) :
  0 <= pabyIter ->
  vr_ret (ReadVarUInt nbits ct buf pabyEnd pabyIter nOutVal) = true ->
  SkipVarUInt_bytes (S (length buf)) buf pabyIter
  = vr_iter (ReadVarUInt nbits ct buf pabyEnd pabyIter nOutVal).
Proof.
  intros Hpos Hok. unfold ReadVarUInt in *. cbn [SkipVarUInt_bytes].
  destruct (check_bounds ct && (pabyIter >=? pabyEnd)); [discriminate Hok|].
  rewrite wrap_byte in * by exact nbits_ge_8.
  destruct (Z.eqb_spec (Z.land (byte_at buf pabyIter) 128) 0) as [Hz|Hnz];
    [reflexivity|].
  assert (Hin : pabyIter < Z.of_nat (length buf)).
  { destruct (Z.lt_ge_cases pabyIter (Z.of_nat (length buf))) as [H|H];
      [exact H|].
    rewrite byte_at_outside in Hnz by exact H. cbn in Hnz. contradiction. }
  assert (G1 : 0 <= pabyIter + 1) by lia.
  assert (G2 : (1 <= length buf)%nat) by lia.
  assert (G3 : Z.of_nat (length buf) - (pabyIter + 1)
               < Z.of_nat (length buf)) by lia.
  exact (@SkipVarUInt_bytes_loop _ _ _ _ _ _ _ _ G1 G2 G3 Hok).
Qed.

End SkipAgainstDecoder.

Lemma SkipVarUInt_iter_decoded (buf : list GByte) (n : nat) :
  forall pabyIter q : Z,
    0 <= pabyIter ->
    varuints_end n buf pabyIter = Some q ->
    SkipVarUInt_iter n buf pabyIter = q.
Proof.
  induction n as [|n IH]; intros pabyIter q Hpos Hend;
    cbn [varuints_end SkipVarUInt_iter] in *.
  - injection Hend as <-. reflexivity.
  - destruct (vr_ret (ReadVarUInt64NoCheck buf pabyIter 0)) eqn:Hok;
      [|discriminate Hend].
    unfold ReadVarUInt64NoCheck in *.
    rewrite (@SkipVarUInt_bytes_decoded 64 ControlTypeNone buf 0
               ltac:(lia) pabyIter 0 Hpos Hok).
    apply IH; [|exact Hend].
    pose proof (@ReadVarUInt_progress 64 ControlTypeNone buf 0 ltac:(lia)
                  pabyIter 0 ltac:(lia)) as [Hle _].
    lia.
Qed.

(** X3.  SkipVarUInt passes over whole varuints: when [n] calls of
    ReadVarUInt64NoCheck in a row all succeed - none of them meets a
    varuint longer than the 10 bytes a 64-bit value takes - and leave the
    cursor at [q], a call with nIter = n leaves it at [q] too, provided the
    cursor is before the end pointer on entry, which is the only thing it
    tests; at or beyond the end pointer it fails and leaves the cursor
    alone. *)
Theorem SkipVarUInt_decodes (buf : list GByte) (pabyIter pabyEnd q : Z)
    (n : nat) :
  0 <= pabyIter ->
  varuints_end n buf pabyIter = Some q ->
  (pabyIter < pabyEnd ->
   SkipVarUInt buf pabyIter pabyEnd (Z.of_nat n)
   = {| sv_ret := true; sv_iter := q; sv_printed := false |}) /\
  (pabyEnd <= pabyIter ->
   SkipVarUInt buf pabyIter pabyEnd (Z.of_nat n)
   = {| sv_ret := false; sv_iter := pabyIter; sv_printed := true |}).
Proof.
  intros Hpos Hend. unfold SkipVarUInt. split; intros Hcmp.
  - rewrite geb_false by lia. rewrite Nat2Z.id.
    rewrite (SkipVarUInt_iter_decoded _ _ Hpos Hend). reflexivity.
  - rewrite geb_true by lia. reflexivity.
Qed.

Lemma SkipVarUInt_decodes_witness :
  SkipVarUInt (EncodeVarUInt 300 ++ EncodeVarUInt 5 ++ [x07]) 0 1 2
  = {| sv_ret := true; sv_iter := 3; sv_printed := false |}.
Proof.
  apply (@SkipVarUInt_decodes
           (EncodeVarUInt 300 ++ EncodeVarUInt 5 ++ [x07]) 0 1 3 2
           ltac:(lia) ltac:(vm_compute; reflexivity)).
  lia.
Defined.

(** With a bounds check the cursor stays at or before the end pointer. *)
Lemma ReadVarUInt_loop_within (nbits : Z) (ct : ControlType)
      (buf : list GByte) (pabyEnd : Z) (fuel : nat) :
  check_bounds ct = true ->
  forall (pabyIter nOutVal pabyLocalIter nShift nVal : Z) (reads : list Z),
    pabyIter <= pabyEnd -> pabyLocalIter <= pabyEnd ->
    vr_iter (ReadVarUInt_loop nbits ct buf pabyEnd fuel pabyIter nOutVal
               pabyLocalIter nShift nVal reads) <= pabyEnd.
Proof.
  intros Hct. induction fuel as [|fuel IH];
    intros pabyIter nOutVal pabyLocalIter nShift nVal reads Hi Hl;
    cbn [ReadVarUInt_loop].
  - cbn. exact Hi.
  - rewrite Hct. cbn [andb].
    destruct (Z.geb_spec pabyLocalIter pabyEnd); [cbn; exact Hi|].
    destruct (Z.land (wrap_unsigned nbits (byte_at buf pabyLocalIter)) 128
              =? 0); [cbn; lia|].
    destruct (nShift + 7 >=? nbits); [cbn; lia|].
    apply IH; lia.
Qed.

Lemma ReadVarUInt_within (nbits : Z) (ct : ControlType) (buf : list GByte)
      (pabyEnd pabyIter nOutVal : Z) :
  check_bounds ct = true -> pabyIter <= pabyEnd ->
  vr_iter (ReadVarUInt nbits ct buf pabyEnd pabyIter nOutVal) <= pabyEnd.
Proof.
  intros Hct Hi. unfold ReadVarUInt. rewrite Hct. cbn [andb].
  destruct (Z.geb_spec pabyIter pabyEnd); [cbn; exact Hi|].
  destruct (Z.land (wrap_unsigned nbits (byte_at buf pabyIter)) 128 =? 0);
    [cbn; lia|].
  apply ReadVarUInt_loop_within; [exact Hct|lia|lia].
Qed.

(** ** The delta decoder on arbitrary bytes *)

Section DeltaFootprint.

Variable buf : list GByte.

Lemma ReadVarIntAndAdd_loop_stops (fuel : nat) :
  forall (bNegative : bool) (nOutVal pabyLocalIter nShift nVal e : Z),
    pabyLocalIter <= e ->
    Z.land (byte_at buf e) 128 = 0 ->
    let r := ReadVarIntAndAdd_loop buf fuel bNegative nOutVal pabyLocalIter
               nShift nVal in
    pabyLocalIter <= fst r <= e + 1.
Proof.
  induction fuel as [|fuel IH];
    intros bNegative nOutVal pabyLocalIter nShift nVal e Hle He;
    cbn [ReadVarIntAndAdd_loop].
  - cbn. lia.
  - destruct (Z.eqb_spec (Z.land (byte_at buf pabyLocalIter) 128) 0)
      as [Hz|Hnz]; [cbn; lia|].
    assert (Hlt : pabyLocalIter < e).
    { destruct (Z.eq_dec pabyLocalIter e) as [->|]; [contradiction|lia]. }
    destruct (nShift + 7 >=? 64); [cbn; lia|].
    specialize (IH bNegative nOutVal (pabyLocalIter + 1) (nShift + 7)
                  (Z.lor nVal
                     (to_uint64
                        (Z.shiftl (Z.land (byte_at buf pabyLocalIter) 127)
                                  nShift))) e ltac:(lia) He).
    cbv zeta in IH. lia.
Qed.

Lemma ReadVarIntAndAddNoCheck_stops (pabyIter nOutVal e : Z) :
  pabyIter <= e ->
  Z.land (byte_at buf e) 128 = 0 ->
  pabyIter < fst (ReadVarIntAndAddNoCheck buf pabyIter nOutVal) <= e + 1.
Proof.
  intros Hle He. unfold ReadVarIntAndAddNoCheck.
  destruct (Z.eqb_spec (Z.land (byte_at buf pabyIter) 128) 0) as [Hz|Hnz];
    [cbn; lia|].
  assert (Hlt : pabyIter < e).
  { destruct (Z.eq_dec pabyIter e) as [->|]; [contradiction|lia]. }
  pose proof (@ReadVarIntAndAdd_loop_stops 10
                (negb (Z.land (byte_at buf pabyIter) 64 =? 0)) nOutVal
                (pabyIter + 1) 6 (Z.land (byte_at buf pabyIter) 63) e
                ltac:(lia) He) as H.
  cbv zeta in H. lia.
Qed.

End DeltaFootprint.

Section ArrayFootprint.

Context {double : Type} {ops : DoubleOps double}.
Variable poGeomField : FileGDBGeomField double.
Variable buf : list GByte.
Variable pabyEnd : Z.
Variable E : Z.
Hypothesis end_before_padding : pabyEnd <= E.
Hypothesis padding0 : Z.land (byte_at buf E) 128 = 0.
Hypothesis padding1 : Z.land (byte_at buf (E + 1)) 128 = 0.

Lemma ReadXYArray_loop_footprint (n : nat) :
  forall (pabyCur dx0 dy0 dxLocal dyLocal : Z)
         (out : list (double * double)),
    let r := ReadXYArray_loop poGeomField buf pabyEnd n pabyCur dx0 dy0
               dxLocal dyLocal out in
    pabyCur <= xy_cur r <= Z.max pabyCur (E + 2) /\
    (xy_ret r = true -> length (xy_set r) = (length out + n)%nat) /\
    (xy_ret r = false ->
     xy_dx r = dx0 /\ xy_dy r = dy0 /\
     (length (xy_set r) < length out + n)%nat).
Proof.
  induction n as [|n IH]; intros pabyCur dx0 dy0 dxLocal dyLocal out;
    cbn [ReadXYArray_loop].
  - cbn. split; [lia|]. split; [intros _; lia|discriminate].
  - destruct (Z.geb_spec pabyCur pabyEnd) as [Hge|Hlt].
    + cbn. split; [lia|]. split; [discriminate|intros _].
      split; [reflexivity|]. split; [reflexivity|lia].
    + destruct (ReadVarIntAndAddNoCheck buf pabyCur dxLocal)
        as [c1 dx1] eqn:E1.
      destruct (ReadVarIntAndAddNoCheck buf c1 dyLocal) as [c2 dy1] eqn:E2.
      pose proof (@ReadVarIntAndAddNoCheck_stops buf pabyCur dxLocal E
                    ltac:(lia) padding0) as H1.
      rewrite E1 in H1. cbn [fst] in H1.
      assert (H2 : c1 < c2 <= E + 2).
      { destruct (Z.le_gt_cases c1 E) as [Hle|Hgt].
        - pose proof (@ReadVarIntAndAddNoCheck_stops buf c1 dyLocal E
                        Hle padding0) as H.
          rewrite E2 in H. cbn [fst] in H. lia.
        - pose proof (@ReadVarIntAndAddNoCheck_stops buf c1 dyLocal (E + 1)
                        ltac:(lia) padding1) as H.
          rewrite E2 in H. cbn [fst] in H. lia. }
      specialize (IH c2 dx0 dy0 dx1 dy1
                    (out ++ [(double_add
                                (double_div (double_of_int64 dx1)
                                            (GetXYScale poGeomField))
                                (GetXOrigin poGeomField),
                              double_add
                                (double_div (double_of_int64 dy1)
                                            (GetXYScale poGeomField))
                                (GetYOrigin poGeomField))])).
      cbv zeta in IH. rewrite length_app in IH. cbn [length] in IH.
      destruct IH as (I1 & I2 & I3).
      split; [lia|]. split.
      * intros Hok. rewrite (I2 Hok). lia.
      * intros Hf. destruct (I3 Hf) as (Hx & Hy & Hl).
        split; [exact Hx|]. split; [exact Hy|lia].
Qed.

End ArrayFootprint.

(** X4.  ReadXYArray on arbitrary bytes: with two bytes free of the
    continuation bit at [E] and [E + 1], at or after the end pointer (the
    zeroes SelectRow keeps after the row), the cursor never passes
    [E + 2], although the two deltas of a point are read without a bounds
    check; on success every one of the nPoints points has been set; on
    failure the accumulators of the caller are left as they were and fewer
    points than asked have been set. *)
Theorem ReadXYArray_footprint
    {double : Type} {ops : DoubleOps double}
    (poGeomField : FileGDBGeomField double) (buf : list GByte)
    (pabyEnd E pabyCur nPoints dx dy : Z) :
  pabyCur <= pabyEnd -> pabyEnd <= E ->
  Z.land (byte_at buf E) 128 = 0 ->
  Z.land (byte_at buf (E + 1)) 128 = 0 ->
  pabyCur <= xy_cur (ReadXYArray poGeomField buf pabyEnd pabyCur nPoints
                                 dx dy) <= E + 2 /\
  (xy_ret (ReadXYArray poGeomField buf pabyEnd pabyCur nPoints dx dy) = true ->
   length (xy_set (ReadXYArray poGeomField buf pabyEnd pabyCur nPoints
                               dx dy)) = Z.to_nat nPoints) /\
  (xy_ret (ReadXYArray poGeomField buf pabyEnd pabyCur nPoints dx dy) = false ->
   xy_dx (ReadXYArray poGeomField buf pabyEnd pabyCur nPoints dx dy) = dx /\
   xy_dy (ReadXYArray poGeomField buf pabyEnd pabyCur nPoints dx dy) = dy /\
   (length (xy_set (ReadXYArray poGeomField buf pabyEnd pabyCur nPoints
                                dx dy)) < Z.to_nat nPoints)%nat).
Proof.
  intros Hcur Hend H0 H1. unfold ReadXYArray.
  pose proof (@ReadXYArray_loop_footprint _ _ poGeomField buf pabyEnd E
                Hend H0 H1 (Z.to_nat nPoints) pabyCur dx dy dx dy []) as H.
  cbv zeta in H. cbn [length] in H. destruct H as (A & B & C).
  split; [lia|]. split.
  - intros Hok. rewrite (B Hok). lia.
  - intros Hf. destruct (C Hf) as (Hx & Hy & Hl).
    split; [exact Hx|]. split; [exact Hy|lia].
Qed.

Lemma ReadXYArray_footprint_witness :
  xy_cur (ReadXYArray example_geom_field [x05; xff; xff; x00; x00] 2 0 3 0 0)
  <= 3 + 2 /\
  xy_dx (ReadXYArray example_geom_field [x05; xff; xff; x00; x00] 2 0 3 0 0)
  = 0.
Proof.
  destruct (@ReadXYArray_footprint _ IEEE_double example_geom_field
              [x05; xff; xff; x00; x00] 2 3 0 3 0 0
              ltac:(lia) ltac:(lia) eq_refl eq_refl) as (A & _ & C).
  split; [lia|].
  apply C. vm_compute. reflexivity.
Defined.

(** X6.  One signed delta, round trip: ReadVarIntAndAddNoCheck on the
    encoding of [d] (six bits and the sign in the first byte, then groups
    of seven bits) moves the cursor over exactly the encoding and adds [d]
    to the accumulator, modulo 2^64; the sum is exact when it fits 64
    signed bits. *)
Theorem ReadVarIntAndAdd_roundtrip (d : Z) (pre post : list GByte)
    (nOutVal : Z) :
  Z.abs d < 2 ^ 64 ->
  fst (ReadVarIntAndAddNoCheck (pre ++ EncodeVarInt d ++ post)
                               (Z.of_nat (length pre)) nOutVal)
  = Z.of_nat (length pre) + Z.of_nat (length (EncodeVarInt d)) /\
  snd (ReadVarIntAndAddNoCheck (pre ++ EncodeVarInt d ++ post)
                               (Z.of_nat (length pre)) nOutVal)
  = to_int64 (nOutVal + d) /\
  (fits_int64 (nOutVal + d) ->
   snd (ReadVarIntAndAddNoCheck (pre ++ EncodeVarInt d ++ post)
                                (Z.of_nat (length pre)) nOutVal)
   = nOutVal + d).
Proof.
  intros Hd. rewrite ReadVarIntAndAddNoCheck_encoded by exact Hd.
  cbn [fst snd]. split; [reflexivity|]. split; [reflexivity|].
  intros Hfit. apply to_int64_fits. exact Hfit.
Qed.

Lemma ReadVarIntAndAdd_roundtrip_witness :
  ReadVarIntAndAddNoCheck ([x01] ++ EncodeVarInt (-1000) ++ [x02]) 1 300
  = (3, -700).
Proof.
  destruct (@ReadVarIntAndAdd_roundtrip (-1000) [x01] [x02] 300
              ltac:(cbn; lia)) as (Hc & _ & Hv).
  specialize (Hv ltac:(unfold fits_int64; cbn; lia)).
  apply injective_projections; [exact Hc|exact Hv].
Defined.

(** ** The row cursor stays inside the row *)

Section CursorWithinRow.

Context {double date : Type} {fops : FieldValueOps double date}.
Variable buf : list GByte.
Variable pabyEnd : Z.
Hypothesis end_range : 0 <= pabyEnd < 2 ^ 31.

Lemma SkipField_within (f : FileGDBField) (iter acc : Z) :
  0 <= iter <= pabyEnd ->
  st_ok (SkipField buf pabyEnd f iter acc) = true ->
  iter <= st_iter (SkipField buf pabyEnd f iter acc) <= pabyEnd.
Proof.
  intros Hi Hok.
  split; [apply (@SkipField_progress buf pabyEnd f iter acc Hok)|].
  revert Hok. unfold SkipField.
  destruct (m_bNullable f && negb (TEST_BIT buf acc =? 0)); [cbn; lia|].
  change (2 ^ 31) with 2147483648 in end_range.
  destruct (skipped_length f) as [n|].
  - rewrite to_uint32_small by (change (2 ^ 32) with 4294967296; lia).
    destruct (Z.gtb_spec n (pabyEnd - iter)); cbn; [discriminate|lia].
  - pose proof (@ReadVarUInt_progress 32 ControlTypeVerboseErrorTrue buf
                  pabyEnd ltac:(lia) iter 0 ltac:(lia)) as [Hp _].
    pose proof (@ReadVarUInt_within 32 ControlTypeVerboseErrorTrue buf
                  pabyEnd iter 0 eq_refl ltac:(lia)) as Hw.
    fold (ReadVarUInt32 buf iter pabyEnd 0) in Hp, Hw.
    destruct (vr_ret (ReadVarUInt32 buf iter pabyEnd 0)); [|cbn; discriminate].
    rewrite to_uint32_small by (change (2 ^ 32) with 4294967296; lia).
    destruct (Z.gtb_spec (vr_out (ReadVarUInt32 buf iter pabyEnd 0))
                (pabyEnd - vr_iter (ReadVarUInt32 buf iter pabyEnd 0)));
      cbn; [discriminate|lia].
Qed.

Lemma SkipFields_within (fs : list FileGDBField) :
  forall (iter acc : Z) (evs : list Event),
    0 <= iter <= pabyEnd ->
    st_ok (SkipFields buf pabyEnd fs iter acc evs) = true ->
    iter <= st_iter (SkipFields buf pabyEnd fs iter acc evs) <= pabyEnd.
Proof.
  induction fs as [|f fs IH]; intros iter acc evs Hi Hok;
    cbn [SkipFields] in *.
  - cbn. lia.
  - destruct (st_ok (SkipField buf pabyEnd f iter acc)) eqn:Hf;
      [|discriminate Hok].
    pose proof (SkipField_within f acc Hi Hf) as Hs.
    assert (Hi' : 0 <= st_iter (SkipField buf pabyEnd f iter acc) <= pabyEnd)
      by lia.
    specialize (IH _ _ _ Hi' Hok). lia.
Qed.

End CursorWithinRow.

Section ErrorFlag.

Context {double date : Type} {fops : FieldValueOps double date}.
Variable t : TableDesc.

Lemma GetFieldValue_after_error (s : @TableState double date) (iCol : Z) :
  m_bError s = true ->
  GetFieldValue t s iCol = (None, log_events [EvPrintError] s).
Proof.
  intros H. unfold GetFieldValue. rewrite H.
  destruct (m_nCurRow s <? 0); [reflexivity|].
  destruct (to_uint32 iCol >=? Z.of_nat (length (m_apoFields t)));
    reflexivity.
Qed.

Lemma GetFieldValues_after_error (cols : list Z) :
  forall s : @TableState double date,
    m_bError s = true ->
    GetFieldValues t s cols
    = (repeat None (length cols),
       log_events (repeat EvPrintError (length cols)) s).
Proof.
  induction cols as [|c cols IH]; intros s Hs; cbn [GetFieldValues].
  - cbn [length repeat]. unfold log_events. rewrite app_nil_r.
    destruct s; reflexivity.
  - rewrite GetFieldValue_after_error by exact Hs.
    rewrite IH by exact Hs. cbn [length repeat].
    f_equal. unfold log_events. state_simpl.
    rewrite <- app_assoc. reflexivity.
Qed.

End ErrorFlag.

(** X7.  A decoding error is sticky.  Once the error flag is set, every
    GetFieldValue call on the row, for whatever column, returns null and
    changes nothing but the error log: the cursor, the last column, the row
    buffer and the saved byte stay as the failed call left them (until
    SelectRow loads a row). *)
Theorem GetFieldValue_error_sticky
    {double date : Type} {fops : FieldValueOps double date}
    (t : TableDesc) (s : @TableState double date) (cols : list Z) :
  m_bError s = true ->
  fst (GetFieldValues t s cols) = repeat None (length cols) /\
  m_bError (snd (GetFieldValues t s cols)) = true /\
  m_nCurRow (snd (GetFieldValues t s cols)) = m_nCurRow s /\
  m_nLastCol (snd (GetFieldValues t s cols)) = m_nLastCol s /\
  m_pabyIterVals (snd (GetFieldValues t s cols)) = m_pabyIterVals s /\
  m_iAccNullable (snd (GetFieldValues t s cols)) = m_iAccNullable s /\
  m_abyBuffer (snd (GetFieldValues t s cols)) = m_abyBuffer s /\
  m_nChSaved (snd (GetFieldValues t s cols)) = m_nChSaved s /\
  m_events (snd (GetFieldValues t s cols))
  = m_events s ++ repeat EvPrintError (length cols).
Proof.
  intros H. rewrite GetFieldValues_after_error by exact H.
  cbn [fst snd]. state_simpl. rewrite H. repeat split; reflexivity.
Qed.

(** The row of [example_int_null_table] announces a string that is not
    there: reading column 1 fails; column 0, which decodes on a fresh
    selection, is then refused too. *)
Lemma GetFieldValue_error_sticky_witness :
  fst (GetFieldValue (example_int_null_table x00)
         (example_selected (example_int_null_table x00)) 0)
  = Some (OF_Integer 42) /\
  fst (GetFieldValues (example_int_null_table x00)
         (snd (GetFieldValue (example_int_null_table x00)
                 (example_selected (example_int_null_table x00)) 1))
         [0; 1])
  = [None; None].
Proof.
  split; [vm_compute; reflexivity|].
  exact (proj1 (@GetFieldValue_error_sticky _ _ _
                  (example_int_null_table x00)
                  (snd (GetFieldValue (example_int_null_table x00)
                          (example_selected (example_int_null_table x00)) 1))
                  [0; 1] ltac:(vm_compute; reflexivity))).
Defined.

Section CursorInvariant.

Context {double date : Type} {fops : FieldValueOps double date}.
Variable t : TableDesc.
Variable B : list GByte.
Variable nLen : Z.
Hypothesis nLen_range : 0 <= nLen < 2 ^ 31.
Hypothesis few_fields : Z.of_nat (length (m_apoFields t)) <= 65535.

Lemma walk_within (c : Z) :
  m_nNullableFieldsSizeInBytes t <= nLen ->
  st_ok (walk t B nLen c) = true ->
  m_nNullableFieldsSizeInBytes t <= st_iter (walk t B nLen c) <= nLen.
Proof.
  intros Hnull Hok. unfold walk in *.
  pose proof (nullable_size_bounds t few_fields) as Hnb.
  apply (@SkipFields_within B nLen nLen_range); [lia|exact Hok].
Qed.

Lemma GetFieldValues_consistent_unless_error (cols : list Z) :
  forall s : @TableState double date,
    cursor_consistent t B nLen s -> Forall (valid_column t) cols ->
    m_bError (snd (GetFieldValues t s cols)) = false ->
    cursor_consistent t B nLen (snd (GetFieldValues t s cols)).
Proof.
  induction cols as [|c cols IH]; intros s Hs Hcols Herr;
    cbn [GetFieldValues] in *.
  - exact Hs.
  - apply Forall_cons_iff in Hcols. destruct Hcols as [Hc Hcols].
    pose proof (GetFieldValue_consistent nLen_range few_fields Hs Hc) as H.
    cbv zeta in H.
    destruct (GetFieldValue t s c) as [v s1] eqn:E1. cbn [fst snd] in H.
    destruct H as (_ & Hflag & Hnext).
    destruct (GetFieldValues t s1 cols) as [vs s2] eqn:E2.
    cbn [snd] in *.
    destruct (cr_ok (column_result t B nLen c (m_sCurField s))) eqn:Hok.
    + destruct (Hnext eq_refl) as (Hs1 & _).
      specialize (IH s1 Hs1 Hcols). rewrite E2 in IH. cbn [snd] in IH.
      apply IH. exact Herr.
    + cbn [negb] in Hflag.
      pose proof (GetFieldValues_after_error t cols s1 Hflag) as Hst.
      rewrite E2 in Hst. injection Hst as _ Hs2.
      rewrite Hs2 in Herr. state_simpl_in Herr. congruence.
Qed.

End CursorInvariant.

(** X8.  The cursor never leaves the row.  On a freshly selected row whose
    length covers the nullable bitmask (what SelectRow checks for a row
    that is not empty), after any sequence of GetFieldValue calls that has
    not raised the error flag the cursor lies between the end of the
    bitmask and the end of the row; so does the byte that a string or a
    blob overwrites with NUL, which is the one under the cursor. *)
Theorem GetFieldValue_cursor_within_row
    {double date : Type} {fops : FieldValueOps double date}
    (t : TableDesc) (s0 : @TableState double date) (cols : list Z) :
  Z.of_nat (length (m_apoFields t)) <= 65535 ->
  fresh_selection t s0 ->
  m_nNullableFieldsSizeInBytes t <= m_nRowBlobLength s0 ->
  Forall (valid_column t) cols ->
  m_bError (snd (GetFieldValues t s0 cols)) = false ->
  m_nNullableFieldsSizeInBytes t
  <= m_pabyIterVals (snd (GetFieldValues t s0 cols))
  <= m_nRowBlobLength s0 /\
  m_nRowBlobLength (snd (GetFieldValues t s0 cols)) = m_nRowBlobLength s0 /\
  (0 <= m_nChSaved (snd (GetFieldValues t s0 cols)) ->
   store_at (m_abyBuffer (snd (GetFieldValues t s0 cols)))
            (m_pabyIterVals (snd (GetFieldValues t s0 cols)))
            (byte_of_Z (m_nChSaved (snd (GetFieldValues t s0 cols))))
   = m_abyBuffer s0).
Proof.
  intros Hfew Hfresh Hnull Hcols Herr.
  assert (Hlen : 0 <= m_nRowBlobLength s0 < 2 ^ 31)
    by (destruct Hfresh as (_ & _ & _ & _ & _ & _ & H); exact H).
  pose proof (fresh_selection_consistent Hfew Hfresh eq_refl eq_refl) as H0.
  pose proof (GetFieldValues_consistent_unless_error Hlen Hfew
                H0 Hcols Herr) as Hs.
  destruct Hs as (_ & _ & HL & Hbuf & Hlast & Hwok & Hwi & _ & Hch & _).
  pose proof (@walk_within t _ _ Hlen Hfew _ Hnull Hwok) as Hw.
  rewrite Hwi in Hw. split; [exact Hw|]. split; [exact HL|].
  intros Hsaved. unfold restored_buffer in Hbuf.
  rewrite geb_true in Hbuf by lia. exact Hbuf.
Qed.

Lemma GetFieldValue_cursor_within_row_witness :
  1 <= m_pabyIterVals
         (snd (GetFieldValues (example_int_string_table x00)
                 (example_selected (example_int_string_table x00))
                 [1; 0; 1]))
    <= 7.
Proof.
  destruct (@GetFieldValue_cursor_within_row _ _ _
              (example_int_string_table x00)
              (example_selected (example_int_string_table x00)) [1; 0; 1])
    as (H & _).
  - cbn. lia.
  - exact example_int_string_fresh.
  - vm_compute. discriminate.
  - repeat constructor; cbn; lia.
  - vm_compute. reflexivity.
  - exact H.
Defined.

(** ** What a successful SelectRow leaves *)

Lemma GetUIntLE_range (buf : list GByte) (n : nat) :
  forall p : Z, 0 <= GetUIntLE buf p n < 256 ^ Z.of_nat n.
Proof.
  induction n as [|n IH]; intros p; cbn [GetUIntLE].
  - cbn. lia.
  - pose proof (byte_at_range buf p). specialize (IH (p + 1)).
    rewrite Nat2Z.inj_succ, Z.pow_succ_r by lia. lia.
Qed.

Lemma length_store_nat (buf : list GByte) (v : GByte) :
  forall n : nat, length (store_nat buf n v) = length buf.
Proof.
  induction buf as [|b buf IH]; intros [|n]; cbn; try reflexivity.
  rewrite IH. reflexivity.
Qed.

Lemma length_store_at (buf : list GByte) (p : Z) (v : GByte) :
  length (store_at buf p v) = length buf.
Proof.
  unfold store_at. destruct (p <? 0); [reflexivity|apply length_store_nat].
Qed.

Lemma nth_store_nat (buf : list GByte) (v : GByte) :
  forall n k : nat,
    nth k (store_nat buf n v) x00
    = if (Nat.eqb k n && Nat.ltb n (length buf))%bool then v
      else nth k buf x00.
Proof.
  induction buf as [|b buf IH]; intros n k.
  - destruct n, k; cbn [store_nat nth length];
      rewrite ?andb_false_r; try reflexivity;
      destruct (Nat.eqb _ _); reflexivity.
  - destruct n as [|n], k as [|k]; cbn [store_nat nth length];
      try reflexivity.
    rewrite IH. reflexivity.
Qed.

Lemma byte_at_store_at (buf : list GByte) (p q : Z) (v : GByte) :
  byte_at (store_at buf p v) q
  = if (q =? p) && (0 <=? p) && (p <? Z.of_nat (length buf))
    then Z_of_byte v else byte_at buf q.
Proof.
  unfold store_at, byte_at.
  destruct (Z.ltb_spec p 0) as [Hp|Hp].
  - destruct (Z.leb_spec 0 p); [lia|]. rewrite andb_false_r. reflexivity.
  - destruct (Z.ltb_spec q 0) as [Hq|Hq].
    + destruct (Z.eqb_spec q p); [lia|]. reflexivity.
    + rewrite nth_store_nat.
      destruct (Z.eqb_spec q p) as [->|Hne].
      * rewrite Nat.eqb_refl. cbn [andb].
        destruct (Z.leb_spec 0 p); [|lia]. cbn [andb].
        destruct (Nat.ltb_spec (Z.to_nat p) (length buf));
          destruct (Z.ltb_spec p (Z.of_nat (length buf)));
          try lia; reflexivity.
      * destruct (Nat.eqb_spec (Z.to_nat q) (Z.to_nat p)); [lia|].
        reflexivity.
Qed.

Lemma length_blit (data buf : list GByte) :
  (length buf <= length (blit data buf))%nat.
Proof.
  unfold blit. rewrite length_app, length_skipn. lia.
Qed.

Lemma byte_at_blit (data buf : list GByte) (i : Z) :
  0 <= i < Z.of_nat (length data) ->
  byte_at (blit data buf) i = byte_at data i.
Proof.
  intros Hi. unfold blit, byte_at.
  destruct (Z.ltb_spec i 0); [lia|]. rewrite app_nth1 by lia. reflexivity.
Qed.

Lemma length_resize_buffer (buf : list GByte) (n : Z) :
  Z.of_nat (length buf) < n ->
  Z.of_nat (length (resize_buffer buf n)) = n.
Proof.
  intros H. unfold resize_buffer. rewrite length_app, repeat_length. lia.
Qed.

(** The row buffer after the four stores of zeroes behind the row. *)
Lemma zero_padding (buf : list GByte) (L : Z) :
  0 <= L -> L + 4 <= Z.of_nat (length buf) ->
  let buf' := store_at (store_at (store_at (store_at buf L x00)
                                           (L + 1) x00)
                                 (L + 2) x00)
                       (L + 3) x00 in
  length buf' = length buf /\
  (forall i, L <= i < L + 4 -> byte_at buf' i = 0) /\
  (forall i, i < L -> byte_at buf' i = byte_at buf i).
Proof.
  intros HL Hlen. cbv zeta. split; [rewrite !length_store_at; reflexivity|].
  split; intros i Hi; rewrite !byte_at_store_at, !length_store_at.
  - destruct (Z.eqb_spec i (L + 3)); destruct (Z.eqb_spec i (L + 2));
      destruct (Z.eqb_spec i (L + 1)); destruct (Z.eqb_spec i L);
      try lia;
      repeat match goal with
             | |- context [?a <=? ?b] => destruct (Z.leb_spec a b); try lia
             | |- context [?a <? ?b] => destruct (Z.ltb_spec a b); try lia
             end; reflexivity.
  - destruct (Z.eqb_spec i (L + 3)); destruct (Z.eqb_spec i (L + 2));
      destruct (Z.eqb_spec i (L + 1)); destruct (Z.eqb_spec i L);
      try lia; reflexivity.
Qed.

Section SelectRowSuccess.

Context {double date : Type} {fops : FieldValueOps double date}.
Variable t : TableDesc.
Variable env : Environment.
Hypothesis few_fields : Z.of_nat (length (m_apoFields t)) <= 65535.

Lemma SelectRow_load_row (s s' : @TableState double date)
      (iRow nOffsetTable : Z) :
  SelectRow_load t env s iRow nOffsetTable = (true, s') ->
  exists hdr : list GByte,
    vsi_read (m_fpTable t) nOffsetTable 4 = Some hdr /\
    m_nRowBlobLength s'
    = (if m_bIsDeleted s then to_uint32 (- to_int32 (GetUInt32 hdr 0))
       else GetUInt32 hdr 0) /\
    0 <= m_nRowBlobLength s' /\
    (m_nRowBlobLength s' = 0 -> m_abyBuffer s' = m_abyBuffer s) /\
    (0 < m_nRowBlobLength s' ->
     m_nNullableFieldsSizeInBytes t <= m_nRowBlobLength s' <= INT_MAX - 4 /\
     exists data : list GByte,
       vsi_read (m_fpTable t) (nOffsetTable + 4) (m_nRowBlobLength s')
       = Some data /\
       m_nRowBlobLength s' + 4 <= Z.of_nat (length (m_abyBuffer s')) /\
       (forall i, m_nRowBlobLength s' <= i < m_nRowBlobLength s' + 4 ->
                  byte_at (m_abyBuffer s') i = 0) /\
       (forall i, 0 <= i < m_nRowBlobLength s' ->
                  i < Z.of_nat (length data) ->
                  byte_at (m_abyBuffer s') i = byte_at data i)).
Proof.
  pose proof (nullable_size_bounds t few_fields) as Hnb.
  unfold SelectRow_load, fail_row.
  destruct (vsi_read (m_fpTable t) nOffsetTable 4) as [hdr|];
    [|discriminate].
  set (L := if m_bIsDeleted (log_events [EvRead GDBTABLE nOffsetTable 4] s)
            then to_uint32 (- to_int32 (GetUInt32 hdr 0))
            else GetUInt32 hdr 0).
  assert (HL0 : 0 <= L).
  { subst L. destruct (m_bIsDeleted _).
    - unfold to_uint32, wrap_unsigned. apply Z.mod_pos_bound. cbn. lia.
    - apply (GetUIntLE_range hdr 4 0). }
  assert (HLs : (if m_bIsDeleted s
                 then to_uint32 (- to_int32 (GetUInt32 hdr 0))
                 else GetUInt32 hdr 0) = L) by reflexivity.
  intros Hres. exists hdr. split; [reflexivity|]. rewrite HLs.
  revert Hres. clear HLs. clearbody L. cbv zeta.
  destruct (Z.gtb_spec L 0) as [Hpos|Hzero].
  2:{ intros H. injection H as <-. state_simpl.
      split; [reflexivity|]. split; [exact HL0|].
      split; [reflexivity|]. lia. }
  rewrite to_uint32_small by (change (2 ^ 32) with 4294967296; lia).
  unfold ZEROES_AFTER_END_OF_BUFFER.
  destruct (Z.ltb_spec L (m_nNullableFieldsSizeInBytes t)); cbn [orb];
    [discriminate|].
  destruct (Z.gtb_spec L (INT_MAX - 4)); [discriminate|].
  repeat (state_simpl;
          match goal with
          | |- context [if ?c then _ else _] => destruct c eqn:?
          | |- context [match ?x with Some _ => _ | None => _ end] =>
              destruct x eqn:?
          end);
    state_simpl; intros Hres; try discriminate Hres; injection Hres as <-;
    state_simpl;
    repeat match goal with
           | Hc : _ |- _ => progress state_simpl_in Hc
           end;
    (split; [reflexivity|]);
    (split; [exact HL0|]); (split; [lia|]); intros _;
    (split; [lia|]);
    match goal with
    | Hd : vsi_read _ (nOffsetTable + 4) _ = Some ?data |- _ =>
        exists data; split; [exact Hd|]
    end;
    match goal with
    | |- context [blit ?data ?X] =>
        assert (HX : L + 4 <= Z.of_nat (length (blit data X)));
        [ pose proof (length_blit data X);
          repeat match goal with
                 | Hc : (_ <? _) = true |- _ => apply Z.ltb_lt in Hc
                 | Hc : (_ <? _) = false |- _ => apply Z.ltb_ge in Hc
                 end;
          try (assert (Z.of_nat (length X) = L + 4)
                by (apply length_resize_buffer; lia));
          lia
        | destruct (zero_padding (blit data X) HL0 HX) as (Z1 & Z2 & Z3);
          split; [rewrite Z1; exact HX|];
          split; [exact Z2|];
          intros i Hi Hdata; rewrite Z3 by lia;
          apply byte_at_blit; lia ]
    end.
Qed.

End SelectRowSuccess.

(** X9.  A SelectRow that succeeds on a row other than the current one
    leaves a fresh selection: the cursor behind the nullable bitmask,
    nothing decoded, no error, no byte saved, the row length the one
    declared in the table file.  When that length is not zero it covers the
    bitmask and is at most INT_MAX - 4, the buffer holds the bytes read
    from the table file at 4 bytes behind the offset that
    GetOffsetInTableForRow resolves for the row, and the four bytes behind
    the row are zero and inside the buffer.  When the length is zero the
    buffer is left as it was. *)
Theorem SelectRow_success_fresh
    {double date : Type} {fops : FieldValueOps double date}
    (t : TableDesc) (env : Environment)
    (s s' : @TableState double date) (iRow : Z) :
  Z.of_nat (length (m_apoFields t)) <= 65535 ->
  m_nCurRow s <> iRow ->
  SelectRow t env s iRow = (true, s') ->
  m_nCurRow s' = iRow /\
  fresh_selection t s' /\
  declared_row_length t s iRow = Some (m_nRowBlobLength s') /\
  (m_nRowBlobLength s' = 0 -> m_abyBuffer s' = m_abyBuffer s) /\
  (0 < m_nRowBlobLength s' ->
   m_nNullableFieldsSizeInBytes t <= m_nRowBlobLength s' <= INT_MAX - 4 /\
   m_nRowBlobLength s' + 4 <= Z.of_nat (length (m_abyBuffer s')) /\
   (forall i, m_nRowBlobLength s' <= i < m_nRowBlobLength s' + 4 ->
              byte_at (m_abyBuffer s') i = 0) /\
   exists data : list GByte,
     vsi_read (m_fpTable t)
              (fst (fst (GetOffsetInTableForRow t s iRow)) + 4)
              (m_nRowBlobLength s')
     = Some data /\
     forall i, 0 <= i < m_nRowBlobLength s' ->
               i < Z.of_nat (length data) ->
               byte_at (m_abyBuffer s') i = byte_at data i).
Proof.
  intros Hfew Hcur Hok. unfold SelectRow, declared_row_length in *.
  destruct ((iRow <? 0) || (iRow >=? m_nTotalRecordCount t)) eqn:Hrange;
    [discriminate Hok|].
  apply orb_false_iff in Hrange. destruct Hrange as [Hlo _].
  apply Z.ltb_ge in Hlo.
  destruct (Z.eqb_spec (m_nCurRow s) iRow) as [Heq|_]; [contradiction|].
  pose proof (GetOffsetInTableForRow_frame t s iRow) as [Hframe _].
  destruct (GetOffsetInTableForRow t s iRow) as [[nOffsetTable x] s1].
  cbn [fst snd] in Hframe |- *.
  destruct (nOffsetTable =? 0); [discriminate Hok|].
  pose proof (SelectRow_load_success _ _ _ _ _ Hok)
    as (C1 & C2 & C3 & C4 & C5 & C6).
  destruct (@SelectRow_load_row _ _ t env Hfew _ _ _ _ Hok)
    as (hdr & Hhdr & HL & HL0 & Hzero & Hrow).
  rewrite Hhdr.
  split; [exact C1|]. split.
  - unfold fresh_selection.
    repeat (split; [first [assumption | lia]|]).
    destruct (Z.eq_dec (m_nRowBlobLength s') 0) as [->|Hnz]; [cbn; lia|].
    destruct (Hrow ltac:(lia)) as [[_ Hmax] _].
    unfold INT_MAX in Hmax. change (2 ^ 31) with 2147483648. lia.
  - split; [rewrite HL; reflexivity|].
    split; [intros H0; rewrite (Hzero H0); exact Hframe|].
    intros Hpos.
    destruct (Hrow Hpos) as (Hb & data & Hd & Hlen & Hz & Hp).
    split; [exact Hb|]. split; [exact Hlen|]. split; [exact Hz|].
    exists data. split; [exact Hd|exact Hp].
Qed.

Lemma SelectRow_success_fresh_witness :
  fresh_selection (example_int_string_table x00)
                  (example_selected (example_int_string_table x00)) /\
  m_nRowBlobLength (example_selected (example_int_string_table x00)) = 7 /\
  byte_at (m_abyBuffer (example_selected (example_int_string_table x00))) 10
  = 0.
Proof.
  destruct (@SelectRow_success_fresh _ _ uninterpreted_floats
              (example_int_string_table x00) example_env
              (initial_state [])
              (example_selected (example_int_string_table x00)) 0)
    as (_ & Hf & Hd & _ & Hrow).
  - cbn. lia.
  - cbn. lia.
  - vm_compute. reflexivity.
  - assert (HL : m_nRowBlobLength
                   (example_selected (example_int_string_table x00)) = 7)
      by (vm_compute; reflexivity).
    split; [exact Hf|]. split; [exact HL|].
    rewrite HL in Hrow.
    destruct (Hrow ltac:(lia)) as (_ & _ & Hz & _).
    apply Hz. lia.
Defined.

(** ** Offsets found by the recovery scan *)

Lemma shiftl_1_63 : Z.shiftl 1 63 = 2 ^ 63.
Proof. reflexivity. Qed.

Lemma MARK_DELETED_spec (x : Z) :
  0 <= x < 2 ^ 63 ->
  MARK_DELETED x = x + 2 ^ 63 /\
  IS_DELETED (MARK_DELETED x) = true /\
  GET_OFFSET (MARK_DELETED x) = x /\
  IS_DELETED x = false /\
  GET_OFFSET x = x.
Proof.
  intros Hx.
  assert (Hm : MARK_DELETED x = x + 2 ^ 63).
  { unfold MARK_DELETED. rewrite lor_shiftl_add by lia. lia. }
  assert (Hbit : forall y,
            Z.land y (Z.shiftl 1 63)
            = if Z.odd (y / 2 ^ 63) then 2 ^ 63 else 0).
  { intros y. rewrite shiftl_1_63, land_pow2_testbit by lia.
    rewrite testbit_div by lia. reflexivity. }
  assert (Hq1 : (x + 2 ^ 63) / 2 ^ 63 = 1)
    by (symmetry; apply Z.div_unique with x; lia).
  assert (Hq0 : x / 2 ^ 63 = 0) by (apply Z.div_small; lia).
  split; [exact Hm|]. unfold IS_DELETED, GET_OFFSET.
  rewrite Hm, !Hbit, Hq1, Hq0.
  rewrite !Z.land_ones by lia.
  change (Z.odd 1) with true. change (Z.odd 0) with false.
  cbv iota.
  repeat split; try reflexivity.
  - symmetry. apply Z.mod_unique with 1; lia.
  - apply Z.mod_small. lia.
Qed.

Section ScanEntries.

Variable IsLikelyFeatureAtOffset : Z -> option (Z * bool).
Variable IS_VALID_LAYER_GEOM_TYPE : Z -> bool.
Variable fpTable : VSILFILE.
Variable bReportDeletedFeatures : bool.
Variable m_nFieldDescLength : Z.
Variable m_nOffsetFieldDesc : Z.

(** Every record met is inside the file, at an offset where
    IsLikelyFeatureAtOffset answered with its size and deleted flag. *)
Lemma accepted_records_in_file (nFileSize : Z) (fuel : nat) :
  forall nOffset : Z,
    0 <= nOffset ->
    Forall (fun rec : ScannedRecord =>
              0 <= fst (fst rec) < nFileSize /\
              IsLikelyFeatureAtOffset (fst (fst rec))
              = Some (snd (fst rec), snd rec))
           (accepted_records IsLikelyFeatureAtOffset fuel nFileSize nOffset).
Proof.
  induction fuel as [|fuel IH]; intros nOffset Hpos;
    cbn [accepted_records]; [constructor|].
  destruct (Z.ltb_spec nOffset nFileSize) as [Hlt|Hge]; [|constructor].
  destruct (IsLikelyFeatureAtOffset nOffset) as [[nSize bDeleted]|]
    eqn:Hlikely.
  - constructor.
    + cbn [fst snd]. split; [lia|exact Hlikely].
    + apply IH. unfold to_uint64, wrap_unsigned.
      apply Z.mod_pos_bound. cbn. lia.
  - apply IH. lia.
Qed.

Lemma Guess_start_nonneg (nOffset : Z) :
  Guess_start IS_VALID_LAYER_GEOM_TYPE fpTable m_nFieldDescLength
              m_nOffsetFieldDesc = Some nOffset ->
  0 <= nOffset.
Proof.
  unfold Guess_start. destruct (negb (m_nOffsetFieldDesc =? 40)).
  - destruct (vsi_read fpTable 40 14) as [abyBuffer|]; [|discriminate].
    cbv zeta.
    match goal with
    | |- context [if ?c then _ else _] => destruct c eqn:Hc
    end; intros H;
      [assert (Ho : 40 + - GetInt32 abyBuffer 0 = nOffset) by congruence
      |assert (Ho : 40 = nOffset) by congruence]; clear H; [|lia].
    repeat (apply andb_true_iff in Hc; destruct Hc as [Hc ?]).
    apply Z.ltb_lt in Hc. lia.
  - intros H. assert (Ho : to_uint64 (40 + m_nFieldDescLength) = nOffset)
      by congruence.
    rewrite <- Ho. unfold to_uint64, wrap_unsigned.
    apply Z.mod_pos_bound. cbn. lia.
Qed.

Lemma scanned_records_in_file :
  Forall (fun rec : ScannedRecord =>
            0 <= fst (fst rec) < vsi_size fpTable /\
            IsLikelyFeatureAtOffset (fst (fst rec))
            = Some (snd (fst rec), snd rec))
         (scanned_records IsLikelyFeatureAtOffset IS_VALID_LAYER_GEOM_TYPE
            fpTable m_nFieldDescLength m_nOffsetFieldDesc).
Proof.
  unfold scanned_records.
  destruct (Guess_start IS_VALID_LAYER_GEOM_TYPE fpTable m_nFieldDescLength
                        m_nOffsetFieldDesc) as [nOffset|] eqn:Hstart;
    [|constructor].
  apply accepted_records_in_file. exact (Guess_start_nonneg Hstart).
Qed.

(** The rows of a scan started on an empty table are its records. *)
Lemma GuessFeatureLocations_rows (nValidRecordCount : Z) :
  let r := GuessFeatureLocations IsLikelyFeatureAtOffset
             IS_VALID_LAYER_GEOM_TYPE fpTable bReportDeletedFeatures
             m_nFieldDescLength m_nOffsetFieldDesc [] false
             nValidRecordCount in
  let recs := scanned_records IsLikelyFeatureAtOffset
                IS_VALID_LAYER_GEOM_TYPE fpTable m_nFieldDescLength
                m_nOffsetFieldDesc in
  gr_offsets r
  = map (fun rec : ScannedRecord =>
           if record_hidden bReportDeletedFeatures rec then 0
           else if snd rec then MARK_DELETED (fst (fst rec))
                else fst (fst rec)) recs /\
  gr_total r = Z.of_nat (length recs).
Proof.
  intros r recs.
  destruct (Guess_start IS_VALID_LAYER_GEOM_TYPE fpTable m_nFieldDescLength
                        m_nOffsetFieldDesc) as [nOffset|] eqn:Hstart.
  - destruct (@GuessFeatureLocations_records IsLikelyFeatureAtOffset
                IS_VALID_LAYER_GEOM_TYPE fpTable bReportDeletedFeatures
                m_nFieldDescLength m_nOffsetFieldDesc [] false
                nValidRecordCount nOffset Hstart) as (Hoff & Htot & _).
    fold r in Hoff, Htot. fold recs in Hoff, Htot.
    cbn [app length] in Hoff, Htot. split; [exact Hoff|lia].
  - subst r recs. unfold GuessFeatureLocations, scanned_records.
    rewrite Hstart. split; reflexivity.
Qed.

End ScanEntries.

(** X10.  Rows of a table opened without its .gdbtablx are the records the
    recovery scan met, in the order of the file: there are as many rows as
    records, and row [i] is the record number [i], which lies inside the
    table file at an offset where IsLikelyFeatureAtOffset accepted it.
    GetOffsetInTableForRow returns that offset, without the mark bit of
    MARK_DELETED, and sets m_bIsDeleted when the record is a deleted one
    that is reported; it returns 0 and clears m_bIsDeleted when the record
    is a deleted one that is not reported (table file of at most 2^63
    bytes). *)
Theorem scan_offsets_resolve
    {double date : Type}
    (IsLikelyFeatureAtOffset : Z -> option (Z * bool))
    (IS_VALID_LAYER_GEOM_TYPE : Z -> bool) (fpTable : VSILFILE)
    (bReportDeletedFeatures : bool)
    (m_nFieldDescLength m_nOffsetFieldDesc nValidRecordCount : Z)
    (t : TableDesc) (s : @TableState double date) (iRow : Z) :
  vsi_size fpTable <= 2 ^ 63 ->
  m_fpTableX t = None ->
  m_anFeatureOffsets t
  = gr_offsets (GuessFeatureLocations IsLikelyFeatureAtOffset
                  IS_VALID_LAYER_GEOM_TYPE fpTable bReportDeletedFeatures
                  m_nFieldDescLength m_nOffsetFieldDesc [] false
                  nValidRecordCount) ->
  m_nTotalRecordCount t
  = gr_total (GuessFeatureLocations IsLikelyFeatureAtOffset
                IS_VALID_LAYER_GEOM_TYPE fpTable bReportDeletedFeatures
                m_nFieldDescLength m_nOffsetFieldDesc [] false
                nValidRecordCount) ->
  0 <= iRow < m_nTotalRecordCount t ->
  m_nTotalRecordCount t
  = Z.of_nat (length (scanned_records IsLikelyFeatureAtOffset
                        IS_VALID_LAYER_GEOM_TYPE fpTable m_nFieldDescLength
                        m_nOffsetFieldDesc)) /\
  exists (o nSize : Z) (bDeleted : bool),
    nth_error (scanned_records IsLikelyFeatureAtOffset
                 IS_VALID_LAYER_GEOM_TYPE fpTable m_nFieldDescLength
                 m_nOffsetFieldDesc) (Z.to_nat iRow)
    = Some (o, nSize, bDeleted) /\
    0 <= o < vsi_size fpTable /\
    IsLikelyFeatureAtOffset o = Some (nSize, bDeleted) /\
    fst (fst (GetOffsetInTableForRow t s iRow))
    = (if bDeleted && negb bReportDeletedFeatures then 0 else o) /\
    m_bIsDeleted (snd (GetOffsetInTableForRow t s iRow))
    = bDeleted && bReportDeletedFeatures.
Proof.
  intros Hsize Hx Hoffsets Htotal Hrow.
  destruct (GuessFeatureLocations_rows IsLikelyFeatureAtOffset
              IS_VALID_LAYER_GEOM_TYPE fpTable bReportDeletedFeatures
              m_nFieldDescLength m_nOffsetFieldDesc nValidRecordCount)
    as [Hoff Htot].
  cbv zeta in Hoff, Htot. rewrite <- Hoffsets in Hoff.
  rewrite <- Htotal in Htot.
  pose proof (scanned_records_in_file IsLikelyFeatureAtOffset
                IS_VALID_LAYER_GEOM_TYPE fpTable m_nFieldDescLength
                m_nOffsetFieldDesc) as Hall.
  set (recs := scanned_records IsLikelyFeatureAtOffset
                 IS_VALID_LAYER_GEOM_TYPE fpTable m_nFieldDescLength
                 m_nOffsetFieldDesc) in *.
  split; [exact Htot|].
  destruct (nth_error recs (Z.to_nat iRow)) as [[[o nSize] bDeleted]|]
    eqn:Hnth.
  2:{ apply nth_error_None in Hnth. lia. }
  exists o, nSize, bDeleted. split; [reflexivity|].
  rewrite Forall_forall in Hall.
  destruct (Hall _ (nth_error_In _ _ Hnth)) as [Hin Hlikely].
  cbn [fst snd] in Hin, Hlikely.
  split; [exact Hin|]. split; [exact Hlikely|].
  unfold GetOffsetInTableForRow.
  destruct (Z.ltb_spec iRow 0); [lia|].
  destruct (Z.geb_spec iRow (m_nTotalRecordCount t)); [lia|].
  cbn [orb]. rewrite Hx. cbn [fst snd]. state_simpl.
  rewrite Hoff.
  rewrite (nth_error_nth _ _ _ (map_nth_error _ _ _ Hnth)).
  unfold record_hidden. cbn [fst snd].
  assert (Ho63 : 0 <= o < 2 ^ 63) by lia.
  destruct (MARK_DELETED_spec Ho63) as (_ & D1 & D2 & D3 & D4).
  assert (Hz63 : 0 <= 0 < 2 ^ 63) by (split; [lia|reflexivity]).
  destruct (MARK_DELETED_spec Hz63) as (_ & _ & _ & Z3 & Z4).
  destruct bDeleted, bReportDeletedFeatures; cbn [andb negb];
    rewrite ?D1, ?D2, ?D3, ?D4, ?Z3, ?Z4; split; reflexivity.
Qed.

(** The scan of a file with a deleted record at offset 44 and a record at
    offset 54, deleted records being reported: row 0 is the deleted
    record. *)
Lemma scan_offsets_resolve_witness :
  nth_error (scanned_records scan_deleted_then_record (fun _ => true)
               (file_of_bytes (repeat x00 64)) 4 40) 0
  = Some (44, 10, true) /\
  fst (fst (GetOffsetInTableForRow example_scanned_table
              (@initial_state Z (Z * Z) []) 0)) = 44 /\
  m_bIsDeleted (snd (GetOffsetInTableForRow example_scanned_table
                       (@initial_state Z (Z * Z) []) 0)) = true.
Proof.
  destruct (@scan_offsets_resolve Z (Z * Z) scan_deleted_then_record
              (fun _ => true) (file_of_bytes (repeat x00 64)) true 4 40 1
              example_scanned_table (initial_state []) 0)
    as (_ & o & nSize & bDeleted & Hnth & _ & _ & Hoff & Hdel).
  - cbn. lia.
  - reflexivity.
  - vm_compute. reflexivity.
  - vm_compute. reflexivity.
  - cbn. lia.
  - assert (Hrec : nth_error (scanned_records scan_deleted_then_record
                                (fun _ => true)
                                (file_of_bytes (repeat x00 64)) 4 40) 0
                   = Some (44, 10, true)) by (vm_compute; reflexivity).
    change (Z.to_nat 0) with 0%nat in Hnth.
    rewrite Hrec in Hnth.
    assert (Eo : o = 44) by congruence.
    assert (Ed : bDeleted = true) by congruence.
    subst o bDeleted. cbn [andb negb] in Hoff, Hdel.
    split; [exact Hrec|]. split; [exact Hoff|exact Hdel].
Defined.

(** ** GetAndSelectNextNonEmptyRow *)

Section NextRowFacts.

Context {double date : Type}.
Variable t : TableDesc.
Variable env : Environment.

Lemma next_block_spec (fuel : nat) :
  forall nBlocks iBlock : Z,
    nBlocks - iBlock <= Z.of_nat fuel -> (1 <= fuel)%nat ->
    let r := next_block t fuel nBlocks iBlock in
    iBlock < r <= Z.max (iBlock + 1) nBlocks /\
    (forall k, iBlock < k < r ->
               TEST_BIT (m_abyTablXBlockMap t) k = 0) /\
    (nBlocks <= r \/ TEST_BIT (m_abyTablXBlockMap t) r <> 0).
Proof.
  induction fuel as [|fuel IH]; intros nBlocks iBlock Hfuel Hone; [lia|].
  cbn [next_block].
  destruct (Z.ltb_spec (iBlock + 1) nBlocks) as [Hlt|Hge]; cbn [andb].
  - destruct (Z.eqb_spec (TEST_BIT (m_abyTablXBlockMap t) (iBlock + 1)) 0)
      as [Hz|Hnz].
    + specialize (IH nBlocks (iBlock + 1) ltac:(lia) ltac:(lia)).
      cbv zeta in IH. destruct IH as (I1 & I2 & I3).
      split; [lia|]. split; [|exact I3].
      intros k Hk. destruct (Z.eq_dec k (iBlock + 1)) as [->|Hne];
        [exact Hz|apply I2; lia].
    + split; [lia|]. split; [intros k Hk; lia|right; exact Hnz].
  - split; [lia|]. split; [intros k Hk; lia|left; lia].
Qed.

Lemma DIV_ROUND_UP_1024 (a : Z) :
  0 <= a ->
  a <= 1024 * DIV_ROUND_UP a 1024 < a + 1024.
Proof.
  intros Ha. unfold DIV_ROUND_UP.
  rewrite Z.rem_mod_nonneg, Z.quot_div_nonneg by lia.
  pose proof (Z.div_mod a 1024 ltac:(lia)).
  pose proof (Z.mod_pos_bound a 1024 ltac:(lia)).
  destruct (Z.eqb_spec (a mod 1024) 0); lia.
Qed.

Lemma skip_absent_blocks_spec (iRow iRow' : Z) :
  0 <= iRow < m_nTotalRecordCount t ->
  m_nTotalRecordCount t <= 2 ^ 31 ->
  skip_absent_blocks t iRow = Some iRow' ->
  iRow < iRow' /\
  (forall k, iRow <= k < iRow' ->
             TEST_BIT (m_abyTablXBlockMap t) (k / 1024) = 0) /\
  (m_nTotalRecordCount t <= iRow' \/
   TEST_BIT (m_abyTablXBlockMap t) (iRow' / 1024) <> 0) /\
  m_abyTablXBlockMap t <> [].
Proof.
  intros Hrow Htotal. unfold skip_absent_blocks.
  destruct (m_abyTablXBlockMap t) as [|b0 rest] eqn:Hmap; [discriminate|].
  rewrite <- Hmap.
  destruct (Z.eqb_spec (Z.rem iRow 1024) 0) as [Hrem|]; [|discriminate].
  rewrite Z.rem_mod_nonneg in Hrem by lia.
  rewrite Z.quot_div_nonneg by lia.
  pose proof (Z.div_mod iRow 1024 ltac:(lia)) as Hdm.
  change (2 ^ 31) with 2147483648 in Htotal.
  pose proof (@DIV_ROUND_UP_1024 (m_nTotalRecordCount t) ltac:(lia)) as HN.
  set (N := DIV_ROUND_UP (m_nTotalRecordCount t) 1024) in *.
  set (b := iRow / 1024) in *.
  assert (Hb : 0 <= b < N) by lia.
  rewrite !to_int32_small by (change (2 ^ 31) with 2147483648; lia).
  destruct (Z.eqb_spec (TEST_BIT (m_abyTablXBlockMap t) b) 0) as [Hz|];
    [|discriminate].
  cbv zeta.
  pose proof (@next_block_spec (S (Z.to_nat (N - b))) N b
                ltac:(lia) ltac:(lia)) as H.
  cbv zeta in H. destruct H as (H1 & H2 & H3).
  set (r := next_block t (S (Z.to_nat (N - b))) N b) in *.
  assert (Hwrap : to_int64 (r * 1024) = r * 1024).
  { apply to_int64_fits. unfold fits_int64.
    change (2 ^ 63) with 9223372036854775808. lia. }
  rewrite Hwrap. intros Hres. injection Hres as <-.
  split; [lia|]. split; [|split].
  - intros k Hk.
    assert (Hkb : b <= k / 1024 < r).
    { split; [apply Z.div_le_lower_bound; lia
             |apply Z.div_lt_upper_bound; lia]. }
    destruct (Z.eq_dec (k / 1024) b) as [->|Hne]; [exact Hz|].
    apply H2. lia.
  - rewrite Z.div_mul by lia. destruct H3 as [H3|H3]; [left; lia|right].
    exact H3.
  - rewrite Hmap. discriminate.
Qed.

Hypothesis block_map_rows :
  m_abyTablXBlockMap t <> [] -> m_nTotalRecordCount t <= 2 ^ 31.

Lemma SelectRow_success_row (s s' : @TableState double date) (iRow : Z) :
  SelectRow t env s iRow = (true, s') ->
  0 <= iRow < m_nTotalRecordCount t /\ m_nCurRow s' = iRow.
Proof.
  unfold SelectRow, fail_row.
  destruct (Z.ltb_spec iRow 0); [discriminate|].
  destruct (Z.geb_spec iRow (m_nTotalRecordCount t)); [discriminate|].
  cbn [orb].
  destruct (Z.eqb_spec (m_nCurRow s) iRow) as [Heq|_].
  - intros H'. injection H' as <-. split; [lia|exact Heq].
  - destruct (GetOffsetInTableForRow t s iRow) as [[nOffsetTable x] s1].
    destruct (nOffsetTable =? 0); [discriminate|].
    intros Hok. apply SelectRow_load_success in Hok. split; [lia|tauto].
Qed.

Lemma skip_absent_blocks_forward (iRow iRow' : Z) :
  0 <= iRow < m_nTotalRecordCount t ->
  skip_absent_blocks t iRow = Some iRow' -> iRow < iRow'.
Proof.
  intros Hrow Hskip.
  assert (Hmap : m_abyTablXBlockMap t <> []).
  { unfold skip_absent_blocks in Hskip.
    destruct (m_abyTablXBlockMap t); [discriminate|discriminate]. }
  apply (skip_absent_blocks_spec Hrow (block_map_rows Hmap) Hskip).
Qed.

Lemma GetAndSelectNextNonEmptyRow_loop_result (fuel : nat) :
  forall (s : @TableState double date) (iRow : Z),
    0 <= iRow ->
    let res := GetAndSelectNextNonEmptyRow_loop t env fuel s iRow in
    fst res = -1 \/
    (iRow <= fst res < m_nTotalRecordCount t /\
     m_nCurRow (snd res) = fst res /\
     exists s1, SelectRow t env s1 (fst res) = (true, snd res)).
Proof.
  induction fuel as [|fuel IH]; intros s iRow Hpos;
    cbn [GetAndSelectNextNonEmptyRow_loop]; [left; reflexivity|].
  destruct (Z.ltb_spec iRow (m_nTotalRecordCount t)) as [Hlt|Hge];
    [|left; reflexivity].
  assert (Hprobe : forall iRow2, iRow <= iRow2 ->
            let res :=
              (let '(bOK, s0) := SelectRow t env s iRow2 in
               if bOK then (iRow2, s0)
               else if m_bError s0 then (-1, s0)
               else GetAndSelectNextNonEmptyRow_loop t env fuel s0
                      (iRow2 + 1)) in
            fst res = -1 \/
            (iRow <= fst res < m_nTotalRecordCount t /\
             m_nCurRow (snd res) = fst res /\
             exists s1, SelectRow t env s1 (fst res) = (true, snd res))).
  { intros iRow2 Hle.
    destruct (SelectRow t env s iRow2) as [[|] s0] eqn:Hsel.
    - destruct (SelectRow_success_row _ _ Hsel) as [Hr Hc].
      right. cbn [fst snd]. split; [lia|]. split; [exact Hc|].
      exists s. exact Hsel.
    - destruct (m_bError s0); [left; reflexivity|].
      specialize (IH s0 (iRow2 + 1) ltac:(lia)). cbv zeta in IH.
      destruct IH as [IH|IH]; [left; exact IH|right].
      destruct IH as (I1 & I2 & I3). split; [lia|]. split; assumption. }
  destruct (skip_absent_blocks t iRow) as [iRow'|] eqn:Hskip.
  - pose proof (@skip_absent_blocks_forward iRow iRow' ltac:(lia) Hskip).
    destruct (iRow' >=? m_nTotalRecordCount t); [left; reflexivity|].
    apply Hprobe. lia.
  - apply Hprobe. lia.
Qed.

Lemma GetAndSelectNextNonEmptyRow_loop_fuel (fuel1 : nat) :
  forall (fuel2 : nat) (s : @TableState double date) (iRow : Z),
    0 <= iRow ->
    m_nTotalRecordCount t - iRow <= Z.of_nat fuel1 ->
    m_nTotalRecordCount t - iRow <= Z.of_nat fuel2 ->
    GetAndSelectNextNonEmptyRow_loop t env fuel1 s iRow
    = GetAndSelectNextNonEmptyRow_loop t env fuel2 s iRow.
Proof.
  induction fuel1 as [|fuel1 IH]; intros fuel2 s iRow Hpos H1 H2.
  - destruct fuel2 as [|fuel2]; [reflexivity|].
    cbn [GetAndSelectNextNonEmptyRow_loop].
    destruct (Z.ltb_spec iRow (m_nTotalRecordCount t)); [lia|reflexivity].
  - destruct fuel2 as [|fuel2]; cbn [GetAndSelectNextNonEmptyRow_loop].
    + destruct (Z.ltb_spec iRow (m_nTotalRecordCount t)); [lia|reflexivity].
    + destruct (Z.ltb_spec iRow (m_nTotalRecordCount t)) as [Hlt|Hge];
        [|reflexivity].
      assert (Hprobe : forall iRow2, iRow <= iRow2 ->
                (let '(bOK, s0) := SelectRow t env s iRow2 in
                 if bOK then (iRow2, s0)
                 else if m_bError s0 then (-1, s0)
                 else GetAndSelectNextNonEmptyRow_loop t env fuel1 s0
                        (iRow2 + 1))
                = (let '(bOK, s0) := SelectRow t env s iRow2 in
                   if bOK then (iRow2, s0)
                   else if m_bError s0 then (-1, s0)
                   else GetAndSelectNextNonEmptyRow_loop t env fuel2 s0
                          (iRow2 + 1))).
      { intros iRow2 Hle.
        destruct (SelectRow t env s iRow2) as [[|] s0]; [reflexivity|].
        destruct (m_bError s0); [reflexivity|].
        apply IH; lia. }
      destruct (skip_absent_blocks t iRow) as [iRow'|] eqn:Hskip.
      * pose proof (@skip_absent_blocks_forward iRow iRow' ltac:(lia) Hskip).
        destruct (iRow' >=? m_nTotalRecordCount t); [reflexivity|].
        apply Hprobe. lia.
      * apply Hprobe. lia.
Qed.

End NextRowFacts.

(** X11.  GetAndSelectNextNonEmptyRow never goes backwards and answers
    with a selected row: the result is -1, or a row at or after the row
    asked for and below the total count, which is then the current row,
    left as a successful SelectRow leaves it.  A row out of range gives -1
    and no current row.  The loop needs no more rounds than there are rows
    from the one asked for to the total. *)
Theorem GetAndSelectNextNonEmptyRow_result
    {double date : Type} (t : TableDesc) (env : Environment)
    (s : @TableState double date) (iRow : Z) :
  (m_abyTablXBlockMap t <> [] -> m_nTotalRecordCount t <= 2 ^ 31) ->
  (fst (GetAndSelectNextNonEmptyRow t env s iRow) = -1 \/
   (iRow <= fst (GetAndSelectNextNonEmptyRow t env s iRow)
         < m_nTotalRecordCount t /\
    m_nCurRow (snd (GetAndSelectNextNonEmptyRow t env s iRow))
    = fst (GetAndSelectNextNonEmptyRow t env s iRow) /\
    exists s1,
      SelectRow t env s1 (fst (GetAndSelectNextNonEmptyRow t env s iRow))
      = (true, snd (GetAndSelectNextNonEmptyRow t env s iRow)))) /\
  (iRow < 0 \/ m_nTotalRecordCount t <= iRow ->
   fst (GetAndSelectNextNonEmptyRow t env s iRow) = -1 /\
   m_nCurRow (snd (GetAndSelectNextNonEmptyRow t env s iRow)) = -1) /\
  (forall fuel : nat,
     0 <= iRow < m_nTotalRecordCount t ->
     m_nTotalRecordCount t - iRow <= Z.of_nat fuel ->
     GetAndSelectNextNonEmptyRow_loop t env fuel s iRow
     = GetAndSelectNextNonEmptyRow t env s iRow).
Proof.
  intros Hmap. unfold GetAndSelectNextNonEmptyRow.
  destruct (Z.ltb_spec iRow 0) as [Hneg|Hpos]; cbn [orb].
  { split; [left; reflexivity|]. split; [intros _; split; reflexivity|].
    intros fuel Hr. lia. }
  destruct (Z.geb_spec iRow (m_nTotalRecordCount t)) as [Hge|Hlt].
  { split; [left; reflexivity|]. split; [intros _; split; reflexivity|].
    intros fuel Hr. lia. }
  split; [apply GetAndSelectNextNonEmptyRow_loop_result; assumption|].
  split; [intros [H|H]; lia|].
  intros fuel _ Hfuel.
  apply GetAndSelectNextNonEmptyRow_loop_fuel; try assumption; lia.
Qed.

Lemma GetAndSelectNextNonEmptyRow_result_witness :
  fst (GetAndSelectNextNonEmptyRow example_second_block_table example_env
         (@initial_state Z (Z * Z) []) 0) = 1024 /\
  m_nCurRow (snd (GetAndSelectNextNonEmptyRow example_second_block_table
                    example_env (@initial_state Z (Z * Z) []) 0)) = 1024.
Proof.
  assert (Hr : fst (GetAndSelectNextNonEmptyRow example_second_block_table
                      example_env (@initial_state Z (Z * Z) []) 0) = 1024)
    by (vm_compute; reflexivity).
  split; [exact Hr|].
  destruct (@GetAndSelectNextNonEmptyRow_result Z (Z * Z)
              example_second_block_table example_env (initial_state []) 0)
    as ([Hm1|(_ & Hcur & _)] & _).
  - intros _. cbn. lia.
  - rewrite Hr in Hm1. discriminate Hm1.
  - rewrite Hcur. exact Hr.
Defined.

(** X12.  The jump over absent blocks loses no row: when the loop, at the
    first row of a block that is not present, goes on at a later row, every
    row it passes over is one SelectRow refuses, without raising the error
    flag and without reading either file; and the row it goes on at is
    beyond the table or starts a present block. *)
Theorem skip_absent_blocks_sound
    {double date : Type} (t : TableDesc) (env : Environment)
    (fpTableX : VSILFILE) (iRow iRow' : Z) :
  m_fpTableX t = Some fpTableX ->
  m_nTotalRecordCount t <= 2 ^ 31 ->
  0 <= iRow < m_nTotalRecordCount t ->
  skip_absent_blocks t iRow = Some iRow' ->
  iRow < iRow' /\
  (m_nTotalRecordCount t <= iRow' \/
   TEST_BIT (m_abyTablXBlockMap t) (iRow' / 1024) <> 0) /\
  forall (k : Z) (s : @TableState double date),
    iRow <= k < iRow' -> k < m_nTotalRecordCount t -> m_nCurRow s <> k ->
    fst (SelectRow t env s k) = false /\
    m_bError (snd (SelectRow t env s k)) = m_bError s /\
    m_events (snd (SelectRow t env s k)) = m_events s.
Proof.
  intros Hx Htotal Hrow Hskip.
  destruct (@skip_absent_blocks_spec t _ _ Hrow Htotal Hskip)
    as (Hfwd & Habsent & Hnext & Hmap).
  split; [exact Hfwd|]. split; [exact Hnext|].
  intros k s Hk Hkt Hcur.
  unfold SelectRow, GetOffsetInTableForRow.
  destruct (Z.ltb_spec k 0); [lia|].
  destruct (Z.geb_spec k (m_nTotalRecordCount t)); [lia|]. cbn [orb].
  destruct (Z.eqb_spec (m_nCurRow s) k); [contradiction|].
  rewrite Hx.
  destruct (m_abyTablXBlockMap t) as [|b0 rest] eqn:Emap;
    [contradiction|]. rewrite <- Emap. rewrite <- Emap in Habsent.
  rewrite Z.quot_div_nonneg by lia.
  change (2 ^ 31) with 2147483648 in Htotal.
  assert (Hq : 0 <= k / 1024 < 2147483648).
  { split; [apply Z.div_pos; lia|apply Z.div_lt_upper_bound; lia]. }
  rewrite to_int32_small by (change (2 ^ 31) with 2147483648; lia).
  rewrite (Habsent k Hk). cbn [Z.eqb]. cbn [fst snd]. state_simpl.
  repeat split; reflexivity.
Qed.

Lemma skip_absent_blocks_sound_witness :
  skip_absent_blocks example_second_block_table 0 = Some 1024 /\
  fst (SelectRow example_second_block_table example_env
         (@initial_state Z (Z * Z) []) 700) = false.
Proof.
  assert (Hskip : skip_absent_blocks example_second_block_table 0
                  = Some 1024) by (vm_compute; reflexivity).
  split; [exact Hskip|].
  destruct (@skip_absent_blocks_sound Z (Z * Z)
              example_second_block_table example_env
              {| vsi_read := fun nOffset nSize =>
                   if (16 <=? nOffset) && (nSize =? 4)
                   then Some (le_bytes 40 4) else None;
                 vsi_short := fun _ _ => [];
                 vsi_size := 16 + 4 * 1024 |}
              0 1024 eq_refl ltac:(cbn; lia) ltac:(cbn; lia) Hskip)
    as (_ & _ & Hall).
  apply (Hall 700 (initial_state [])); cbn; lia.
Defined.

(** ** The index header *)

Lemma present_blocks_before_nat_mono (map : list GByte) (a b : nat) :
  (a <= b)%nat ->
  present_blocks_before_nat map a <= present_blocks_before_nat map b.
Proof.
  induction 1 as [|b Hle IH]; [lia|].
  cbn [present_blocks_before_nat].
  destruct (block_present map (Z.of_nat b)); lia.
Qed.

Lemma present_blocks_before_nat_present (map : list GByte) (b n : nat) :
  block_present map (Z.of_nat b) = true -> (b < n)%nat ->
  present_blocks_before_nat map b + 1 <= present_blocks_before_nat map n.
Proof.
  intros Hp Hlt.
  pose proof (@present_blocks_before_nat_mono map (S b) n ltac:(lia)) as Hm.
  cbn [present_blocks_before_nat] in Hm. rewrite Hp in Hm. lia.
Qed.

Lemma count_set_bits_spec (map : list GByte) (n : nat) :
  forall (i : nat) (acc : Z),
    0 <= acc -> acc + Z.of_nat n < 2 ^ 32 ->
    count_set_bits map n (Z.of_nat i) acc
    = acc + present_blocks_before_nat map (i + n)
      - present_blocks_before_nat map i.
Proof.
  induction n as [|n IH]; intros i acc Hacc Hsmall.
  - cbn [count_set_bits]. rewrite Nat.add_0_r. lia.
  - cbn [count_set_bits].
    replace (Z.of_nat i + 1) with (Z.of_nat (S i)) by lia.
    assert (Hb : 0 <= (if TEST_BIT map (Z.of_nat i) =? 0 then 0 else 1) <= 1)
      by (destruct (TEST_BIT map (Z.of_nat i) =? 0); lia).
    rewrite to_uint32_small by lia.
    rewrite IH by lia.
    replace (i + S n)%nat with (S i + n)%nat by lia.
    cbn [present_blocks_before_nat]. unfold block_present.
    destruct (TEST_BIT map (Z.of_nat i) =? 0); cbn [negb]; lia.
Qed.

Lemma wrap_signed_32_range (x : Z) : - 2 ^ 31 <= wrap_signed 32 x < 2 ^ 31.
Proof.
  unfold wrap_signed. change (2 ^ (32 - 1)) with (2 ^ 31).
  assert (H : 0 <= x mod 2 ^ 32 < 2 ^ 32) by (apply Z.mod_pos_bound; lia).
  assert (2 ^ 32 = 2 * 2 ^ 31) by reflexivity.
  destruct (Z.ltb_spec (x mod 2 ^ 32) (2 ^ 31)); lia.
Qed.

(** X13.  When ReadTableXHeaderV3 succeeds on a table whose block map is
    still empty, it has printed nothing, the entry width is 4 to 6 bytes,
    the row count is between 0 and 2^31 - 1 and is 0 when no block is
    present, the trailer starts right after the entries of the present
    blocks, every table carrying these members has a well-formed index, and
    when a block map has been read the index entry of every row of a block
    marked present ends at or before the trailer. *)
Theorem ReadTableXHeaderV3_accepts_sound_index
    (fpTableX : VSILFILE) (nGDBTableVersion : Z) (can_resize : Z -> bool)
    (m m' : TableXState) (evs : list Event) :
  tx_abyTablXBlockMap m = [] ->
  ReadTableXHeaderV3 fpTableX nGDBTableVersion can_resize m = (true, m', evs) ->
  evs = [] /\
  4 <= tx_nTablxOffsetSize m' <= 6 /\
  0 <= tx_nTotalRecordCount m' < 2 ^ 31 /\
  (tx_n1024BlocksPresent m' = 0 -> tx_nTotalRecordCount m' = 0) /\
  tx_nOffsetTableXTrailer m'
  = 16 + tx_nTablxOffsetSize m' * 1024 * tx_n1024BlocksPresent m' /\
  (forall t : TableDesc,
      m_nTablxOffsetSize t = tx_nTablxOffsetSize m' ->
      m_nTotalRecordCount t = tx_nTotalRecordCount m' ->
      m_abyTablXBlockMap t = tx_abyTablXBlockMap m' ->
      index_well_formed t) /\
  (tx_abyTablXBlockMap m' <> [] ->
   forall iRow : Z,
     0 <= iRow < tx_nTotalRecordCount m' ->
     block_present (tx_abyTablXBlockMap m') (iRow / 1024) = true ->
     16 + tx_nTablxOffsetSize m'
          * (1024 * present_blocks_before (tx_abyTablXBlockMap m')
                                          (iRow / 1024)
             + iRow mod 1024)
     + tx_nTablxOffsetSize m'
     <= tx_nOffsetTableXTrailer m').
Proof.
  intros Hfresh. unfold ReadTableXHeaderV3. cbv zeta.
  cbn [tx_n1024BlocksPresent tx_nTotalRecordCount tx_nTablxOffsetSize
       tx_nOffsetTableXTrailer tx_abyTablXBlockMap].
  destruct (vsi_read fpTableX 0 16) as [abyHeader|]; [|discriminate].
  destruct (negb (to_int32 (GetUInt32 abyHeader 0) =? nGDBTableVersion));
    [discriminate|].
  pose proof (@GetUIntLE_range abyHeader 4 4) as Hblocks.
  pose proof (@GetUIntLE_range abyHeader 12 4) as Hsize.
  fold (GetUInt32 abyHeader 4) in Hblocks.
  fold (GetUInt32 abyHeader 12) in Hsize.
  change (256 ^ Z.of_nat 4) with (2 ^ 32) in *.
  assert (Htot : - 2 ^ 31 <= GetInt32 abyHeader 8 < 2 ^ 31).
  { unfold GetInt32. apply wrap_signed_32_range. }
  set (blocks := GetUInt32 abyHeader 4) in *.
  set (total := GetInt32 abyHeader 8) in *.
  set (size := GetUInt32 abyHeader 12) in *.
  destruct (if blocks =? 0 then negb (total =? 0) else total <? 0) eqn:Hcount;
    [discriminate|].
  destruct ((size <? 4) || (size >? 6)) eqn:Hw; [discriminate|].
  apply orb_false_iff in Hw. destruct Hw as [Hw1 Hw2].
  apply Z.ltb_ge in Hw1. rewrite Z.gtb_ltb in Hw2. apply Z.ltb_ge in Hw2.
  assert (Htotal : 0 <= total /\ (blocks = 0 -> total = 0)).
  { destruct (Z.eqb_spec blocks 0) as [E|E].
    - destruct (Z.eqb_spec total 0); [lia|discriminate].
    - apply Z.ltb_ge in Hcount. lia. }
  assert (Htrailer : to_uint64 (16 + to_uint64 (to_uint32 (size * 1024) * blocks))
                     = 16 + size * 1024 * blocks).
  { change (2 ^ 32) with 4294967296 in *.
    rewrite (@to_uint32_small (size * 1024))
      by (change (2 ^ 32) with 4294967296; lia).
    rewrite (@to_uint64_small (size * 1024 * blocks))
      by (change (2 ^ 64) with 18446744073709551616; nia).
    rewrite to_uint64_small
      by (change (2 ^ 64) with 18446744073709551616; nia).
    reflexivity. }
  rewrite Htrailer.
  assert (Hwf : forall map (t : TableDesc),
             (map <> [] -> total <= 8192 * Z.of_nat (length map)) ->
             m_nTablxOffsetSize t = size -> m_nTotalRecordCount t = total ->
             m_abyTablXBlockMap t = map -> index_well_formed t).
  { intros map t Hcover E1 E2 E3. unfold index_well_formed.
    rewrite E1, E2, E3.
    change (2 ^ 31) with 2147483648 in *.
    change (2 ^ 64) with 18446744073709551616.
    change (2 ^ 41) with 2199023255552.
    split; [lia|]. split; [nia|].
    intros Hmap. split; [lia|exact (Hcover Hmap)]. }
  assert (Hnomap : forall evs0,
             (true,
              {| tx_n1024BlocksPresent := blocks;
                 tx_nTotalRecordCount := total;
                 tx_nTablxOffsetSize := size;
                 tx_nOffsetTableXTrailer := 16 + size * 1024 * blocks;
                 tx_abyTablXBlockMap := tx_abyTablXBlockMap m |}, evs0)
             = (true, m', evs) -> evs0 = [] ->
             evs = [] /\
             4 <= tx_nTablxOffsetSize m' <= 6 /\
             0 <= tx_nTotalRecordCount m' < 2 ^ 31 /\
             (tx_n1024BlocksPresent m' = 0 -> tx_nTotalRecordCount m' = 0) /\
             tx_nOffsetTableXTrailer m'
             = 16 + tx_nTablxOffsetSize m' * 1024 * tx_n1024BlocksPresent m' /\
             (forall t : TableDesc,
                 m_nTablxOffsetSize t = tx_nTablxOffsetSize m' ->
                 m_nTotalRecordCount t = tx_nTotalRecordCount m' ->
                 m_abyTablXBlockMap t = tx_abyTablXBlockMap m' ->
                 index_well_formed t) /\
             (tx_abyTablXBlockMap m' <> [] ->
              forall iRow : Z,
                0 <= iRow < tx_nTotalRecordCount m' ->
                block_present (tx_abyTablXBlockMap m') (iRow / 1024) = true ->
                16 + tx_nTablxOffsetSize m'
                     * (1024 * present_blocks_before (tx_abyTablXBlockMap m')
                                                     (iRow / 1024)
                        + iRow mod 1024)
                + tx_nTablxOffsetSize m'
                <= tx_nOffsetTableXTrailer m')).
  { intros evs0 E E0. pose proof (f_equal (fun x => snd (fst x)) E) as Em.
    pose proof (f_equal snd E) as Ee.
    cbv beta in Em. cbn [fst snd] in Em, Ee. subst m' evs. clear E.
    cbn [tx_n1024BlocksPresent tx_nTotalRecordCount tx_nTablxOffsetSize
         tx_nOffsetTableXTrailer tx_abyTablXBlockMap].
    split; [exact E0|]. split; [lia|]. split; [lia|].
    split; [tauto|]. split; [reflexivity|].
    split; [intros t; apply Hwf; rewrite Hfresh; intros C; contradiction|].
    rewrite Hfresh. intros C. contradiction. }
  destruct (blocks =? 0) eqn:Hb0 in |- *.
  { intros E. apply (Hnomap []); [exact E|reflexivity]. }
  apply Z.eqb_neq in Hb0.
  destruct (vsi_read fpTableX (16 + size * 1024 * blocks) 16)
    as [abyTrailer|]; [|discriminate].
  pose proof (@GetUIntLE_range abyTrailer 4 4) as Hbits.
  fold (GetUInt32 abyTrailer 4) in Hbits.
  change (256 ^ Z.of_nat 4) with (2 ^ 32) in *.
  set (nBits := GetUInt32 abyTrailer 4) in *.
  destruct (nBits >? 1 + Z.quot INT_MAX 1024) eqn:Hmax; [discriminate|].
  rewrite Z.gtb_ltb in Hmax. apply Z.ltb_ge in Hmax.
  change (1 + Z.quot INT_MAX 1024) with 2097152 in Hmax.
  destruct (negb (GetUInt32 abyTrailer 8 =? blocks)); [discriminate|].
  destruct (GetUInt32 abyTrailer 0 =? 0).
  { destruct (negb (nBits =? blocks)); [discriminate|].
    intros E. apply (Hnomap []); [exact E|reflexivity]. }
  destruct (to_uint32 total >? to_uint32 (nBits * 1024)) eqn:Hfit;
    [discriminate|].
  rewrite Z.gtb_ltb in Hfit. apply Z.ltb_ge in Hfit.
  unfold to_uint32 in Hfit.
  change (2 ^ 32) with 4294967296 in *. change (2 ^ 31) with 2147483648 in *.
  rewrite !wrap_unsigned_small in Hfit
    by (change (2 ^ 32) with 4294967296; lia).
  set (nSizeInBytes := to_uint32 (BIT_ARRAY_SIZE_IN_BYTES nBits)).
  destruct (negb (can_resize nSizeInBytes)); [discriminate|].
  destruct (vsi_read fpTableX (16 + size * 1024 * blocks + 16) nSizeInBytes)
    as [data|]; [|discriminate].
  set (abyMap := blit data (vector_resize (tx_abyTablXBlockMap m) nSizeInBytes)).
  destruct (negb (count_set_bits abyMap (Z.to_nat nBits) 0 0 =? blocks))
    eqn:Hcb; [discriminate|].
  apply negb_false_iff in Hcb. apply Z.eqb_eq in Hcb.
  change 0 with (Z.of_nat 0) in Hcb at 1.
  rewrite count_set_bits_spec in Hcb
    by (change (2 ^ 32) with 4294967296; lia).
  cbn [present_blocks_before_nat Nat.add] in Hcb.
  intros E. pose proof (f_equal (fun x => snd (fst x)) E) as Em.
    pose proof (f_equal snd E) as Ee.
    cbv beta in Em. cbn [fst snd] in Em, Ee. subst m' evs. clear E.
  cbn [tx_n1024BlocksPresent tx_nTotalRecordCount tx_nTablxOffsetSize
         tx_nOffsetTableXTrailer tx_abyTablXBlockMap].
  split; [reflexivity|]. split; [lia|]. split; [lia|].
  split; [tauto|]. split; [reflexivity|].
  split.
  { intros t. apply Hwf. intros _.
    assert (Hlen : Z.of_nat (length abyMap) >= nSizeInBytes).
    { subst abyMap. unfold blit, vector_resize.
      rewrite length_app, length_skipn, length_firstn, length_app,
        repeat_length. lia. }
    assert (Hbytes : nBits <= 8 * nSizeInBytes).
    { subst nSizeInBytes. unfold BIT_ARRAY_SIZE_IN_BYTES.
      rewrite Z.quot_div_nonneg by lia.
      assert (Hd : 0 <= (nBits + 7) / 8 < 4294967296)
        by (split; [apply Z.div_pos; lia
                   |apply Z.div_lt_upper_bound; lia]).
      rewrite to_uint32_small
        by (change (2 ^ 32) with 4294967296; exact Hd).
      pose proof (Z.div_mod (nBits + 7) 8 ltac:(lia)) as Hdm.
      pose proof (Z.mod_pos_bound (nBits + 7) 8 ltac:(lia)) as Hmb.
      lia. }
    lia. }
  intros _ iRow Hrow Hpresent.
  assert (Hm : 0 <= iRow mod 1024 < 1024) by (apply Z.mod_pos_bound; lia).
  assert (Hq : 0 <= iRow / 1024 < nBits).
  { split; [apply Z.div_pos; lia|].
    apply Z.div_lt_upper_bound; lia. }
  pose proof (@present_blocks_before_nat_present abyMap
                (Z.to_nat (iRow / 1024)) (Z.to_nat nBits)) as Hp.
  rewrite Z2Nat.id in Hp by lia.
  specialize (Hp Hpresent ltac:(lia)).
  unfold present_blocks_before.
  assert (0 <= present_blocks_before_nat abyMap (Z.to_nat (iRow / 1024))).
  { pose proof (@present_blocks_before_nat_mono abyMap 0
                  (Z.to_nat (iRow / 1024)) ltac:(lia)) as H0.
    exact H0. }
  set (P := present_blocks_before_nat abyMap (Z.to_nat (iRow / 1024))) in *.
  assert (K : size * (1024 * P + iRow mod 1024 + 1) <= size * (1024 * blocks))
    by (apply Z.mul_le_mono_nonneg_l; lia).
  lia.
Qed.

Lemma ReadTableXHeaderV3_accepts_sound_index_witness :
  let r := ReadTableXHeaderV3 (file_of_bytes example_tablx_bytes) 3
             (fun _ => true) fresh_tablx in
  fst (fst r) = true /\
  tx_abyTablXBlockMap (snd (fst r)) = [Byte.x05] /\
  tx_nOffsetTableXTrailer (snd (fst r)) = 16 + 4 * 2048 /\
  16 + 4 * (1024 * present_blocks_before
                     (tx_abyTablXBlockMap (snd (fst r))) (2049 / 1024)
            + 2049 mod 1024) + 4
  <= tx_nOffsetTableXTrailer (snd (fst r)).
Proof.
  intros r.
  assert (Hr : r = (true, snd (fst r), snd r)) by (vm_compute; reflexivity).
  assert (Hf : tx_abyTablXBlockMap fresh_tablx = []) by reflexivity.
  pose proof (@ReadTableXHeaderV3_accepts_sound_index
                (file_of_bytes example_tablx_bytes) 3 (fun _ => true)
                fresh_tablx _ _ Hf Hr)
    as (_ & _ & _ & _ & _ & _ & Hin).
  split; [vm_compute; reflexivity|].
  split; [vm_compute; reflexivity|].
  split; [vm_compute; reflexivity|].
  assert (Hmap : tx_abyTablXBlockMap (snd (fst r)) <> [])
    by (vm_compute; discriminate).
  assert (Hrow : 0 <= 2049 < tx_nTotalRecordCount (snd (fst r)))
    by (vm_compute; split; [discriminate|reflexivity]).
  assert (Hp : block_present (tx_abyTablXBlockMap (snd (fst r))) (2049 / 1024)
               = true) by (vm_compute; reflexivity).
  specialize (Hin Hmap 2049 Hrow Hp).
  replace (tx_nTablxOffsetSize (snd (fst r))) with 4 in Hin
    by (vm_compute; reflexivity).
  exact Hin.
Defined.

(** ** Part definitions of a geometry *)

Lemma ReadVarUInt_loop_success_range (nbits : Z) (ct : ControlType)
    (buf : list GByte) (pabyEnd : Z) (fuel : nat) :
  8 <= nbits ->
  forall (pabyIter nOutVal pabyLocalIter nShift nVal : Z) (reads : list Z),
    0 <= nVal < 2 ^ nbits ->
    vr_ret (ReadVarUInt_loop nbits ct buf pabyEnd fuel pabyIter nOutVal
              pabyLocalIter nShift nVal reads) = true ->
    0 <= vr_out (ReadVarUInt_loop nbits ct buf pabyEnd fuel pabyIter nOutVal
                   pabyLocalIter nShift nVal reads) < 2 ^ nbits.
Proof.
  intros Hn. induction fuel as [|fuel IH];
    intros pabyIter nOutVal pabyLocalIter nShift nVal reads Hval;
    cbn [ReadVarUInt_loop].
  - cbn. discriminate.
  - destruct (check_bounds ct && (pabyLocalIter >=? pabyEnd));
      [cbn; discriminate|].
    assert (Hnew : 0 <= Z.lor nVal
              (wrap_unsigned nbits
                 (Z.shiftl
                    (Z.land (wrap_unsigned nbits (byte_at buf pabyLocalIter))
                            127) nShift)) < 2 ^ nbits).
    { apply lor_lt_pow2; [lia|exact Hval|].
      apply wrap_unsigned_range; exact Hn. }
    destruct (Z.land (wrap_unsigned nbits (byte_at buf pabyLocalIter)) 128
              =? 0); [cbn; intros _; exact Hnew|].
    destruct (nShift + 7 >=? nbits); [cbn; discriminate|].
    apply IH. exact Hnew.
Qed.

Lemma ReadVarUInt_success_range (nbits : Z) (ct : ControlType)
    (buf : list GByte) (pabyEnd pabyIter nOutVal : Z) :
  8 <= nbits ->
  vr_ret (ReadVarUInt nbits ct buf pabyEnd pabyIter nOutVal) = true ->
  0 <= vr_out (ReadVarUInt nbits ct buf pabyEnd pabyIter nOutVal) < 2 ^ nbits.
Proof.
  intros Hn. unfold ReadVarUInt.
  destruct (check_bounds ct && (pabyIter >=? pabyEnd)); [cbn; discriminate|].
  destruct (Z.land (wrap_unsigned nbits (byte_at buf pabyIter)) 128 =? 0).
  { cbn. intros _. apply wrap_unsigned_range; exact Hn. }
  apply ReadVarUInt_loop_success_range; [exact Hn|].
  rewrite land_127.
  pose proof (Z.mod_pos_bound (wrap_unsigned nbits (byte_at buf pabyIter))
                              128 ltac:(lia)).
  assert (2 ^ 8 <= 2 ^ nbits) by (apply Z.pow_le_mono_r; lia).
  change (2 ^ 8) with 256 in *. lia.
Qed.

Lemma length_array_store (block : list Z) :
  forall (n : nat) (v : Z), length (array_store block n v) = length block.
Proof.
  induction block as [|hd tl IH]; intros [|n] v; cbn; try reflexivity.
  rewrite IH. reflexivity.
Qed.

Lemma firstn_array_store (block : list Z) :
  forall (n : nat) (v : Z),
    (n < length block)%nat ->
    firstn (S n) (array_store block n v) = firstn n block ++ [v].
Proof.
  induction block as [|hd tl IH]; intros [|n] v Hn; cbn in Hn; try lia.
  - reflexivity.
  - cbn [array_store]. rewrite !firstn_cons.
    rewrite IH by lia. reflexivity.
Qed.

Lemma fold_right_add_app (l1 l2 : list Z) :
  fold_right Z.add 0 (l1 ++ l2)
  = fold_right Z.add 0 l1 + fold_right Z.add 0 l2.
Proof. induction l1 as [|a l1 IH]; cbn; [reflexivity|]. rewrite IH. lia. Qed.

Lemma fold_right_add_bound (l : list Z) :
  Forall (fun c => 0 <= c < 2 ^ 32) l ->
  0 <= fold_right Z.add 0 l <= 2 ^ 32 * Z.of_nat (length l).
Proof.
  change (2 ^ 32) with 4294967296.
  induction 1 as [|c l Hc Hl IH]; cbn [fold_right length]; lia.
Qed.

Lemma fold_right_add_member (l : list Z) :
  Forall (fun c => 0 <= c) l ->
  Forall (fun c => c <= fold_right Z.add 0 l) l.
Proof.
  induction 1 as [|c l Hc Hl IH]; cbn [fold_right]; constructor.
  - assert (0 <= fold_right Z.add 0 l).
    { clear IH. induction Hl; cbn; lia. }
    lia.
  - eapply Forall_impl; [|exact IH]. cbn. intros a Ha. lia.
Qed.

Section PartDefsFacts.

Variable VSI_REALLOC_VERBOSE : list Z -> Z -> option (list Z).
Variable buf : list GByte.
Variable pabyEnd : Z.

Lemma pd_read_nPoints (st : PartDefsState) :
  let r := pd_ReadVarUInt32 buf pabyEnd pd_nPoints set_pd_nPoints st in
  pd_frame st (snd r) /\
  (fst r = true -> 0 <= pd_nPoints (snd r) < 2 ^ 32).
Proof.
  unfold pd_ReadVarUInt32, pd_frame. cbn [fst snd].
  split.
  - destruct (vr_printed _); cbn; auto.
  - intros Hok.
    assert (Hrange : 0 <= vr_out (ReadVarUInt32 buf (pd_pabyCur st) pabyEnd
                                    (pd_nPoints st)) < 2 ^ 32)
      by (apply ReadVarUInt_success_range; [lia|exact Hok]).
    destruct (vr_printed _); cbn; exact Hrange.
Qed.

Lemma pd_read_nParts (st : PartDefsState) :
  let r := pd_ReadVarUInt32 buf pabyEnd pd_nParts set_pd_nParts st in
  pd_frame st (snd r) /\ pd_nPoints (snd r) = pd_nPoints st /\
  (fst r = true -> 0 <= pd_nParts (snd r) < 2 ^ 32).
Proof.
  unfold pd_ReadVarUInt32, pd_frame. cbn [fst snd].
  split; [|split].
  - destruct (vr_printed _); cbn; auto.
  - destruct (vr_printed _); cbn; auto.
  - intros Hok.
    assert (Hrange : 0 <= vr_out (ReadVarUInt32 buf (pd_pabyCur st) pabyEnd
                                    (pd_nParts st)) < 2 ^ 32)
      by (apply ReadVarUInt_success_range; [lia|exact Hok]).
    destruct (vr_printed _); cbn; exact Hrange.
Qed.

Lemma pd_read_nCurves (st : PartDefsState) :
  let r := pd_ReadVarUInt32 buf pabyEnd pd_nCurves set_pd_nCurves st in
  pd_frame st (snd r) /\ pd_nPoints (snd r) = pd_nPoints st /\
  pd_nParts (snd r) = pd_nParts st.
Proof.
  unfold pd_ReadVarUInt32, pd_frame. cbn [fst snd].
  destruct (vr_printed _); cbn; auto.
Qed.

Lemma pd_skip (nIter : Z) (st : PartDefsState) :
  let r := pd_SkipVarUInt buf pabyEnd nIter st in
  pd_frame st (snd r) /\ pd_nPoints (snd r) = pd_nPoints st /\
  pd_nParts (snd r) = pd_nParts st /\ pd_nCurves (snd r) = pd_nCurves st.
Proof.
  unfold pd_SkipVarUInt, pd_frame. cbn [fst snd].
  destruct (sv_printed _); cbn; auto.
Qed.

Lemma ReadPartDefs_loop_spec (n : nat) :
  forall (i : Z) (st st' : PartDefsState) (nSum nSum' : Z),
    0 <= i ->
    i + Z.of_nat n < Z.of_nat (length (pd_panPointCount st)) ->
    i + Z.of_nat n < 2 ^ 30 ->
    pd_overrun st = false ->
    nSum = points_in_parts (pd_panPointCount st) i ->
    Forall (fun c => 0 <= c < 2 ^ 32)
           (firstn (Z.to_nat i) (pd_panPointCount st)) ->
    ReadPartDefs_loop buf pabyEnd n i st nSum = (true, st', nSum') ->
    pd_overrun st' = false /\
    length (pd_panPointCount st') = length (pd_panPointCount st) /\
    pd_nPointCountMax st' = pd_nPointCountMax st /\
    pd_nPoints st' = pd_nPoints st /\ pd_nParts st' = pd_nParts st /\
    pd_nCurves st' = pd_nCurves st /\
    nSum' = points_in_parts (pd_panPointCount st') (i + Z.of_nat n) /\
    Forall (fun c => 0 <= c < 2 ^ 32)
           (firstn (Z.to_nat (i + Z.of_nat n)) (pd_panPointCount st')).
Proof.
  induction n as [|n IH];
    intros i st st' nSum nSum' Hi Hlen Hsmall Hov Hsum Hall;
    cbn [ReadPartDefs_loop].
  - intros E. assert (st' = st) by congruence. assert (nSum' = nSum) by congruence.
    subst st' nSum'. rewrite Z.add_0_r. repeat split; try assumption.
  - set (r := ReadVarUInt32 buf (pd_pabyCur st) pabyEnd 0).
    destruct (vr_ret r) eqn:Hok; cbn [negb]; [|discriminate].
    assert (Hrange : 0 <= vr_out r < 2 ^ 32)
      by (apply ReadVarUInt_success_range; [lia|exact Hok]).
    set (st1 := if vr_printed r
                then pd_log [EvPrintError] (set_pd_pabyCur (vr_iter r) st)
                else set_pd_pabyCur (vr_iter r) st).
    assert (Hst1 : pd_frame st st1 /\ pd_nPoints st1 = pd_nPoints st /\
                   pd_nParts st1 = pd_nParts st /\
                   pd_nCurves st1 = pd_nCurves st).
    { unfold st1, pd_frame. destruct (vr_printed r); cbn; auto 10. }
    destruct Hst1 as ((Hb & Hm & Ho) & Hp & Hq & Hc).
    destruct (vr_out r >? pd_remaining pabyEnd st1); [discriminate|].
    unfold pd_store. rewrite Hb.
    destruct (Z.leb_spec 0 i); [|lia].
    destruct (Z.ltb_spec i (Z.of_nat (length (pd_panPointCount st)))); [|lia].
    cbn [andb].
    set (st2 := {| pd_pabyCur := pd_pabyCur st1;
                   pd_nPoints := pd_nPoints st1;
                   pd_nParts := pd_nParts st1;
                   pd_nCurves := pd_nCurves st1;
                   pd_panPointCount :=
                     array_store (pd_panPointCount st) (Z.to_nat i) (vr_out r);
                   pd_nPointCountMax := pd_nPointCountMax st1;
                   pd_events := pd_events st1;
                   pd_overrun := pd_overrun st1 |}).
    assert (Hfirst : firstn (Z.to_nat (i + 1)) (pd_panPointCount st2)
                     = firstn (Z.to_nat i) (pd_panPointCount st)
                       ++ [vr_out r]).
    { cbn [st2 pd_panPointCount].
      replace (Z.to_nat (i + 1)) with (S (Z.to_nat i)) by lia.
      apply firstn_array_store. lia. }
    pose proof (fold_right_add_bound Hall) as Hbound.
    rewrite length_firstn in Hbound.
    change (2 ^ 32) with 4294967296 in *. change (2 ^ 30) with 1073741824 in *.
    rewrite to_uint32_small by (change (2 ^ 32) with 4294967296; lia).
    fold (points_in_parts (pd_panPointCount st) i) in Hbound.
    rewrite <- Hsum in Hbound.
    rewrite to_uint64_small
      by (change (2 ^ 64) with 18446744073709551616; lia).
    intros E.
    apply IH in E.
    + destruct E as (E1 & E2 & E3 & E4 & E5 & E6 & E7 & E8).
      cbn [st2 pd_panPointCount pd_nPointCountMax pd_nPoints pd_nParts
           pd_nCurves] in E2, E3, E4, E5, E6.
      rewrite length_array_store in E2.
      replace (i + Z.of_nat (S n)) with (i + 1 + Z.of_nat n) by lia.
      repeat split; try assumption; congruence.
    + lia.
    + cbn [st2 pd_panPointCount]. rewrite length_array_store. lia.
    + lia.
    + cbn [st2 pd_overrun]. congruence.
    + unfold points_in_parts. rewrite Hfirst, fold_right_add_app.
      cbn [fold_right]. unfold points_in_parts in Hsum. lia.
    + rewrite Hfirst. apply Forall_app. split; [exact Hall|].
      constructor; [lia|constructor].
Qed.

End PartDefsFacts.

(** X14.  When ReadPartDefs succeeds, no store went outside the block
    panPointCount, the block has nPointCountMax entries of which the first
    nParts are the point counts of the parts, nParts is at most
    INT_MAX/4 - 1, a geometry without points has no parts and no curves,
    and when there are parts their point counts add up to nPoints exactly,
    each between 0 and nPoints (the allocator returning a block of the size
    asked for, and the block having nPointCountMax entries on entry). *)
Theorem ReadPartDefs_counts_partition
    (VSI_REALLOC_VERBOSE : list Z -> Z -> option (list Z))
    (buf : list GByte) (pabyEnd : Z) (st st' : PartDefsState)
    (bHasCurveDesc bIsMultiPatch : bool) :
  (forall (block block' : list Z) (n : Z),
      0 <= n -> VSI_REALLOC_VERBOSE block (4 * n) = Some block' ->
      Z.of_nat (length block') = n) ->
  pd_nPointCountMax st = Z.of_nat (length (pd_panPointCount st)) ->
  pd_overrun st = false ->
  ReadPartDefs VSI_REALLOC_VERBOSE buf pabyEnd st bHasCurveDesc bIsMultiPatch
  = (true, st') ->
  pd_overrun st' = false /\
  pd_nPointCountMax st' = Z.of_nat (length (pd_panPointCount st')) /\
  0 <= pd_nParts st' <= pd_nPointCountMax st' /\
  pd_nParts st' <= Z.quot INT_MAX 4 - 1 /\
  0 <= pd_nPoints st' < 2 ^ 32 /\
  (pd_nPoints st' = 0 -> pd_nParts st' = 0 /\ pd_nCurves st' = 0) /\
  (0 < pd_nParts st' ->
   points_in_parts (pd_panPointCount st') (pd_nParts st') = pd_nPoints st' /\
   Forall (fun c => 0 <= c <= pd_nPoints st')
          (firstn (Z.to_nat (pd_nParts st')) (pd_panPointCount st'))).
Proof.
  intros Halloc Hmax Hov. unfold ReadPartDefs.
  change (Z.quot INT_MAX 4 - 1) with 536870910.
  (* nPoints *)
  pose proof (pd_read_nPoints buf pabyEnd st) as H1. cbv zeta in H1.
  destruct (pd_ReadVarUInt32 buf pabyEnd pd_nPoints set_pd_nPoints st)
    as [ok1 st1].
  cbn [fst snd] in H1. destruct H1 as ((Hb1 & Hm1 & Ho1) & Hp1).
  destruct ok1; cbn [negb]; [|discriminate]. specialize (Hp1 eq_refl).
  assert (Hlen1 : 0 <= pd_nPointCountMax st1)
    by (rewrite Hm1, Hmax; lia).
  destruct (Z.eqb_spec (pd_nPoints st1) 0) as [Hz|Hnz].
  { intros E. assert (Est : st' = set_pd_nCurves 0 (set_pd_nParts 0 st1))
      by congruence.
    subst st'. cbn. rewrite Hb1, Hm1, Ho1.
    repeat split; try assumption; try lia. }
  destruct (pd_nPoints st1 >? pd_remaining pabyEnd st1); [discriminate|].
  (* the multipatch varuint *)
  assert (H2 : exists ok2 st2,
             (if bIsMultiPatch then pd_SkipVarUInt buf pabyEnd 1 st1
              else (true, st1)) = (ok2, st2) /\
             pd_frame st1 st2 /\ pd_nPoints st2 = pd_nPoints st1).
  { destruct bIsMultiPatch.
    - pose proof (pd_skip buf pabyEnd 1 st1) as H. cbv zeta in H.
      destruct (pd_SkipVarUInt buf pabyEnd 1 st1) as [ok2 st2].
      exists ok2, st2. cbn [fst snd] in H. tauto.
    - exists true, st1. unfold pd_frame. auto. }
  destruct H2 as (ok2 & st2 & -> & (Hb2 & Hm2 & Ho2) & Hp2).
  destruct ok2; cbn [negb]; [|discriminate].
  (* nParts *)
  pose proof (pd_read_nParts buf pabyEnd st2) as H3. cbv zeta in H3.
  destruct (pd_ReadVarUInt32 buf pabyEnd pd_nParts set_pd_nParts st2)
    as [ok3 st3].
  cbn [fst snd] in H3. destruct H3 as ((Hb3 & Hm3 & Ho3) & Hp3 & Hq3).
  destruct ok3; cbn [negb]; [|discriminate]. specialize (Hq3 eq_refl).
  destruct (pd_nParts st3 >? pd_remaining pabyEnd st3); [discriminate|].
  destruct (Z.gtb_spec (pd_nParts st3) 536870910) as [|Hparts];
    [discriminate|].
  (* nCurves *)
  assert (H4 : exists ok4 st4,
             (if bHasCurveDesc
              then
                let (ok, st0) :=
                  pd_ReadVarUInt32 buf pabyEnd pd_nCurves set_pd_nCurves st3 in
                if negb ok then pd_error st0
                else if pd_nCurves st0 >? pd_remaining pabyEnd st0
                     then pd_error st0 else (true, st0)
              else (true, set_pd_nCurves 0 st3)) = (ok4, st4) /\
             pd_frame st3 st4 /\ pd_nPoints st4 = pd_nPoints st3 /\
             pd_nParts st4 = pd_nParts st3).
  { destruct bHasCurveDesc.
    - pose proof (pd_read_nCurves buf pabyEnd st3) as H. cbv zeta in H.
      destruct (pd_ReadVarUInt32 buf pabyEnd pd_nCurves set_pd_nCurves st3)
        as [ok st0].
      cbn [fst snd] in H. destruct H as ((Hb & Hm & Ho) & Hp & Hq).
      unfold pd_error, pd_frame.
      destruct (negb ok); [eexists _, _; split; [reflexivity|]; cbn; auto|].
      destruct (pd_nCurves st0 >? pd_remaining pabyEnd st0);
        eexists _, _; (split; [reflexivity|]); cbn; auto.
    - exists true, (set_pd_nCurves 0 st3). unfold pd_frame. cbn. auto 10. }
  destruct H4 as (ok4 & st4 & -> & (Hb4 & Hm4 & Ho4) & Hp4 & Hq4).
  destruct ok4; cbn [negb]; [|discriminate].
  assert (Hblock4 : pd_panPointCount st4 = pd_panPointCount st) by congruence.
  assert (Hmax4 : pd_nPointCountMax st4 = pd_nPointCountMax st) by congruence.
  assert (Hov4 : pd_overrun st4 = false) by congruence.
  assert (Hpts4 : pd_nPoints st4 = pd_nPoints st1) by congruence.
  destruct (Z.eqb_spec (pd_nParts st4) 0) as [Hp0|Hp0].
  { intros E. assert (st' = st4) by congruence. subst st'.
    rewrite Hov4, Hmax4, Hblock4, Hpts4, Hp0.
    repeat split; try assumption; try lia. }
  (* the extent *)
  pose proof (pd_skip buf pabyEnd 4 st4) as H5. cbv zeta in H5.
  destruct (pd_SkipVarUInt buf pabyEnd 4 st4) as [ok5 st5].
  cbn [fst snd] in H5. destruct H5 as ((Hb5 & Hm5 & Ho5) & Hp5 & Hq5 & _).
  destruct ok5; cbn [negb]; [|discriminate].
  (* the block *)
  assert (H6 : exists ok6 st6,
             (if pd_nParts st5 >? pd_nPointCountMax st5
              then
                match VSI_REALLOC_VERBOSE (pd_panPointCount st5)
                        (to_uint64 (pd_nParts st5 * 4)) with
                | Some panPointCountNew =>
                    (true, set_pd_block panPointCountNew (pd_nParts st5) st5)
                | None => pd_error st5
                end
              else (true, st5)) = (ok6, st6) /\
             (ok6 = true ->
              pd_nPointCountMax st6 = Z.of_nat (length (pd_panPointCount st6))
              /\ pd_nParts st6 <= pd_nPointCountMax st6
              /\ pd_overrun st6 = false
              /\ pd_nPoints st6 = pd_nPoints st1
              /\ pd_nParts st6 = pd_nParts st3)).
  { destruct (Z.gtb_spec (pd_nParts st5) (pd_nPointCountMax st5)) as [Hgt|Hle].
    - destruct (VSI_REALLOC_VERBOSE (pd_panPointCount st5)
                  (to_uint64 (pd_nParts st5 * 4))) as [new|] eqn:Er.
      + eexists _, _. split; [reflexivity|]. intros _. cbn.
        rewrite to_uint64_small in Er
          by (change (2 ^ 64) with 18446744073709551616; lia).
        rewrite (Z.mul_comm (pd_nParts st5) 4) in Er.
        apply Halloc in Er; [|lia].
        repeat split; try lia; congruence.
      + eexists _, _. split; [reflexivity|]. discriminate.
    - exists true, st5. split; [reflexivity|]. intros _.
      repeat split; try lia; congruence. }
  destruct H6 as (ok6 & st6 & -> & H6).
  destruct ok6; cbn [negb]; [|discriminate].
  destruct (H6 eq_refl) as (Hmax6 & Hfit6 & Hov6 & Hpts6 & Hparts6).
  (* the counts *)
  destruct (ReadPartDefs_loop buf pabyEnd (Z.to_nat (pd_nParts st6 - 1)) 0
              st6 0) as [[ok7 st7] nSum] eqn:E7.
  destruct ok7; cbn [negb]; [|discriminate].
  apply ReadPartDefs_loop_spec in E7;
    [| lia | lia | change (2 ^ 30) with 1073741824; lia | exact Hov6
     | reflexivity | cbn; constructor].
  destruct E7 as (Hov7 & Hlen7 & Hmax7 & Hpts7 & Hparts7 & _ & Hsum7 & Hall7).
  replace (0 + Z.of_nat (Z.to_nat (pd_nParts st6 - 1)))
    with (pd_nParts st6 - 1) in Hsum7, Hall7 by lia.
  destruct (Z.gtb_spec nSum (pd_nPoints st7)) as [|Hsum]; [discriminate|].
  pose proof (fold_right_add_bound Hall7) as Hbound.
  fold (points_in_parts (pd_panPointCount st7) (pd_nParts st6 - 1)) in Hbound.
  rewrite <- Hsum7 in Hbound.
  change (2 ^ 32) with 4294967296 in *.
  rewrite (@to_uint64_small (pd_nPoints st7 - nSum))
    by (change (2 ^ 64) with 18446744073709551616; lia).
  rewrite !to_uint32_small by (change (2 ^ 32) with 4294967296; lia).
  unfold pd_store.
  destruct (Z.leb_spec 0 (pd_nParts st7 - 1)); [|lia].
  destruct (Z.ltb_spec (pd_nParts st7 - 1)
              (Z.of_nat (length (pd_panPointCount st7)))); [|lia].
  cbn [andb]. intros E.
  assert (Est : st' = {| pd_pabyCur := pd_pabyCur st7;
                         pd_nPoints := pd_nPoints st7;
                         pd_nParts := pd_nParts st7;
                         pd_nCurves := pd_nCurves st7;
                         pd_panPointCount :=
                           array_store (pd_panPointCount st7)
                             (Z.to_nat (pd_nParts st7 - 1))
                             (pd_nPoints st7 - nSum);
                         pd_nPointCountMax := pd_nPointCountMax st7;
                         pd_events := pd_events st7;
                         pd_overrun := pd_overrun st7 |}) by congruence.
  subst st'. clear E.
  cbn [pd_overrun pd_nPointCountMax pd_panPointCount pd_nParts pd_nPoints
       pd_nCurves].
  rewrite length_array_store.
  assert (Hfirst : firstn (Z.to_nat (pd_nParts st7))
                     (array_store (pd_panPointCount st7)
                        (Z.to_nat (pd_nParts st7 - 1))
                        (pd_nPoints st7 - nSum))
                   = firstn (Z.to_nat (pd_nParts st7 - 1))
                       (pd_panPointCount st7)
                     ++ [pd_nPoints st7 - nSum]).
  { replace (Z.to_nat (pd_nParts st7)) with (S (Z.to_nat (pd_nParts st7 - 1)))
      by lia.
    apply firstn_array_store. lia. }
  rewrite <- Hparts7 in Hsum7, Hall7.
  assert (Htotal : points_in_parts
                     (array_store (pd_panPointCount st7)
                        (Z.to_nat (pd_nParts st7 - 1))
                        (pd_nPoints st7 - nSum)) (pd_nParts st7)
                   = pd_nPoints st7).
  { unfold points_in_parts. rewrite Hfirst, fold_right_add_app.
    cbn [fold_right]. unfold points_in_parts in Hsum7. lia. }
  split; [exact Hov7|]. split; [lia|]. split; [lia|]. split; [lia|].
  split; [lia|]. split; [intros; lia|].
  intros _. split; [exact Htotal|].
  assert (Hnonneg : Forall (fun c => 0 <= c)
                      (firstn (Z.to_nat (pd_nParts st7))
                         (array_store (pd_panPointCount st7)
                            (Z.to_nat (pd_nParts st7 - 1))
                            (pd_nPoints st7 - nSum)))).
  { rewrite Hfirst. apply Forall_app. split.
    - eapply Forall_impl; [|exact Hall7]. cbn. intros a Ha. lia.
    - constructor; [lia|constructor]. }
  pose proof (fold_right_add_member Hnonneg) as Hmem.
  unfold points_in_parts in Htotal. rewrite Htotal in Hmem.
  rewrite Forall_forall in *. intros c Hc.
  split; [apply Hnonneg; exact Hc|apply Hmem; exact Hc].
Qed.

Lemma ReadPartDefs_counts_partition_witness :
  let r := ReadPartDefs example_realloc example_part_defs 10
             (fresh_part_defs 0) false false in
  fst r = true /\
  pd_nPoints (snd r) = 5 /\ pd_nParts (snd r) = 2 /\
  pd_panPointCount (snd r) = [3; 2] /\
  points_in_parts (pd_panPointCount (snd r)) (pd_nParts (snd r))
  = pd_nPoints (snd r).
Proof.
  intros r.
  assert (Hr : ReadPartDefs example_realloc example_part_defs 10
                 (fresh_part_defs 0) false false = (true, snd r))
    by (vm_compute; reflexivity).
  assert (Ha : forall (block block' : list Z) (n : Z),
             0 <= n -> example_realloc block (4 * n) = Some block' ->
             Z.of_nat (length block') = n).
  { intros block block' n Hn E. unfold example_realloc in E.
    rewrite Z.mul_comm, Z.div_mul in E by lia.
    assert (E' : block' = firstn (Z.to_nat n)
                            (block ++ repeat 0 (Z.to_nat n))) by congruence.
    rewrite E', length_firstn, length_app, repeat_length. lia. }
  assert (Hm : pd_nPointCountMax (fresh_part_defs 0)
               = Z.of_nat (length (pd_panPointCount (fresh_part_defs 0))))
    by reflexivity.
  assert (Ho : pd_overrun (fresh_part_defs 0) = false) by reflexivity.
  pose proof (@ReadPartDefs_counts_partition example_realloc
                example_part_defs 10 (fresh_part_defs 0) (snd r) false false
                Ha Hm Ho Hr) as (_ & _ & _ & _ & _ & _ & Hsum).
  assert (Hparts : 0 < pd_nParts (snd r)) by (vm_compute; reflexivity).
  split; [vm_compute; reflexivity|].
  split; [vm_compute; reflexivity|].
  split; [vm_compute; reflexivity|].
  split; [vm_compute; reflexivity|].
  exact (proj1 (Hsum Hparts)).
Defined.

(** ** Records accepted by the recovery scan *)

Lemma ReadVarUInt32Silent_same (buf : list GByte)
    (pabyIter pabyEnd nOutVal : Z) :
  vr_ret (ReadVarUInt32Silent buf pabyIter pabyEnd nOutVal)
  = vr_ret (ReadVarUInt32 buf pabyIter pabyEnd nOutVal) /\
  vr_iter (ReadVarUInt32Silent buf pabyIter pabyEnd nOutVal)
  = vr_iter (ReadVarUInt32 buf pabyIter pabyEnd nOutVal) /\
  vr_out (ReadVarUInt32Silent buf pabyIter pabyEnd nOutVal)
  = vr_out (ReadVarUInt32 buf pabyIter pabyEnd nOutVal).
Proof.
  unfold ReadVarUInt32Silent, ReadVarUInt32, ReadVarUInt.
  cbn [check_bounds ControlTypeVerboseErrorFalse ControlTypeVerboseErrorTrue
       andb].
  destruct (pabyIter >=? pabyEnd); [cbn; auto|].
  destruct (Z.land (wrap_unsigned 32 (byte_at buf pabyIter)) 128 =? 0);
    [cbn; auto|].
  pose proof (@ReadVarUInt_loop_silent 32 buf ControlTypeVerboseErrorTrue
                ControlTypeVerboseErrorFalse pabyEnd (ReadVarUInt_fuel 32)
                eq_refl pabyIter nOutVal (pabyIter + 1) 7
                (Z.land (wrap_unsigned 32 (byte_at buf pabyIter)) 127)
                [pabyIter]) as H.
  cbv zeta in H. tauto.
Qed.

Lemma minimal_length_fixed (f : FileGDBField) :
  snd (minimal_length f) = true ->
  (m_eType f = FGFT_RASTER -> GetRasterType f = RT_MANAGED) ->
  skipped_length f = FixedLength (fst (minimal_length f)) /\
  0 <= fst (minimal_length f) <= 16.
Proof.
  unfold minimal_length, skipped_length, UUID_SIZE_IN_BYTES.
  destruct (m_eType f); cbn; intros Hs Hr; try discriminate;
    try (split; [reflexivity|lia]).
  rewrite (Hr eq_refl). cbn. split; [reflexivity|lia].
Qed.

Lemma length_blit_at (data buf : list GByte) (p : Z) :
  (length buf <= length (blit_at data buf p))%nat.
Proof.
  unfold blit_at. rewrite !length_app, length_firstn, length_skipn. lia.
Qed.

Section LikelyWalk.

Variable CPLIsUTF8 : list GByte -> bool.
Variable buf : list GByte.
Variable nLen : Z.
Hypothesis nLen_range : 0 <= nLen < 2 ^ 31.

Lemma likely_first_pass_inexact (fs : list FileGDBField) :
  forall (acc nReq : Z),
    lp_exact (likely_first_pass fs buf nLen acc nReq false) = false.
Proof.
  induction fs as [|f fs IH]; intros acc nReq; cbn [likely_first_pass].
  - reflexivity.
  - destruct (m_bNullable f && negb (TEST_BIT buf acc =? 0)); [apply IH|].
    cbn [andb].
    destruct (nLen <? to_uint32 (nReq + fst (minimal_length f)));
      [reflexivity|apply IH].
Qed.

(** Without variable-length value, the first loop counts what the skipping
    loop of GetFieldValue passes over. *)
Lemma likely_first_pass_walk (fs : list FileGDBField) :
  Forall (fun f => m_eType f = FGFT_RASTER -> GetRasterType f = RT_MANAGED)
         fs ->
  forall (acc nReq : Z),
    0 <= nReq <= nLen ->
    lp_ok (likely_first_pass fs buf nLen acc nReq true) = true ->
    lp_exact (likely_first_pass fs buf nLen acc nReq true) = true ->
    st_ok (SkipFields buf nLen fs nReq acc []) = true /\
    st_iter (SkipFields buf nLen fs nReq acc [])
    = lp_required (likely_first_pass fs buf nLen acc nReq true) /\
    0 <= lp_required (likely_first_pass fs buf nLen acc nReq true) <= nLen.
Proof.
  change (2 ^ 31) with 2147483648 in nLen_range.
  induction 1 as [|f fs Hf Hfs IH]; intros acc nReq Hreq;
    cbn [likely_first_pass SkipFields].
  - cbn. intros _ _. repeat split; lia.
  - unfold SkipField.
    destruct (m_bNullable f && negb (TEST_BIT buf acc =? 0)) eqn:Hnull.
    + cbn [st_ok st_iter st_acc st_events app].
      intros Hok Hex. apply IH; assumption.
    + cbn [andb].
      destruct (snd (minimal_length f)) eqn:Hsnd.
      * destruct (minimal_length_fixed f Hsnd Hf) as [Hskip Hk].
        rewrite Hskip.
        rewrite (@to_uint32_small (nReq + fst (minimal_length f)))
          by (change (2 ^ 32) with 4294967296; lia).
        rewrite (@to_uint32_small (nLen - nReq))
          by (change (2 ^ 32) with 4294967296; lia).
        destruct (Z.ltb_spec nLen (nReq + fst (minimal_length f)));
          [cbn; discriminate|].
        destruct (Z.gtb_spec (fst (minimal_length f)) (nLen - nReq)); [lia|].
        cbn [st_ok st_iter st_acc st_events app].
        intros Hok Hex.
        destruct (SkipFields_events buf nLen fs
                    (nReq + fst (minimal_length f))
                    (if m_bNullable f then acc + 1 else acc) [])
          as (_ & _ & _).
        apply IH; [lia|assumption|assumption].
      * destruct (nLen <? to_uint32 (nReq + fst (minimal_length f)));
          [cbn; discriminate|].
        intros _ Hex. rewrite likely_first_pass_inexact in Hex.
        discriminate.
Qed.

Lemma likely_prefixed_walk (bText : bool) (nReq nReq' : Z) :
  0 <= nReq <= nLen ->
  likely_prefixed CPLIsUTF8 buf nLen bText nReq = Some nReq' ->
  vr_ret (ReadVarUInt32 buf nReq nLen 0) = true /\
  (vr_out (ReadVarUInt32 buf nReq nLen 0)
   >? to_uint32 (nLen - vr_iter (ReadVarUInt32 buf nReq nLen 0))) = false /\
  nReq' = vr_iter (ReadVarUInt32 buf nReq nLen 0)
          + vr_out (ReadVarUInt32 buf nReq nLen 0) /\
  nReq <= nReq' <= nLen.
Proof.
  change (2 ^ 31) with 2147483648 in nLen_range.
  intros Hreq. unfold likely_prefixed.
  destruct (ReadVarUInt32Silent_same buf nReq nLen 0) as (-> & -> & ->).
  pose proof (@ReadVarUInt_within 32 ControlTypeVerboseErrorTrue buf nLen
                nReq 0 eq_refl ltac:(lia)) as Hin.
  assert (Hpr : nReq <= vr_iter (ReadVarUInt32 buf nReq nLen 0)
                /\ 0 <= vr_out (ReadVarUInt32 buf nReq nLen 0))
    by (apply ReadVarUInt_progress; lia).
  fold (ReadVarUInt32 buf nReq nLen 0) in Hin.
  set (r := ReadVarUInt32 buf nReq nLen 0) in *.
  destruct (vr_ret r); cbn [negb orb]; [|discriminate].
  destruct (vr_iter r - nReq >? 5); [discriminate|].
  rewrite (@to_uint32_small (vr_iter r))
    by (change (2 ^ 32) with 4294967296; lia).
  rewrite (@to_uint32_small (nLen - vr_iter r))
    by (change (2 ^ 32) with 4294967296; lia).
  destruct (Z.gtb_spec (vr_out r) (nLen - vr_iter r)); [discriminate|].
  destruct (bText && _); [discriminate|].
  rewrite to_uint32_small by (change (2 ^ 32) with 4294967296; lia).
  intros E. assert (nReq' = vr_iter r + vr_out r) by congruence.
  repeat split; try reflexivity; lia.
Qed.

Lemma likely_field_walk (f : FileGDBField) (acc nReq nReq' : Z) :
  0 <= nReq <= nLen ->
  m_bNullable f && negb (TEST_BIT buf acc =? 0) = false ->
  likely_field CPLIsUTF8 buf nLen f nReq = Some nReq' ->
  nReq' <= nLen ->
  st_ok (SkipField buf nLen f nReq acc) = true /\
  st_iter (SkipField buf nLen f nReq acc) = nReq' /\
  nReq <= nReq'.
Proof.
  change (2 ^ 31) with 2147483648 in nLen_range.
  intros Hreq Hnull Hf Hle.
  assert (Hfixed : forall k, 0 <= k <= 16 ->
             skipped_length f = FixedLength k ->
             Some (to_uint32 (nReq + k)) = Some nReq' ->
             st_ok (SkipField buf nLen f nReq acc) = true /\
             st_iter (SkipField buf nLen f nReq acc) = nReq' /\
             nReq <= nReq').
  { intros k Hk Hs E. unfold SkipField. rewrite Hnull, Hs.
    rewrite to_uint32_small in E by (change (2 ^ 32) with 4294967296; lia).
    assert (nReq' = nReq + k) by congruence. subst nReq'.
    rewrite to_uint32_small by (change (2 ^ 32) with 4294967296; lia).
    destruct (Z.gtb_spec k (nLen - nReq)); [lia|]. cbn. repeat split; lia. }
  assert (Hvar : forall bText,
             skipped_length f = VarUIntLength ->
             likely_prefixed CPLIsUTF8 buf nLen bText nReq = Some nReq' ->
             st_ok (SkipField buf nLen f nReq acc) = true /\
             st_iter (SkipField buf nLen f nReq acc) = nReq' /\
             nReq <= nReq').
  { intros bText Hs E.
    destruct (likely_prefixed_walk bText Hreq E) as (Hok & Hfit & -> & Hb).
    unfold SkipField. rewrite Hnull, Hs, Hok, Hfit. cbn.
    repeat split; lia. }
  unfold likely_field in Hf. unfold skipped_length in Hfixed, Hvar.
  unfold UUID_SIZE_IN_BYTES in *.
  destruct (m_eType f);
    try (apply (Hvar _ eq_refl Hf));
    try (refine (Hfixed _ _ eq_refl Hf); lia);
    try (apply (Hfixed 0 ltac:(lia) eq_refl); rewrite Z.add_0_r,
           to_uint32_small by (change (2 ^ 32) with 4294967296; lia);
         exact Hf).
  destruct (GetRasterType f);
    try (apply (Hvar _ eq_refl Hf));
    try (refine (Hfixed _ _ eq_refl Hf); lia).
Qed.

(** The second loop ends where the skipping loop of GetFieldValue ends. *)
Lemma likely_second_pass_walk (fs : list FileGDBField) :
  forall (acc nReq : Z),
    0 <= nReq <= nLen ->
    lp_ok (likely_second_pass CPLIsUTF8 buf nLen fs acc nReq) = true ->
    st_ok (SkipFields buf nLen fs nReq acc []) = true /\
    st_iter (SkipFields buf nLen fs nReq acc [])
    = lp_required (likely_second_pass CPLIsUTF8 buf nLen fs acc nReq) /\
    0 <= lp_required (likely_second_pass CPLIsUTF8 buf nLen fs acc nReq)
      <= nLen.
Proof.
  induction fs as [|f fs IH]; intros acc nReq Hreq;
    cbn [likely_second_pass SkipFields].
  - cbn. intros _. repeat split; lia.
  - destruct (m_bNullable f && negb (TEST_BIT buf acc =? 0)) eqn:Hnull.
    + destruct (@SkipField_null buf nLen f nReq acc Hnull) as (-> & -> & Ha).
      rewrite Ha.
      assert (Hacc : (if m_bNullable f then acc + 1 else acc) = acc + 1).
      { apply andb_true_iff in Hnull. destruct Hnull as [-> _]. reflexivity. }
      rewrite Hacc. intros Hok.
      destruct (SkipFields_events buf nLen fs nReq (acc + 1)
                  ([] ++ st_events (SkipField buf nLen f nReq acc)))
        as (-> & -> & _).
      apply IH; assumption.
    + destruct (likely_field CPLIsUTF8 buf nLen f nReq) as [nReq'|] eqn:Hf;
        [|cbn; discriminate].
      destruct (Z.gtb_spec nReq' nLen); [cbn; discriminate|].
      destruct (likely_field_walk f acc Hreq Hnull Hf ltac:(lia))
        as (Hok & Hiter & Hge).
      rewrite Hok, Hiter.
      assert (Hacc : st_acc (SkipField buf nLen f nReq acc)
                     = if m_bNullable f then acc + 1 else acc).
      { unfold SkipField. rewrite Hnull.
        destruct (skipped_length f).
        - destruct (_ >? _); reflexivity.
        - destruct (vr_ret _); [destruct (_ >? _)|]; reflexivity. }
      rewrite Hacc. intros Hok2.
      destruct (SkipFields_events buf nLen fs nReq'
                  (if m_bNullable f then acc + 1 else acc)
                  ([] ++ st_events (SkipField buf nLen f nReq acc)))
        as (-> & -> & _).
      apply IH; [lia|assumption].
Qed.

End LikelyWalk.

(** X15.  A record IsLikelyFeatureAtOffset accepts is one GetFieldValue can
    walk: the size reported is 4 plus the row length, the row length covers
    the nullable bitmask and is at most INT_MAX - 4, it is not above
    m_nRowBufferMaxSize, the row buffer holds it and 4 bytes more, and the
    skipping loop of GetFieldValue run over all the fields of the row as
    left in the buffer passes every field and ends exactly at the end of
    the row (tables of at most 65535 fields without raster field stored
    out of the table). *)
Theorem IsLikelyFeatureAtOffset_accepts_walkable
    {double date : Type} (t : TableDesc) (env : Environment)
    (CPLIsUTF8 : list GByte -> bool) (m_nValidRecordCount : Z)
    (s : @TableState double date) (nOffset nSize0 : Z)
    (bDeletedRecord0 : bool) :
  Z.of_nat (length (m_apoFields t)) <= 65535 ->
  Forall (fun f => m_eType f = FGFT_RASTER -> GetRasterType f = RT_MANAGED)
         (m_apoFields t) ->
  lf_ret (fst (IsLikelyFeatureAtOffset t env CPLIsUTF8 m_nValidRecordCount
                 s nOffset nSize0 bDeletedRecord0)) = true ->
  let r := fst (IsLikelyFeatureAtOffset t env CPLIsUTF8 m_nValidRecordCount
                  s nOffset nSize0 bDeletedRecord0) in
  let s' := snd (IsLikelyFeatureAtOffset t env CPLIsUTF8 m_nValidRecordCount
                   s nOffset nSize0 bDeletedRecord0) in
  lf_nSize r = 4 + m_nRowBlobLength s' /\
  m_nNullableFieldsSizeInBytes t <= m_nRowBlobLength s'
    <= INT_MAX - ZEROES_AFTER_END_OF_BUFFER /\
  m_nRowBlobLength s' <= m_nRowBufferMaxSize s' /\
  m_nRowBlobLength s' + ZEROES_AFTER_END_OF_BUFFER
    <= Z.of_nat (length (m_abyBuffer s')) /\
  st_ok (SkipFields (m_abyBuffer s') (m_nRowBlobLength s') (m_apoFields t)
           (m_nNullableFieldsSizeInBytes t) 0 []) = true /\
  st_iter (SkipFields (m_abyBuffer s') (m_nRowBlobLength s') (m_apoFields t)
             (m_nNullableFieldsSizeInBytes t) 0 [])
  = m_nRowBlobLength s'.
Proof.
  intros Hfew Hraster. cbv zeta.
  pose proof (nullable_size_bounds t Hfew) as Hmask.
  unfold IsLikelyFeatureAtOffset.
  destruct (vsi_read (m_fpTable t) nOffset 4) as [abyBuffer|];
    [|cbn; discriminate].
  set (s0 := set_m_nRowBlobLength (GetUInt32 abyBuffer 0)
               (log_events [EvRead GDBTABLE nOffset 4] s)).
  (* the row length kept *)
  assert (Hclass : forall (bDel : bool) (s1 : @TableState double date),
             implausible_length t m_nValidRecordCount s1 nOffset = false ->
             m_nNullableFieldsSizeInBytes t <= m_nRowBlobLength s1
             <= INT_MAX - ZEROES_AFTER_END_OF_BUFFER).
  { intros bDel s1 H. unfold implausible_length in H.
    apply orb_false_iff in H. destruct H as [H _].
    apply orb_false_iff in H. destruct H as [H H3].
    apply orb_false_iff in H. destruct H as [H1 _].
    apply Z.ltb_ge in H1. rewrite Z.gtb_ltb in H3. apply Z.ltb_ge in H3.
    rewrite to_uint32_small in H1 by (change (2 ^ 32) with 4294967296; lia).
    lia. }
  set (sd := set_m_nRowBlobLength
               (to_uint32 (- to_int32 (m_nRowBlobLength s0))) s0).
  set (classified :=
         if implausible_length t m_nValidRecordCount s0 nOffset
         then
           if negb (Z.shiftr (m_nRowBlobLength s0) 31 =? 0)
              && negb (m_nRowBlobLength s0 =? 2147483648)
           then
             if implausible_length t m_nValidRecordCount sd nOffset
             then (None, sd) else (Some true, sd)
           else (None, s0)
         else (Some false, s0)).
  assert (Hc : forall bDel s1, classified = (Some bDel, s1) ->
               m_nNullableFieldsSizeInBytes t <= m_nRowBlobLength s1
               <= INT_MAX - ZEROES_AFTER_END_OF_BUFFER).
  { intros bDel s1. unfold classified.
    destruct (implausible_length t m_nValidRecordCount s0 nOffset) eqn:E0.
    - destruct (negb (Z.shiftr (m_nRowBlobLength s0) 31 =? 0)
                && negb (m_nRowBlobLength s0 =? 2147483648));
        [|discriminate].
      destruct (implausible_length t m_nValidRecordCount sd nOffset) eqn:E1;
        [discriminate|].
      intros E. assert (Es : s1 = sd) by congruence.
      subst s1. apply (Hclass true). exact E1.
    - intros E. assert (Es : s1 = s0) by congruence. subst s1.
      apply (Hclass false). exact E0. }
  change (if implausible_length t m_nValidRecordCount s0 nOffset
          then
            if negb (Z.shiftr (m_nRowBlobLength s0) 31 =? 0)
               && negb (m_nRowBlobLength s0 =? 2147483648)
            then
              if implausible_length t m_nValidRecordCount sd nOffset
              then (None, sd) else (Some true, sd)
            else (None, s0)
          else (Some false, s0)) with classified.
  destruct classified as [[bDel|] s1] eqn:Ec; [|cbn; discriminate].
  specialize (Hc bDel s1 eq_refl). clear Ec Hclass.
  unfold INT_MAX, ZEROES_AFTER_END_OF_BUFFER in *.
  set (L := m_nRowBlobLength s1) in *.
  set (s2 := set_m_nRowBufferMaxSize (Z.max L (m_nRowBufferMaxSize s1)) s1).
  assert (HL2 : m_nRowBlobLength s2 = L) by reflexivity.
  assert (Hmax2 : L <= m_nRowBufferMaxSize s2)
    by (unfold s2; state_simpl; lia).
  rewrite HL2.
  (* the buffer *)
  set (resized :=
         if Z.of_nat (length (m_abyBuffer s2)) <? L + 4
         then
           if can_resize env (L + 4)
           then Some (set_m_abyBuffer (resize_buffer (m_abyBuffer s2) (L + 4))
                                      s2)
           else None
         else Some s2).
  assert (Hres : forall s3, resized = Some s3 ->
             m_nRowBlobLength s3 = L /\
             m_nRowBufferMaxSize s3 = m_nRowBufferMaxSize s2 /\
             L + 4 <= Z.of_nat (length (m_abyBuffer s3))).
  { intros s3. unfold resized.
    destruct (Z.ltb_spec (Z.of_nat (length (m_abyBuffer s2))) (L + 4)).
    - destruct (can_resize env (L + 4)); [|discriminate].
      intros E. assert (Es : s3 = set_m_abyBuffer
                  (resize_buffer (m_abyBuffer s2) (L + 4)) s2) by congruence.
      subst s3. state_simpl. rewrite length_resize_buffer by lia.
      repeat split; try reflexivity; lia.
    - intros E. assert (Es : s3 = s2) by congruence. subst s3.
      repeat split; try reflexivity; lia. }
  destruct resized as [s3|] eqn:Er; [|cbn; discriminate].
  destruct (Hres s3 eq_refl) as (HL3 & Hmax3 & Hlen3). clear Hres Er.
  (* the bitmask *)
  set (loaded :=
         if m_nCountNullableFields t >? 0
         then
           match vsi_read (m_fpTable t) (nOffset + 4)
                   (m_nNullableFieldsSizeInBytes t) with
           | Some data =>
               Some (set_m_abyBuffer
                       (blit data
                          (m_abyBuffer
                             (log_events
                                [EvRead GDBTABLE (nOffset + 4)
                                   (m_nNullableFieldsSizeInBytes t)] s3)))
                       (log_events
                          [EvRead GDBTABLE (nOffset + 4)
                             (m_nNullableFieldsSizeInBytes t)] s3))
           | None => None
           end
         else Some s3).
  assert (Hload : forall s4, loaded = Some s4 ->
             m_nRowBlobLength s4 = L /\
             m_nRowBufferMaxSize s4 = m_nRowBufferMaxSize s2 /\
             L + 4 <= Z.of_nat (length (m_abyBuffer s4))).
  { intros s4. unfold loaded.
    destruct (m_nCountNullableFields t >? 0).
    - destruct (vsi_read (m_fpTable t) (nOffset + 4)
                  (m_nNullableFieldsSizeInBytes t)) as [data|];
        [|discriminate].
      intros E. injection E as <-. state_simpl.
      pose proof (length_blit data (m_abyBuffer s3)).
      repeat split; try assumption; lia.
    - intros E. injection E as <-. repeat split; assumption. }
  destruct loaded as [s4|] eqn:El; [|cbn; discriminate].
  destruct (Hload s4 eq_refl) as (HL4 & Hmax4 & Hlen4). clear Hload El.
  rewrite HL4.
  rewrite (@to_uint32_small (m_nNullableFieldsSizeInBytes t))
    by (change (2 ^ 32) with 4294967296; lia).
  assert (HLr : 0 <= L < 2 ^ 31) by (change (2 ^ 31) with 2147483648; lia).
  (* the first loop *)
  set (p1 := likely_first_pass (m_apoFields t) (m_abyBuffer s4) L 0
               (m_nNullableFieldsSizeInBytes t) true).
  destruct (lp_ok p1) eqn:Hok1; cbn [negb]; [|cbn; discriminate].
  destruct (lp_exact p1) eqn:Hex1.
  { cbn [fst snd lf_ret lf_nSize]. state_simpl. rewrite HL4.
    intros Heq. apply Z.eqb_eq in Heq.
    destruct (@likely_first_pass_walk (m_abyBuffer s4) L HLr (m_apoFields t)
                Hraster 0 (m_nNullableFieldsSizeInBytes t) ltac:(lia)
                Hok1 Hex1) as (Hw1 & Hw2 & Hw3).
    fold p1 in Hw2, Hw3.
    rewrite to_uint32_small by (change (2 ^ 32) with 4294967296; lia).
    repeat split; try lia; try assumption; congruence. }
  (* the second loop *)
  state_simpl. rewrite HL4.
  destruct (vsi_read (m_fpTable t)
              (nOffset + 4 + m_nNullableFieldsSizeInBytes t)
              (to_uint32 (L - m_nNullableFieldsSizeInBytes t)))
    as [data|]; [|cbn; discriminate].
  set (B := blit_at data (m_abyBuffer s4) (m_nNullableFieldsSizeInBytes t)).
  set (p2 := likely_second_pass CPLIsUTF8 B L (m_apoFields t) 0
               (m_nNullableFieldsSizeInBytes t)).
  destruct (lp_ok p2) eqn:Hok2; cbn [negb]; [|cbn; discriminate].
  cbn [fst snd lf_ret lf_nSize]. state_simpl. rewrite HL4.
  intros Heq. apply Z.eqb_eq in Heq.
  destruct (@likely_second_pass_walk CPLIsUTF8 B L HLr (m_apoFields t) 0
              (m_nNullableFieldsSizeInBytes t) ltac:(lia) Hok2)
    as (Hw1 & Hw2 & Hw3).
  fold p2 in Hw2, Hw3.
  rewrite to_uint32_small by (change (2 ^ 32) with 4294967296; lia).
  pose proof (length_blit_at data (m_abyBuffer s4)
                (m_nNullableFieldsSizeInBytes t)) as HlenB.
  fold B in HlenB.
  repeat split; try lia; try assumption; congruence.
Qed.

Lemma IsLikelyFeatureAtOffset_accepts_walkable_witness :
  let t := example_int_string_table x00 in
  let c := IsLikelyFeatureAtOffset t example_env (fun _ => true) 1
             (example_scanning t) 40 0 false in
  lf_ret (fst c) = true /\
  lf_nSize (fst c) = 11 /\
  st_iter (SkipFields (m_abyBuffer (snd c)) (m_nRowBlobLength (snd c))
             (m_apoFields t) (m_nNullableFieldsSizeInBytes t) 0 [])
  = m_nRowBlobLength (snd c).
Proof.
  intros t c.
  assert (Hfew : Z.of_nat (length (m_apoFields t)) <= 65535)
    by (vm_compute; discriminate).
  assert (Hraster : Forall (fun f => m_eType f = FGFT_RASTER ->
                                     GetRasterType f = RT_MANAGED)
                           (m_apoFields t))
    by (repeat constructor; cbn; discriminate).
  assert (Hret : lf_ret (fst (IsLikelyFeatureAtOffset t example_env
                                (fun _ => true) 1 (example_scanning t)
                                40 0 false)) = true)
    by (vm_compute; reflexivity).
  pose proof (@IsLikelyFeatureAtOffset_accepts_walkable Z (Z * Z) t
                example_env (fun _ => true) 1 (example_scanning t) 40 0 false
                Hfew Hraster Hret) as H.
  cbv zeta in H. destruct H as (_ & _ & _ & _ & _ & Hwalk).
  split; [exact Hret|]. split; [vm_compute; reflexivity|exact Hwalk].
Defined.

(** ** Order and termination of the recovery scan *)

Lemma scan_positions_snoc (offsets : list Z) (v : Z) :
  scan_positions (offsets ++ [v])
  = scan_positions offsets ++ (if v =? 0 then [] else [GET_OFFSET v]).
Proof.
  unfold scan_positions. rewrite filter_app, map_app. cbn [filter].
  destruct (v =? 0); reflexivity.
Qed.

Lemma StronglySorted_snoc (l : list Z) (x : Z) :
  StronglySorted Z.lt l -> Forall (fun p => p < x) l ->
  StronglySorted Z.lt (l ++ [x]).
Proof.
  induction 1 as [|a l Hl IH Ha]; intros Hx; cbn [app].
  - constructor; constructor.
  - inversion Hx; subst. constructor; [apply IH; assumption|].
    apply Forall_app. split; [exact Ha|]. constructor; [assumption|constructor].
Qed.

Section ScanOrder.

Variable IsLikelyFeatureAtOffset : Z -> option (Z * bool).
Variable bReportDeletedFeatures : bool.
Variable nFileSize : Z.

Hypothesis accepted_size :
  forall (nOffset nSize : Z) (bDeleted : bool),
    IsLikelyFeatureAtOffset nOffset = Some (nSize, bDeleted) ->
    4 <= nSize <= INT_MAX.
Hypothesis file_size : nFileSize <= 2 ^ 63.

Lemma scan_loop_fuel (fuel : nat) :
  forall (nOffset : Z) (st : ScanState) (extra : nat),
    0 <= nOffset -> nFileSize - nOffset <= Z.of_nat fuel ->
    scan_loop IsLikelyFeatureAtOffset bReportDeletedFeatures (fuel + extra)
              nFileSize nOffset st
    = scan_loop IsLikelyFeatureAtOffset bReportDeletedFeatures fuel
                nFileSize nOffset st.
Proof.
  unfold INT_MAX in accepted_size.
  change (2 ^ 63) with 9223372036854775808 in file_size.
  induction fuel as [|fuel IH]; intros nOffset st extra Hpos Hfuel.
  - cbn [Nat.add scan_loop]. destruct extra as [|extra]; [reflexivity|].
    cbn [scan_loop]. destruct (Z.ltb_spec nOffset nFileSize); [lia|].
    reflexivity.
  - cbn [Nat.add scan_loop].
    destruct (Z.ltb_spec nOffset nFileSize) as [Hlt|]; [|reflexivity].
    destruct (IsLikelyFeatureAtOffset nOffset) as [[nSize bDeleted]|]
      eqn:Hlikely.
    + pose proof (accepted_size Hlikely) as Hn.
      rewrite to_uint64_small
        by (change (2 ^ 64) with 18446744073709551616; lia).
      apply IH; lia.
    + apply IH; lia.
Qed.

Lemma scan_loop_sorted (fuel : nat) :
  forall (nOffset : Z) (st : ScanState),
    0 < nOffset ->
    StronglySorted Z.lt (scan_positions (sc_offsets st)) ->
    Forall (fun p => p < nOffset) (scan_positions (sc_offsets st)) ->
    StronglySorted Z.lt
      (scan_positions
         (sc_offsets (scan_loop IsLikelyFeatureAtOffset
                        bReportDeletedFeatures fuel nFileSize nOffset st))).
Proof.
  unfold INT_MAX in accepted_size.
  assert (Hweak : forall (l : list Z) (a b : Z),
             a <= b -> Forall (fun p => p < a) l ->
             Forall (fun p => p < b) l).
  { intros l a b Hab H. eapply Forall_impl; [|exact H]. cbn. intros; lia. }
  induction fuel as [|fuel IH]; intros nOffset st Hpos Hsorted Hbelow;
    cbn [scan_loop]; [exact Hsorted|].
  destruct (Z.ltb_spec nOffset nFileSize) as [Hlt|]; [|exact Hsorted].
  change (2 ^ 63) with 9223372036854775808 in file_size.
  assert (Hnew : forall v nSize,
             (v = 0 \/ (v <> 0 /\ GET_OFFSET v = nOffset)) ->
             4 <= nSize ->
             StronglySorted Z.lt (scan_positions (sc_offsets st ++ [v])) /\
             Forall (fun p => p < nOffset + nSize)
                    (scan_positions (sc_offsets st ++ [v]))).
  { intros v nSize Hv Hn. rewrite scan_positions_snoc.
    destruct Hv as [->|[Hnz Hoff]].
    - cbn [Z.eqb]. rewrite app_nil_r. split; [exact Hsorted|].
      apply (Hweak _ nOffset); [lia|exact Hbelow].
    - destruct (Z.eqb_spec v 0) as [|_]; [contradiction|]. rewrite Hoff.
      split; [apply StronglySorted_snoc; assumption|].
      apply Forall_app. split.
      + apply (Hweak _ nOffset); [lia|exact Hbelow].
      + constructor; [lia|constructor]. }
  destruct (@MARK_DELETED_spec nOffset
              ltac:(change (2 ^ 63) with 9223372036854775808; lia))
    as (Hmark & _ & Hget & _ & Hget0).
  destruct (IsLikelyFeatureAtOffset nOffset) as [[nSize bDeleted]|]
    eqn:Hlikely.
  - pose proof (accepted_size Hlikely) as Hn.
    rewrite to_uint64_small
      by (change (2 ^ 64) with 18446744073709551616; lia).
    assert (Hentry : forall v,
               (v = 0 \/ (v <> 0 /\ GET_OFFSET v = nOffset)) ->
               StronglySorted Z.lt
                 (scan_positions
                    (sc_offsets
                       (scan_loop IsLikelyFeatureAtOffset
                          bReportDeletedFeatures fuel nFileSize
                          (nOffset + nSize)
                          {| sc_offsets := sc_offsets st ++ [v];
                             sc_invalid := sc_invalid st;
                             sc_deleted_listed := sc_deleted_listed st |})))
               /\
               forall inv listed,
               StronglySorted Z.lt
                 (scan_positions
                    (sc_offsets
                       (scan_loop IsLikelyFeatureAtOffset
                          bReportDeletedFeatures fuel nFileSize
                          (nOffset + nSize)
                          {| sc_offsets := sc_offsets st ++ [v];
                             sc_invalid := inv;
                             sc_deleted_listed := listed |})))).
    { intros v Hv. destruct (Hnew v nSize Hv ltac:(lia)) as [Hs Hb].
      split; [|intros inv listed]; apply IH; cbn [sc_offsets];
        try assumption; lia. }
    destruct bDeleted; [destruct bReportDeletedFeatures|].
    + apply Hentry. right. split; [|exact Hget].
      rewrite Hmark. change (2 ^ 63) with 9223372036854775808. lia.
    + apply Hentry. left. reflexivity.
    + apply Hentry. right. split; [lia|exact Hget0].
  - apply IH; [lia|exact Hsorted|].
    apply (Hweak _ nOffset); [lia|exact Hbelow].
Qed.

End ScanOrder.

(** X16.  When every record IsLikelyFeatureAtOffset accepts has a size of
    4 to INT_MAX bytes (4 bytes of length and the row), the recovery scan
    lists the records in file order: the offsets kept in m_anFeatureOffsets,
    the entries 0 of unreported deleted records left out and the deletion
    mark removed, are strictly increasing, so no record is listed twice.
    And the loop of the scan ends: from any offset, it has left the file
    after at most as many rounds as there are bytes up to the end of the
    file (table file of at most 2^63 bytes). *)
Theorem GuessFeatureLocations_file_order
    (IsLikelyFeatureAtOffset : Z -> option (Z * bool))
    (IS_VALID_LAYER_GEOM_TYPE : Z -> bool) (fpTable : VSILFILE)
    (bReportDeletedFeatures : bool)
    (m_nFieldDescLength m_nOffsetFieldDesc nValidRecordCount : Z) :
  (forall (nOffset nSize : Z) (bDeleted : bool),
      IsLikelyFeatureAtOffset nOffset = Some (nSize, bDeleted) ->
      4 <= nSize <= INT_MAX) ->
  vsi_size fpTable <= 2 ^ 63 ->
  0 <= m_nFieldDescLength < 2 ^ 32 ->
  StronglySorted Z.lt
    (scan_positions
       (gr_offsets (GuessFeatureLocations IsLikelyFeatureAtOffset
                      IS_VALID_LAYER_GEOM_TYPE fpTable bReportDeletedFeatures
                      m_nFieldDescLength m_nOffsetFieldDesc [] false
                      nValidRecordCount))) /\
  forall (nOffset : Z) (st : ScanState) (extra : nat),
    0 <= nOffset ->
    scan_loop IsLikelyFeatureAtOffset bReportDeletedFeatures
              (Z.to_nat (vsi_size fpTable - nOffset) + extra)
              (vsi_size fpTable) nOffset st
    = scan_loop IsLikelyFeatureAtOffset bReportDeletedFeatures
                (Z.to_nat (vsi_size fpTable - nOffset))
                (vsi_size fpTable) nOffset st.
Proof.
  intros Hsize Hfile Hdesc. split.
  - unfold GuessFeatureLocations.
    match goal with
    | |- context [match ?start with Some _ => _ | None => _ end] =>
        assert (Hstart : forall o, start = Some o -> 0 < o);
        [|destruct start as [nOffset|]]
    end.
    + intros o. unfold Guess_start.
      destruct (negb (m_nOffsetFieldDesc =? 40)).
      * destruct (vsi_read fpTable 40 14) as [abyBuffer|]; [|discriminate].
        cbv zeta.
        match goal with
        | |- context [if ?c then _ else _] => destruct c eqn:Hc
        end; intros H;
          [assert (Ho : 40 + - GetInt32 abyBuffer 0 = o) by congruence
          |assert (Ho : 40 = o) by congruence]; clear H; [|lia].
        repeat (apply andb_true_iff in Hc; destruct Hc as [Hc ?]).
        apply Z.ltb_lt in Hc. lia.
      * intros H.
        assert (Ho : to_uint64 (40 + m_nFieldDescLength) = o) by congruence.
        change (2 ^ 32) with 4294967296 in Hdesc.
        rewrite to_uint64_small in Ho
          by (change (2 ^ 64) with 18446744073709551616; lia).
        lia.
    + specialize (Hstart nOffset eq_refl).
      match goal with
      | |- context [Guess_reconcile ?st _] =>
          assert (Hst : StronglySorted Z.lt (scan_positions (sc_offsets st)))
            by (apply scan_loop_sorted;
                [exact Hsize|exact Hfile|exact Hstart
                |cbn; constructor|cbn; constructor]);
          unfold Guess_reconcile;
          destruct (_ >? _); cbn [gr_offsets]; exact Hst
      end.
    + cbn. constructor.
  - intros nOffset st extra Hpos.
    apply scan_loop_fuel; [exact Hsize|exact Hfile|exact Hpos|lia].
Qed.

Lemma GuessFeatureLocations_file_order_witness :
  scan_positions
    (gr_offsets (GuessFeatureLocations scan_deleted_then_record
                   (fun _ => true) (file_of_bytes (repeat x00 64)) true
                   0 40 [] false 2)) = [44; 54] /\
  StronglySorted Z.lt
    (scan_positions
       (gr_offsets (GuessFeatureLocations scan_deleted_then_record
                      (fun _ => true) (file_of_bytes (repeat x00 64)) true
                      0 40 [] false 2))).
Proof.
  assert (Hsize : forall (nOffset nSize : Z) (bDeleted : bool),
             scan_deleted_then_record nOffset = Some (nSize, bDeleted) ->
             4 <= nSize <= INT_MAX).
  { intros nOffset nSize bDeleted. unfold scan_deleted_then_record, INT_MAX.
    destruct (nOffset =? 44); [intros E; injection E as <- _; lia|].
    destruct (nOffset =? 54); [intros E; injection E as <- _; lia|].
    discriminate. }
  assert (Hfile : vsi_size (file_of_bytes (repeat x00 64)) <= 2 ^ 63)
    by (vm_compute; discriminate).
  assert (Hdesc : 0 <= 0 < 2 ^ 32) by (vm_compute; split; [discriminate|reflexivity]).
  split; [vm_compute; reflexivity|].
  exact (proj1 (@GuessFeatureLocations_file_order scan_deleted_then_record
                  (fun _ => true) (file_of_bytes (repeat x00 64)) true
                  0 40 2 Hsize Hfile Hdesc)).
Defined.

(** ** The spatial filter on encoded geometries *)

Lemma ReadVarUInt64NoCheck_at (buf pre post : list GByte) (v p : Z) :
  buf = pre ++ EncodeVarUInt v ++ post ->
  p = Z.of_nat (length pre) ->
  0 <= v < 2 ^ 64 ->
  vr_out (ReadVarUInt64NoCheck buf p 0) = v /\
  vr_iter (ReadVarUInt64NoCheck buf p 0)
  = p + Z.of_nat (length (EncodeVarUInt v)) /\
  vr_ret (ReadVarUInt64NoCheck buf p 0) = true /\
  printed (ReadVarUInt64NoCheck buf p 0) = [].
Proof.
  intros -> -> Hv. unfold ReadVarUInt64NoCheck, printed.
  rewrite ReadVarUInt_encoded; [cbn; auto|lia|exact Hv|discriminate].
Qed.

Lemma ReadVarUInt32NoCheck_at (buf pre post : list GByte) (v p : Z) :
  buf = pre ++ EncodeVarUInt v ++ post ->
  p = Z.of_nat (length pre) ->
  0 <= v < 2 ^ 32 ->
  vr_out (ReadVarUInt32NoCheck buf p 0) = v /\
  vr_iter (ReadVarUInt32NoCheck buf p 0)
  = p + Z.of_nat (length (EncodeVarUInt v)) /\
  printed (ReadVarUInt32NoCheck buf p 0) = [].
Proof.
  intros -> -> Hv. unfold ReadVarUInt32NoCheck, printed.
  rewrite ReadVarUInt_encoded; [cbn; auto|lia|exact Hv|discriminate].
Qed.

Lemma SkipVarUInt_iter_encoded (skipped : list Z) :
  forall (buf pre post : list GByte) (p : Z),
    buf = pre ++ concat (map EncodeVarUInt skipped) ++ post ->
    p = Z.of_nat (length pre) ->
    Forall (fun v => 0 <= v < 2 ^ 64) skipped ->
    SkipVarUInt_iter (length skipped) buf p
    = p + Z.of_nat (length (concat (map EncodeVarUInt skipped))).
Proof.
  induction skipped as [|v vs IH]; intros buf pre post p Hbuf Hp Hall;
    cbn [length SkipVarUInt_iter map concat].
  - cbn. lia.
  - pose proof (Forall_inv Hall) as Hv. pose proof (Forall_inv_tail Hall) as Hvs.
    cbv beta in Hv.
    assert (Hbuf1 : buf = pre ++ EncodeVarUInt v
                          ++ (concat (map EncodeVarUInt vs) ++ post))
      by (rewrite Hbuf; cbn [map concat]; rewrite <- ?app_assoc; reflexivity).
    destruct (@ReadVarUInt64NoCheck_at buf pre _ v p Hbuf1 Hp Hv) as (_ & Hiter & Hok & _).
    unfold ReadVarUInt64NoCheck in Hiter, Hok.
    rewrite (@SkipVarUInt_bytes_decoded 64 ControlTypeNone buf 0
               ltac:(lia) p 0 ltac:(lia) Hok).
    rewrite Hiter.
    rewrite (IH buf (pre ++ EncodeVarUInt v) post).
    + rewrite length_app. lia.
    + rewrite Hbuf. cbn [map concat]. rewrite <- ?app_assoc. reflexivity.
    + rewrite length_app. lia.
    + exact Hvs.
Qed.

Lemma EncodeVarUInt_nonempty (v : Z) :
  (1 <= length (EncodeVarUInt v))%nat.
Proof. unfold EncodeVarUInt. rewrite EncodeVarUInt_groups_length. lia. Qed.

(** X17.  On a well-formed blob of a geometry type that carries an
    envelope (multipoint, polyline, polygon, multipatch and the general
    types), with at least one point, DoesGeometryIntersectsFilterEnvelope
    prints nothing and answers TRUE exactly when the envelope
    [vxmin, vxmin + vdx] x [vymin, vymin + vdy] stored in the blob meets
    the filter rectangle, whatever follows the envelope in the blob. *)
Theorem DoesGeometryIntersectsFilterEnvelope_box
    (T : ShapeTypes) (F : FilterEnvelope) (nGeomType nPoints : Z)
    (skipped : list Z) (vxmin vymin vdx vdy : Z) (rest : list GByte) :
  envelope_case T nGeomType = EC_BOX (Z.of_nat (length skipped)) ->
  0 <= nGeomType < 2 ^ 32 ->
  0 < nPoints < 2 ^ 32 ->
  Forall (fun v => 0 <= v < 2 ^ 64) skipped ->
  0 <= vxmin -> 0 <= vymin -> 0 <= vdx -> 0 <= vdy ->
  vxmin + vdx < 2 ^ 64 -> vymin + vdy < 2 ^ 64 ->
  DoesGeometryIntersectsFilterEnvelope T F
    (EncodeEnveloped nGeomType nPoints skipped vxmin vymin vdx vdy rest)
    (Z.of_nat (length (EncodeEnveloped nGeomType nPoints skipped
                         vxmin vymin vdx vdy rest)))
  = ((vxmin <=? m_nFilterXMax F) && (vymin <=? m_nFilterYMax F)
     && (m_nFilterXMin F <=? vxmin + vdx)
     && (m_nFilterYMin F <=? vymin + vdy), []).
Proof.
  intros Hcase Htype Hpoints Hskipped Hx Hy Hdx Hdy Hxmax Hymax.
  set (blob := EncodeEnveloped nGeomType nPoints skipped vxmin vymin vdx vdy
                               rest).
  set (b0 := EncodeVarUInt nGeomType). set (b1 := EncodeVarUInt nPoints).
  set (bS := concat (map EncodeVarUInt skipped)).
  set (b2 := EncodeVarUInt vxmin). set (b3 := EncodeVarUInt vymin).
  set (b4 := EncodeVarUInt vdx). set (b5 := EncodeVarUInt vdy).
  assert (Hblob : blob = b0 ++ b1 ++ bS ++ b2 ++ b3 ++ b4 ++ b5 ++ rest)
    by reflexivity.
  pose proof (EncodeVarUInt_nonempty vxmin) as Hne. fold b2 in Hne.
  assert (Hlen : Z.of_nat (length blob)
                 = Z.of_nat (length b0) + Z.of_nat (length b1)
                   + Z.of_nat (length bS) + Z.of_nat (length b2)
                   + Z.of_nat (length b3) + Z.of_nat (length b4)
                   + Z.of_nat (length b5) + Z.of_nat (length rest))
    by (rewrite Hblob, !length_app; lia).
  assert (H0 : blob = [] ++ EncodeVarUInt nGeomType
                      ++ (b1 ++ bS ++ b2 ++ b3 ++ b4 ++ b5 ++ rest))
    by reflexivity.
  destruct (@ReadVarUInt32NoCheck_at blob [] _ nGeomType 0 H0 eq_refl Htype)
    as (Ht & Hti & Htp).
  fold b0 in Hti. cbn [Z.add] in Hti.
  assert (H1 : blob = b0 ++ EncodeVarUInt nPoints
                      ++ (bS ++ b2 ++ b3 ++ b4 ++ b5 ++ rest))
    by reflexivity.
  destruct (@ReadVarUInt32NoCheck_at blob b0 _ nPoints
              (Z.of_nat (length b0)) H1 eq_refl ltac:(lia))
    as (Hn & Hni & Hnp).
  fold b1 in Hni.
  assert (HS : blob = (b0 ++ b1) ++ concat (map EncodeVarUInt skipped)
                      ++ (b2 ++ b3 ++ b4 ++ b5 ++ rest))
    by (rewrite Hblob, <- ?app_assoc; reflexivity).
  pose proof (@SkipVarUInt_iter_encoded skipped blob (b0 ++ b1) _
                (Z.of_nat (length b0) + Z.of_nat (length b1)) HS
                ltac:(rewrite length_app; lia) Hskipped) as Hskip.
  fold bS in Hskip.
  set (p2 := Z.of_nat (length b0) + Z.of_nat (length b1)
             + Z.of_nat (length bS)) in *.
  assert (H2 : blob = (b0 ++ b1 ++ bS) ++ EncodeVarUInt vxmin
                      ++ (b3 ++ b4 ++ b5 ++ rest))
    by (rewrite Hblob, <- ?app_assoc; reflexivity).
  destruct (@ReadVarUInt64NoCheck_at blob (b0 ++ b1 ++ bS) _ vxmin p2 H2
              ltac:(unfold p2; rewrite !length_app; lia) ltac:(lia))
    as (Hvx & Hvxi & _ & Hvxp).
  fold b2 in Hvxi.
  assert (H3 : blob = (b0 ++ b1 ++ bS ++ b2) ++ EncodeVarUInt vymin
                      ++ (b4 ++ b5 ++ rest))
    by (rewrite Hblob, <- ?app_assoc; reflexivity).
  destruct (@ReadVarUInt64NoCheck_at blob (b0 ++ b1 ++ bS ++ b2) _ vymin
              (p2 + Z.of_nat (length b2)) H3
              ltac:(unfold p2; rewrite !length_app; lia) ltac:(lia))
    as (Hvy & Hvyi & _ & Hvyp).
  fold b3 in Hvyi.
  assert (H4 : blob = (b0 ++ b1 ++ bS ++ b2 ++ b3) ++ EncodeVarUInt vdx
                      ++ (b5 ++ rest))
    by (rewrite Hblob, <- ?app_assoc; reflexivity).
  destruct (@ReadVarUInt64NoCheck_at blob (b0 ++ b1 ++ bS ++ b2 ++ b3) _ vdx
              (p2 + Z.of_nat (length b2) + Z.of_nat (length b3)) H4
              ltac:(unfold p2; rewrite !length_app; lia) ltac:(lia))
    as (Hvdx & Hvdxi & _ & Hvdxp).
  fold b4 in Hvdxi.
  assert (H5 : blob = (b0 ++ b1 ++ bS ++ b2 ++ b3 ++ b4) ++ EncodeVarUInt vdy
                      ++ rest)
    by (rewrite Hblob, <- ?app_assoc; reflexivity).
  destruct (@ReadVarUInt64NoCheck_at blob
              (b0 ++ b1 ++ bS ++ b2 ++ b3 ++ b4) _ vdy
              (p2 + Z.of_nat (length b2) + Z.of_nat (length b3)
               + Z.of_nat (length b4)) H5
              ltac:(unfold p2; rewrite !length_app; lia) ltac:(lia))
    as (Hvdy & _ & _ & Hvdyp).
  unfold DoesGeometryIntersectsFilterEnvelope. cbv zeta.
  rewrite Ht, Hti, Htp, Hcase, Hn, Hni, Hnp.
  destruct (Z.eqb_spec nPoints 0); [lia|].
  unfold SkipVarUInt.
  destruct (Z.geb_spec (Z.of_nat (length b0) + Z.of_nat (length b1))
              (Z.of_nat (length blob))); [lia|].
  cbn [sv_ret sv_iter sv_printed negb]. rewrite Nat2Z.id, Hskip.
  destruct (Z.geb_spec p2 (Z.of_nat (length blob))); [lia|].
  rewrite Hvx, Hvxi, Hvxp, Hvy, Hvyi, Hvyp, Hvdx, Hvdxi, Hvdxp, Hvdy, Hvdyp.
  rewrite !to_uint64_small by lia.
  cbn [app].
  destruct (Z.gtb_spec vxmin (m_nFilterXMax F));
    destruct (Z.leb_spec vxmin (m_nFilterXMax F)); try lia;
    cbn [andb]; [reflexivity|].
  destruct (Z.gtb_spec vymin (m_nFilterYMax F));
    destruct (Z.leb_spec vymin (m_nFilterYMax F)); try lia;
    cbn [andb]; [reflexivity|].
  destruct (Z.ltb_spec (vxmin + vdx) (m_nFilterXMin F));
    destruct (Z.leb_spec (m_nFilterXMin F) (vxmin + vdx)); try lia;
    cbn [andb]; [reflexivity|].
  rewrite Z.geb_leb. reflexivity.
Qed.

Lemma DoesGeometryIntersectsFilterEnvelope_box_witness :
  DoesGeometryIntersectsFilterEnvelope example_shape_types example_filter
    (EncodeEnveloped 3 2 [1] 150 150 10 10 [])
    (Z.of_nat (length (EncodeEnveloped 3 2 [1] 150 150 10 10 [])))
  = (true, []) /\
  DoesGeometryIntersectsFilterEnvelope example_shape_types example_filter
    (EncodeEnveloped 3 2 [1] 50 150 10 10 [xff])
    (Z.of_nat (length (EncodeEnveloped 3 2 [1] 50 150 10 10 [xff])))
  = (false, []).
Proof.
  assert (Hcase : envelope_case example_shape_types 3
                  = EC_BOX (Z.of_nat (length [1]))) by reflexivity.
  assert (Hskipped : Forall (fun v => 0 <= v < 2 ^ 64) [1])
    by (repeat constructor; lia).
  split.
  - rewrite (@DoesGeometryIntersectsFilterEnvelope_box example_shape_types
               example_filter 3 2 [1] 150 150 10 10 [] Hcase);
      [reflexivity|lia|lia|exact Hskipped|lia|lia|lia|lia|lia|lia].
  - rewrite (@DoesGeometryIntersectsFilterEnvelope_box example_shape_types
               example_filter 3 2 [1] 50 150 10 10 [xff] Hcase);
      [reflexivity|lia|lia|exact Hskipped|lia|lia|lia|lia|lia|lia].
Defined.

(** X18.  On a point blob (the type, then x + 1 and y + 1 as varuints),
    DoesGeometryIntersectsFilterEnvelope prints nothing and answers TRUE
    exactly when the point lies in the filter rectangle, bounds included;
    an empty point, stored with 0 in place of x + 1, never passes the
    filter.  The number of bytes of the blob plays no part. *)
Theorem DoesGeometryIntersectsFilterEnvelope_point
    (T : ShapeTypes) (F : FilterEnvelope) (nGeomType x y nCount : Z)
    (rest : list GByte) :
  envelope_case T nGeomType = EC_POINT ->
  0 <= nGeomType < 2 ^ 32 ->
  0 <= x -> x + 1 < 2 ^ 64 -> 0 <= y -> y + 1 < 2 ^ 64 ->
  DoesGeometryIntersectsFilterEnvelope T F
    (EncodePointBlob nGeomType x y rest) nCount
  = ((m_nFilterXMin F <=? x) && (x <=? m_nFilterXMax F)
     && (m_nFilterYMin F <=? y) && (y <=? m_nFilterYMax F), []) /\
  DoesGeometryIntersectsFilterEnvelope T F
    (EncodeVarUInt nGeomType ++ EncodeVarUInt 0 ++ rest) nCount
  = (false, []).
Proof.
  intros Hcase Htype Hx Hx1 Hy Hy1. split.
  - set (blob := EncodePointBlob nGeomType x y rest).
    set (b0 := EncodeVarUInt nGeomType).
    assert (H0 : blob = [] ++ EncodeVarUInt nGeomType
                        ++ (EncodeVarUInt (x + 1) ++ EncodeVarUInt (y + 1)
                            ++ rest)) by reflexivity.
    destruct (@ReadVarUInt32NoCheck_at blob [] _ nGeomType 0 H0 eq_refl Htype)
      as (Ht & Hti & Htp).
    fold b0 in Hti. cbn [Z.add] in Hti.
    assert (H1 : blob = b0 ++ EncodeVarUInt (x + 1)
                        ++ (EncodeVarUInt (y + 1) ++ rest)) by reflexivity.
    destruct (@ReadVarUInt64NoCheck_at blob b0 _ (x + 1)
                (Z.of_nat (length b0)) H1 eq_refl ltac:(lia))
      as (Hvx & Hvxi & _ & Hvxp).
    assert (H2 : blob = (b0 ++ EncodeVarUInt (x + 1))
                        ++ EncodeVarUInt (y + 1) ++ rest)
      by (unfold blob, EncodePointBlob; rewrite <- ?app_assoc; reflexivity).
    destruct (@ReadVarUInt64NoCheck_at blob (b0 ++ EncodeVarUInt (x + 1)) _
                (y + 1)
                (Z.of_nat (length b0)
                 + Z.of_nat (length (EncodeVarUInt (x + 1)))) H2
                ltac:(rewrite length_app; lia) ltac:(lia))
      as (Hvy & _ & _ & Hvyp).
    unfold DoesGeometryIntersectsFilterEnvelope. cbv zeta.
    rewrite Ht, Hti, Htp, Hcase, Hvx, Hvxi, Hvxp.
    destruct (Z.eqb_spec (x + 1) 0); [lia|].
    replace (x + 1 - 1) with x by lia.
    rewrite to_uint64_small by lia.
    rewrite Hvy, Hvyp.
    replace (y + 1 - 1) with y by lia.
    rewrite to_uint64_small by lia.
    cbn [app].
    destruct (Z.ltb_spec x (m_nFilterXMin F));
      destruct (Z.leb_spec (m_nFilterXMin F) x); try lia;
      cbn [orb andb]; [reflexivity|].
    destruct (Z.gtb_spec x (m_nFilterXMax F));
      destruct (Z.leb_spec x (m_nFilterXMax F)); try lia;
      cbn [orb andb]; [reflexivity|].
    rewrite Z.geb_leb. reflexivity.
  - set (blob := EncodeVarUInt nGeomType ++ EncodeVarUInt 0 ++ rest).
    set (b0 := EncodeVarUInt nGeomType).
    assert (H0 : blob = [] ++ EncodeVarUInt nGeomType
                        ++ (EncodeVarUInt 0 ++ rest)) by reflexivity.
    destruct (@ReadVarUInt32NoCheck_at blob [] _ nGeomType 0 H0 eq_refl Htype)
      as (Ht & Hti & Htp).
    fold b0 in Hti. cbn [Z.add] in Hti.
    assert (H1 : blob = b0 ++ EncodeVarUInt 0 ++ rest) by reflexivity.
    destruct (@ReadVarUInt64NoCheck_at blob b0 _ 0
                (Z.of_nat (length b0)) H1 eq_refl ltac:(lia))
      as (Hvx & _ & _ & Hvxp).
    unfold DoesGeometryIntersectsFilterEnvelope. cbv zeta.
    rewrite Ht, Hti, Htp, Hcase, Hvx, Hvxp. reflexivity.
Qed.

Lemma DoesGeometryIntersectsFilterEnvelope_point_witness :
  DoesGeometryIntersectsFilterEnvelope example_shape_types example_filter
    (EncodePointBlob 1 200 100 []) 0 = (true, []) /\
  DoesGeometryIntersectsFilterEnvelope example_shape_types example_filter
    (EncodeVarUInt 1 ++ EncodeVarUInt 0 ++ []) 0 = (false, []).
Proof.
  assert (Hcase : envelope_case example_shape_types 1 = EC_POINT)
    by reflexivity.
  destruct (@DoesGeometryIntersectsFilterEnvelope_point example_shape_types
              example_filter 1 200 100 0 [] Hcase ltac:(lia) ltac:(lia)
              ltac:(lia) ltac:(lia) ltac:(lia)) as [Hin Hempty].
  split; [rewrite Hin; reflexivity|exact Hempty].
Defined.

(** ** The bounds-checked decoder stays inside the buffer *)

Lemma ReadVarUInt_loop_reads_in_bounds (nbits : Z) (ct : ControlType)
    (buf : list GByte) (pabyEnd : Z) (fuel : nat) :
  check_bounds ct = true ->
  forall (pabyIter nOutVal pabyLocalIter nShift nVal : Z) (reads : list Z),
    pabyIter < pabyLocalIter <= pabyEnd ->
    Forall (fun a => pabyIter <= a < pabyEnd) reads ->
    let r := ReadVarUInt_loop nbits ct buf pabyEnd fuel pabyIter nOutVal
               pabyLocalIter nShift nVal reads in
    Forall (fun a => pabyIter <= a < pabyEnd) (vr_reads r) /\
    (vr_ret r = true -> pabyIter < vr_iter r <= pabyEnd).
Proof.
  intros Hct. induction fuel as [|fuel IH];
    intros pabyIter nOutVal pabyLocalIter nShift nVal reads Hl Hreads;
    cbn [ReadVarUInt_loop]; cbv zeta.
  - cbn. split; [exact Hreads|discriminate].
  - rewrite Hct. cbn [andb].
    destruct (Z.geb_spec pabyLocalIter pabyEnd) as [Hge|Hlt].
    { cbn. split; [exact Hreads|discriminate]. }
    assert (Hreads' : Forall (fun a => pabyIter <= a < pabyEnd)
                             (reads ++ [pabyLocalIter])).
    { apply Forall_app. split; [exact Hreads|].
      constructor; [lia|constructor]. }
    destruct (Z.land (wrap_unsigned nbits (byte_at buf pabyLocalIter)) 128
              =? 0).
    { cbn. split; [exact Hreads'|intros _; lia]. }
    destruct (nShift + 7 >=? nbits).
    { cbn. split; [exact Hreads'|discriminate]. }
    apply IH; [lia|exact Hreads'].
Qed.

(** X19.  With bounds checking (ReadVarUInt32, ReadVarUInt32Silent), the
    decoder dereferences only addresses from the cursor up to, and not
    including, the end pointer; when it succeeds the cursor has moved
    forward and is at most the end pointer; and with the cursor at or
    beyond the end pointer it fails without reading anything and leaves the
    cursor where it was. *)
Theorem ReadVarUInt_checked_reads_in_bounds
    (nbits : Z) (ct : ControlType) (buf : list GByte)
    (pabyEnd pabyIter nOutVal : Z) :
  check_bounds ct = true ->
  Forall (fun a => pabyIter <= a < pabyEnd)
         (vr_reads (ReadVarUInt nbits ct buf pabyEnd pabyIter nOutVal)) /\
  (vr_ret (ReadVarUInt nbits ct buf pabyEnd pabyIter nOutVal) = true ->
   pabyIter < vr_iter (ReadVarUInt nbits ct buf pabyEnd pabyIter nOutVal)
   <= pabyEnd) /\
  (pabyEnd <= pabyIter ->
   vr_ret (ReadVarUInt nbits ct buf pabyEnd pabyIter nOutVal) = false /\
   vr_iter (ReadVarUInt nbits ct buf pabyEnd pabyIter nOutVal) = pabyIter /\
   vr_out (ReadVarUInt nbits ct buf pabyEnd pabyIter nOutVal) = nOutVal /\
   vr_reads (ReadVarUInt nbits ct buf pabyEnd pabyIter nOutVal) = []).
Proof.
  intros Hct. unfold ReadVarUInt. rewrite Hct. cbn [andb].
  destruct (Z.geb_spec pabyIter pabyEnd) as [Hge|Hlt].
  { cbn. split; [constructor|]. split; [discriminate|]. auto. }
  assert (Hone : Forall (fun a => pabyIter <= a < pabyEnd) [pabyIter])
    by (constructor; [lia|constructor]).
  destruct (Z.land (wrap_unsigned nbits (byte_at buf pabyIter)) 128 =? 0).
  { cbn. split; [exact Hone|]. split; [intros _; lia|intros; lia]. }
  destruct (@ReadVarUInt_loop_reads_in_bounds nbits ct buf pabyEnd
              (ReadVarUInt_fuel nbits) Hct pabyIter nOutVal (pabyIter + 1) 7
              (Z.land (wrap_unsigned nbits (byte_at buf pabyIter)) 127)
              [pabyIter] ltac:(lia) Hone) as [H1 H2].
  split; [exact H1|]. split; [exact H2|intros; lia].
Qed.

Lemma ReadVarUInt_checked_reads_in_bounds_witness :
  vr_reads (ReadVarUInt32 [xff; xff; x01; x07] 0 2 0) = [0; 1] /\
  Forall (fun a => 0 <= a < 2)
         (vr_reads (ReadVarUInt32 [xff; xff; x01; x07] 0 2 0)).
Proof.
  split; [vm_compute; reflexivity|].
  exact (proj1 (@ReadVarUInt_checked_reads_in_bounds 32
                  ControlTypeVerboseErrorTrue [xff; xff; x01; x07] 2 0 0
                  eq_refl)).
Defined.
